(* ===== verification/_CoqProject ===== *)
-Q . S2P
Prelude.v
Text.v
Schema.v
Errors.v
Program.v
Pricing.v
OrderState.v
Transition.v
BusinessDay.v
Idempotency.v
CreateOrder.v
OrderDoors.v
Gateway.v
Webhooks.v
CreatePayment.v
Fingerprint.v
Refunds.v
JsonText.v
Ordering.v
Cursor.v
OrdersRead.v
OrdersQueryDto.v
Rollup.v
Reports.v
Books.v
Paging.v
Invariants.v
Handlers.v
System.v
Scenario.v
Guarantees.v
Replay.v
DayBooks.v
Reporting.v
Settlement.v
Doors.v
Findings.v
RateLimit.v
Atoms.v
IdentityStore.v
Revocations.v
Sessions.v
Accounts.v
Devices.v
Guards.v
IdentitySafety.v
Reception.v
Access.v
Entry.v
Retention.v
Screens.v
Announcements.v
Live.v
Sockets.v
Connections.v
Catalog.v
ItemImage.v
CatalogSafety.v
CatalogBehaviour.v
Zod.v
Bodies.v
Intake.v
MenuService.v
MenuCache.v
MenuFresh.v
Problems.v
Environment.v
Seed.v
SeedRerun.v
Diagnostics.v
Monitoring.v
Routes.v
Edge.v
Telemetry.v
ObjectStorage.v
Directory.v
References.v
Instruments.v
Sale.v
LoadTest.v
