(* ===== verification/Prelude.v ===== *)
(** * CafePOS: a café point of sale

    ** The program

    The repository is a NestJS service (under [src/src/]) with a Postgres
    database, Redis, a payment gateway (Stripe) and a cron process. Kiosks and
    staff create orders; an order is priced from the catalog, gets a queue number
    for its business day, and awaits payment; it is paid in cash in one
    transaction or through an intent at the gateway, whose webhooks land in an
    inbox a job drains; the kitchen moves a paid order to COMPLETED; unpaid orders
    are cancelled or expire; captured money can be refunded; nightly jobs reconcile
    the books with the gateway, roll the day up and clear what is past its
    retention window. Managers edit the menu, which kiosks read from a cache that
    every edit invalidates. Screens and tablets hear of committed changes over sockets.
    Staff sign in with rotating refresh tokens, tablets are paired with a code, and
    both can be revoked. Clients retry, so creating an order or a payment takes an
    idempotency key. Every one of these runs concurrently with all the others and
    may die half-way.

    ** How it is modelled

    - The database is a record of tables ([Schema.Database]), a transaction is a
      state-and-error computation on it whose throw discards every write
      ([Program.txM]), and a handler is a finite tree of atomic database steps,
      gateway calls and effects ([Program.prog]). A whole handler is one
      definition, with the code's guards in the code's order.
    - [Program.run] runs a handler alone, for what it answers and writes;
      [Program.pool_step] interleaves any number of handlers, lets the gateway
      answer anything, and kills handlers between steps, for what holds whatever
      the schedule. [Program.rg] is the rely-guarantee rule that carries a proof
      about each handler over to all interleavings.
    - The identity services work on tables of their own ([IdentityStore.Identity])
      and are trees of actions on them ([Atoms.handler]), interleaved by
      [Atoms.astep]; [Atoms.owned] is a rely-guarantee rule with permissions, which
      counts what a handler may still create with what exists.
    - The menu's cache and its readers are trees of actions on the database and
      Redis together ([MenuCache.Front]), interleaved in rounds ([Atoms.Round]).
    - Request bodies are JSON values read by parsers with the schemas' shape
      ([Zod.parser]), and thrown errors, described or answered, are objects of a heap
      that may loop ([Diagnostics.Heap]).
    - The publisher behind the screens is a program of reads and pushes
      ([Screens.publisher]) that [Live.live_step] runs beside the pool. A process's Redis
      clients are a state moved by what Redis and the socket adapter do
      ([Connections.react]), and a fleet is any number of such processes with their
      sockets on one channel ([Connections.Fleet]).
    - Column constraints (primary keys, unique indexes, partial indexes, CHECKs,
      the 32-bit range of [integer]) are part of the inserts that can hit them, and
      answer with the SQLSTATE the code inspects.
    - Amounts are integers in minor units. JavaScript numbers that stay below
      2^53 are exact, which [Intake.validated_amounts] establishes for prices and
      [Pricing.extractVat_double] for the one division.

    ** Files

    Shared:
    - [Prelude], [Text]: results, sums, map lemmas; numbers and dates as strings.
      [JsonText]: the JSON messages travel in.
      [Ordering]: [ORDER BY], [GROUP BY], stable sorting.
    - [Schema]: [database/schema/*.ts], [identity/principal.ts],
      [realtime/events/domain-event.ts]. [Errors]: [orders/errors],
      [payments/errors], [identity/errors], [reporting/errors], [catalog/errors],
      [common/database/postgres-errors.ts]. [Problems]: what each of them says, and
      the filter that answers anything thrown ([common/filters], [common/errors]).
    - [Program]: transactions, handlers, interleavings;
      [realtime/events/after-commit.service.ts].

    Orders and payments:
    - [Pricing]: [orders/pricing/order-pricing.ts].
    - [OrderState], [Transition]: [orders/state/order-state.ts],
      [orders/state/transition-order.ts], [orders/order-number.ts].
    - [BusinessDay]: [orders/business-day.ts], [orders/business-hours.ts].
    - [Idempotency]: [orders/idempotency/*.ts]. [Fingerprint]: what the hash of a
      request determines.
    - [CreateOrder]: [orders/orders.service.ts].
    - [OrderDoors]: checkout, the KDS status route, cancellation and the expiry
      job ([orders/checkout], [orders/state/order-status.service.ts],
      [orders/cancel], [orders/expiry]).
    - [Gateway]: [payments/provider/*.ts]; the port is the class [PaymentPort]
      with the calls of [Program.Gateway], the Stripe adapter its instance.
    - [Webhooks]: [payments/webhooks/*.ts]. [CreatePayment]:
      [payments/create/create-payment.service.ts]. [Refunds]: [payments/refunds],
      [payments/query], [payments/reconciliation].
    - [Books], [Invariants]: the invariants of the tables and how one committed
      database may follow another ([Inv], [Ev]). [Handlers]: every transaction
      keeps them. [System]: every handler is safe under interleaving, and
      [reachable], all states of the running system.
    - [Scenario]: a small shop whose day is executed; the instances of the
      theorems about reachable states.
    - [Guarantees], [Replay], [Settlement], [Doors], [Findings]: the theorems.
    - [References]: the order system beside the catalog's own routes, and the foreign keys
      between their tables. [Sale]: the runs of creating and paying for an order, step by
      step. [LoadTest]: [ops/load/cafepos.k6.js] and its theorems.

    Queries and reports:
    - [Cursor], [OrdersRead], [OrdersQueryDto]: [orders/query/*.ts], the order list,
      the order detail and the list's query schema. [Paging]: their theorems.
    - [Rollup], [Reports]: [reporting/rollup], [reporting/reports]: the
      aggregation of a day, the nightly rollup and the reports. [DayBooks],
      [Reporting]: their theorems.

    Identity:
    - [RateLimit]: [identity/rate-limit/*.ts]. [Atoms]: handlers over a state of
      their own, their interleavings and rounds of turns. [IdentityStore]: the identity tables, the
      deny keys and the kill channel. [Revocations], [Sessions], [Accounts],
      [Devices], [Guards]: [identity/revocation], [identity/auth],
      [identity/users], [identity/devices], [identity/guards].
    - [IdentitySafety]: the invariants of the identity tables and that every
      request keeps them. [Reception]: concrete libraries and a state to run on.
      [Access], [Entry]: the theorems. [Directory]: the listings of
      [identity/users] and [identity/devices].

    The menu:
    - [Catalog], [ItemImage]: [catalog/categories], [catalog/items],
      [catalog/option-groups] and [storage/object-storage.service.ts].
      [CatalogSafety]: the routes of the catalog's controllers and the invariant of
      its tables. [CatalogBehaviour]: their theorems. [ObjectStorage]: [storage/*.ts], the
      store behind the uploads as a class with laws, and its theorems.
    - [MenuService], [MenuCache]: [catalog/menu/*.ts], the document a kiosk reads, its
      cache, the ETag and the interceptor behind every write. [MenuFresh]: their
      theorems.

    The edge:
    - [Zod], [Bodies]: the schemas of every [*.dto.ts] but the order list's. [Intake]:
      what they let in, up to the amounts an order can come to.
    - [Routes]: the endpoints of every [*.controller.ts] in the order of
      [app.module.ts], with the endpoint catalog and the permission matrix of DESIGN.md, and
      its theorems.
    - [Environment]: [config/env.validation.ts] and its theorems.
    - [Edge]: [bootstrap.ts], [observability/metrics/http-metrics.ts],
      [common/logging/pino-options.ts], [observability/errors/error-reporter.ts],
      [identity/decorators]. [Telemetry]: [observability/metrics/metrics-server.ts],
      [sample-of.ts], the sockets' gauge, [observability/tracing], [error-reporting.ts],
      [observability.module.ts]. [Instruments]: the counters the handlers move. Each with its
      theorems.
    - [Seed]: [scripts/seed.ts]. [SeedRerun]: its theorems.
    - [Diagnostics]: [common/errors/describe-error.ts],
      [common/logging/log-throttle.ts], [redis/redis.diagnostics.ts],
      [common/http/request-id.ts]. [Monitoring]: [health/*.ts] and
      [observability/metrics/*.ts]. Each with its theorems.

    Jobs and screens:
    - [Retention]: [retention/*.ts] and its theorems.
    - [Screens]: [kds/kds.service.ts], [board/board.service.ts],
      [realtime/events/socket-realtime.publisher.ts]. [Announcements]: every
      transaction says what the screens need to know. [Live]: the publishers beside
      the pool, and the theorems. [Sockets]: [realtime/*.gateway.ts] and
      [realtime/revocation-subscriber.service.ts]. [Connections]: [redis/*.ts] and
      [realtime/socket-io.adapter.ts], in one process and across several, with its theorems.

    ** What the theorems show

    - [Guarantees]: in every reachable state, paid orders are exactly those with a
      captured payment, of which there is one, for the order's total; refunds stay
      within it; captured money has evidence; the audit trail is a legal life of the
      order; queue numbers are unique and gapless; at most one payment is live; the
      bill is the sum of its lines; stored responses are complete and hold no
      secret; and no request or job of the pipeline rewrites what is settled.
    - [LoadTest]: an order that is allowed goes through: in a shop whose books and catalog
      satisfy the invariants and that sells something plain for money, run alone and with fresh
      ids and keys, both scripts of the load test pass every check, the counter's ending in a
      COMPLETED order with its total captured and the kiosk's in a CANCELLED order with its
      payment let go; and the menu burst stays under the rate limit.
    - [References]: however orders and menu edits interleave, every line refers to an item
      and an option that exist.
    - [Pricing]: exactly which baskets are accepted, what is charged, every
      refusal, the bounds, and the VAT as the nearest integer.
    - [Replay]: while it is stored, a retried key answers the same response without writing or asking
      the gateway for money again, a key is bound to its request, a refusal leaves
      nothing behind. [Idempotency], [Fingerprint]: the fingerprint ignores key order
      and nothing else: the hashed text determines the caller and the request.
    - [Settlement]: the decision table of gateway events, that an event is acted
      on once, what a capture writes and announces, signature checking against
      several secrets, and deduplication of deliveries.
    - [Doors]: each way of moving an order, on every branch.
    - [BusinessDay], [OrderState]: calendar arithmetic and the shape of the machine.
    - [Paging], [OrdersQueryDto]: where a cursor carries the sort value exactly, following
      cursors ends and shows every matching order once, in order, and over a changing database none twice and none that
      matched throughout missed; who may read an order; what a parsed query is.
    - [Reporting]: a day's figures reconcile with the books of every reachable
      state, the reports on every branch, and the nightly job catches up.
    - [Access], [Entry], [RateLimit]: token rotation implements an abstract chain
      with at most one live token under every interleaving; a session that ended with
      nothing of it in flight stays ended; an administrator remains; pairing, signing in, the
      three guards with the rate limit among them, the deny list and the lockout window.
    - [Retention]: the jobs clear exactly what is due, and leave the books alone; what the
      requests and then the jobs leave of every record, of a stored response for the 24 hours
      of its key, and of the identity tables.
    - [Live], [Sockets]: nothing false is pushed and a tablet hears only of its own
      orders; when nothing is lost every screen is sent what the database holds; the
      snapshots; which sockets are let in and which a revocation closes.
    - [CatalogSafety], [CatalogBehaviour]: the catalog's tables stay well formed and
      the books untouched in every interleaving of menu edits with anything else;
      what replacing an item's groups and changing a group's bounds do.
    - [MenuService], [MenuFresh]: the menu shows what the till charges; a menu is never
      older than the last invalidation, whatever Redis does, and while Redis answers a
      client that reads after a write sees it.
    - [ItemImage], [ObjectStorage]: what an upload stores and what is then served, that a
      stored photo never changes, and that the boot check ends.
    - [Connections]: no outage of Redis ends the process or deafens it for good, the
      shutdown hooks never wait for a client that is not ready, and a revocation reaches every subscribed
      instance and closes exactly the sockets it names.
    - [Edge], [Telemetry], [Instruments], [Directory]: where each route is mounted and what
      CORS covers, the labels of a request's duration and the levels of its log line, when
      the metrics port is held, the series known at boot, and the listings.
    - [Intake]: the bounds of the request bodies and of everything priced from them.
      [Problems]: the answer to every error, whose text of ours never leaves.
      [Routes]: the routes grant what the endpoint catalog and the permission matrix do, four
      routes the catalog lacks apart, and none hides another.
      [Environment]: which environments boot, and what they promise the rest.
    - [SeedRerun]: while the names it looks up are unique, the seed changes nothing that exists
      and nothing on a second run.
    - [Diagnostics], [Monitoring]: every error has a description, throttled lines are
      all accounted for, readiness and the gauges say what they claim to.
    - [Findings], [Entry.Races] and theorems of [Live], [Sockets],
      [CatalogBehaviour], [MenuFresh], [Problems], [Environment], [Routes], [Edge],
      [SeedRerun] and [Connections]: behaviours the model reaches that the code's comments rule out.

    ** Bounds and fuel

    [BusinessDay.eachBusinessDay] takes one more than the number of days in its
    range, and [eachBusinessDay_days] proves the result is the full list. The JSON
    reader takes as much fuel as there are characters, and [JsonText.parse_print]
    shows that enough. [Retention.drainInBatches] has the code's own cap of a
    hundred batches. [Diagnostics.describeError] takes one unit more than there are
    error objects, enough for any cycle ([describeError_answers]); the boot check of
    [ItemImage] has the code's own five attempts. All other recursions are structural, and [Program.run] and
    [Atoms.runAlone] are total. An order's life has at most six moves
    ([OrderState.state_machine_shape]).

    ** Parameters

    The timezone database behind [Intl] ([tzOffset]), [localeCompare], SHA-256
    ([sha256]), the Stripe SDK ([Gateway.StripeClient]), the gateway's answers, the
    JWT library ([Sessions.Jwt], with what it documents as [JwtLaws]), argon2
    ([Sessions.Passwords]), Postgres's subtraction of an interval
    ([Retention.minus]), the throttler library's key and its refusal of what its storage blocks
    ([Guards.Throttler], [ThrottlerLaws]), the ids [uuidv7()] and the secrets
    drawn, the image decoder, the database's collation ([Catalog.Collation]), the
    patterns of the schema library ([Zod.ZodPatterns]), the URL parser and the
    coercion of environment variables, the object store ([ObjectStorage.ObjectStore], with
    [ObjectStoreLaws]), ioredis's answer to a QUIT, and the clock ([now]) are arguments. The ids are not assumed fresh: an
    insert checks its primary key.

    ** Simplifications and what is not modelled

    - Strings are sequences of bytes, in UTF-8 where the code measures, trims or folds
      them ([Text.jsLength], [trimText], [upperText]); the case folding of addresses and
      searches is that of unaccented letters. JSON numbers are integers. A fingerprint's scope
      is prefixed with its length in bytes, which for the callers' UUIDs is its length in code
      units; names are ordered by their bytes where the database has its collation.
    - The catalog rows a create request reads are read in its transaction; in
      [System] the catalog changes arbitrarily ([System.admin_change]), of which the
      writes of [Catalog] are a case ([CatalogSafety.menu_edits_keep_books]). The inserts do
      not check the foreign keys from orders to items and options; [References] shows that,
      with the catalog's own routes in place of arbitrary changes, they always hold.
    - A guarded account update is one action, since it locks the active
      administrators first; the lockout's check and the repair of its key are one;
      the identity services share one clock. Log lines that nothing reads are left out.
    - A publisher's failure after commit is swallowed by the code; [Live] drops the
      publisher.
    - Retention is not among the requests of [System] or of the identity services, since it
      removes what they rely on. [Retention] has a run of requests and then a run of the jobs:
      the invariants of the books and of the identity tables still hold, and each record is as
      the requests left it or was past its window.
    - A scraped gauge's age is in milliseconds and not divided by a thousand.
    - [LoadTest] starts after signing in and pairing, which are routes modelled elsewhere; the
      menu its kiosk reads is built and not cached; the latency threshold is a measurement.
    - Not modelled because they are framework glue: the handlers of the controllers that only
      pass their arguments on, the [*.module.ts] files that wire classes together, Drizzle's
      relation declarations, and what the OpenTelemetry, Sentry, helmet and body-parser
      libraries do once they are configured. *)

From stdpp Require Export base list gmap strings fin_maps pretty.
From stdpp Require Export sorting.
From Stdlib Require Export ZArith Lia.

#[global] Open Scope string_scope.
#[global] Open Scope list_scope.
#[global] Open Scope Z_scope.

(** ** Results *)

(** A computation of the program either returns or throws. *)
Inductive result (E A : Type) : Type :=
| Ok (a : A)
| Err (e : E).
Arguments Ok {E A} a.
Arguments Err {E A} e.

#[export] Instance result_ret E : MRet (result E) := fun _ a => Ok a.
#[export] Instance result_bind E : MBind (result E) := fun _ _ k m =>
  match m with Ok a => k a | Err e => Err e end.
#[export] Instance result_fmap E : FMap (result E) := fun _ _ f m =>
  match m with Ok a => Ok (f a) | Err e => Err e end.

Lemma bind_Ok {E A B} (m : result E A) (k : A → result E B) b :
  m ≫= k = Ok b ↔ ∃ a, m = Ok a ∧ k a = Ok b.
Proof. destruct m; simpl; naive_solver. Qed.

Lemma bind_Err {E A B} (m : result E A) (k : A → result E B) e :
  m ≫= k = Err e ↔ m = Err e ∨ ∃ a, m = Ok a ∧ k a = Err e.
Proof. destruct m; simpl; naive_solver. Qed.

Definition is_ok {E A} (m : result E A) : bool :=
  match m with Ok _ => true | Err _ => false end.

(** ** Sums of integers over lists and maps *)

Definition sumZ {A} (f : A → Z) (l : list A) : Z := foldr (fun x s => f x + s) 0 l.

Lemma sumZ_cons {A} (f : A → Z) x l : sumZ f (x :: l) = f x + sumZ f l.
Proof. done. Qed.

Lemma sumZ_app {A} (f : A → Z) l1 l2 : sumZ f (l1 ++ l2) = sumZ f l1 + sumZ f l2.
Proof. induction l1; simpl; unfold sumZ in *; simpl; lia. Qed.

(** [Array.prototype.reduce] from the left is the same sum. *)
Lemma foldl_sumZ {A} (f : A → Z) l : ∀ z, foldl (fun s x => s + f x) z l = z + sumZ f l.
Proof. induction l as [|x l IH]; intros z; simpl; [unfold sumZ; simpl; lia|]. rewrite IH. lia. Qed.

Lemma sumZ_nonneg {A} (f : A → Z) l : Forall (fun x => 0 ≤ f x) l → 0 ≤ sumZ f l.
Proof. induction 1; unfold sumZ in *; simpl; lia. Qed.

Lemma sumZ_ext {A} (f g : A → Z) l : Forall (fun x => f x = g x) l → sumZ f l = sumZ g l.
Proof. induction 1; unfold sumZ in *; simpl; lia. Qed.

Lemma sumZ_le_length {A} (f : A → Z) (b : Z) l :
  Forall (fun x => f x ≤ b) l → sumZ f l ≤ b * Z.of_nat (length l).
Proof. induction 1; unfold sumZ in *; simpl in *; lia. Qed.

Lemma sumZ_fmap {A B} (g : A → B) (f : B → Z) l : sumZ f (g <$> l) = sumZ (fun x => f (g x)) l.
Proof. induction l as [|x l IH]; [done|]. by rewrite fmap_cons, !sumZ_cons, IH. Qed.

Lemma sumZ_mjoin {A} (f : A → Z) ls : sumZ f (mjoin ls) = sumZ (sumZ f) ls.
Proof. induction ls as [|l ls IH]; [done|]. simpl. rewrite sumZ_app, IH. done. Qed.

Lemma sumZ_permutation {A} (f : A → Z) l1 l2 : l1 ≡ₚ l2 → sumZ f l1 = sumZ f l2.
Proof. induction 1; unfold sumZ in *; simpl; lia. Qed.

(** The sum over a table's rows; a SQL [SUM] with [COALESCE(..., 0)]. *)
Definition sum_map {K A} `{Countable K} (f : A → Z) (m : gmap K A) : Z :=
  map_fold (fun _ x s => f x + s) 0 m.

Lemma sum_map_empty {K A} `{Countable K} (f : A → Z) : sum_map f (∅ : gmap K A) = 0.
Proof. unfold sum_map. apply map_fold_empty. Qed.

Lemma sum_map_insert {K A} `{Countable K} (f : A → Z) (m : gmap K A) k x :
  m !! k = None → sum_map f (<[k:=x]> m) = f x + sum_map f m.
Proof. intros Hk. unfold sum_map. rewrite map_fold_insert_L; [done|intros; lia|done]. Qed.

Lemma sum_map_nonneg {K A} `{Countable K} (f : A → Z) (m : gmap K A) :
  (∀ k x, m !! k = Some x → 0 ≤ f x) → 0 ≤ sum_map f m.
Proof.
  induction m as [|k x m Hk IH] using map_ind; intros Hf; [by rewrite sum_map_empty|].
  rewrite sum_map_insert by done.
  assert (0 ≤ f x) by (eapply (Hf k); by rewrite lookup_insert_eq).
  assert (0 ≤ sum_map f m); [|lia].
  apply IH. intros k' x' ?. apply (Hf k'). rewrite lookup_insert_ne; naive_solver.
Qed.

Lemma sum_map_ext {K A} `{Countable K} (f g : A → Z) (m : gmap K A) :
  (∀ k x, m !! k = Some x → f x = g x) → sum_map f m = sum_map g m.
Proof.
  induction m as [|k x m Hk IH] using map_ind; intros Hf; [by rewrite !sum_map_empty|].
  rewrite !sum_map_insert by done. f_equal; [apply (Hf k); by rewrite lookup_insert_eq|].
  apply IH. intros k' x' ?. apply (Hf k'). rewrite lookup_insert_ne; naive_solver.
Qed.

(** [UPDATE ... WHERE id = :id] on a row that exists, and on one that does not. *)
Lemma alter_is_insert {K A} `{Countable K} (f : A → A) (k : K) (m : gmap K A) x :
  m !! k = Some x → alter f k m = <[k := f x]> m.
Proof.
  intros Hk. apply map_eq. intros k'. destruct (decide (k' = k)) as [->|].
  - by rewrite lookup_alter_eq, lookup_insert_eq, Hk.
  - by rewrite lookup_alter_ne, lookup_insert_ne by congruence.
Qed.

Lemma alter_none {K A} `{Countable K} (f : A → A) (k : K) (m : gmap K A) :
  m !! k = None → alter f k m = m.
Proof.
  intros Hk. apply map_eq. intros k'. destruct (decide (k' = k)) as [->|].
  - by rewrite lookup_alter_eq, Hk.
  - by rewrite lookup_alter_ne by congruence.
Qed.
