(* ===== verification/Text.v ===== *)
(** * Text: the string operations of the language the program uses

    [String(n)], [Number(s)] on digit strings, [padStart] with zeros and
    [split], with the lemmas that make formatted numbers and dates readable
    back. [String(n)] is stdpp's [pretty]. *)

From S2P Require Import Prelude.
From Stdlib Require Import Ascii.

Definition digit_value (c : ascii) : option N :=
  let n := N_of_ascii c in
  if ((48 <=? n) && (n <=? 57))%N then Some (n - 48)%N else None.

(** [Number(s)] for a string of decimal digits; [None] is [NaN]. *)
Fixpoint digits_acc (s : string) (acc : N) : option N :=
  match s with
  | EmptyString => Some acc
  | String c s' => d ← digit_value c; digits_acc s' (10 * acc + d)%N
  end.

Definition js_Number (s : string) : option Z := Z.of_N <$> digits_acc s 0.

Fixpoint zeros (n : nat) : string :=
  match n with O => "" | S n => String "0" (zeros n) end.

(** [s.padStart(width, '0')]. *)
Definition padStart (width : nat) (s : string) : string :=
  zeros (width - String.length s) +:+ s.

Lemma digit_value_char x : (x < 10)%N → digit_value (pretty_N_char x) = Some x.
Proof.
  intros Hx.
  assert (x = 0 ∨ x = 1 ∨ x = 2 ∨ x = 3 ∨ x = 4 ∨ x = 5 ∨ x = 6 ∨ x = 7 ∨ x = 8 ∨ x = 9)%N
    as Hc by lia. by destruct_or! Hc; subst.
Qed.

Lemma digits_acc_go x : ∀ s, digits_acc (pretty_N_go x s) 0 = digits_acc s x.
Proof.
  induction (N.lt_wf_0 x) as [x _ IH]; intros s.
  assert (x = 0 ∨ 0 < x)%N as [->|Hx] by lia; [by rewrite pretty_N_go_0|].
  rewrite pretty_N_go_step by done. rewrite IH by (apply N.div_lt; lia).
  cbn [digits_acc]. rewrite digit_value_char by (by apply N.mod_lt). cbn.
  f_equal. pose proof (N.div_mod x 10). lia.
Qed.

Lemma digits_acc_pretty x : digits_acc (pretty x) 0 = Some x.
Proof. unfold pretty, pretty_N. case_decide; [by subst|]. by rewrite digits_acc_go. Qed.

Lemma digits_acc_zeros n s : digits_acc (zeros n +:+ s) 0 = digits_acc s 0.
Proof. induction n; [done|]. cbn. done. Qed.

Lemma pretty_Z_of_N (n : Z) : 0 ≤ n → pretty n = pretty (Z.to_N n).
Proof. by destruct n. Qed.

(** A zero-padded number reads back as itself. *)
Lemma js_Number_padStart w n : 0 ≤ n → js_Number (padStart w (pretty n)) = Some n.
Proof.
  intros Hn. unfold js_Number, padStart. rewrite digits_acc_zeros, pretty_Z_of_N by done.
  rewrite digits_acc_pretty. cbn. f_equal. lia.
Qed.

Lemma js_Number_pretty (n : Z) : 0 ≤ n → js_Number (pretty n) = Some n.
Proof. apply (js_Number_padStart 0). Qed.

Lemma padStart_inj w (m n : Z) :
  0 ≤ m → 0 ≤ n → padStart w (pretty m) = padStart w (pretty n) → m = n.
Proof.
  intros Hm Hn He. apply (f_equal js_Number) in He. rewrite !js_Number_padStart in He by done.
  congruence.
Qed.

(** [s.split(sep)] on a one-character separator. *)
Fixpoint split_on (sep : ascii) (s : string) : list string :=
  match s with
  | EmptyString => [""]
  | String c s' =>
      if bool_decide (c = sep) then "" :: split_on sep s'
      else match split_on sep s' with
           | [] => [String c ""]
           | w :: ws => String c w :: ws
           end
  end.

Fixpoint no_char (c : ascii) (s : string) : bool :=
  match s with
  | EmptyString => true
  | String c' s' => negb (bool_decide (c' = c)) && no_char c s'
  end.

Lemma split_on_word sep w : no_char sep w = true → split_on sep w = [w].
Proof.
  induction w as [|c w IH]; [done|]. cbn [no_char split_on].
  case_bool_decide; [done|]. intros Hw. by rewrite IH.
Qed.

Lemma split_on_app sep w rest :
  no_char sep w = true → split_on sep (w +:+ String sep rest) = w :: split_on sep rest.
Proof.
  induction w as [|c w IH]; simpl.
  { intros _. case_bool_decide; done. }
  case_bool_decide; [done|]. intros Hw. by rewrite IH.
Qed.

Lemma no_char_app c s t : no_char c (s +:+ t) = no_char c s && no_char c t.
Proof. induction s as [|c' s IH]; [done|]. simpl. by rewrite IH, andb_assoc. Qed.

(** A digit string has no separator in it. *)
Lemma digits_no_char c s : ∀ acc,
  digit_value c = None → is_Some (digits_acc s acc) → no_char c s = true.
Proof.
  induction s as [|c' s IH]; intros acc Hc Hs; [done|]. cbn [digits_acc no_char] in *.
  destruct (digit_value c') as [d|] eqn:E; [|by destruct Hs].
  case_bool_decide; [congruence|]. by eapply IH.
Qed.

Lemma padStart_no_char c w (n : Z) :
  digit_value c = None → 0 ≤ n → no_char c (padStart w (pretty n)) = true.
Proof.
  intros Hc Hn. eapply (digits_no_char _ _ 0); [done|].
  pose proof (js_Number_padStart w n Hn) as Hj. unfold js_Number in Hj.
  by destruct (digits_acc _ 0).
Qed.

(** ** Text as the platform sees it

    A text is its UTF-8 bytes here. [length] counts UTF-16 code units, and [trim] removes
    the white space and line terminators of the language. *)

(** One unit per code point, two outside the basic plane. *)
Definition codeUnits (c : ascii) : nat :=
  let n := N_of_ascii c in
  if ((128 <=? n) && (n <? 192))%N then 0 else if (240 <=? n)%N then 2 else 1.

Fixpoint jsLength (s : string) : nat :=
  match s with EmptyString => 0 | String c s => codeUnits c + jsLength s end.

Definition isByte (n : N) (c : ascii) : bool := (N_of_ascii c =? n)%N.
Definition inBytes (low high : N) (c : ascii) : bool :=
  ((low <=? N_of_ascii c) && (N_of_ascii c <=? high))%N.

(** U+0009 to U+000D and the space; U+00A0; U+1680, U+2000 to U+200A, U+2028, U+2029, U+202F,
    U+205F, U+3000 and U+FEFF. *)
Definition space1 (a : ascii) : bool := inBytes 9 13 a || isByte 32 a.
Definition space2 (a b : ascii) : bool := isByte 194 a && isByte 160 b.
Definition space3 (a b c : ascii) : bool :=
  isByte 225 a && isByte 154 b && isByte 128 c
  || isByte 226 a && isByte 128 b && (inBytes 128 138 c || isByte 168 c || isByte 169 c || isByte 175 c)
  || isByte 226 a && isByte 129 b && isByte 159 c
  || isByte 227 a && isByte 128 b && isByte 128 c
  || isByte 239 a && isByte 187 b && isByte 191 c.

Fixpoint trimLeft (s : string) : string :=
  match s with
  | String a ((String b ((String c u) as t')) as t) =>
      if space1 a then trimLeft t
      else if space2 a b then trimLeft t'
      else if space3 a b c then trimLeft u else s
  | String a ((String b EmptyString) as t) =>
      if space1 a then trimLeft t else if space2 a b then "" else s
  | String a EmptyString => if space1 a then "" else s
  | EmptyString => ""
  end.

(** Cut where nothing but white space is left. *)
Fixpoint trimRight (s : string) : string :=
  match s with
  | EmptyString => ""
  | String c t =>
      match trimLeft s with EmptyString => "" | _ => String c (trimRight t) end
  end.

Definition trimText (s : string) : string := trimRight (trimLeft s).

(** [toUpperCase], on every character that can come out in ASCII: the letters, U+0131,
    U+017F, U+00DF and the Latin ligatures U+FB00 to U+FB06. Any other stays outside ASCII. *)
Definition upperChar (c : ascii) : ascii :=
  if inBytes 97 122 c then ascii_of_N (N_of_ascii c - 32) else c.

Definition upper2 (a b : ascii) : option string :=
  if isByte 196 a && isByte 177 b then Some "I"
  else if isByte 197 a && isByte 191 b then Some "S"
  else if isByte 195 a && isByte 159 b then Some "SS"
  else None.

Definition upper3 (a b c : ascii) : option string :=
  if isByte 239 a && isByte 172 b && inBytes 128 134 c then
    nth_error ["FF"; "FI"; "FL"; "FFI"; "FFL"; "ST"; "ST"] (N.to_nat (N_of_ascii c - 128))
  else None.

Fixpoint upperText (s : string) : string :=
  match s with
  | String a ((String b ((String c u) as t')) as t) =>
      match upper3 a b c, upper2 a b with
      | Some up, _ => up +:+ upperText u
      | None, Some up => up +:+ upperText t'
      | None, None => String (upperChar a) (upperText t)
      end
  | String a ((String b EmptyString) as t) =>
      match upper2 a b with Some up => up | None => String (upperChar a) (upperText t) end
  | String a EmptyString => String (upperChar a) ""
  | EmptyString => ""
  end.
