(* ===== verification/Schema.v ===== *)
(** * Schema: the tables, the enums, the principals and the events

    The data of [src/src/database/schema/*.ts], the principals of
    [src/src/identity/principal.ts] and the domain events of
    [src/src/realtime/events/domain-event.ts]. A table keyed by its primary key is a [gmap string];
    an append-only table nothing points at is a list in insertion order. *)

From S2P Require Import Prelude.

(** ** Enums ([database/schema/enums.ts]) *)

Inductive UserRole := ADMIN | MANAGER | CASHIER | BARISTA.
Inductive DeviceStatus := DevPENDING | DevACTIVE | DevPAUSED | DevREVOKED.
Inductive OrderChannel := KIOSK | COUNTER.
Inductive OrderStatus :=
| DRAFT | PENDING_PAYMENT | PAID | IN_PREPARATION | READY | COMPLETED
| CANCELLED | EXPIRED | REFUNDED.
Inductive ActorType := USER | DEVICE | SYSTEM.
Inductive Provider := STRIPE | CASH_DRAWER.
Inductive PaymentMethod := CARD | PROMPTPAY | CASH.
Inductive PaymentStatus :=
| PayPENDING | PayPROCESSING | PaySUCCEEDED | PayFAILED | PayCANCELLED | PayEXPIRED.
Inductive RefundStatus := RefPENDING | RefSUCCEEDED | RefFAILED.

#[export] Instance UserRole_eq_dec : EqDecision UserRole.
Proof. solve_decision. Defined.
#[export] Instance DeviceStatus_eq_dec : EqDecision DeviceStatus.
Proof. solve_decision. Defined.
#[export] Instance OrderChannel_eq_dec : EqDecision OrderChannel.
Proof. solve_decision. Defined.
#[export] Instance OrderStatus_eq_dec : EqDecision OrderStatus.
Proof. solve_decision. Defined.
#[export] Instance ActorType_eq_dec : EqDecision ActorType.
Proof. solve_decision. Defined.
#[export] Instance Provider_eq_dec : EqDecision Provider.
Proof. solve_decision. Defined.
#[export] Instance PaymentMethod_eq_dec : EqDecision PaymentMethod.
Proof. solve_decision. Defined.
#[export] Instance PaymentStatus_eq_dec : EqDecision PaymentStatus.
Proof. solve_decision. Defined.
#[export] Instance RefundStatus_eq_dec : EqDecision RefundStatus.
Proof. solve_decision. Defined.

Definition orderStatuses : list OrderStatus :=
  [DRAFT; PENDING_PAYMENT; PAID; IN_PREPARATION; READY; COMPLETED;
   CANCELLED; EXPIRED; REFUNDED].

Lemma orderStatuses_complete s : s ∈ orderStatuses.
Proof. destruct s; repeat constructor. Qed.

(** ** Principals ([identity/principal.ts]) *)

Inductive Principal :=
| StaffPrincipal (userId : string) (role : UserRole)
| DevicePrincipal (deviceId : string).

(** ** JSON, as the gateway's payloads and the stored responses carry it

    Numbers are integers: every number the program serialises or reads out of a
    payload is one. [JUndefined] is the value of an absent property. *)
Inductive Json :=
| JUndefined
| JNull
| JBool (b : bool)
| JNum (n : Z)
| JStr (s : string)
| JArr (elems : list Json)
| JObj (entries : list (string * Json)).

(** Property access [payload.key]: the last binding of a key is the one kept. *)
Fixpoint assoc_last {A} (key : string) (entries : list (string * A)) : option A :=
  match entries with
  | [] => None
  | (k, v) :: rest =>
      match assoc_last key rest with
      | Some w => Some w
      | None => if bool_decide (k = key) then Some v else None
      end
  end.

Definition json_get (key : string) (j : Json) : Json :=
  match j with
  | JObj entries => default JUndefined (assoc_last key entries)
  | _ => JUndefined
  end.

(** ** Catalog rows ([database/schema/catalog.ts]) *)

Record CategoryRow := { cat_name : string; cat_sortOrder : Z; cat_isActive : bool }.

Record MenuItemRow := {
  mi_categoryId : string;
  mi_name : string;
  mi_description : option string;
  mi_basePriceMinor : Z;
  mi_imageUrl : option string;
  mi_isAvailable : bool;
  mi_sortOrder : Z
}.

Record OptionGroupRow := { og_name : string; og_minSelect : Z; og_maxSelect : Z }.

Record OptionRow := {
  opt_optionGroupId : string;
  opt_name : string;
  opt_priceDeltaMinor : Z;
  opt_isDefault : bool;
  opt_isAvailable : bool
}.

(** [menu_item_option_groups]: primary key (item, group), with a sort order. *)
Record ItemGroupLink := { lk_menuItemId : string; lk_optionGroupId : string; lk_sortOrder : Z }.

(** ** Order rows ([database/schema/orders.ts]) *)

Record OrderRow := {
  o_orderNumber : option string;
  o_businessDay : string;
  o_channel : OrderChannel;
  o_status : OrderStatus;
  o_kioskDeviceId : option string;
  o_createdByUserId : option string;
  o_customerName : option string;
  o_subtotalMinor : Z;
  o_vatMinor : Z;
  o_totalMinor : Z;
  o_currency : string;
  o_expiresAt : option Z;
  o_createdAt : Z  (* microseconds; every other instant is in milliseconds *)
}.

Record OrderItemRow := {
  oi_orderId : string;
  oi_menuItemId : string;
  oi_nameSnapshot : string;
  oi_unitPriceMinorSnapshot : Z;
  oi_quantity : Z;
  oi_lineTotalMinor : Z;
  oi_notes : option string
}.

Record OrderItemOptionRow := {
  oio_orderItemId : string;
  oio_optionId : string;
  oio_groupNameSnapshot : string;
  oio_optionNameSnapshot : string;
  oio_priceDeltaMinorSnapshot : Z
}.

Record HistoryRow := {
  h_orderId : string;
  h_fromStatus : option OrderStatus;
  h_toStatus : OrderStatus;
  h_actorType : ActorType;
  h_actorId : option string;
  h_reason : option string
}.

(** ** Payment rows ([database/schema/payments.ts]) *)

Record PaymentRow := {
  p_orderId : string;
  p_provider : Provider;
  p_providerIntentId : option string;
  p_method : option PaymentMethod;
  p_status : PaymentStatus;
  p_amountMinor : Z;
  p_currency : string;
  p_idempotencyKey : option string;
  p_cashTenderedMinor : option Z;
  p_createdAt : Z
}.

Record RefundRow := {
  r_paymentId : string;
  r_providerRefundId : option string;
  r_amountMinor : Z;
  r_reason : string;
  r_status : RefundStatus;
  r_initiatedByUserId : string
}.

Record PaymentEventRow := {
  pe_providerEventId : string;
  pe_eventType : string;
  pe_paymentId : option string;
  pe_payload : Json;
  pe_receivedAt : Z;
  pe_processedAt : option Z;
  pe_payloadTrimmedAt : option Z
}.

(** ** Views: what the services answer with *)

Record OptionView := { ov_group : string; ov_name : string; ov_priceDeltaMinor : Z }.

Record LineView := {
  lv_nameSnapshot : string;
  lv_unitPriceMinor : Z;
  lv_quantity : Z;
  lv_lineTotalMinor : Z;
  lv_notes : option string;
  lv_options : list OptionView
}.

(** [OrderView] of [orders/orders.service.ts]. *)
Record OrderView := {
  v_id : string;
  v_orderNumber : option string;
  v_status : OrderStatus;
  v_channel : OrderChannel;
  v_businessDay : string;
  v_customerName : option string;
  v_expiresAt : option Z;
  v_items : list LineView;
  v_subtotalMinor : Z;
  v_vatMinor : Z;
  v_totalMinor : Z;
  v_currency : string
}.

(** [PaymentView] of [payments/create/create-payment.service.ts];
    [pv_clientSecret] is the secret inside its [clientAction], if any. *)
Record PaymentView := {
  pv_id : string;
  pv_status : PaymentStatus;
  pv_method : option PaymentMethod;
  pv_amountMinor : Z;
  pv_currency : string;
  pv_provider : Provider;
  pv_clientSecret : option string
}.

(** What [idempotency_keys.response_body] can hold. *)
Inductive ResponseBody :=
| OrderBody (view : OrderView)
| PaymentBody (view : PaymentView).

Record IdempotencyRow := {
  ik_requestHash : string;
  ik_responseStatus : option Z;
  ik_responseBody : option ResponseBody;
  ik_expiresAt : Z
}.

(** ** The database *)

Record Database := {
  categories : gmap string CategoryRow;
  menuItems : gmap string MenuItemRow;
  optionGroups : gmap string OptionGroupRow;
  options : gmap string OptionRow;
  menuItemOptionGroups : list ItemGroupLink;
  kioskDevices : gmap string DeviceStatus;
  orders : gmap string OrderRow;
  orderItems : list (string * OrderItemRow);
  orderItemOptions : list OrderItemOptionRow;
  orderStatusHistory : list HistoryRow;
  orderNumberCounters : gmap string Z;
  payments : gmap string PaymentRow;
  refunds : gmap string RefundRow;
  paymentEvents : gmap string PaymentEventRow;
  idempotencyKeys : gmap string IdempotencyRow
}.

Definition empty_db : Database := {|
  categories := ∅; menuItems := ∅; optionGroups := ∅; options := ∅;
  menuItemOptionGroups := []; kioskDevices := ∅;
  orders := ∅; orderItems := []; orderItemOptions := [];
  orderStatusHistory := []; orderNumberCounters := ∅;
  payments := ∅; refunds := ∅; paymentEvents := ∅; idempotencyKeys := ∅ |}.

(** ** Replacing one table *)

Definition with_categories (t : gmap string CategoryRow) (db : Database) : Database := {|
  categories := t; menuItems := menuItems db; optionGroups := optionGroups db;
  options := options db; menuItemOptionGroups := menuItemOptionGroups db;
  kioskDevices := kioskDevices db; orders := orders db; orderItems := orderItems db;
  orderItemOptions := orderItemOptions db; orderStatusHistory := orderStatusHistory db;
  orderNumberCounters := orderNumberCounters db; payments := payments db; refunds := refunds db;
  paymentEvents := paymentEvents db; idempotencyKeys := idempotencyKeys db |}.

Definition with_menuItems (t : gmap string MenuItemRow) (db : Database) : Database := {|
  categories := categories db; menuItems := t; optionGroups := optionGroups db;
  options := options db; menuItemOptionGroups := menuItemOptionGroups db;
  kioskDevices := kioskDevices db; orders := orders db; orderItems := orderItems db;
  orderItemOptions := orderItemOptions db; orderStatusHistory := orderStatusHistory db;
  orderNumberCounters := orderNumberCounters db; payments := payments db; refunds := refunds db;
  paymentEvents := paymentEvents db; idempotencyKeys := idempotencyKeys db |}.

Definition with_optionGroups (t : gmap string OptionGroupRow) (db : Database) : Database := {|
  categories := categories db; menuItems := menuItems db; optionGroups := t;
  options := options db; menuItemOptionGroups := menuItemOptionGroups db;
  kioskDevices := kioskDevices db; orders := orders db; orderItems := orderItems db;
  orderItemOptions := orderItemOptions db; orderStatusHistory := orderStatusHistory db;
  orderNumberCounters := orderNumberCounters db; payments := payments db; refunds := refunds db;
  paymentEvents := paymentEvents db; idempotencyKeys := idempotencyKeys db |}.

Definition with_options (t : gmap string OptionRow) (db : Database) : Database := {|
  categories := categories db; menuItems := menuItems db; optionGroups := optionGroups db;
  options := t; menuItemOptionGroups := menuItemOptionGroups db; kioskDevices := kioskDevices db;
  orders := orders db; orderItems := orderItems db; orderItemOptions := orderItemOptions db;
  orderStatusHistory := orderStatusHistory db; orderNumberCounters := orderNumberCounters db;
  payments := payments db; refunds := refunds db; paymentEvents := paymentEvents db;
  idempotencyKeys := idempotencyKeys db |}.

Definition with_menuItemOptionGroups (t : list ItemGroupLink) (db : Database) : Database := {|
  categories := categories db; menuItems := menuItems db; optionGroups := optionGroups db;
  options := options db; menuItemOptionGroups := t; kioskDevices := kioskDevices db;
  orders := orders db; orderItems := orderItems db; orderItemOptions := orderItemOptions db;
  orderStatusHistory := orderStatusHistory db; orderNumberCounters := orderNumberCounters db;
  payments := payments db; refunds := refunds db; paymentEvents := paymentEvents db;
  idempotencyKeys := idempotencyKeys db |}.

Definition with_kioskDevices (t : gmap string DeviceStatus) (db : Database) : Database := {|
  categories := categories db; menuItems := menuItems db; optionGroups := optionGroups db;
  options := options db; menuItemOptionGroups := menuItemOptionGroups db; kioskDevices := t;
  orders := orders db; orderItems := orderItems db; orderItemOptions := orderItemOptions db;
  orderStatusHistory := orderStatusHistory db;
  orderNumberCounters := orderNumberCounters db; payments := payments db;
  refunds := refunds db; paymentEvents := paymentEvents db;
  idempotencyKeys := idempotencyKeys db |}.

Definition with_orders (t : gmap string OrderRow) (db : Database) : Database := {|
  categories := categories db; menuItems := menuItems db; optionGroups := optionGroups db;
  options := options db; menuItemOptionGroups := menuItemOptionGroups db;
  kioskDevices := kioskDevices db; orders := t; orderItems := orderItems db;
  orderItemOptions := orderItemOptions db; orderStatusHistory := orderStatusHistory db;
  orderNumberCounters := orderNumberCounters db; payments := payments db;
  refunds := refunds db; paymentEvents := paymentEvents db;
  idempotencyKeys := idempotencyKeys db |}.

Definition with_orderItems (t : list (string * OrderItemRow)) (db : Database) : Database := {|
  categories := categories db; menuItems := menuItems db; optionGroups := optionGroups db;
  options := options db; menuItemOptionGroups := menuItemOptionGroups db;
  kioskDevices := kioskDevices db; orders := orders db; orderItems := t;
  orderItemOptions := orderItemOptions db; orderStatusHistory := orderStatusHistory db;
  orderNumberCounters := orderNumberCounters db; payments := payments db;
  refunds := refunds db; paymentEvents := paymentEvents db;
  idempotencyKeys := idempotencyKeys db |}.

Definition with_orderItemOptions (t : list OrderItemOptionRow) (db : Database) : Database := {|
  categories := categories db; menuItems := menuItems db; optionGroups := optionGroups db;
  options := options db; menuItemOptionGroups := menuItemOptionGroups db;
  kioskDevices := kioskDevices db; orders := orders db; orderItems := orderItems db;
  orderItemOptions := t; orderStatusHistory := orderStatusHistory db;
  orderNumberCounters := orderNumberCounters db; payments := payments db;
  refunds := refunds db; paymentEvents := paymentEvents db;
  idempotencyKeys := idempotencyKeys db |}.

Definition with_orderStatusHistory (t : list HistoryRow) (db : Database) : Database := {|
  categories := categories db; menuItems := menuItems db; optionGroups := optionGroups db;
  options := options db; menuItemOptionGroups := menuItemOptionGroups db;
  kioskDevices := kioskDevices db; orders := orders db; orderItems := orderItems db;
  orderItemOptions := orderItemOptions db; orderStatusHistory := t;
  orderNumberCounters := orderNumberCounters db; payments := payments db;
  refunds := refunds db; paymentEvents := paymentEvents db;
  idempotencyKeys := idempotencyKeys db |}.

Definition with_orderNumberCounters (t : gmap string Z) (db : Database) : Database := {|
  categories := categories db; menuItems := menuItems db; optionGroups := optionGroups db;
  options := options db; menuItemOptionGroups := menuItemOptionGroups db;
  kioskDevices := kioskDevices db; orders := orders db; orderItems := orderItems db;
  orderItemOptions := orderItemOptions db; orderStatusHistory := orderStatusHistory db;
  orderNumberCounters := t; payments := payments db; refunds := refunds db;
  paymentEvents := paymentEvents db; idempotencyKeys := idempotencyKeys db |}.

Definition with_payments (t : gmap string PaymentRow) (db : Database) : Database := {|
  categories := categories db; menuItems := menuItems db; optionGroups := optionGroups db;
  options := options db; menuItemOptionGroups := menuItemOptionGroups db;
  kioskDevices := kioskDevices db; orders := orders db; orderItems := orderItems db;
  orderItemOptions := orderItemOptions db; orderStatusHistory := orderStatusHistory db;
  orderNumberCounters := orderNumberCounters db; payments := t; refunds := refunds db;
  paymentEvents := paymentEvents db; idempotencyKeys := idempotencyKeys db |}.

Definition with_refunds (t : gmap string RefundRow) (db : Database) : Database := {|
  categories := categories db; menuItems := menuItems db; optionGroups := optionGroups db;
  options := options db; menuItemOptionGroups := menuItemOptionGroups db;
  kioskDevices := kioskDevices db; orders := orders db; orderItems := orderItems db;
  orderItemOptions := orderItemOptions db; orderStatusHistory := orderStatusHistory db;
  orderNumberCounters := orderNumberCounters db; payments := payments db; refunds := t;
  paymentEvents := paymentEvents db; idempotencyKeys := idempotencyKeys db |}.

Definition with_paymentEvents (t : gmap string PaymentEventRow) (db : Database) : Database := {|
  categories := categories db; menuItems := menuItems db; optionGroups := optionGroups db;
  options := options db; menuItemOptionGroups := menuItemOptionGroups db;
  kioskDevices := kioskDevices db; orders := orders db; orderItems := orderItems db;
  orderItemOptions := orderItemOptions db; orderStatusHistory := orderStatusHistory db;
  orderNumberCounters := orderNumberCounters db; payments := payments db;
  refunds := refunds db; paymentEvents := t; idempotencyKeys := idempotencyKeys db |}.

Definition with_idempotencyKeys (t : gmap string IdempotencyRow) (db : Database) : Database := {|
  categories := categories db; menuItems := menuItems db; optionGroups := optionGroups db;
  options := options db; menuItemOptionGroups := menuItemOptionGroups db;
  kioskDevices := kioskDevices db; orders := orders db; orderItems := orderItems db;
  orderItemOptions := orderItemOptions db; orderStatusHistory := orderStatusHistory db;
  orderNumberCounters := orderNumberCounters db; payments := payments db;
  refunds := refunds db; paymentEvents := paymentEvents db; idempotencyKeys := t |}.

(** ** Domain events ([realtime/events/domain-event.ts]) *)

Inductive DomainEvent :=
| order_paid (orderId : string) (deviceId : option string)
| order_updated (orderId : string) (deviceId : option string)
| order_ready (orderId : string) (deviceId : option string)
| payment_succeeded (orderId : string) (deviceId : option string) (paymentId : string)
| payment_failed (orderId : string) (deviceId : option string) (paymentId : string).

(** ** Configuration ([config/env.validation.ts]), as the order pipeline reads it *)
Record Config := {
  VAT_BASIS_POINTS : Z;
  BUSINESS_TIMEZONE : string;
  BUSINESS_DAY_START_HOUR : Z;
  ORDER_EXPIRY_SECONDS : Z;
  CURRENCY : string
}.
