(* ===== verification/Errors.v ===== *)
(** * Errors: what the services throw

    One constructor per exception class of [orders/errors/orders.errors.ts],
    [orders/query/cursor.ts], [payments/errors/payments.errors.ts],
    [identity/errors/identity.errors.ts], [catalog/errors/catalog.errors.ts],
    [reporting/errors/reporting.errors.ts] and the shared errors of [common/errors] and
    [common/idempotency]; what each one tells a client is in [Problems.v].
    A driver error keeps its SQLSTATE ([common/database/postgres-errors.ts]). *)

From S2P Require Import Prelude Schema.

(** [OptionSelectionViolation]: the two id-shaped rules carry the ids, the two
    bound rules carry the group and the count. *)
Inductive SelectionRule :=
| DUPLICATE_OPTION (optionIds : list string)
| UNKNOWN_OPTION (optionIds : list string)
| MIN_SELECT (optionGroupId optionGroupName : string) (selected minSelect maxSelect : Z)
| MAX_SELECT (optionGroupId optionGroupName : string) (selected minSelect maxSelect : Z).

Record OptionSelectionViolation := { viol_itemIndex : nat; viol_rule : SelectionRule }.

Inductive AppError :=
(* orders/errors/orders.errors.ts *)
| OrderInvalidTransitionError (currentStatus requested : OrderStatus)
| OrderChannelMismatchError (submitted expected : OrderChannel)
| OrderDraftNotAllowedError
| OrderItemUnavailableError (itemIds optionIds : list string)
| OptionSelectionInvalidError (violations : list OptionSelectionViolation)
| IdempotencyConflictError
| PriceMismatchError (expectedTotalMinor actualTotalMinor : Z)
(* orders/query/cursor.ts *)
| CursorInvalidError
(* payments/errors/payments.errors.ts *)
| PaymentAlreadyActiveError (activePaymentId : string)
| OrderNotPayableError (currentStatus : OrderStatus)
| OrderExpiredError
| WebhookSignatureInvalidError
| OrderAlreadyPaidError
| CashTenderInsufficientError (tenderedMinor requiredMinor : Z)
| RefundExceedsRemainingError (requestedMinor remainingMinor : Z)
| PaymentNotRefundableError (reason : string)
| CashPaymentNotAllowedError
(* identity/errors/identity.errors.ts *)
| InvalidCredentialsError
| TokenExpiredError
| TokenInvalidError
| RefreshTokenReusedError
| ForbiddenRoleError (requiredRoles : list string)
| PairingCodeInvalidError
| PairingCodeExpiredError
| DeviceRevokedError
| DeviceNotPairedError
| UserEmailExistsError (email : string)
| LastAdminError
(* catalog/errors/catalog.errors.ts *)
| CategoryNameExistsError (name : string)
| CategoryUnknownError (categoryId : string)
| OptionGroupMinMaxInvalidError
| OptionGroupUnknownError (optionGroupIds : list string)
| ImageFileMissingError
| ImageTypeUnsupportedError (accepted : list string)
| ImageUnprocessableError
(* reporting/errors/reporting.errors.ts; the first is a plain Error *)
| BusinessDayNotClosedError (businessDay currentBusinessDay : string)
| UnprocessableRangeError (field current : string)
(* shared *)
| RateLimitedError (retryAfterSeconds : Z)
| ResourceNotFoundError (resource id : string)
| DependencyUnavailableError (detail : string)
| DevicePausedError
| IdempotencyKeyInvalidError
(* signals and faults that are not AppExceptions *)
| KeyAlreadyReserved
| DbError (sqlstate : string)
(** an error of the gateway's SDK, let through as it is, with its [statusCode] *)
| GatewayFault (statusCode : option Z) (detail : string)
| JsError (message : string).

(** ** SQLSTATE branching ([common/database/postgres-errors.ts]) *)

Definition UNIQUE_VIOLATION : string := "23505".
Definition FOREIGN_KEY_VIOLATION : string := "23503".
Definition CHECK_VIOLATION : string := "23514".
(** [datetime_field_overflow], what a cast answers to a date that does not exist. *)
Definition DATETIME_OVERFLOW : string := "22008".
(** [numeric_value_out_of_range], what an [integer] column answers past int4. *)
Definition OUT_OF_RANGE : string := "22003".

Definition sqlStateOf (e : AppError) : option string :=
  match e with DbError s => Some s | _ => None end.

Definition isUniqueViolation (e : AppError) : bool :=
  bool_decide (sqlStateOf e = Some UNIQUE_VIOLATION).

Definition isForeignKeyViolation (e : AppError) : bool :=
  bool_decide (sqlStateOf e = Some FOREIGN_KEY_VIOLATION).

Definition isCheckViolation (e : AppError) : bool :=
  bool_decide (sqlStateOf e = Some CHECK_VIOLATION).

(** [isLostRace] of [orders/state/transition-order.ts]. *)
Definition isLostRace (e : AppError) : bool :=
  match e with
  | OrderInvalidTransitionError _ _ | ResourceNotFoundError _ _ => true
  | _ => false
  end.

(** [isKeyAlreadyReserved] of [orders/idempotency/idempotency.store.ts]. *)
Definition isKeyAlreadyReserved (e : AppError) : bool :=
  match e with KeyAlreadyReserved => true | _ => false end.
