(* ===== verification/Program.v ===== *)
(** * Program: transactions, handlers and their interleavings

    A database transaction is a [txM]: a throw discards every write it made,
    because [db.transaction] rolls back. A request handler or a job is a [prog]:
    a finite tree of atomic database steps, calls to the payment gateway, and
    effects (events published after a commit, metrics). [AfterCommit.run]
    ([realtime/events/after-commit.service.ts]) is [afterCommit_run].

    Handlers run concurrently: [pool_step] interleaves any number of them, lets
    the gateway answer anything, starts new requests and kills a handler between
    any two of its steps. [rg] is the rely-guarantee judgement that lifts the
    handlers' own proofs to every such interleaving.

    Atomicity: a transaction's statements from its first write (or its
    [SELECT ... FOR UPDATE]) on are one step, since Postgres holds the row locks
    that write took until commit; a read before the first write takes no lock
    under READ COMMITTED and is a step of its own. *)

From S2P Require Import Prelude Schema Errors.

(** ** Transactions *)

Record TxState := mkTx { tx_db : Database; tx_pending : list DomainEvent }.

Definition txM (A : Type) : Type := TxState → result AppError (A * TxState).

#[export] Instance txM_ret : MRet txM := fun _ a s => Ok (a, s).
#[export] Instance txM_bind : MBind txM := fun _ _ k m s =>
  match m s with Ok (a, s') => k a s' | Err e => Err e end.

Definition throw {A} (e : AppError) : txM A := fun _ => Err e.
Definition reads {A} (f : Database → A) : txM A := fun s => Ok (f (tx_db s), s).
Definition writes (f : Database → Database) : txM unit :=
  fun s => Ok (tt, mkTx (f (tx_db s)) (tx_pending s)).
(** [emit]: buffers an event until the transaction commits. *)
Definition emit (ev : DomainEvent) : txM unit :=
  fun s => Ok (tt, mkTx (tx_db s) (tx_pending s ++ [ev])).
Definition when (b : bool) (m : txM unit) : txM unit := if b then m else mret tt.

(** Unfolds the transaction monad. *)
Ltac tx_simpl :=
  unfold reads, writes, throw, emit, when, mbind, mret, txM_bind, txM_ret in *; simpl in *.

(** Reading a successful run backwards. *)
Lemma txM_bind_Ok {A B} (m : txM A) (k : A → txM B) s b s' :
  (m ≫= k) s = Ok (b, s') ↔ ∃ a s1, m s = Ok (a, s1) ∧ k a s1 = Ok (b, s').
Proof. unfold mbind, txM_bind. destruct (m s) as [[a s1]|e]; naive_solver. Qed.

Lemma reads_Ok {A} (f : Database → A) s a s' :
  reads f s = Ok (a, s') ↔ a = f (tx_db s) ∧ s' = s.
Proof. unfold reads. naive_solver. Qed.

Lemma writes_Ok f s a s' :
  writes f s = Ok (a, s') ↔ a = tt ∧ s' = mkTx (f (tx_db s)) (tx_pending s).
Proof. unfold writes. naive_solver. Qed.

Lemma emit_Ok ev s a s' :
  emit ev s = Ok (a, s') ↔ a = tt ∧ s' = mkTx (tx_db s) (tx_pending s ++ [ev]).
Proof. unfold emit. naive_solver. Qed.

Lemma mret_Ok {A} (x : A) (s : TxState) a s' :
  (mret x : txM A) s = Ok (a, s') ↔ a = x ∧ s' = s.
Proof. unfold mret, txM_ret. naive_solver. Qed.

(** Inverts every successful step of a transaction in the context. *)
Ltac tx_inv_step :=
  match goal with
  | H : (_ ≫= _) _ = Ok (_, _) |- _ =>
      let a := fresh "a" in let s := fresh "s" in let H1 := fresh H in
      apply txM_bind_Ok in H as (a & s & H1 & H); cbv beta in H
  | H : reads _ _ = Ok (_, _) |- _ => apply reads_Ok in H as [-> ->]
  | H : writes _ _ = Ok (_, _) |- _ => apply writes_Ok in H as [-> ->]
  | H : emit _ _ = Ok (_, _) |- _ => apply emit_Ok in H as [-> ->]
  | H : mret _ _ = Ok (_, _) |- _ => apply mret_Ok in H as [-> ->]
  | H : throw _ _ = Ok (_, _) |- _ => discriminate H
  | H : (if ?b then _ else _) _ = Ok (_, _) |- _ => destruct b eqn:?
  | H : match ?x with _ => _ end _ = Ok (_, _) |- _ => destruct x eqn:?
  end.
Ltac tx_inv := repeat (tx_inv_step; cbn [tx_db tx_pending] in *).

(** [db.transaction(work)]: commit on return, roll back on a throw. *)
Definition transaction {A} (work : txM A) (db : Database)
    : Database * result AppError (A * list DomainEvent) :=
  match work (mkTx db []) with
  | Ok (a, s) => (tx_db s, Ok (a, tx_pending s))
  | Err e => (db, Err e)
  end.

(** ** The payment gateway, as calls a handler waits on *)

Record CreatedIntent := { ci_intentId : string; ci_clientSecret : string }.
Inductive CancelIntentOutcome := IntentCANCELLED | ALREADY_SUCCEEDED.
Record CapturedTotal := { ct_totalMinor : Z; ct_notCaptured : list string }.

(** The calls of the [PaymentProvider] port that cross the network. *)
Inductive GatewayCall :=
| createIntent (amountMinor : Z) (currency : string) (idempotencyKey : option string)
    (orderId : string)
| cancelIntent (intentId : string)
| clientSecretFor (intentId : string)
| resolveMethod (intentId : string)
| capturedTotalFor (intentIds : list string).

Definition GatewayReply (call : GatewayCall) : Type :=
  match call with
  | createIntent _ _ _ _ => result AppError CreatedIntent
  | cancelIntent _ => result AppError CancelIntentOutcome
  | clientSecretFor _ => result AppError string
  | resolveMethod _ => option PaymentMethod
  | capturedTotalFor _ => result AppError CapturedTotal
  end.

Definition Gateway : Type := ∀ call, GatewayReply call.

(** ** Handlers *)

Inductive Effect :=
| Published (events : list DomainEvent)
| OrdersCreated (channel : OrderChannel)
| PaymentsMetric (provider : Provider) (status : PaymentStatus)
| WebhookProcessingFailure
| ReconciliationRun (delta : option Z)
| KickProcessor (eventRowId : string).

Inductive prog (R : Type) : Type :=
| Done (r : result AppError R)
| Step {X : Type} (t : Database → Database * X) (k : X → prog R)
| Ask (call : GatewayCall) (k : GatewayReply call → prog R)
| Emit (e : Effect) (k : prog R).
Arguments Done {R} r.
Arguments Step {R X} t k.
Arguments Ask {R} call k.
Arguments Emit {R} e k.

Definition Return {R} (r : R) : prog R := Done (Ok r).
Definition Throw {R} (e : AppError) : prog R := Done (Err e).

(** A read outside any transaction (or before its first write). *)
Definition Read {R X} (f : Database → X) (k : X → prog R) : prog R :=
  Step (fun db => (db, f db)) k.

(** Sequencing that sees the error: [try { p } catch] and plain [await]. *)
Fixpoint after {A B} (p : prog A) (k : result AppError A → prog B) : prog B :=
  match p with
  | Done r => k r
  | Step t f => Step t (fun x => after (f x) k)
  | Ask call f => Ask call (fun a => after (f a) k)
  | Emit e p' => Emit e (after p' k)
  end.

#[export] Instance prog_ret : MRet prog := fun _ r => Return r.
#[export] Instance prog_bind : MBind prog := fun _ _ k p =>
  after p (fun r => match r with Ok a => k a | Err e => Throw e end).

Definition inTransaction {R A} (work : txM A)
    (k : result AppError (A * list DomainEvent) → prog R) : prog R :=
  Step (transaction work) k.

(** [AfterCommit.run]: the events of the transaction are published only once it
    has committed; a rolled-back transaction publishes nothing. *)
Definition afterCommit_run {A} (work : txM A) : prog A :=
  inTransaction work (fun r =>
    match r with
    | Ok (a, []) => Return a
    | Ok (a, pending) => Emit (Published pending) (Return a)
    | Err e => Throw e
    end).

(** [db.transaction] on its own: nothing is published. *)
Definition db_transaction {A} (work : txM A) : prog A :=
  inTransaction work (fun r =>
    match r with Ok (a, _) => Return a | Err e => Throw e end).

(** ** Running one handler alone, against a gateway *)

Fixpoint run {R} (gw : Gateway) (p : prog R) (db : Database)
    : Database * list Effect * result AppError R :=
  match p with
  | Done r => (db, [], r)
  | Step t k => run gw (k (t db).2) (t db).1
  | Ask call k => run gw (k (gw call)) db
  | Emit e k =>
      match run gw k db with (db', log, r) => (db', e :: log, r) end
  end.

(** ** Interleavings *)

Definition thread : Type := { R : Type & prog R }.
Definition thread_of {R} (p : prog R) : thread := existT R p.

Record Pool := { pool_db : Database; pool_threads : list thread; pool_log : list Effect }.

Section interleaving.
(** The requests and jobs that may start. *)
Context (admissible : thread → Prop).

Inductive pool_step : Pool → Pool → Prop :=
| pool_db_step db log l1 l2 R X (t : Database → Database * X) (k : X → prog R) :
    pool_step {| pool_db := db; pool_threads := l1 ++ thread_of (Step t k) :: l2; pool_log := log |}
      {| pool_db := (t db).1; pool_threads := l1 ++ thread_of (k (t db).2) :: l2; pool_log := log |}
| pool_answer db log l1 l2 R call (k : GatewayReply call → prog R) (a : GatewayReply call) :
    pool_step {| pool_db := db; pool_threads := l1 ++ thread_of (Ask call k) :: l2; pool_log := log |}
      {| pool_db := db; pool_threads := l1 ++ thread_of (k a) :: l2; pool_log := log |}
| pool_effect db log l1 l2 R e (k : prog R) :
    pool_step {| pool_db := db; pool_threads := l1 ++ thread_of (Emit e k) :: l2; pool_log := log |}
      {| pool_db := db; pool_threads := l1 ++ thread_of k :: l2; pool_log := log ++ [e] |}
| pool_spawn db log l th :
    admissible th →
    pool_step {| pool_db := db; pool_threads := l; pool_log := log |}
      {| pool_db := db; pool_threads := th :: l; pool_log := log |}
| pool_crash db log l1 l2 th :
    pool_step {| pool_db := db; pool_threads := l1 ++ th :: l2; pool_log := log |}
      {| pool_db := db; pool_threads := l1 ++ l2; pool_log := log |}.

Definition pool_steps : Pool → Pool → Prop := rtc pool_step.
End interleaving.

(** A pool with no handler in flight. *)
Definition idle (db : Database) : Pool :=
  {| pool_db := db; pool_threads := []; pool_log := [] |}.

(** ** Rely-guarantee

    [Inv] holds between any two steps; every step takes the database along
    [Ev]. What a handler remembers of an earlier read must be [stable]: true
    however the others evolve the database in between. *)
Section rely_guarantee.
Context (Inv : Database → Prop) (Ev : Database → Database → Prop).
Context `{!Reflexive Ev, !Transitive Ev}.

Definition stable (P : Database → Prop) : Prop :=
  ∀ db db', Inv db → Inv db' → Ev db db' → P db → P db'.

Lemma stable_True : stable (fun _ => True).
Proof. done. Qed.
Lemma stable_const (Q : Prop) : stable (fun _ => Q).
Proof. by intros ????. Qed.
Lemma stable_and P Q : stable P → stable Q → stable (fun db => P db ∧ Q db).
Proof. intros HP HQ ????? []; split; eauto. Qed.
Fixpoint rg {R} (P : Database → Prop) (p : prog R) : Prop :=
  match p with
  | Done _ => True
  | Step t k => ∀ db, Inv db → P db →
      Inv (t db).1 ∧ Ev db (t db).1 ∧
      ∃ P', stable P' ∧ P' (t db).1 ∧ rg P' (k (t db).2)
  | Ask call k => ∀ a, rg P (k a)
  | Emit _ k => rg P k
  end.

Definition thread_safe (db : Database) (th : thread) : Prop :=
  ∃ P, stable P ∧ P db ∧ rg P (projT2 th).

Lemma thread_safe_evolve db db' th :
  Inv db → Inv db' → Ev db db' → thread_safe db th → thread_safe db' th.
Proof. intros ??? (P & HP & ? & ?). exists P. eauto. Qed.

Lemma rg_read {R X} P (f : Database → X) (k : X → prog R) (Q : X → Database → Prop) :
  (∀ x, stable (Q x)) →
  (∀ db, Inv db → P db → Q (f db) db) →
  (∀ x, rg (Q x) (k x)) →
  rg P (Read f k).
Proof.
  intros HQ Hf Hk db HI HP. simpl. split_and!; [done|reflexivity|].
  exists (Q (f db)). auto.
Qed.

Lemma rg_weaken {R} (p : prog R) : ∀ P Q,
  (∀ db, Inv db → P db → Q db) → rg Q p → rg P p.
Proof.
  induction p as [|X t k IH|call k IH|e k IH]; intros P Q HPQ Hp; simpl in *; eauto.
Qed.

(** Whatever runs after [p] starts from a fact that is stable on its own. *)
Lemma rg_after {A B} (p : prog A) (k : result AppError A → prog B) : ∀ P Q,
  stable P → stable Q → (∀ db, Inv db → P db → Q db) →
  rg P p → (∀ r, rg Q (k r)) → rg P (after p k).
Proof.
  induction p as [r|X t f IH|call f IH|e f IH]; intros P Q HsP HsQ HPQ Hp Hk; simpl in *.
  - eapply rg_weaken; eauto.
  - intros db HI HP. destruct (Hp db HI HP) as (HI' & HE & P' & HsP' & HP' & Hrg).
    split_and!; [done..|].
    exists (fun db => P' db ∧ Q db).
    split; [by apply stable_and|]. split; [split; [done|by eapply HsQ; eauto]|].
    eapply (IH _ (fun db => P' db ∧ Q db) Q); [by apply stable_and|exact HsQ|by simpl; intros ?? []| |done].
    eapply rg_weaken; [|exact Hrg]. by simpl; intros ?? [].
  - eauto.
  - eauto.
Qed.

(** One transaction, then whatever the caller does with its outcome. *)
Lemma rg_transaction {R A} P (work : txM A)
    (k : result AppError (A * list DomainEvent) → prog R)
    (Q : result AppError (A * list DomainEvent) → Database → Prop) :
  (∀ r, stable (Q r)) →
  (∀ db, Inv db → P db → ∀ a s, work (mkTx db []) = Ok (a, s) →
    Inv (tx_db s) ∧ Ev db (tx_db s) ∧ Q (Ok (a, tx_pending s)) (tx_db s)) →
  (∀ db e, Inv db → P db → work (mkTx db []) = Err e → Q (Err e) db) →
  (∀ r, rg (Q r) (k r)) →
  rg P (inTransaction work k).
Proof.
  intros HQ Hok Herr Hk db HI HP. unfold transaction.
  destruct (work (mkTx db [])) as [[a s]|e] eqn:E; simpl.
  - destruct (Hok db HI HP a s E) as (?&?&?). split_and!; [done..|]. eauto.
  - split_and!; [done|reflexivity|]. eauto.
Qed.

(** A pool of safe handlers keeps the invariant, however it is scheduled. *)
Definition pool_safe (c : Pool) : Prop :=
  Inv (pool_db c) ∧ Forall (thread_safe (pool_db c)) (pool_threads c).

Lemma pool_step_safe (admissible : thread → Prop) c c' :
  (∀ db th, Inv db → admissible th → thread_safe db th) →
  pool_step admissible c c' → pool_safe c → pool_safe c' ∧ Ev (pool_db c) (pool_db c').
Proof.
  intros Hadm Hstep [HI Hth].
  destruct Hstep as [db log l1 l2 R X t k|db log l1 l2 R call k a|db log l1 l2 R e k
    |db log l th Ha|db log l1 l2 th]; simpl in *.
  - apply Forall_app in Hth as [H1 [Hm H2]%Forall_cons].
    destruct Hm as (P & HsP & HP & Hrg). simpl in Hrg.
    destruct (Hrg db HI HP) as (HI' & HE & P' & ? & ? & ?).
    assert (∀ l, Forall (thread_safe db) l → Forall (thread_safe (t db).1) l) as Hevo.
    { intros l Hl. eapply Forall_impl; [exact Hl|]. eauto using thread_safe_evolve. }
    split; [|done]. split; [done|]. apply Forall_app; split; [auto|].
    constructor; [|auto]. exists P'. auto.
  - split; [|reflexivity]. split; [done|].
    apply Forall_app in Hth as [H1 [Hm H2]%Forall_cons].
    destruct Hm as (P & HsP & HP & Hrg).
    apply Forall_app; split; [done|]. constructor; [|done]. exists P. simpl in *. auto.
  - split; [|reflexivity]. split; [done|].
    apply Forall_app in Hth as [H1 [Hm H2]%Forall_cons].
    destruct Hm as (P & HsP & HP & Hrg).
    apply Forall_app; split; [done|]. constructor; [|done]. exists P. auto.
  - split; [|reflexivity]. split; [done|]. constructor; auto.
  - split; [|reflexivity]. split; [done|].
    apply Forall_app in Hth as [H1 [Hm H2]%Forall_cons]. by apply Forall_app.
Qed.

Lemma pool_steps_safe (admissible : thread → Prop) c c' :
  (∀ db th, Inv db → admissible th → thread_safe db th) →
  pool_steps admissible c c' → pool_safe c → pool_safe c' ∧ Ev (pool_db c) (pool_db c').
Proof.
  intros Hadm. induction 1 as [c|c1 c2 c3 H1 H2 IH]; intros Hs; [done|].
  destruct (pool_step_safe _ _ _ Hadm H1 Hs) as [Hs2 HE].
  destruct (IH Hs2) as [Hs3 HE']. split; [done|]. by etransitivity.
Qed.
End rely_guarantee.

#[global] Arguments rg : simpl never.
