(* ===== verification/Pricing.v ===== *)
(** * Pricing: [orders/pricing/order-pricing.ts]

    The pure function every price on an order comes from: it joins a submitted
    basket to the catalog, refuses selections the menu does not allow, refuses
    what cannot be sold, and otherwise prices each line and extracts the VAT. *)

From S2P Require Import Prelude Schema Errors.

Record CatalogOption := {
  co_id : string; co_name : string; co_priceDeltaMinor : Z; co_isAvailable : bool }.

Record CatalogOptionGroup := {
  cg_id : string; cg_name : string; cg_minSelect : Z; cg_maxSelect : Z;
  cg_options : list CatalogOption }.

Record CatalogItem := {
  ci_id : string; ci_name : string; ci_basePriceMinor : Z; ci_isAvailable : bool;
  ci_optionGroups : list CatalogOptionGroup }.

Record RequestedItem := {
  ri_menuItemId : string; ri_quantity : Z; ri_optionIds : list string;
  ri_notes : option (option string) }.  (* undefined, null or text *)

Record PricedOptionSelection := {
  ps_optionId : string; ps_groupNameSnapshot : string;
  ps_optionNameSnapshot : string; ps_priceDeltaMinorSnapshot : Z }.

Record PricedLine := {
  pl_menuItemId : string; pl_nameSnapshot : string; pl_unitPriceMinorSnapshot : Z;
  pl_quantity : Z; pl_lineTotalMinor : Z; pl_notes : option string;
  pl_options : list PricedOptionSelection }.

Record PricedOrder := {
  po_lines : list PricedLine; po_subtotalMinor : Z; po_vatMinor : Z; po_totalMinor : Z }.

(** A catalog option together with the group it was reached through. *)
Record AttachedOption := { ao_option : CatalogOption; ao_group : CatalogOptionGroup }.

Record ResolvedLine := {
  rl_line : RequestedItem;
  rl_item : option CatalogItem;
  rl_options : list AttachedOption;
  rl_unknownOptionIds : list string;
  rl_duplicateOptionIds : list string }.

(** ** Resolving a line *)

Definition attach_group (attached : gmap string AttachedOption) (group : CatalogOptionGroup)
    : gmap string AttachedOption :=
  foldl (fun m option => <[co_id option := {| ao_option := option; ao_group := group |}]> m)
    attached (cg_options group).

(** The options of the groups attached to this item, by id; a later entry for
    the same id replaces an earlier one, as [Map.set] does. *)
Definition attachedOptions (item : option CatalogItem) : gmap string AttachedOption :=
  foldl attach_group ∅ (from_option ci_optionGroups [] item).
#[global] Arguments attachedOptions : simpl never.

Record ResolveState := {
  rs_seen : gset string; rs_dup : list string; rs_unknown : list string;
  rs_options : list AttachedOption }.

(** One turn of the loop over the submitted option ids. *)
Definition resolveOption (attached : gmap string AttachedOption) (st : ResolveState)
    (optionId : string) : ResolveState :=
  if bool_decide (optionId ∈ rs_seen st) then
    {| rs_seen := rs_seen st;
       rs_dup := if bool_decide (optionId ∈ rs_dup st) then rs_dup st
                 else rs_dup st ++ [optionId];
       rs_unknown := rs_unknown st; rs_options := rs_options st |}
  else
    match attached !! optionId with
    | None =>
        {| rs_seen := {[optionId]} ∪ rs_seen st; rs_dup := rs_dup st;
           rs_unknown := rs_unknown st ++ [optionId]; rs_options := rs_options st |}
    | Some option =>
        {| rs_seen := {[optionId]} ∪ rs_seen st; rs_dup := rs_dup st;
           rs_unknown := rs_unknown st; rs_options := rs_options st ++ [option] |}
    end.

Definition resolve_init : ResolveState :=
  {| rs_seen := ∅; rs_dup := []; rs_unknown := []; rs_options := [] |}.

Definition resolveLine (catalog : gmap string CatalogItem) (line : RequestedItem)
    : ResolvedLine :=
  let item := catalog !! ri_menuItemId line in
  let st := foldl (resolveOption (attachedOptions item)) resolve_init (ri_optionIds line) in
  {| rl_line := line; rl_item := item; rl_options := rs_options st;
     rl_unknownOptionIds := rs_unknown st; rl_duplicateOptionIds := rs_dup st |}.

(** ** Validating the selections of a line (B2) *)

Definition selectedIn (line : ResolvedLine) (group : CatalogOptionGroup) : Z :=
  Z.of_nat (length (filter (fun o => cg_id (ao_group o) = cg_id group) (rl_options line))).

Definition boundViolation (line : ResolvedLine) (itemIndex : nat)
    (group : CatalogOptionGroup) : list OptionSelectionViolation :=
  let selected := selectedIn line group in
  if (cg_minSelect group <=? selected) && (selected <=? cg_maxSelect group) then []
  else
    [{| viol_itemIndex := itemIndex;
        viol_rule :=
          if selected <? cg_minSelect group then
            MIN_SELECT (cg_id group) (cg_name group) selected (cg_minSelect group) (cg_maxSelect group)
          else
            MAX_SELECT (cg_id group) (cg_name group) selected (cg_minSelect group) (cg_maxSelect group) |}].

Definition idViolations (line : ResolvedLine) (itemIndex : nat)
    : list OptionSelectionViolation :=
  (if bool_decide (rl_duplicateOptionIds line = []) then []
   else [{| viol_itemIndex := itemIndex;
            viol_rule := DUPLICATE_OPTION (rl_duplicateOptionIds line) |}]) ++
  (if bool_decide (rl_unknownOptionIds line = []) then []
   else [{| viol_itemIndex := itemIndex;
            viol_rule := UNKNOWN_OPTION (rl_unknownOptionIds line) |}]).

(** Bounds are not reported beside an id-level problem. *)
Definition validateSelections (line : ResolvedLine) (itemIndex : nat)
    : list OptionSelectionViolation :=
  match idViolations line itemIndex with
  | [] => mjoin (boundViolation line itemIndex <$> from_option ci_optionGroups [] (rl_item line))
  | violations => violations
  end.

(** ** Pricing *)

(** [Math.round(total * bps / (10000 + bps))] on the exact quotient. *)
Definition extractVat (totalMinor vatBasisPoints : Z) : Z :=
  (2 * (totalMinor * vatBasisPoints) + (10000 + vatBasisPoints))
    / (2 * (10000 + vatBasisPoints)).

Definition deltasOf (options : list AttachedOption) : Z :=
  foldl (fun sum o => sum + co_priceDeltaMinor (ao_option o)) 0 options.

(** [line.item as CatalogItem]: the item is present by the time a line is priced. *)
Definition priceLine (line : ResolvedLine) : option PricedLine :=
  item ← rl_item line;
  let unitPriceMinorSnapshot :=
    Z.max 0 (ci_basePriceMinor item + deltasOf (rl_options line)) in
  Some {|
    pl_menuItemId := ci_id item;
    pl_nameSnapshot := ci_name item;
    pl_unitPriceMinorSnapshot := unitPriceMinorSnapshot;
    pl_quantity := ri_quantity (rl_line line);
    pl_lineTotalMinor := unitPriceMinorSnapshot * ri_quantity (rl_line line);
    pl_notes := mjoin (ri_notes (rl_line line));
    pl_options := (fun o => {|
      ps_optionId := co_id (ao_option o);
      ps_groupNameSnapshot := cg_name (ao_group o);
      ps_optionNameSnapshot := co_name (ao_option o);
      ps_priceDeltaMinorSnapshot := co_priceDeltaMinor (ao_option o) |}) <$> rl_options line |}.

(** [Set.add] on an insertion-ordered set. *)
Definition set_add (x : string) (xs : list string) : list string :=
  if bool_decide (x ∈ xs) then xs else xs ++ [x].

Definition unavailableItem (line : ResolvedLine) : bool :=
  match rl_item line with None => true | Some item => negb (ci_isAvailable item) end.

Definition collectUnavailable (acc : list string * list string) (line : ResolvedLine)
    : list string * list string :=
  ( if unavailableItem line then set_add (ri_menuItemId (rl_line line)) acc.1 else acc.1,
    foldl (fun ids o => if co_isAvailable (ao_option o) then ids
                        else set_add (co_id (ao_option o)) ids) acc.2 (rl_options line) ).

Definition priceOrder (requested : list RequestedItem) (catalog : gmap string CatalogItem)
    (vatBasisPoints : Z) : result AppError PricedOrder :=
  let resolved := resolveLine catalog <$> requested in
  let violations := mjoin (imap (fun itemIndex line =>
    match rl_item line with None => [] | Some _ => validateSelections line itemIndex end)
    resolved) in
  match violations with
  | _ :: _ => Err (OptionSelectionInvalidError violations)
  | [] =>
      let '(itemIds, optionIds) := foldl collectUnavailable ([], []) resolved in
      if bool_decide (itemIds = [] ∧ optionIds = []) then
        match mapM priceLine resolved with
        | None => Err (JsError "priceLine on a line with no item")
        | Some lines =>
            let subtotalMinor := foldl (fun sum l => sum + pl_lineTotalMinor l) 0 lines in
            Ok {| po_lines := lines; po_subtotalMinor := subtotalMinor;
                  po_vatMinor := extractVat subtotalMinor vatBasisPoints;
                  po_totalMinor := subtotalMinor |}
        end
      else Err (OrderItemUnavailableError itemIds optionIds)
  end.

(** ** What a basket has to satisfy, and what it then costs *)

Module PricingSpec.
(** The options a line selects, read straight off the catalog. *)
Definition selection (item : CatalogItem) (line : RequestedItem) : list AttachedOption :=
  omap (fun id => attachedOptions (Some item) !! id) (ri_optionIds line).

Definition selectedCount (item : CatalogItem) (line : RequestedItem)
    (group : CatalogOptionGroup) : Z :=
  Z.of_nat (length (filter (fun o => cg_id (ao_group o) = cg_id group) (selection item line))).

(** B2 on its own: ids distinct, attached to this item, counts within bounds. *)
Definition selection_ok (item : CatalogItem) (line : RequestedItem) : Prop :=
  NoDup (ri_optionIds line) ∧
  Forall (fun id => is_Some (attachedOptions (Some item) !! id)) (ri_optionIds line) ∧
  Forall (fun g => cg_minSelect g ≤ selectedCount item line g ≤ cg_maxSelect g)
    (ci_optionGroups item).

(** The line names an item on sale, with a permitted selection, all on sale. *)
Definition line_ok (catalog : gmap string CatalogItem) (line : RequestedItem) : Prop :=
  ∃ item, catalog !! ri_menuItemId line = Some item ∧
    ci_isAvailable item = true ∧ selection_ok item line ∧
    Forall (fun o => co_isAvailable (ao_option o) = true) (selection item line).

Definition unitPrice (item : CatalogItem) (line : RequestedItem) : Z :=
  Z.max 0 (ci_basePriceMinor item +
    sumZ (fun o => co_priceDeltaMinor (ao_option o)) (selection item line)).
End PricingSpec.

(** ** Lemmas on resolving *)

Lemma attach_group_Some attached group id ao :
  attach_group attached group !! id = Some ao →
  attached !! id = Some ao ∨
  (ao_group ao = group ∧ ao_option ao ∈ cg_options group ∧ co_id (ao_option ao) = id).
Proof.
  unfold attach_group.
  assert (∀ opts (m : gmap string AttachedOption), foldl (fun m option =>
    <[co_id option := {| ao_option := option; ao_group := group |}]> m) m opts !! id = Some ao →
    m !! id = Some ao ∨
    (ao_group ao = group ∧ ao_option ao ∈ opts ∧ co_id (ao_option ao) = id)) as Hgen; [|auto].
  induction opts as [|o opts IH]; intros m Hl; simpl in *; [auto|].
  apply IH in Hl as [Hl|(?&?&?)]; [|right; set_solver].
  rewrite lookup_insert in Hl. case_decide; [|auto].
  simplify_eq. right. simpl. set_solver.
Qed.

(** Every attached option is reached through a group of the item. *)
Lemma attachedOptions_Some item id ao :
  attachedOptions (Some item) !! id = Some ao →
  ao_group ao ∈ ci_optionGroups item ∧ ao_option ao ∈ cg_options (ao_group ao) ∧
  co_id (ao_option ao) = id.
Proof.
  unfold attachedOptions; simpl.
  assert (∀ gs (m : gmap string AttachedOption), foldl attach_group m gs !! id = Some ao →
    m !! id = Some ao ∨ (ao_group ao ∈ gs ∧ ao_option ao ∈ cg_options (ao_group ao) ∧
      co_id (ao_option ao) = id)) as Hgen.
  { induction gs as [|g gs IH]; intros m Hl; simpl in *; [auto|].
    apply IH in Hl as [Hl|(?&?&?)]; [|right; set_solver].
    apply attach_group_Some in Hl as [?|(->&?&?)]; [auto|right; set_solver]. }
  intros [Hl|?]%Hgen; [by rewrite lookup_empty in Hl|done].
Qed.

Section resolve.
Context (attached : gmap string AttachedOption).

Lemma resolve_dup_grows ids : ∀ st,
  rs_dup st ≠ [] → rs_dup (foldl (resolveOption attached) st ids) ≠ [].
Proof.
  induction ids as [|id ids IH]; intros st Hd; simpl; [done|]. apply IH.
  unfold resolveOption. repeat case_bool_decide; repeat case_match; simpl; try done.
  by destruct (rs_dup st).
Qed.

(** Distinct ids: each is looked up once, in order. *)
Lemma resolve_distinct ids : ∀ st,
  NoDup ids → (∀ id, id ∈ ids → id ∉ rs_seen st) →
  foldl (resolveOption attached) st ids =
  {| rs_seen := list_to_set ids ∪ rs_seen st; rs_dup := rs_dup st;
     rs_unknown := rs_unknown st ++ filter (fun id => attached !! id = None) ids;
     rs_options := rs_options st ++ omap (fun id => attached !! id) ids |}.
Proof.
  induction ids as [|id ids IH]; intros st Hnd Hseen.
  { destruct st; simpl. rewrite !app_nil_r. f_equal. set_solver. }
  apply NoDup_cons in Hnd as [Hni Hnd].
  assert (id ∉ rs_seen st) as Hid by (apply Hseen; set_solver).
  cbn [foldl]. unfold resolveOption at 2. rewrite bool_decide_eq_false_2 by done.
  destruct (attached !! id) as [o|] eqn:Ho.
  - rewrite IH by (simpl; set_solver). rewrite filter_cons_False by congruence.
    cbn. rewrite Ho, <-app_assoc. f_equal. set_solver.
  - rewrite IH by (simpl; set_solver). rewrite filter_cons_True by done.
    cbn. rewrite Ho, <-app_assoc. f_equal. set_solver.
Qed.

Lemma resolve_repeated ids : ∀ st,
  ¬ (NoDup ids ∧ ∀ id, id ∈ ids → id ∉ rs_seen st) →
  rs_dup (foldl (resolveOption attached) st ids) ≠ [].
Proof.
  induction ids as [|id ids IH]; intros st Hn; simpl.
  { destruct Hn. split; [constructor|set_solver]. }
  destruct (decide (id ∈ rs_seen st)) as [Hid|Hid].
  - apply resolve_dup_grows. unfold resolveOption. rewrite bool_decide_eq_true_2 by done.
    simpl. case_bool_decide as Hin; [|by destruct (rs_dup st)].
    intros Hc. rewrite Hc in Hin. set_solver.
  - apply IH. intros [Hnd Hs]. apply Hn.
    assert (∀ id', id' ∈ ids → id' ∉ {[id]} ∪ rs_seen st) as Hs'.
    { intros id' Hin Hc. apply (Hs id' Hin). unfold resolveOption.
      rewrite bool_decide_eq_false_2 by done. by destruct (attached !! id). }
    split; [apply NoDup_cons; set_solver|set_solver].
Qed.

Lemma resolve_spec ids :
  (rs_dup (foldl (resolveOption attached) resolve_init ids) = [] ∧
   rs_unknown (foldl (resolveOption attached) resolve_init ids) = []) ↔
  NoDup ids ∧ Forall (fun id => is_Some (attached !! id)) ids.
Proof.
  destruct (decide (NoDup ids)) as [Hnd|Hnd].
  - rewrite resolve_distinct by (simpl; set_solver). simpl.
    split.
    + intros [_ Hf]. split; [done|]. apply Forall_forall. intros id Hid.
      destruct (attached !! id) eqn:E; [eauto|].
      assert (id ∈ filter (fun id => attached !! id = None) ids) as Hc
        by (by apply list_elem_of_filter).
      rewrite Hf in Hc. set_solver.
    + intros [_ Hf]. split; [done|]. apply elem_of_nil_inv. intros id [Hc Hid]%list_elem_of_filter.
      rewrite Forall_forall in Hf. destruct (Hf id Hid). congruence.
  - split; [|naive_solver]. intros [Hd _]. destruct (resolve_repeated ids resolve_init); [|done].
    naive_solver.
Qed.
End resolve.

(** ** Lemmas on whole lines *)

Lemma idViolations_nil catalog line i :
  idViolations (resolveLine catalog line) i = [] ↔
  NoDup (ri_optionIds line) ∧
  Forall (fun id => is_Some (attachedOptions (catalog !! ri_menuItemId line) !! id))
    (ri_optionIds line).
Proof.
  rewrite <-resolve_spec. unfold idViolations; simpl.
  repeat case_bool_decide; simpl; naive_solver.
Qed.

Lemma boundViolation_nil line i group :
  boundViolation line i group = [] ↔
  cg_minSelect group ≤ selectedIn line group ≤ cg_maxSelect group.
Proof.
  unfold boundViolation. destruct (_ && _) eqn:E; split; try done; intros; lia.
Qed.

Lemma mjoin_nil {A} (ls : list (list A)) : mjoin ls = [] ↔ Forall (fun l => l = []) ls.
Proof.
  induction ls as [|l ls IH]; [split; [constructor|done]|].
  rewrite Forall_cons, <-IH. simpl. split; [intros [? ?]%app_nil; auto|by intros [-> ->]].
Qed.

Lemma resolveLine_options catalog line item :
  catalog !! ri_menuItemId line = Some item → NoDup (ri_optionIds line) →
  rl_options (resolveLine catalog line) = PricingSpec.selection item line.
Proof.
  intros Hi Hnd. unfold resolveLine. rewrite Hi; simpl.
  by rewrite resolve_distinct by (simpl; set_solver).
Qed.

Lemma validateSelections_nil catalog line item i :
  catalog !! ri_menuItemId line = Some item →
  validateSelections (resolveLine catalog line) i = [] ↔ PricingSpec.selection_ok item line.
Proof.
  intros Hi. unfold validateSelections, PricingSpec.selection_ok.
  pose proof (idViolations_nil catalog line i) as Hid. rewrite Hi in Hid.
  destruct (idViolations _ _) as [|v vs] eqn:E.
  2:{ split; [done|]. intros (?&?&_). by destruct Hid as [_ []]. }
  destruct Hid as [[Hnd Hall] _]; [done|]. simpl. rewrite Hi. simpl.
  rewrite mjoin_nil, Forall_fmap.
  assert (∀ g, selectedIn (resolveLine catalog line) g = PricingSpec.selectedCount item line g) as Hs.
  { intros g. unfold selectedIn. by rewrite (resolveLine_options _ _ item). }
  split.
  - intros Hb. split_and!; [done..|]. eapply Forall_impl; [exact Hb|]. intros g Hg.
    rewrite <-Hs. by eapply (boundViolation_nil _ i).
  - intros (_&_&Hb). eapply Forall_impl; [exact Hb|]. intros g Hg.
    apply boundViolation_nil. by rewrite Hs.
Qed.

(** ** Lemmas on availability *)

Lemma set_add_elem x y xs : y ∈ set_add x xs ↔ y = x ∨ y ∈ xs.
Proof. unfold set_add. case_bool_decide; set_solver. Qed.

Lemma set_add_NoDup x xs : NoDup xs → NoDup (set_add x xs).
Proof.
  unfold set_add. case_bool_decide; [done|]. intros ?. apply NoDup_app.
  split_and!; [done|set_solver|apply NoDup_singleton].
Qed.

Lemma fold_options_elem opts : ∀ ids y,
  y ∈ foldl (fun ids o => if co_isAvailable (ao_option o) then ids
                          else set_add (co_id (ao_option o)) ids) ids opts ↔
  y ∈ ids ∨ ∃ o, o ∈ opts ∧ co_isAvailable (ao_option o) = false ∧ co_id (ao_option o) = y.
Proof.
  induction opts as [|o opts IH]; intros ids y; simpl.
  { set_solver. }
  rewrite IH. setoid_rewrite elem_of_cons.
  clear IH. destruct (co_isAvailable (ao_option o)) eqn:E; [|rewrite set_add_elem];
    firstorder congruence.
Qed.

Lemma collect_spec lines : ∀ acc,
  (∀ y, y ∈ (foldl collectUnavailable acc lines).1 ↔
    y ∈ acc.1 ∨ ∃ l, l ∈ lines ∧ unavailableItem l = true ∧ ri_menuItemId (rl_line l) = y) ∧
  (∀ y, y ∈ (foldl collectUnavailable acc lines).2 ↔
    y ∈ acc.2 ∨ ∃ l o, l ∈ lines ∧ o ∈ rl_options l ∧
      co_isAvailable (ao_option o) = false ∧ co_id (ao_option o) = y).
Proof.
  induction lines as [|l lines IH]; intros acc; simpl; [set_solver|].
  destruct (IH (collectUnavailable acc l)) as [IH1 IH2].
  setoid_rewrite IH1. setoid_rewrite IH2. setoid_rewrite elem_of_cons. simpl.
  setoid_rewrite fold_options_elem. clear IH IH1 IH2. split; intros y.
  - destruct (unavailableItem l) eqn:E; [rewrite set_add_elem|]; firstorder congruence.
  - firstorder congruence.
Qed.

Lemma collect_NoDup lines : ∀ acc, NoDup acc.1 → NoDup acc.2 →
  NoDup (foldl collectUnavailable acc lines).1 ∧ NoDup (foldl collectUnavailable acc lines).2.
Proof.
  assert (∀ opts ids, NoDup ids → NoDup (foldl (fun ids o => if co_isAvailable (ao_option o) then ids
    else set_add (co_id (ao_option o)) ids) ids opts)) as Hopts.
  { induction opts as [|o opts IH]; intros ids; simpl; [done|]. intros ?. apply IH.
    case_match; auto using set_add_NoDup. }
  induction lines as [|l lines IH]; intros acc H1 H2; simpl; [done|].
  apply IH; simpl; [|auto]. case_match; auto using set_add_NoDup.
Qed.

Lemma elem_of_mjoin_imap {A B} (f : nat → A → list B) (l : list A) y :
  y ∈ mjoin (imap f l) ↔ ∃ i x, l !! i = Some x ∧ y ∈ f i x.
Proof.
  rewrite list_elem_of_join. split.
  - intros (ys & Hy & Hin). apply elem_of_lookup_imap in Hin as (i & x & -> & ?). eauto.
  - intros (i & x & Hi & Hy). exists (f i x). split; [done|].
    apply elem_of_lookup_imap. eauto.
Qed.

(** The violations of a basket, as [priceOrder] computes them. *)
Definition basketViolations (catalog : gmap string CatalogItem) (requested : list RequestedItem)
    : list OptionSelectionViolation :=
  mjoin (imap (fun itemIndex line =>
    match rl_item line with None => [] | Some _ => validateSelections line itemIndex end)
    (resolveLine catalog <$> requested)).

Lemma validateSelections_index line i v :
  v ∈ validateSelections line i → viol_itemIndex v = i.
Proof.
  unfold validateSelections. destruct (idViolations line i) as [|w ws] eqn:E.
  - rewrite list_elem_of_join. intros (vs & Hv & (g & -> & _)%list_elem_of_fmap).
    unfold boundViolation in Hv. destruct (_ && _); set_solver.
  - rewrite <-E. unfold idViolations. repeat case_bool_decide; set_solver.
Qed.

(** A line is reported exactly when its item exists and its selection is not
    one the menu allows. *)
Lemma basketViolations_spec catalog requested i :
  (∃ v, v ∈ basketViolations catalog requested ∧ viol_itemIndex v = i) ↔
  ∃ line item, requested !! i = Some line ∧ catalog !! ri_menuItemId line = Some item ∧
    ¬ PricingSpec.selection_ok item line.
Proof.
  unfold basketViolations. setoid_rewrite elem_of_mjoin_imap. setoid_rewrite list_lookup_fmap.
  split.
  - intros (v & (j & rl & Hj & Hv) & <-).
    apply fmap_Some in Hj as (line & Hl & ->). simpl in Hv.
    destruct (catalog !! ri_menuItemId line) as [item|] eqn:Hi; [|set_solver].
    rewrite (validateSelections_index _ _ _ Hv). exists line, item. split_and!; [done..|].
    rewrite <-(validateSelections_nil _ _ _ j Hi). intros Hc. rewrite Hc in Hv. set_solver.
  - intros (line & item & Hl & Hi & Hn).
    rewrite <-(validateSelections_nil _ _ _ i Hi) in Hn.
    destruct (validateSelections (resolveLine catalog line) i) as [|v vs] eqn:E; [done|].
    assert (v ∈ validateSelections (resolveLine catalog line) i) as Hv by (rewrite E; set_solver).
    exists v. split; [|by eapply validateSelections_index].
    exists i, (resolveLine catalog line). rewrite Hl. split; [done|]. simpl. by rewrite Hi.
Qed.

(** Every line's selection is allowed, or the line names no item at all. *)
Definition selections_ok (catalog : gmap string CatalogItem) (requested : list RequestedItem)
    : Prop :=
  ∀ line item, line ∈ requested → catalog !! ri_menuItemId line = Some item →
    PricingSpec.selection_ok item line.

Lemma basketViolations_nil catalog requested :
  basketViolations catalog requested = [] ↔ selections_ok catalog requested.
Proof.
  split.
  - intros Hn line item [i Hi]%list_elem_of_lookup Hitem.
    rewrite <-(validateSelections_nil _ _ _ i Hitem).
    destruct (validateSelections _ i) as [|v vs] eqn:E; [done|].
    assert (∃ v, v ∈ basketViolations catalog requested ∧ viol_itemIndex v = i) as (w&Hw&_).
    { apply basketViolations_spec. exists line, item. split_and!; [done..|].
      by rewrite <-(validateSelections_nil _ _ _ i Hitem), E. }
    rewrite Hn in Hw. set_solver.
  - intros Hok. destruct (basketViolations catalog requested) as [|v vs] eqn:E; [done|].
    assert (∃ w, w ∈ basketViolations catalog requested ∧ viol_itemIndex w = viol_itemIndex v)
      as (line&item&?&?&Hn)%basketViolations_spec by (exists v; rewrite E; set_solver).
    destruct Hn. eapply Hok; eauto using list_elem_of_lookup_2.
Qed.

Lemma priceOrder_unfold requested catalog vat :
  priceOrder requested catalog vat =
  match basketViolations catalog requested with
  | _ :: _ => Err (OptionSelectionInvalidError (basketViolations catalog requested))
  | [] =>
      let ids := foldl collectUnavailable ([], []) (resolveLine catalog <$> requested) in
      if bool_decide (ids.1 = [] ∧ ids.2 = []) then
        match mapM priceLine (resolveLine catalog <$> requested) with
        | None => Err (JsError "priceLine on a line with no item")
        | Some lines =>
            let subtotal := sumZ pl_lineTotalMinor lines in
            Ok {| po_lines := lines; po_subtotalMinor := subtotal;
                  po_vatMinor := extractVat subtotal vat; po_totalMinor := subtotal |}
        end
      else Err (OrderItemUnavailableError ids.1 ids.2)
  end.
Proof.
  unfold priceOrder. fold (basketViolations catalog requested).
  destruct (basketViolations catalog requested); [|done].
  destruct (foldl collectUnavailable _ _) as [its os]; cbn [fst snd].
  case_bool_decide; [|done]. destruct (mapM _ _); [|done]. by rewrite foldl_sumZ.
Qed.

(** Nothing in the basket is off sale. *)
Definition all_available (catalog : gmap string CatalogItem) (requested : list RequestedItem)
    : Prop :=
  ∀ line, line ∈ requested →
    (∃ item, catalog !! ri_menuItemId line = Some item ∧ ci_isAvailable item = true) ∧
    Forall (fun o => co_isAvailable (ao_option o) = true) (rl_options (resolveLine catalog line)).

Lemma unavailable_nil catalog requested :
  (foldl collectUnavailable ([], []) (resolveLine catalog <$> requested)).1 = [] ∧
  (foldl collectUnavailable ([], []) (resolveLine catalog <$> requested)).2 = [] ↔
  all_available catalog requested.
Proof.
  destruct (collect_spec (resolveLine catalog <$> requested) ([], [])) as [H1 H2].
  set (ids := foldl _ _ _) in *. split.
  - intros [E1 E2] line Hin. split.
    + destruct (unavailableItem (resolveLine catalog line)) eqn:E.
      * assert (ri_menuItemId line ∈ ids.1) as Hc; [|rewrite E1 in Hc; set_solver].
        apply H1. right. exists (resolveLine catalog line). set_solver.
      * unfold unavailableItem in E; simpl in E. case_match; [|done].
        apply negb_false_iff in E. eauto.
    + apply Forall_forall. intros o Ho. apply not_false_is_true. intros Hf.
      assert (co_id (ao_option o) ∈ ids.2) as Hc; [|rewrite E2 in Hc; set_solver].
      apply H2. right. exists (resolveLine catalog line), o. set_solver.
  - intros Hall. split; apply elem_of_nil_inv; intros y.
    + intros [Hy|(l & (line & -> & Hin)%list_elem_of_fmap & Hu & _)]%H1; [set_solver|].
      destruct (Hall line Hin) as [(item & Hi & Ha) _].
      unfold unavailableItem in Hu; simpl in Hu. rewrite Hi, Ha in Hu. done.
    + intros [Hy|(l & o & (line & -> & Hin)%list_elem_of_fmap & Ho & Hu & _)]%H2; [set_solver|].
      destruct (Hall line Hin) as [_ Hf]. rewrite Forall_forall in Hf.
      specialize (Hf o Ho). congruence.
Qed.

Lemma basket_ok_iff catalog requested :
  Forall (PricingSpec.line_ok catalog) requested ↔
  selections_ok catalog requested ∧ all_available catalog requested.
Proof.
  rewrite Forall_forall. split.
  - intros Hok. split.
    + intros line item Hin Hi. destruct (Hok line Hin) as (item' & Hi' & _ & ? & _). by simplify_eq.
    + intros line Hin. destruct (Hok line Hin) as (item & Hi & Ha & Hs & Hf).
      split; [eauto|]. erewrite resolveLine_options; [done|done|apply Hs].
  - intros [Hs Ha] line Hin. destruct (Ha line Hin) as [(item & Hi & Hav) Hf].
    exists item. split_and!; [done..|eauto|]. erewrite <-resolveLine_options; [done|done|].
    by eapply Hs.
Qed.

(** How a priced line relates to the requested one. *)
Definition priced_as (catalog : gmap string CatalogItem) (line : RequestedItem) (pl : PricedLine)
    : Prop :=
  ∃ item, catalog !! ri_menuItemId line = Some item ∧
    pl_menuItemId pl = ci_id item ∧ pl_nameSnapshot pl = ci_name item ∧
    pl_unitPriceMinorSnapshot pl = PricingSpec.unitPrice item line ∧
    pl_quantity pl = ri_quantity line ∧
    pl_lineTotalMinor pl = PricingSpec.unitPrice item line * ri_quantity line ∧
    pl_notes pl = mjoin (ri_notes line) ∧
    (ps_optionId <$> pl_options pl) = ri_optionIds line ∧
    (ps_priceDeltaMinorSnapshot <$> pl_options pl) =
      ((fun o => co_priceDeltaMinor (ao_option o)) <$> PricingSpec.selection item line).

Lemma selection_ids item line :
  Forall (fun id => is_Some (attachedOptions (Some item) !! id)) (ri_optionIds line) →
  ((fun o => co_id (ao_option o)) <$> PricingSpec.selection item line) = ri_optionIds line.
Proof.
  unfold PricingSpec.selection. induction 1 as [|id ids [ao Hao] Hids IH]; [done|].
  cbn. rewrite Hao. cbn. f_equal; [|done]. by eapply attachedOptions_Some.
Qed.

Lemma priceLine_priced catalog line pl :
  PricingSpec.line_ok catalog line → priceLine (resolveLine catalog line) = Some pl →
  priced_as catalog line pl.
Proof.
  intros (item & Hi & _ & (Hnd & Hall & _) & _). unfold priceLine.
  replace (rl_item (resolveLine catalog line)) with (Some item) by done.
  rewrite (resolveLine_options _ _ item) by done. cbn. intros [= <-].
  exists item. split_and!; try done; cbn; unfold deltasOf, PricingSpec.unitPrice;
    rewrite ?foldl_sumZ; try done.
  - rewrite <-list_fmap_compose. by apply selection_ids.
  - by rewrite <-list_fmap_compose.
Qed.

Lemma priceLine_total catalog requested :
  all_available catalog requested →
  is_Some (mapM priceLine (resolveLine catalog <$> requested)).
Proof.
  intros Ha. apply mapM_is_Some, Forall_fmap, Forall_forall. intros line Hin.
  destruct (Ha line Hin) as [(item & Hi & _) _]. unfold compose, priceLine.
  simpl. rewrite Hi. by eexists.
Qed.

(** ** Theorems *)

Lemma priceOrder_line_ok requested catalog vat p :
  priceOrder requested catalog vat = Ok p → Forall (PricingSpec.line_ok catalog) requested.
Proof.
  intros Hp. apply basket_ok_iff. rewrite priceOrder_unfold in Hp.
  rewrite <-basketViolations_nil, <-unavailable_nil.
  destruct (basketViolations _ _); [|done]. cbn zeta in Hp. by case_bool_decide.
Qed.

Lemma priceOrder_Ok requested catalog vat p :
  priceOrder requested catalog vat = Ok p →
  Forall2 (priced_as catalog) requested (po_lines p) ∧
  po_subtotalMinor p = sumZ pl_lineTotalMinor (po_lines p) ∧
  po_totalMinor p = po_subtotalMinor p ∧
  po_vatMinor p = extractVat (po_totalMinor p) vat.
Proof.
  intros Hp. pose proof (priceOrder_line_ok _ _ _ _ Hp) as Hok.
  rewrite priceOrder_unfold in Hp. destruct (basketViolations _ _); [|done].
  cbn zeta in Hp. case_bool_decide; [|done].
  destruct (mapM priceLine _) as [lines|] eqn:Hm; [|done]. simplify_eq; cbn.
  split_and!; [|done..]. apply mapM_Some, Forall2_fmap_l in Hm.
  clear -Hok Hm. induction Hm; inversion_clear Hok; constructor; eauto using priceLine_priced.
Qed.

(** C10. A basket is priced exactly when every line names an item on sale, its
    option ids are distinct, attached to that item and on sale, and each of the
    item's groups has a selection within its bounds. *)
Theorem priceOrder_accepts requested catalog vat :
  (∃ p, priceOrder requested catalog vat = Ok p) ↔
  Forall (PricingSpec.line_ok catalog) requested.
Proof.
  rewrite basket_ok_iff, priceOrder_unfold, <-basketViolations_nil, <-unavailable_nil.
  destruct (basketViolations _ _); [|split; [by intros []|naive_solver]].
  cbn zeta. case_bool_decide as Hu; [|split; [by intros []|naive_solver]].
  split; [done|]. intros _. apply unavailable_nil, priceLine_total in Hu as [lines ->]. eauto.
Qed.

(** Every amount on an accepted order is the server's: each line, in the
    order submitted, carries the catalog's name and the catalog's price plus the
    selected deltas floored at zero, times its quantity; the subtotal is the sum
    of the lines, the total equals it, and the VAT is extracted from the total. *)
Theorem priceOrder_amounts requested catalog vat p :
  priceOrder requested catalog vat = Ok p →
  Forall2 (priced_as catalog) requested (po_lines p) ∧
  po_subtotalMinor p = sumZ pl_lineTotalMinor (po_lines p) ∧
  po_totalMinor p = po_subtotalMinor p ∧
  po_vatMinor p = extractVat (po_totalMinor p) vat.
Proof. apply priceOrder_Ok. Qed.

(** A refused basket hears about its shape before its stock: if any line's
    selection is not one the menu allows, the refusal is a 422 that reports
    every such line and no other; only when all selections are allowed is it a
    409 naming, each once, exactly the items and options that cannot be sold. *)
Theorem priceOrder_refuses requested catalog vat e :
  priceOrder requested catalog vat = Err e →
  (∃ vs, e = OptionSelectionInvalidError vs ∧ vs ≠ [] ∧
    ∀ i, (∃ v, v ∈ vs ∧ viol_itemIndex v = i) ↔
      ∃ line item, requested !! i = Some line ∧
        catalog !! ri_menuItemId line = Some item ∧ ¬ PricingSpec.selection_ok item line) ∨
  (selections_ok catalog requested ∧
   ∃ itemIds optionIds, e = OrderItemUnavailableError itemIds optionIds ∧
     NoDup itemIds ∧ NoDup optionIds ∧ ¬ (itemIds = [] ∧ optionIds = []) ∧
     (∀ id, id ∈ itemIds ↔ ∃ line, line ∈ requested ∧ ri_menuItemId line = id ∧
        ∀ item, catalog !! id = Some item → ci_isAvailable item = false) ∧
     (∀ id, id ∈ optionIds ↔ ∃ line o, line ∈ requested ∧
        o ∈ rl_options (resolveLine catalog line) ∧
        co_isAvailable (ao_option o) = false ∧ co_id (ao_option o) = id)).
Proof.
  rewrite priceOrder_unfold. destruct (basketViolations catalog requested) as [|v vs] eqn:Ev.
  2:{ intros [= <-]. left. eexists. split; [done|]. rewrite <-Ev. split; [by rewrite Ev|].
      apply basketViolations_spec. }
  cbn zeta. case_bool_decide as Hu.
  { apply unavailable_nil, priceLine_total in Hu as [lines ->]. done. }
  intros [= <-]. right. split; [by apply basketViolations_nil|].
  destruct (collect_spec (resolveLine catalog <$> requested) ([], [])) as [H1 H2].
  destruct (collect_NoDup (resolveLine catalog <$> requested) ([], [])) as [? ?];
    [apply NoDup_nil_2..|].
  do 2 eexists. split; [done|]. split_and!; [done..| |]; intros id; [rewrite H1|rewrite H2];
    setoid_rewrite list_elem_of_fmap; cbn.
  - split.
    + intros [?|(l & (line & -> & Hin) & Hu' & <-)]; [set_solver|]. exists line.
      split_and!; [done..|]. intros item Hi. unfold unavailableItem in Hu'; simpl in *.
      rewrite Hi in Hu'. by apply negb_true_iff.
    + intros (line & Hin & <- & Hav). right. exists (resolveLine catalog line).
      split_and!; [eauto| |done]. unfold unavailableItem; simpl. case_match; [|done].
      by rewrite Hav.
  - split; [intros [?|(l & o & (line & -> & Hin) & ?)]; [set_solver|eauto]|].
    intros (line & o & Hin & Ho & ?). right. exists (resolveLine catalog line), o. eauto.
Qed.

(** ** Money bounds *)

(** The bounds the request and catalog DTOs put on a basket and its items. *)
Record within_limits (catalog : gmap string CatalogItem) (requested : list RequestedItem)
    : Prop := {
  lim_items : (length requested ≤ 30)%nat;
  lim_lines : Forall (fun l => 1 ≤ ri_quantity l ≤ 50 ∧ (length (ri_optionIds l) ≤ 15)%nat) requested;
  lim_base : ∀ id item, catalog !! id = Some item → 0 ≤ ci_basePriceMinor item ≤ 1000000;
  lim_delta : ∀ id item g o, catalog !! id = Some item → g ∈ ci_optionGroups item →
    o ∈ cg_options g → -100000 ≤ co_priceDeltaMinor o ≤ 100000 }.

Lemma selection_delta_bound item line :
  (∀ g o, g ∈ ci_optionGroups item → o ∈ cg_options g → co_priceDeltaMinor o ≤ 100000) →
  sumZ (fun o => co_priceDeltaMinor (ao_option o)) (PricingSpec.selection item line)
    ≤ 100000 * Z.of_nat (length (ri_optionIds line)).
Proof.
  intros Hd. unfold PricingSpec.selection.
  induction (ri_optionIds line) as [|id ids IH]; [done|]. cbn [omap list_omap].
  destruct (attachedOptions (Some item) !! id) as [ao|] eqn:E; [|simpl length; lia].
  apply attachedOptions_Some in E as (Hg & Ho & _). rewrite sumZ_cons.
  specialize (Hd _ _ Hg Ho). simpl length. lia.
Qed.

Lemma extractVat_bounds total bps :
  0 ≤ total → 0 ≤ bps → 0 ≤ extractVat total bps ≤ total.
Proof.
  intros Ht Hb. unfold extractVat. split; [apply Z.div_pos; nia|].
  apply Z.lt_succ_r, Z.div_lt_upper_bound; nia.
Qed.

(** No accepted basket can go negative or leave the range JavaScript numbers
    compare exactly: every line and the total are non-negative, the VAT lies
    within the total, and under the DTO limits a line stays under 125,000,000 and
    the total under 3,750,000,000 minor units, well below 2^53. *)
Theorem priceOrder_bounds requested catalog vat p :
  within_limits catalog requested → 0 ≤ vat →
  priceOrder requested catalog vat = Ok p →
  Forall (fun l => 0 ≤ pl_unitPriceMinorSnapshot l ∧ 0 ≤ pl_lineTotalMinor l ≤ 125000000)
    (po_lines p) ∧
  0 ≤ po_vatMinor p ≤ po_totalMinor p ∧ 0 ≤ po_totalMinor p ≤ 3750000000.
Proof.
  intros [Hn Hl Hb Hd] Hvat Hp. apply priceOrder_Ok in Hp as (Hlines & Hsub & Htot & Hv).
  assert (Forall (fun l => 0 ≤ pl_unitPriceMinorSnapshot l ∧ 0 ≤ pl_lineTotalMinor l ≤ 125000000)
    (po_lines p)) as Hall.
  { clear -Hlines Hl Hb Hd. induction Hlines as [|line pl ls pls Hpl _ IH]; [constructor|].
    apply Forall_cons in Hl as [[Hq Ho] Hl]. constructor; [|auto].
    destruct Hpl as (item & Hi & _ & _ & -> & _ & -> & _).
    pose proof (Hb _ _ Hi). unfold PricingSpec.unitPrice.
    pose proof (selection_delta_bound item line (fun g o Hg Hin => proj2 (Hd _ _ g o Hi Hg Hin))).
    split; [lia|]. split; [nia|]. apply Z.le_trans with (2500000 * 50); [|lia].
    apply Z.mul_le_mono_nonneg; lia. }
  assert (length (po_lines p) ≤ 30)%nat by (by rewrite <-(Forall2_length _ _ _ Hlines)).
  assert (0 ≤ sumZ pl_lineTotalMinor (po_lines p)).
  { apply sumZ_nonneg. eapply Forall_impl; [exact Hall|]. simpl; lia. }
  assert (sumZ pl_lineTotalMinor (po_lines p) ≤ 125000000 * Z.of_nat (length (po_lines p))).
  { apply sumZ_le_length. eapply Forall_impl; [exact Hall|]. simpl; lia. }
  split; [done|]. split; [rewrite Hv; apply extractVat_bounds; lia|lia].
Qed.

(** The VAT is the integer nearest to [total * rate / (1 + rate)]: off by at
    most half a minor unit, with halves rounded up. *)
Theorem extractVat_nearest total bps :
  0 ≤ bps →
  - (10000 + bps) ≤ 2 * (total * bps - extractVat total bps * (10000 + bps)) < 10000 + bps.
Proof.
  intros Hb. unfold extractVat. set (n := total * bps). set (d := 10000 + bps).
  assert (0 < d) by lia.
  pose proof (Z.div_mod (2 * n + d) (2 * d)). pose proof (Z.mod_pos_bound (2 * n + d) (2 * d)).
  nia.
Qed.

(** Computing the quotient in double precision changes nothing: any quotient
    [a / b] within the rounding error of one IEEE division, and exact where the
    quotient is a half-integer (which doubles represent), rounds to the same
    minor unit as the exact quotient, for every total the DTO limits allow. *)
Theorem extractVat_double total bps a b :
  0 ≤ total ≤ 3750000000 → 0 ≤ bps ≤ 10000 → 0 < b →
  Z.abs (a * (10000 + bps) - total * bps * b) * 2 ^ 53 ≤ total * bps * b →
  (∀ h, 2 * (total * bps) = (10000 + bps) * h → 2 * a = b * h) →
  (2 * a + b) / (2 * b) = extractVat total bps.
Proof.
  intros Ht Hb Hpos Herr Htie. unfold extractVat.
  assert (0 ≤ total * bps ≤ 3750000000 * 10000) as Hn by nia.
  set (n := total * bps) in *. set (d := 10000 + bps) in *.
  assert (0 < d) as Hd by lia. clearbody n d. clear Ht Hb.
  set (k := (2 * n + d) / (2 * d)).
  assert (2 * d * k ≤ 2 * n + d < 2 * d * (k + 1)) as [Hlo Hhi].
  { pose proof (Z.div_mod (2 * n + d) (2 * d)). pose proof (Z.mod_pos_bound (2 * n + d) (2 * d)).
    subst k. nia. }
  clearbody k. symmetry. apply Z.div_unique_pos with (2 * a + b - 2 * b * k); [|lia].
  change (2 ^ 53) with 9007199254740992 in Herr.
  assert (2 * Z.abs (a * d - n * b) < b) as Hsmall by nia.
  split.
  - destruct (Z.eq_dec (2 * d * k) (2 * n + d)) as [Heq|Hne].
    + pose proof (Htie (2 * k - 1)). nia.
    + assert (2 * d * k + 1 ≤ 2 * n + d) by lia.
      assert (0 ≤ d * (2 * a + b - 2 * b * k)); [|nia].
      assert (b * (2 * d * k + 1) ≤ b * (2 * n + d)) by nia. lia.
  - assert (b * (2 * n + d) ≤ b * (2 * d * (k + 1) - 1)) by nia.
    assert (d * (2 * a + b - 2 * b * k) < d * (2 * b)); [lia|nia].
Qed.

(** ** A small menu *)

Module Menu.
Definition oat : CatalogOption := {|
  co_id := "oat"; co_name := "Oat"; co_priceDeltaMinor := 1500; co_isAvailable := true |}.
Definition milk : CatalogOptionGroup := {|
  cg_id := "milk"; cg_name := "Milk"; cg_minSelect := 0; cg_maxSelect := 1; cg_options := [oat] |}.
Definition latte : CatalogItem := {|
  ci_id := "latte"; ci_name := "Latte"; ci_basePriceMinor := 10000; ci_isAvailable := true;
  ci_optionGroups := [milk] |}.
Definition catalog : gmap string CatalogItem := {[ "latte" := latte ]}.
Definition line (item : string) (quantity : Z) : RequestedItem := {|
  ri_menuItemId := item; ri_quantity := quantity; ri_optionIds := ["oat"]; ri_notes := None |}.

Definition priced : PricedOrder := {|
  po_lines := [{|
    pl_menuItemId := "latte"; pl_nameSnapshot := "Latte"; pl_unitPriceMinorSnapshot := 11500;
    pl_quantity := 2; pl_lineTotalMinor := 23000; pl_notes := None;
    pl_options := [{| ps_optionId := "oat"; ps_groupNameSnapshot := "Milk";
                      ps_optionNameSnapshot := "Oat"; ps_priceDeltaMinorSnapshot := 1500 |}] |}];
  po_subtotalMinor := 23000; po_vatMinor := 1505; po_totalMinor := 23000 |}.

Lemma priced_ok : priceOrder [line "latte" 2] catalog 700 = Ok priced.
Proof. vm_compute. reflexivity. Qed.
End Menu.

Lemma priceOrder_amounts_witness :
  po_totalMinor Menu.priced = po_subtotalMinor Menu.priced ∧
  po_vatMinor Menu.priced = extractVat 23000 700.
Proof.
  destruct (priceOrder_amounts _ _ _ _ Menu.priced_ok) as (_ & _ & Ht & Hv).
  exact (conj Ht Hv).
Defined.

Lemma priceOrder_refuses_witness :
  ∃ itemIds optionIds,
    priceOrder [Menu.line "tea" 1] Menu.catalog 700 =
      Err (OrderItemUnavailableError itemIds optionIds) ∧ NoDup itemIds.
Proof.
  destruct (priceOrder_refuses [Menu.line "tea" 1] Menu.catalog 700
    (OrderItemUnavailableError ["tea"] [])) as [(vs & Hv & _)|(_ & itemIds & optionIds & He & Hnd & _)].
  - vm_compute. reflexivity.
  - discriminate Hv.
  - exists itemIds, optionIds. split; [|exact Hnd]. rewrite <- He. vm_compute. reflexivity.
Defined.

Lemma priceOrder_bounds_witness : 0 ≤ po_totalMinor Menu.priced ≤ 3750000000.
Proof.
  refine (proj2 (proj2 (priceOrder_bounds _ _ _ _ _ _ Menu.priced_ok))); [|lia].
  split.
  - simpl. lia.
  - repeat constructor; simpl; lia.
  - intros id item Hi. unfold Menu.catalog in Hi. apply lookup_singleton_Some in Hi as [_ <-]. simpl. lia.
  - intros id item g o Hi Hg Ho. unfold Menu.catalog in Hi. apply lookup_singleton_Some in Hi as [_ <-].
    apply list_elem_of_singleton in Hg as ->. apply list_elem_of_singleton in Ho as ->.
    simpl. lia.
Defined.

Lemma extractVat_nearest_witness :
  - (10000 + 700) ≤ 2 * (23000 * 700 - extractVat 23000 700 * (10000 + 700)) < 10000 + 700.
Proof. apply (extractVat_nearest 23000 700). lia. Defined.

Lemma extractVat_double_witness : (2 * (23000 * 700) + 10700) / (2 * 10700) = extractVat 23000 700.
Proof.
  apply (extractVat_double 23000 700 (23000 * 700) 10700); lia.
Defined.
