(* ===== verification/OrderState.v ===== *)
(** * OrderState: the order state machine of [orders/state/order-state.ts] *)

From S2P Require Import Prelude Schema.

Definition ORDER_TRANSITIONS (from : OrderStatus) : list OrderStatus :=
  match from with
  | DRAFT => [PENDING_PAYMENT; CANCELLED]
  | PENDING_PAYMENT => [PAID; EXPIRED; CANCELLED]
  | PAID => [IN_PREPARATION; REFUNDED]
  | IN_PREPARATION => [READY; REFUNDED]
  | READY => [COMPLETED; REFUNDED]
  | COMPLETED => [REFUNDED]
  | CANCELLED => []
  | EXPIRED => []
  | REFUNDED => []
  end.

Definition TERMINAL_STATUSES : list OrderStatus := [CANCELLED; EXPIRED; REFUNDED].

Definition isLegalTransition (from to : OrderStatus) : bool :=
  bool_decide (to ∈ ORDER_TRANSITIONS from).

Definition STAFF_TRANSITIONS : list (OrderStatus * OrderStatus) :=
  [(PAID, IN_PREPARATION); (IN_PREPARATION, READY); (READY, COMPLETED)].

Definition isStaffTransition (from to : OrderStatus) : bool :=
  existsb (fun '(source, target) => bool_decide (source = from) && bool_decide (target = to))
    STAFF_TRANSITIONS.

(** An order that has taken money and may still owe a refund or a coffee. *)
Definition moneyTaken (s : OrderStatus) : bool :=
  match s with
  | PAID | IN_PREPARATION | READY | COMPLETED | REFUNDED => true
  | _ => false
  end.

(** Every move goes strictly down this measure, so a life has at most six. *)
Definition movesLeft (s : OrderStatus) : nat :=
  match s with
  | DRAFT => 6 | PENDING_PAYMENT => 5 | PAID => 4 | IN_PREPARATION => 3
  | READY => 2 | COMPLETED => 1 | CANCELLED | EXPIRED | REFUNDED => 0
  end.

(** A sequence of statuses in which every neighbour pair is a legal move. *)
Inductive life : OrderStatus → list OrderStatus → OrderStatus → Prop :=
| life_here s : life s [] s
| life_move s t path u : isLegalTransition s t = true → life t path u → life s (t :: path) u.

Lemma legal_elim from to : isLegalTransition from to = true → to ∈ ORDER_TRANSITIONS from.
Proof. apply bool_decide_eq_true. Qed.

Ltac legal_cases H :=
  apply legal_elim in H;
  match type of H with _ ∈ ORDER_TRANSITIONS ?s => destruct s end;
  cbn in H; rewrite ?elem_of_cons, ?elem_of_nil in H; destruct_or? H; try done; subst.

Lemma legal_descends from to :
  isLegalTransition from to = true → (movesLeft to < movesLeft from)%nat.
Proof. intros H. legal_cases H; cbn; lia. Qed.

(** The table is what §4.4 says of it: PAID is entered from PENDING_PAYMENT
    and from nowhere else, a fully refunded order was paid for, exactly the
    listed terminal statuses have no way out, and no order is ever stuck short of
    one: an order's life has at most six moves. *)
Theorem state_machine_shape :
  (∀ from, isLegalTransition from PAID = true ↔ from = PENDING_PAYMENT) ∧
  (∀ from, isLegalTransition from REFUNDED = true → moneyTaken from = true ∧ from ≠ REFUNDED) ∧
  (∀ from to, isLegalTransition from to = true → moneyTaken from = true → moneyTaken to = true) ∧
  (∀ s, s ∈ TERMINAL_STATUSES ↔ ∀ to, isLegalTransition s to = false) ∧
  (∀ s path t, life s path t → (length path ≤ movesLeft s ≤ 6)%nat).
Proof.
  split_and!.
  - intros from. split; [intros H; by legal_cases H|by intros ->].
  - intros from H. by legal_cases H.
  - intros from to H. by legal_cases H.
  - intros s. split.
    + intros H to. apply (bool_decide_eq_true_2 _) in H. by destruct s, to.
    + intros H. destruct s; try (unfold TERMINAL_STATUSES; set_solver);
        first [discriminate (H CANCELLED) | discriminate (H REFUNDED)].
  - intros s path t H. split; [|destruct s; cbn; lia].
    induction H as [|s t path u Hst _ IH]; [cbn; lia|].
    apply legal_descends in Hst. cbn [length]. lia.
Qed.

(** What the KDS route may ask for is a strict part of the machine: every
    staff transition is legal, and none of them pays, refunds, cancels or expires
    an order. *)
Theorem staff_transitions_narrow from to :
  isStaffTransition from to = true →
  isLegalTransition from to = true ∧ moneyTaken from = true ∧
  to ∈ [IN_PREPARATION; READY; COMPLETED].
Proof. destruct from, to; cbn; intros; try done; split_and!; try done; set_solver. Qed.

Lemma staff_transitions_narrow_witness :
  isStaffTransition READY COMPLETED = true ∧ isLegalTransition READY COMPLETED = true.
Proof. split; [reflexivity|]. apply (staff_transitions_narrow READY COMPLETED). reflexivity. Defined.
