(* ===== verification/Transition.v ===== *)
(** * Transition: the guarded move and the queue number

    [orders/state/transition-order.ts] and [orders/order-number.ts]: the one
    function every door moves an order through, and the counter every queue
    number comes from. *)

From S2P Require Import Prelude Text Schema Errors Program OrderState.

Record TransitionActor := { ta_actorType : ActorType; ta_actorId : option string }.

(** The row after [SET status = :to], with [expires_at] cleared on leaving
    PENDING_PAYMENT. *)
Definition moved (from to : OrderStatus) (o : OrderRow) : OrderRow := {|
  o_orderNumber := o_orderNumber o; o_businessDay := o_businessDay o;
  o_channel := o_channel o; o_status := to;
  o_kioskDeviceId := o_kioskDeviceId o; o_createdByUserId := o_createdByUserId o;
  o_customerName := o_customerName o; o_subtotalMinor := o_subtotalMinor o;
  o_vatMinor := o_vatMinor o; o_totalMinor := o_totalMinor o;
  o_currency := o_currency o;
  o_expiresAt := if bool_decide (from = PENDING_PAYMENT) then None else o_expiresAt o;
  o_createdAt := o_createdAt o |}.

(** [UPDATE orders ... WHERE id = :id AND status = :from RETURNING *]. *)
Definition guardedUpdate (orderId : string) (from to : OrderStatus) : txM (option OrderRow) :=
  db ← reads id;
  match orders db !! orderId with
  | Some o =>
      if bool_decide (o_status o = from) then
        let updated := moved from to o in
        _ ← writes (fun db => with_orders (<[orderId := updated]> (orders db)) db);
        mret (Some updated)
      else mret None
  | None => mret None
  end.

(** Zero rows updated: the order is gone, or it is not where the caller thought. *)
Definition explainFailure {A} (orderId : string) (requested : OrderStatus) : txM A :=
  current ← reads (fun db => o_status <$> orders db !! orderId);
  match current with
  | None => throw (ResourceNotFoundError "order" orderId)
  | Some status => throw (OrderInvalidTransitionError status requested)
  end.

Definition insertHistory (row : HistoryRow) : txM unit :=
  writes (fun db => with_orderStatusHistory (orderStatusHistory db ++ [row]) db).

Definition transitionOrder (orderId : string) (from to : OrderStatus)
    (actor : TransitionActor) (reason : option string) : txM OrderRow :=
  updated ← guardedUpdate orderId from to;
  match updated with
  | None => explainFailure orderId to
  | Some row =>
      _ ← insertHistory {|
        h_orderId := orderId; h_fromStatus := Some from; h_toStatus := to;
        h_actorType := ta_actorType actor; h_actorId := ta_actorId actor;
        h_reason := reason |};
      mret row
  end.

(** The actor a principal is recorded as. *)
Definition actorOf (principal : Principal) : TransitionActor :=
  match principal with
  | DevicePrincipal deviceId => {| ta_actorType := DEVICE; ta_actorId := Some deviceId |}
  | StaffPrincipal userId _ => {| ta_actorType := USER; ta_actorId := Some userId |}
  end.

Definition systemActor : TransitionActor := {| ta_actorType := SYSTEM; ta_actorId := None |}.

(** ** Queue numbers *)

Definition formatOrderNumber (sequence : Z) : string := "A-" +:+ padStart 3 (pretty sequence).

(** The counter of a business day; a day with no row has issued nothing. *)
Definition counterOf (db : Database) (businessDay : string) : Z :=
  default 0 (orderNumberCounters db !! businessDay).

(** [INSERT ... ON CONFLICT DO UPDATE SET last_value = last_value + 1 RETURNING]. *)
Definition nextOrderNumber (businessDay : string) : txM string :=
  db ← reads id;
  let lastValue := match orderNumberCounters db !! businessDay with
                   | None => 1
                   | Some v => v + 1
                   end in
  _ ← writes (fun db =>
    with_orderNumberCounters (<[businessDay := lastValue]> (orderNumberCounters db)) db);
  mret (formatOrderNumber lastValue).

(** ** Lemmas *)

Lemma formatOrderNumber_inj m n :
  0 ≤ m → 0 ≤ n → formatOrderNumber m = formatOrderNumber n → m = n.
Proof.
  unfold formatOrderNumber. intros ?? He. simpl in He. injection He.
  by apply padStart_inj.
Qed.

(** The database after a move, for the specifications below. *)
Definition moveOrder (orderId : string) (from to : OrderStatus) (o : OrderRow)
    (actor : TransitionActor) (reason : option string) (db : Database) : Database :=
  with_orderStatusHistory (orderStatusHistory db ++ [{|
      h_orderId := orderId; h_fromStatus := Some from; h_toStatus := to;
      h_actorType := ta_actorType actor; h_actorId := ta_actorId actor; h_reason := reason |}])
    (with_orders (<[orderId := moved from to o]> (orders db)) db).

Lemma transitionOrder_eq orderId from to actor reason s :
  transitionOrder orderId from to actor reason s =
  match orders (tx_db s) !! orderId with
  | None => Err (ResourceNotFoundError "order" orderId)
  | Some o =>
      if bool_decide (o_status o = from) then
        Ok (moved from to o,
            mkTx (moveOrder orderId from to o actor reason (tx_db s)) (tx_pending s))
      else Err (OrderInvalidTransitionError (o_status o) to)
  end.
Proof.
  destruct s as [db pending].
  unfold transitionOrder, guardedUpdate, explainFailure, insertHistory. tx_simpl.
  destruct (orders db !! orderId) as [o|] eqn:E; simpl; [|by rewrite E].
  case_bool_decide; simpl; [done|]. by rewrite E.
Qed.

Lemma nextOrderNumber_eq businessDay s :
  nextOrderNumber businessDay s =
  let n := counterOf (tx_db s) businessDay + 1 in
  Ok (formatOrderNumber n,
      mkTx (with_orderNumberCounters
              (<[businessDay := n]> (orderNumberCounters (tx_db s))) (tx_db s))
        (tx_pending s)).
Proof.
  destruct s as [db pending]. unfold nextOrderNumber, counterOf. tx_simpl.
  by destruct (orderNumberCounters db !! businessDay).
Qed.
