(* ===== verification/BusinessDay.v ===== *)
(** * BusinessDay: [orders/business-day.ts] and [orders/business-hours.ts]

    Calendar arithmetic over [Date.UTC] and the UTC getters, the business day
    an instant belongs to, the labels around a day, and the opening hours. The
    timezone database behind [Intl] is a parameter: the offset, in
    milliseconds, a zone has at an instant. Years 0..99, which [Date.UTC] maps
    to 1900..1999, are kept as the platform has them. *)

From S2P Require Import Prelude Text.
From Stdlib Require Import Ascii.

(** ** [Date.UTC] and its inverse *)

Definition MILLIS_PER_DAY : Z := 24 * 60 * 60 * 1000.

Definition isLeap (y : Z) : bool :=
  (y mod 4 =? 0) && (negb (y mod 100 =? 0) || (y mod 400 =? 0)).

Definition monthLength (y m : Z) : Z :=
  if m =? 2 then (if isLeap y then 29 else 28)
  else if (m =? 4) || (m =? 6) || (m =? 9) || (m =? 11) then 30 else 31.

(** Days from 1970-01-01 to the first of January of a year. *)
Definition dayFromYear (y : Z) : Z :=
  365 * (y - 1970) + (y - 1969) / 4 - (y - 1901) / 100 + (y - 1601) / 400.

(** Days before the first of a month within its year. *)
Definition daysBeforeMonth (y m : Z) : Z :=
  nth (Z.to_nat (m - 1)) [0; 31; 59; 90; 120; 151; 181; 212; 243; 273; 304; 334] 0
  + (if (2 <? m) && isLeap y then 1 else 0).

Definition makeDay (y m d : Z) : Z := dayFromYear y + daysBeforeMonth y m + (d - 1).

(** [Date.UTC(year, month - 1, day)], in milliseconds. *)
Definition dateUTC (year month day : Z) : Z :=
  makeDay (if (0 <=? year) && (year <=? 99) then 1900 + year else year) month day
  * MILLIS_PER_DAY.

(** Year, month and day of a day number, in the proleptic Gregorian calendar:
    400-year eras of 146097 days starting on the first of March. *)
Definition civilFromDays (days : Z) : Z * Z * Z :=
  let z := days + 719468 in
  let era := z / 146097 in
  let doe := z mod 146097 in
  let yoe := (doe - doe / 1460 + doe / 36524 - doe / 146096) / 365 in
  let doy := doe - (365 * yoe + yoe / 4 - yoe / 100) in
  let mp := (5 * doy + 2) / 153 in
  let d := doy - (153 * mp + 2) / 5 + 1 in
  let m := if mp <? 10 then mp + 3 else mp - 9 in
  (yoe + era * 400 + (if m <=? 2 then 1 else 0), m, d).

(** [getUTCFullYear], [getUTCMonth() + 1] and [getUTCDate] of a time value. *)
Definition utcDate (epochMs : Z) : Z * Z * Z := civilFromDays (epochMs / MILLIS_PER_DAY).

(** ** The program's functions *)

Definition formatDate (year month day : Z) : string :=
  pretty year +:+ String "-" (padStart 2 (pretty month) +:+ String "-" (padStart 2 (pretty day))).

Definition formatUtcDate (epochMs : Z) : string :=
  let '(y, m, d) := utcDate epochMs in formatDate y m d.

(** [label.split('-').map(Number)]; [None] when a part is missing or not a number. *)
Definition parseDay (label : string) : option (Z * Z * Z) :=
  match split_on "-" label with
  | year :: month :: day :: _ =>
      y ← js_Number year; m ← js_Number month; d ← js_Number day; Some (y, m, d)
  | _ => None
  end.

Record WallClock := { wc_year : Z; wc_month : Z; wc_day : Z; wc_hour : Z; wc_minute : Z }.

Section zone.
(** The timezone database: [tzOffset zone instant] is local time minus UTC. *)
Context (tzOffset : string → Z → Z).

(** What [Intl.DateTimeFormat(...).formatToParts] reads at an instant. *)
Definition localWallClock (instant : Z) (timeZone : string) : WallClock :=
  let local := instant + tzOffset timeZone instant in
  let '(y, m, d) := utcDate local in
  {| wc_year := y; wc_month := m; wc_day := d;
     wc_hour := local mod MILLIS_PER_DAY / 3600000;
     wc_minute := local mod 3600000 / 60000 |}.

Definition businessDayOf (instant : Z) (timeZone : string) (startHour : Z) : string :=
  let clock := localWallClock instant timeZone in
  if startHour <=? wc_hour clock then
    formatDate (wc_year clock) (wc_month clock) (wc_day clock)
  else
    formatUtcDate (dateUTC (wc_year clock) (wc_month clock) (wc_day clock) - MILLIS_PER_DAY).

(** ** Opening hours *)

Definition minuteOfDay (instant : Z) (timeZone : string) : Z :=
  let clock := localWallClock instant timeZone in wc_hour clock * 60 + wc_minute clock.

(** [CLOCK_TIME.exec]: a 24-hour HH:MM, as its two numbers. *)
Definition clockTime (s : string) : option (Z * Z) :=
  match s with
  | String h1 (String h2 (String ":" (String m1 (String m2 EmptyString)))) =>
      h ← js_Number (String h1 (String h2 ""));
      m ← js_Number (String m1 (String m2 ""));
      if (h <=? 23) && (m <=? 59) then Some (h, m) else None
  | _ => None
  end.

(** [minutesOf]: [None] where the code throws. *)
Definition minutesOf (s : string) : option Z :=
  hm ← clockTime s; Some (hm.1 * 60 + hm.2).

Definition isOpenAt (instant : Z) (timeZone opens closes : string) : option bool :=
  let now := minuteOfDay instant timeZone in
  o ← minutesOf opens; c ← minutesOf closes;
  Some (if o <? c then (o <=? now) && (now <? c) else (o <=? now) || (now <? c)).
End zone.

Definition minusDays (businessDay : string) (days : Z) : string :=
  match parseDay businessDay with
  | Some (y, m, d) => formatUtcDate (dateUTC y m d - days * MILLIS_PER_DAY)
  | None => "NaN-NaN-NaN"
  end.

(** The loop of [eachBusinessDay]; its condition is tested at every turn. *)
Fixpoint eachDayLoop (fuel : nat) (cursor stop : Z) : list string :=
  match fuel with
  | O => []
  | S fuel =>
      if cursor <=? stop then
        formatUtcDate cursor :: eachDayLoop fuel (cursor + MILLIS_PER_DAY) stop
      else []
  end.

(** One more turn than there are days in the range: enough for the condition
    itself to end the loop ([eachBusinessDay_days]). *)
Definition eachBusinessDay (from to : string) : list string :=
  match parseDay from, parseDay to with
  | Some (fy, fm, fd), Some (ty, tm, td) =>
      let start := dateUTC fy fm fd in
      let stop := dateUTC ty tm td in
      eachDayLoop (S (S (Z.to_nat ((stop - start) / MILLIS_PER_DAY)))) start stop
  | _, _ => []
  end.

(** ** The two calendar functions are inverse *)

Definition validDate (y m d : Z) : Prop := 1 ≤ m ≤ 12 ∧ 1 ≤ d ≤ monthLength y m.

#[local] Ltac Zify.zify_post_hook ::= Z.div_mod_to_equations.

Lemma isLeap_spec y :
  isLeap y = true ↔ y mod 4 = 0 ∧ (y mod 100 ≠ 0 ∨ y mod 400 = 0).
Proof. unfold isLeap. rewrite andb_true_iff, orb_true_iff, negb_true_iff. lia. Qed.

(** The year of an era a day of the era falls in, and the day of that year. *)
Lemma year_of_era doe (yoe := (doe - doe / 1460 + doe / 36524 - doe / 146096) / 365) :
  0 ≤ doe < 146097 →
  0 ≤ yoe ≤ 399 ∧ 0 ≤ doe - (365 * yoe + yoe / 4 - yoe / 100) ≤ 365 ∧
  (doe - (365 * yoe + yoe / 4 - yoe / 100) = 365 →
    (yoe + 1) mod 4 = 0 ∧ ((yoe + 1) mod 100 ≠ 0 ∨ (yoe + 1) mod 400 = 0)).
Proof. intros H. subst yoe. lia. Qed.

(** Evaluates the month-table lookups of a known month. *)
Ltac eval_month :=
  repeat match goal with
  | |- context [Z.to_nat ?e] => let v := eval vm_compute in (Z.to_nat e) in change (Z.to_nat e) with v
  | |- context [?a <? ?b] => let v := eval vm_compute in (a <? b) in
      match v with true => idtac | false => idtac end; change (a <? b) with v
  | |- context [?a <=? ?b] => let v := eval vm_compute in (a <=? b) in
      match v with true => idtac | false => idtac end; change (a <=? b) with v
  | |- context [?a =? ?b] => let v := eval vm_compute in (a =? b) in
      match v with true => idtac | false => idtac end; change (a =? b) with v
  end; cbn [nth andb orb].

Lemma civil_spec z y m d : civilFromDays z = (y, m, d) → makeDay y m d = z ∧ validDate y m d.
Proof.
  unfold civilFromDays. cbv zeta.
  set (era := (z + 719468) / 146097). set (doe := (z + 719468) mod 146097).
  assert (z + 719468 = 146097 * era + doe ∧ 0 ≤ doe < 146097) as [Hz Hdoe] by lia.
  clearbody era doe. pose proof (year_of_era doe Hdoe) as (Hy & Hdoy & Hlast).
  set (yoe := (doe - doe / 1460 + doe / 36524 - doe / 146096) / 365) in *. clearbody yoe.
  set (doy := doe - (365 * yoe + yoe / 4 - yoe / 100)) in *.
  assert (z = 146097 * era + 365 * yoe + yoe / 4 - yoe / 100 + doy - 719468) as -> by lia.
  clearbody doy. clear Hz Hdoe doe.
  set (mp := (5 * doy + 2) / 153).
  assert (153 * mp ≤ 5 * doy + 2 < 153 * mp + 153) as Hmp by lia. clearbody mp.
  assert (mp = 0 ∨ mp = 1 ∨ mp = 2 ∨ mp = 3 ∨ mp = 4 ∨ mp = 5 ∨ mp = 6 ∨ mp = 7 ∨ mp = 8
    ∨ mp = 9 ∨ mp = 10 ∨ mp = 11) as Hc by lia.
  intros Heq. injection Heq as <- <- <-.
  unfold validDate, makeDay, daysBeforeMonth, monthLength, dayFromYear.
  pose proof (isLeap_spec (yoe + era * 400)) as HL0.
  pose proof (isLeap_spec (yoe + era * 400 + 1)) as HL1.
  destruct_or! Hc; subst mp; eval_month; rewrite ?Z.add_0_r;
    try (destruct (isLeap (yoe + era * 400))); try (destruct (isLeap (yoe + era * 400 + 1)));
    lia.
Qed.

Lemma month_cases m : 1 ≤ m ≤ 12 →
  m = 1 ∨ m = 2 ∨ m = 3 ∨ m = 4 ∨ m = 5 ∨ m = 6 ∨ m = 7 ∨ m = 8 ∨ m = 9 ∨ m = 10 ∨ m = 11 ∨ m = 12.
Proof. lia. Qed.

(** A month starts after every day of the months before it. *)
Lemma daysBeforeMonth_bounds y m d :
  validDate y m d →
  0 ≤ daysBeforeMonth y m + (d - 1) ≤ 364 + (if isLeap y then 1 else 0) ∧
  (∀ m', m < m' ≤ 12 → daysBeforeMonth y m + (d - 1) < daysBeforeMonth y m').
Proof.
  unfold validDate, daysBeforeMonth, monthLength. intros [Hm Hd].
  apply month_cases in Hm. split.
  - destruct_or! Hm; subst m; revert Hd; eval_month; destruct (isLeap y); lia.
  - intros m' [Hlt Hle]. pose proof (month_cases m' ltac:(lia)) as Hm'.
    destruct_or! Hm; destruct_or! Hm'; subst m m'; try lia;
      revert Hd; eval_month; destruct (isLeap y); lia.
Qed.

Lemma dayFromYear_succ y :
  dayFromYear (y + 1) = dayFromYear y + 365 + (if isLeap y then 1 else 0).
Proof.
  unfold dayFromYear. destruct (isLeap y) eqn:E.
  - apply isLeap_spec in E. lia.
  - assert (¬ (y mod 4 = 0 ∧ (y mod 100 ≠ 0 ∨ y mod 400 = 0)))
      by (rewrite <-isLeap_spec, E; done). lia.
Qed.

Lemma dayFromYear_lt y y' :
  y < y' → dayFromYear y + 364 + (if isLeap y then 1 else 0) < dayFromYear y'.
Proof.
  intros H. replace y' with (y + 1 + Z.of_nat (Z.to_nat (y' - y - 1))) by lia.
  induction (Z.to_nat (y' - y - 1)) as [|n IH].
  - rewrite Z.add_0_r, dayFromYear_succ. lia.
  - replace (y + 1 + Z.of_nat (S n)) with (y + 1 + Z.of_nat n + 1) by lia.
    rewrite dayFromYear_succ. destruct (isLeap (y + 1 + Z.of_nat n)); lia.
Qed.

Lemma makeDay_inj y m d y' m' d' :
  validDate y m d → validDate y' m' d' → makeDay y m d = makeDay y' m' d' →
  (y, m, d) = (y', m', d').
Proof.
  intros Hv Hv' He. unfold makeDay in He.
  destruct (daysBeforeMonth_bounds y m d Hv) as [Hb Hlt].
  destruct (daysBeforeMonth_bounds y' m' d' Hv') as [Hb' Hlt'].
  assert (y = y') as <-.
  { destruct (Z.lt_trichotomy y y') as [Hy|[?|Hy]]; [|done|];
      [pose proof (dayFromYear_lt y y' Hy)|pose proof (dayFromYear_lt y' y Hy)]; lia. }
  destruct Hv as [Hm Hd], Hv' as [Hm' Hd'].
  assert (m = m') as <-.
  { destruct (Z.lt_trichotomy m m') as [Hc|[?|Hc]]; [|done|];
      [specialize (Hlt m' ltac:(lia))|specialize (Hlt' m ltac:(lia))]; lia. }
  assert (d = d') as <- by lia. done.
Qed.

Lemma makeDay_civil y m d : validDate y m d → civilFromDays (makeDay y m d) = (y, m, d).
Proof.
  intros Hv. destruct (civilFromDays (makeDay y m d)) as [[y' m'] d'] eqn:E.
  apply civil_spec in E as [He Hv']. by eapply makeDay_inj.
Qed.

(** ** Labels and day numbers *)

(** The label of a day, by its number since 1970-01-01. *)
Definition dayLabel (n : Z) : string := formatUtcDate (n * MILLIS_PER_DAY).

(** The first day [Date.UTC] reads literally: 0100-01-01. *)
Definition firstDay : Z := dayFromYear 100.

Lemma utcDate_within n r :
  0 ≤ r < MILLIS_PER_DAY → utcDate (n * MILLIS_PER_DAY + r) = civilFromDays n.
Proof.
  intros Hr. unfold utcDate. f_equal. symmetry.
  apply Z.div_unique_pos with r; [done|lia].
Qed.

Lemma formatUtcDate_within n r :
  0 ≤ r < MILLIS_PER_DAY → formatUtcDate (n * MILLIS_PER_DAY + r) = dayLabel n.
Proof.
  intros Hr. unfold dayLabel, formatUtcDate. rewrite utcDate_within by done.
  rewrite <-(Z.add_0_r (n * MILLIS_PER_DAY)). by rewrite utcDate_within.
Qed.

Lemma civil_year n y m d :
  civilFromDays n = (y, m, d) → firstDay ≤ n → 100 ≤ y.
Proof.
  intros [<- Hv]%civil_spec Hn. destruct (daysBeforeMonth_bounds y m d Hv) as [Hb _].
  destruct (Z.lt_ge_cases y 100) as [Hy|]; [|done].
  pose proof (dayFromYear_lt y 100 Hy). unfold firstDay, makeDay in Hn. lia.
Qed.

Lemma dateUTC_civil n y m d :
  civilFromDays n = (y, m, d) → firstDay ≤ n → dateUTC y m d = n * MILLIS_PER_DAY.
Proof.
  intros Hc Hn. pose proof (civil_year n y m d Hc Hn). apply civil_spec in Hc as [<- _].
  unfold dateUTC. destruct ((0 <=? y) && (y <=? 99)) eqn:E; [lia|done].
Qed.

Lemma parseDay_formatDate y m d :
  0 ≤ y → 0 ≤ m → 0 ≤ d → parseDay (formatDate y m d) = Some (y, m, d).
Proof.
  intros Hy Hm Hd. unfold parseDay, formatDate.
  rewrite split_on_app by (by apply (padStart_no_char _ 0)).
  rewrite split_on_app by (by apply padStart_no_char).
  rewrite split_on_word by (by apply padStart_no_char).
  rewrite js_Number_pretty, !js_Number_padStart by done. done.
Qed.

Lemma parseDay_label n :
  firstDay ≤ n → ∃ y m d, parseDay (dayLabel n) = Some (y, m, d) ∧
    dateUTC y m d = n * MILLIS_PER_DAY.
Proof.
  intros Hn. destruct (civilFromDays n) as [[y m] d] eqn:E.
  exists y, m, d. split; [|by apply dateUTC_civil].
  pose proof (civil_year n y m d E Hn). pose proof (civil_spec n y m d E) as [_ [Hm Hd]].
  unfold dayLabel, formatUtcDate. rewrite <-(Z.add_0_r (n * MILLIS_PER_DAY)), utcDate_within by done.
  rewrite E. apply parseDay_formatDate; lia.
Qed.

Lemma dayLabel_inj a b : firstDay ≤ a → firstDay ≤ b → dayLabel a = dayLabel b → a = b.
Proof.
  intros Ha Hb He. destruct (parseDay_label a Ha) as (y&m&d&Hp&Hu).
  destruct (parseDay_label b Hb) as (y'&m'&d'&Hp'&Hu').
  rewrite He in Hp. simplify_eq. rewrite Hu in Hu'. unfold MILLIS_PER_DAY in *. lia.
Qed.

(** The business day of an instant is the calendar date of the local clock
    put back by the start hour: an order rung up before the day starts belongs to
    the previous date, across month ends, leap days and year ends. *)
Theorem businessDayOf_shift tzOffset instant timeZone startHour :
  0 ≤ startHour ≤ 23 →
  firstDay * MILLIS_PER_DAY ≤ instant + tzOffset timeZone instant →
  businessDayOf tzOffset instant timeZone startHour =
  formatUtcDate (instant + tzOffset timeZone instant - startHour * 3600000).
Proof.
  intros Hs Hf. unfold businessDayOf, localWallClock.
  set (t := instant + tzOffset timeZone instant) in *. clearbody t.
  set (n := t / MILLIS_PER_DAY). set (r := t mod MILLIS_PER_DAY).
  assert (t = n * MILLIS_PER_DAY + r ∧ 0 ≤ r < MILLIS_PER_DAY) as [Ht Hr].
  { subst n r. unfold MILLIS_PER_DAY. lia. }
  clearbody n r. subst t. rewrite utcDate_within by done.
  destruct (civilFromDays n) as [[y m] d] eqn:E. cbn [wc_hour wc_year wc_month wc_day].
  assert (firstDay ≤ n) as Hn by (unfold MILLIS_PER_DAY in *; lia).
  destruct (startHour <=? r / 3600000) eqn:Eh.
  - replace (n * MILLIS_PER_DAY + r - startHour * 3600000)
      with (n * MILLIS_PER_DAY + (r - startHour * 3600000)) by lia.
    rewrite formatUtcDate_within by (unfold MILLIS_PER_DAY in *; lia).
    unfold dayLabel, formatUtcDate.
    rewrite <-(Z.add_0_r (n * MILLIS_PER_DAY)), utcDate_within, E by done. done.
  - rewrite (dateUTC_civil n) by done.
    replace (n * MILLIS_PER_DAY + r - startHour * 3600000)
      with ((n - 1) * MILLIS_PER_DAY + (MILLIS_PER_DAY + r - startHour * 3600000)) by lia.
    rewrite formatUtcDate_within by (unfold MILLIS_PER_DAY in *; lia).
    unfold dayLabel. f_equal. lia.
Qed.

(** Moving a label by a number of days is exact calendar arithmetic, and
    moving it back undoes it. *)
Theorem minusDays_label n k :
  firstDay ≤ n → firstDay ≤ n - k →
  minusDays (dayLabel n) k = dayLabel (n - k) ∧
  minusDays (minusDays (dayLabel n) k) (- k) = dayLabel n.
Proof.
  assert (∀ a j, firstDay ≤ a → minusDays (dayLabel a) j = dayLabel (a - j)) as Hone.
  { intros a j Ha. destruct (parseDay_label a Ha) as (y&m&d&Hp&Hu).
    unfold minusDays. rewrite Hp, Hu. unfold dayLabel. f_equal. lia. }
  intros Hn Hk. rewrite !Hone by done. split; [done|]. f_equal. lia.
Qed.

Lemma eachDayLoop_days fuel : ∀ a b, (Z.to_nat (b - a + 1) < fuel)%nat →
  eachDayLoop fuel (a * MILLIS_PER_DAY) (b * MILLIS_PER_DAY) = dayLabel <$> seqZ a (b - a + 1).
Proof.
  induction fuel as [|fuel IH]; intros a b Hf; [lia|]. cbn [eachDayLoop].
  destruct (a * MILLIS_PER_DAY <=? b * MILLIS_PER_DAY) eqn:E;
    unfold MILLIS_PER_DAY in E.
  - rewrite seqZ_cons by lia. cbn. f_equal.
    replace (a * MILLIS_PER_DAY + MILLIS_PER_DAY) with (Z.succ a * MILLIS_PER_DAY) by lia.
    rewrite IH by lia. do 2 f_equal. lia.
  - by rewrite seqZ_nil by lia.
Qed.

(** [eachBusinessDay] terminates with exactly the labels of the days from
    the first to the last, in order, one per day; an inverted range is empty. *)
Theorem eachBusinessDay_days a b :
  firstDay ≤ a → firstDay ≤ b →
  eachBusinessDay (dayLabel a) (dayLabel b) = dayLabel <$> seqZ a (b - a + 1) ∧
  NoDup (eachBusinessDay (dayLabel a) (dayLabel b)).
Proof.
  intros Ha Hb.
  assert (eachBusinessDay (dayLabel a) (dayLabel b) = dayLabel <$> seqZ a (b - a + 1)) as He.
  { destruct (parseDay_label a Ha) as (y&m&d&Hp&Hu).
    destruct (parseDay_label b Hb) as (y'&m'&d'&Hp'&Hu').
    unfold eachBusinessDay. rewrite Hp, Hp', Hu, Hu'. apply eachDayLoop_days.
    replace (b * MILLIS_PER_DAY - a * MILLIS_PER_DAY) with ((b - a) * MILLIS_PER_DAY) by lia.
    rewrite Z.div_mul by done. lia. }
  split; [done|]. rewrite He. apply NoDup_fmap_2_strong; [|apply NoDup_seqZ].
  intros x y Hx%elem_of_seqZ Hy%elem_of_seqZ. apply dayLabel_inj; lia.
Qed.

(** Half past midnight in Bangkok still belongs to the day before. *)
Lemma businessDayOf_shift_witness :
  businessDayOf (fun _ _ => 7 * 3600000) 1753205400000 "Asia/Bangkok" 5 =
  formatUtcDate (1753205400000 + 7 * 3600000 - 5 * 3600000).
Proof.
  apply (businessDayOf_shift (fun _ _ => 7 * 3600000) 1753205400000 "Asia/Bangkok" 5).
  - split; discriminate.
  - vm_compute. discriminate.
Defined.

Lemma minusDays_label_witness :
  minusDays (dayLabel 20000) 31 = dayLabel (20000 - 31) ∧
  minusDays (minusDays (dayLabel 20000) 31) (- 31) = dayLabel 20000.
Proof. apply (minusDays_label 20000 31); vm_compute; discriminate. Defined.

Lemma eachBusinessDay_days_witness :
  eachBusinessDay (dayLabel 20000) (dayLabel 20002) = dayLabel <$> seqZ 20000 (20002 - 20000 + 1).
Proof. apply (eachBusinessDay_days 20000 20002); vm_compute; discriminate. Defined.
