(* ===== verification/Idempotency.v ===== *)
(** * Idempotency: [orders/idempotency/*.ts]

    The header's shape, the fingerprint of a request, and the store that turns a
    retried key into a replay. SHA-256 is a parameter; what is proved of the
    fingerprint is proved of the text that is hashed. *)

From S2P Require Import Prelude Text Schema Errors Program.
From Stdlib Require Import Ascii.

(** ** The [Idempotency-Key] header ([idempotency-key.ts]) *)

Definition MIN_LENGTH : nat := 8.
Definition MAX_LENGTH : nat := 128.

(** [/^[A-Za-z0-9._:-]+$/], a character at a time. *)
Definition keyChar (c : ascii) : bool :=
  let n := N_of_ascii c in
  ((65 <=? n) && (n <=? 90) || (97 <=? n) && (n <=? 122) || (48 <=? n) && (n <=? 57)
   || (n =? 46) || (n =? 95) || (n =? 58) || (n =? 45))%N.

Fixpoint allChars (p : ascii → bool) (s : string) : bool :=
  match s with EmptyString => true | String c s => p c && allChars p s end.

(** The whitespace [trim] removes, within the first 256 code units. *)
Definition isSpace (c : ascii) : bool :=
  let n := N_of_ascii c in ((9 <=? n) && (n <=? 13) || (n =? 32) || (n =? 160))%N.

Fixpoint trimStart (s : string) : string :=
  match s with
  | EmptyString => ""
  | String c s' => if isSpace c then trimStart s' else s
  end.

Fixpoint trimEnd (s : string) : string :=
  match s with
  | EmptyString => ""
  | String c s' =>
      match trimEnd s' with
      | EmptyString => if isSpace c then "" else String c ""
      | t => String c t
      end
  end.

Definition trim (s : string) : string := trimEnd (trimStart s).

(** A malformed header is refused rather than read as absent. *)
Definition parseIdempotencyKey (raw : option string) : result AppError (option string) :=
  match raw with
  | None => Ok None
  | Some raw =>
      let key := trim raw in
      if (String.length key <? MIN_LENGTH)%nat || (MAX_LENGTH <? String.length key)%nat
         || negb (allChars keyChar key && negb (bool_decide (key = "")))
      then Err IdempotencyKeyInvalidError
      else Ok (Some key)
  end.

(** ** The fingerprint ([request-hash.ts]) *)

Fixpoint joinWith (sep : string) (l : list string) : string :=
  match l with
  | [] => ""
  | [s] => s
  | s :: l => s +:+ sep +:+ joinWith sep l
  end.

Definition hexDigit (n : N) : ascii :=
  ascii_of_N (if (n <? 10)%N then 48 + n else 87 + n)%N.

(** One code unit inside a JSON string literal. *)
Definition jsonChar (c : ascii) : string :=
  let n := N_of_ascii c in
  (if n =? 34 then String "\" (String c "")
   else if n =? 92 then "\\"
   else if n =? 8 then "\b"
   else if n =? 9 then "\t"
   else if n =? 10 then "\n"
   else if n =? 12 then "\f"
   else if n =? 13 then "\r"
   else if n <? 32 then "\u00" +:+ String (hexDigit (n / 16)) (String (hexDigit (n mod 16)) "")
   else String c "")%N.

Fixpoint jsonChars (s : string) : string :=
  match s with EmptyString => "" | String c s => jsonChar c +:+ jsonChars s end.

Definition dquote : string := String (ascii_of_N 34) "".

(** [JSON.stringify] of a string. *)
Definition jsonString (s : string) : string := dquote +:+ jsonChars s +:+ dquote.

(** Sorting entries by key; the keys of an object are distinct. *)
Fixpoint insertEntry {A} (e : string * A) (l : list (string * A)) : list (string * A) :=
  match l with
  | [] => [e]
  | e' :: l' => if String.leb e.1 e'.1 then e :: l else e' :: insertEntry e l'
  end.

Definition sortEntries {A} (l : list (string * A)) : list (string * A) :=
  foldr insertEntry [] l.

Definition isUndefined (j : Json) : bool := match j with JUndefined => true | _ => false end.

Fixpoint canonicalize (value : Json) : string :=
  match value with
  | JUndefined => ""
  | JNull => "null"
  | JBool b => if b then "true" else "false"
  | JNum n => pretty n
  | JStr s => jsonString s
  | JArr elems => "[" +:+ joinWith "," (map canonicalize elems) +:+ "]"
  | JObj entries =>
      "{" +:+ joinWith "," (map (fun '(key, text) => jsonString key +:+ ":" +:+ text)
        (sortEntries (concat
          (map (fun '(key, entry) =>
             if isUndefined entry then [] else [(key, canonicalize entry)]) entries)))) +:+ "}"
  end.

(** What [hashRequest] feeds to SHA-256: the scope behind its length, then the body. *)
Definition hashInput (scope : string) (body : Json) : string :=
  pretty (String.length scope) +:+ ":" +:+ scope +:+ canonicalize body.

Definition hashRequest (sha256 : string → string) (scope : string) (body : Json) : string :=
  sha256 (hashInput scope body).

(** ** The store ([idempotency.store.ts]) *)

(** Inserts the reservation; a taken primary key is the signal to replay. *)
Definition reserveKey (key requestHash : string) (expiresAt : Z) : txM unit :=
  db ← reads id;
  match idempotencyKeys db !! key with
  | Some _ => throw KeyAlreadyReserved
  | None =>
      writes (fun db => with_idempotencyKeys
        (<[key := {| ik_requestHash := requestHash; ik_responseStatus := None;
                     ik_responseBody := None; ik_expiresAt := expiresAt |}]>
           (idempotencyKeys db)) db)
  end.

Definition completeKey (key : string) (status : Z) (body : ResponseBody) : txM unit :=
  writes (fun db => with_idempotencyKeys
    (alter (fun row => {| ik_requestHash := ik_requestHash row;
                          ik_responseStatus := Some status; ik_responseBody := Some body;
                          ik_expiresAt := ik_expiresAt row |}) key (idempotencyKeys db)) db).

(** The stored hash and response of a key that has answered already. *)
Definition completedResponseFor (db : Database) (key : string)
    : option (string * ResponseBody) :=
  stored ← idempotencyKeys db !! key;
  body ← ik_responseBody stored;
  Some (ik_requestHash stored, body).

Definition replayKey (db : Database) (key requestHash : string)
    : result AppError ResponseBody :=
  match idempotencyKeys db !! key with
  | None => Err IdempotencyConflictError
  | Some stored =>
      if bool_decide (ik_requestHash stored = requestHash) then
        match ik_responseBody stored with
        | None => Err IdempotencyConflictError
        | Some body => Ok body
        end
      else Err IdempotencyConflictError
  end.

(** [if (idempotencyKey !== undefined) await reserveKey(...)]. *)
Definition reserveIfKeyed (key : option (string * string)) (expiresAt : Z) : txM unit :=
  match key with
  | None => mret tt
  | Some (k, requestHash) => reserveKey k requestHash expiresAt
  end.

Definition completeIfKeyed (key : option (string * string)) (body : ResponseBody) : txM unit :=
  match key with
  | None => mret tt
  | Some (k, _) => completeKey k 201 body
  end.

(** 24 hours. *)
Definition keyExpiry (now : Z) : Z := now + 24 * 60 * 60 * 1000.

(** [scopeOf]: a key is bound to whoever presented it. *)
Definition scopeOf (principal : Principal) : string :=
  match principal with
  | DevicePrincipal deviceId => "device:" +:+ deviceId
  | StaffPrincipal userId _ => "user:" +:+ userId
  end.

(** ** The fingerprint is of the request, not of its spelling *)

(** Two parsed bodies that differ only in the order of object keys, at any depth. *)
Inductive same_body : Json → Json → Prop :=
| same_leaf j : same_body j j
| same_array l1 l2 : Forall2 same_body l1 l2 → same_body (JArr l1) (JArr l2)
| same_object e1 e2 e3 :
    Forall2 (fun a b : string * Json => a.1 = b.1 ∧ same_body a.2 b.2) e1 e2 →
    e2 ≡ₚ e3 → NoDup e3.*1 → same_body (JObj e1) (JObj e3).

Lemma leb_trans a b c : String.leb a b = true → String.leb b c = true → String.leb a c = true.
Proof.
  intros H1 H2. apply Is_true_true. transitivity b; by apply Is_true_true.
Qed.

Lemma leb_false_swap a b : String.leb a b = false → String.leb b a = true.
Proof. intros H. destruct (String.leb_total a b); congruence. Qed.

Lemma insertEntry_comm {A} (a b : string * A) l :
  a.1 ≠ b.1 → insertEntry a (insertEntry b l) = insertEntry b (insertEntry a l).
Proof.
  intros Hne.
  assert (String.leb a.1 b.1 = negb (String.leb b.1 a.1)) as Hab.
  { destruct (String.leb a.1 b.1) eqn:E1, (String.leb b.1 a.1) eqn:E2; try done.
    - by destruct Hne; apply String.leb_antisym.
    - apply leb_false_swap in E1. congruence. }
  induction l as [|c l IH]; simpl.
  { rewrite Hab. by destruct (String.leb b.1 a.1). }
  destruct (String.leb a.1 c.1) eqn:Ea, (String.leb b.1 c.1) eqn:Eb; simpl; rewrite ?Ea, ?Eb.
  - rewrite Hab. by destruct (String.leb b.1 a.1).
  - destruct (String.leb b.1 a.1) eqn:E; [|by rewrite ?Ea, ?Eb].
    pose proof (leb_trans _ _ _ E Ea). congruence.
  - rewrite Hab. destruct (String.leb b.1 a.1) eqn:E; simpl; [by rewrite ?Ea, ?Eb|].
    apply leb_false_swap in E. pose proof (leb_trans _ _ _ E Eb). congruence.
  - by rewrite IH.
Qed.

Lemma sortEntries_perm {A} (l1 l2 : list (string * A)) :
  l1 ≡ₚ l2 → NoDup l2.*1 → sortEntries l1 = sortEntries l2.
Proof.
  induction 1 as [|e l1 l2 Hp IH|a b l|l1 l2 l3 H12 IH1 H23 IH2]; intros Hnd; simpl in *.
  - done.
  - apply NoDup_cons in Hnd as [_ Hnd]. by rewrite IH.
  - apply NoDup_cons in Hnd as [Hn _]. apply insertEntry_comm. set_solver.
  - rewrite IH1, IH2; [done..|]. by rewrite H23.
Qed.

(** The entries that are serialised, with the text of each value. *)
Definition texts (entries : list (string * Json)) : list (string * string) :=
  concat (map (fun '(key, entry) =>
    if isUndefined entry then [] else [(key, canonicalize entry)]) entries).

Lemma texts_cons e entries :
  texts (e :: entries) =
  (if isUndefined e.2 then [] else [(e.1, canonicalize e.2)]) ++ texts entries.
Proof. by destruct e. Qed.

Lemma texts_perm e1 e2 : e1 ≡ₚ e2 → texts e1 ≡ₚ texts e2.
Proof.
  induction 1 as [| | |? ? ? _ IH1 _ IH2]; rewrite ?texts_cons; [done| | |by rewrite IH1].
  - by f_equiv.
  - rewrite !app_assoc. f_equiv. apply Permutation_app_comm.
Qed.

Lemma texts_keys entries key : key ∈ (texts entries).*1 → key ∈ entries.*1.
Proof.
  induction entries as [|e entries IH]; [done|]. rewrite texts_cons, fmap_app, elem_of_app.
  intros [H|H]; [|right; auto]. destruct (isUndefined e.2); [set_solver|]. simpl in H. set_solver.
Qed.

Lemma texts_NoDup entries : NoDup entries.*1 → NoDup (texts entries).*1.
Proof.
  induction entries as [|e entries IH]; [done|]. rewrite fmap_cons, texts_cons.
  intros [Hn Hnd]%NoDup_cons. destruct (isUndefined e.2); simpl; [auto|].
  apply NoDup_cons. split; [|auto]. intros H%texts_keys. done.
Qed.

Lemma same_body_undefined j1 j2 : same_body j1 j2 → isUndefined j1 = isUndefined j2.
Proof. by destruct 1. Qed.

Lemma same_body_canonical : ∀ j1 j2, same_body j1 j2 → canonicalize j1 = canonicalize j2.
Proof.
  fix IH 3. intros j1 j2 H. destruct H as [j|l1 l2 Hl|e1 e2 e3 He Hp Hnd]; [done|..].
  - simpl. do 3 f_equal. clear -IH Hl. induction Hl as [|x y l1 l2 Hxy _ IHl]; simpl; [done|].
    by rewrite (IH _ _ Hxy), IHl.
  - change (canonicalize (JObj e1)) with ("{" +:+ joinWith "," (map (fun '(key, text) =>
      jsonString key +:+ ":" +:+ text) (sortEntries (texts e1))) +:+ "}").
    change (canonicalize (JObj e3)) with ("{" +:+ joinWith "," (map (fun '(key, text) =>
      jsonString key +:+ ":" +:+ text) (sortEntries (texts e3))) +:+ "}").
    assert (texts e1 = texts e2) as ->.
    { clear -IH He. induction He as [|a b l1 l2 [Hk Hv] _ IHl]; [done|].
      by rewrite !texts_cons, IHl, Hk, (same_body_undefined _ _ Hv), (IH _ _ Hv). }
    rewrite (sortEntries_perm (texts e2) (texts e3)); [done| |].
    + by apply texts_perm.
    + by apply texts_NoDup.
Qed.

(** The same basket is the same request however a client orders its keys: two
    bodies that differ only in the order of object keys, at any depth, have the
    same fingerprint under every digest. *)
Theorem fingerprint_key_order sha256 scope j1 j2 :
  same_body j1 j2 → hashRequest sha256 scope j1 = hashRequest sha256 scope j2.
Proof. intros H. unfold hashRequest, hashInput. by rewrite (same_body_canonical _ _ H). Qed.

Lemma fingerprint_key_order_witness :
  hashRequest (fun s => s) "user:u1"
    (JObj [("channel", JStr "COUNTER"); ("items", JArr [JObj [("q", JNum 2); ("id", JStr "x")]])]) =
  hashRequest (fun s => s) "user:u1"
    (JObj [("items", JArr [JObj [("id", JStr "x"); ("q", JNum 2)]]); ("channel", JStr "COUNTER")]).
Proof.
  apply (fingerprint_key_order (fun s => s) "user:u1").
  eapply (same_object _ [("channel", JStr "COUNTER");
                         ("items", JArr [JObj [("id", JStr "x"); ("q", JNum 2)]])]).
  - repeat constructor. eapply same_object; [repeat constructor|apply perm_swap|].
    by apply (bool_decide_unpack _).
  - apply perm_swap.
  - by apply (bool_decide_unpack _).
Defined.

(** Reading back a length-prefixed string. *)
Lemma app_inj_length s1 s2 t1 t2 :
  String.length s1 = String.length s2 → s1 +:+ t1 = s2 +:+ t2 → s1 = s2 ∧ t1 = t2.
Proof.
  revert s2. induction s1 as [|c s1 IH]; intros [|c2 s2] Hl He; simpl in *; try done.
  injection He as -> He. destruct (IH s2) as [-> ->]; [lia|done..].
Qed.

Lemma split_prefix c s1 s2 t1 t2 :
  no_char c s1 = true → no_char c s2 = true →
  s1 +:+ String c t1 = s2 +:+ String c t2 → s1 = s2 ∧ t1 = t2.
Proof.
  revert s2. induction s1 as [|c1 s1 IH]; intros [|c2 s2] H1 H2 He; cbn [no_char] in *; simpl in He.
  - by injection He.
  - injection He as -> _. rewrite bool_decide_true in H2 by done. done.
  - injection He as -> _. rewrite bool_decide_true in H1 by done. done.
  - injection He as -> He. apply andb_true_iff in H1 as [_ H1], H2 as [_ H2].
    destruct (IH s2 H1 H2 He) as [-> ->]. done.
Qed.

(** What is hashed determines the scope and the canonical text of the body. *)
Lemma hashInput_split scope1 scope2 j1 j2 :
  hashInput scope1 j1 = hashInput scope2 j2 →
  scope1 = scope2 ∧ canonicalize j1 = canonicalize j2.
Proof.
  unfold hashInput. intros He.
  assert (∀ n : nat, no_char ":" (pretty n) = true) as Hno.
  { intros n. apply (digits_no_char ":" _ 0); [done|].
    change (pretty n) with (pretty (N.of_nat n)). rewrite digits_acc_pretty. eauto. }
  apply split_prefix in He as [Hlen He]; [|done..].
  apply app_inj_length in He; [done|]. by apply (inj pretty) in Hlen.
Qed.
