(* ===== verification/CreateOrder.v ===== *)
(** * CreateOrder: [orders/orders.service.ts]

    Order creation: the channel rules, the catalog read, pricing, and the write
    of the whole aggregate, in one transaction with the idempotency key. The ids
    [uuidv7()] draws for the request are an argument, and every insert still
    checks its primary key. *)

From S2P Require Import Prelude Text Schema Errors Program Pricing OrderState Transition.
From S2P Require Import BusinessDay Idempotency.

Record CreateOrderInput := {
  in_channel : OrderChannel;
  in_items : list RequestedItem;
  in_customerName : option (option string);  (* undefined, null or text *)
  in_expectedTotalMinor : option Z;
  in_draft : option bool }.

(** [input.draft === true]. *)
Definition isDraft (input : CreateOrderInput) : bool := bool_decide (in_draft input = Some true).

(** ** The request as the object that is hashed

    An absent optional property is [undefined], which the fingerprint drops. *)

Definition undefinedOr {A} (f : A → Json) (v : option A) : Json :=
  match v with None => JUndefined | Some a => f a end.

Definition nullOr {A} (f : A → Json) (v : option A) : Json :=
  match v with None => JNull | Some a => f a end.

Definition channelText (channel : OrderChannel) : string :=
  match channel with KIOSK => "KIOSK" | COUNTER => "COUNTER" end.

Definition itemObject (item : RequestedItem) : Json := JObj [
  ("menuItemId", JStr (ri_menuItemId item)); ("quantity", JNum (ri_quantity item));
  ("optionIds", JArr (JStr <$> ri_optionIds item));
  ("notes", undefinedOr (nullOr JStr) (ri_notes item))].

Definition inputObject (input : CreateOrderInput) : Json := JObj [
  ("channel", JStr (channelText (in_channel input)));
  ("items", JArr (itemObject <$> in_items input));
  ("customerName", undefinedOr (nullOr JStr) (in_customerName input));
  ("expectedTotalMinor", undefinedOr JNum (in_expectedTotalMinor input));
  ("draft", undefinedOr JBool (in_draft input))].

(** The ids this request draws, the order's and one per line, and the instant
    [created_at] defaults to: [now()] on the database's clock, in microseconds. *)
Record NewIds := { ni_order : string; ni_line : nat → string; ni_createdAt : Z }.

(** ** The catalog, as pricing needs it *)

Definition toCatalogOption (entry : string * OptionRow) : CatalogOption := {|
  co_id := entry.1; co_name := opt_name entry.2;
  co_priceDeltaMinor := opt_priceDeltaMinor entry.2;
  co_isAvailable := opt_isAvailable entry.2 |}.

Definition byName (a b : CatalogOption) : Prop := String.leb (co_name a) (co_name b) = true.
#[export] Instance byName_dec : RelDecision byName.
Proof. intros a b. unfold byName. apply _. Defined.

Definition bySortOrder (a b : ItemGroupLink) : Prop := lk_sortOrder a ≤ lk_sortOrder b.
#[export] Instance bySortOrder_dec : RelDecision bySortOrder.
Proof. intros a b. unfold bySortOrder. apply _. Defined.

(** The options of a group, ordered by name. *)
Definition readOptions (db : Database) (groupId : string) : list CatalogOption :=
  merge_sort byName
    (toCatalogOption <$>
      filter (fun e => opt_optionGroupId e.2 = groupId) (map_to_list (options db))).

(** The groups attached to an item, ordered by the link's sort order. *)
Definition readGroups (db : Database) (itemId : string) : list CatalogOptionGroup :=
  omap (fun link =>
    group ← optionGroups db !! lk_optionGroupId link;
    Some {| cg_id := lk_optionGroupId link; cg_name := og_name group;
            cg_minSelect := og_minSelect group; cg_maxSelect := og_maxSelect group;
            cg_options := readOptions db (lk_optionGroupId link) |})
    (merge_sort bySortOrder
      (filter (fun link => lk_menuItemId link = itemId) (menuItemOptionGroups db))).

(** An item of a deactivated category comes back marked unavailable. *)
Definition readItem (db : Database) (itemId : string) : option CatalogItem :=
  item ← menuItems db !! itemId;
  category ← categories db !! mi_categoryId item;
  Some {| ci_id := itemId; ci_name := mi_name item;
          ci_basePriceMinor := mi_basePriceMinor item;
          ci_isAvailable := mi_isAvailable item && cat_isActive category;
          ci_optionGroups := readGroups db itemId |}.

Definition readCatalog (db : Database) (menuItemIds : list string) : gmap string CatalogItem :=
  foldr (fun id m => match readItem db id with Some item => <[id := item]> m | None => m end)
    ∅ menuItemIds.

(** ** Inserts, with the constraints Postgres checks *)

Definition int4 (n : Z) : bool := (-2147483648 <=? n) && (n <=? 2147483647).

Definition numberTaken (db : Database) (row : OrderRow) : bool :=
  match o_orderNumber row with
  | None => false
  | Some n => bool_decide (map_Exists (fun _ o =>
      o_businessDay o = o_businessDay row ∧ o_orderNumber o = Some n) (orders db))
  end.

Definition insertOrder (id : string) (row : OrderRow) : txM OrderRow :=
  db ← reads Datatypes.id;
  if negb (int4 (o_subtotalMinor row) && int4 (o_vatMinor row) && int4 (o_totalMinor row)) then
    throw (DbError OUT_OF_RANGE)
  else if bool_decide (is_Some (orders db !! id)) || numberTaken db row then
    throw (DbError UNIQUE_VIOLATION)
  else if match o_kioskDeviceId row with
          | Some d => bool_decide (kioskDevices db !! d = None)
          | None => false end then
    throw (DbError FOREIGN_KEY_VIOLATION)
  else
    _ ← writes (fun db => with_orders (<[id := row]> (orders db)) db);
    mret row.

Definition orderItemRow (orderId : string) (line : PricedLine) : OrderItemRow := {|
  oi_orderId := orderId; oi_menuItemId := pl_menuItemId line;
  oi_nameSnapshot := pl_nameSnapshot line;
  oi_unitPriceMinorSnapshot := pl_unitPriceMinorSnapshot line;
  oi_quantity := pl_quantity line; oi_lineTotalMinor := pl_lineTotalMinor line;
  oi_notes := pl_notes line |}.

Definition lineRows (ids : NewIds) (lines : list PricedLine) : list (string * OrderItemRow) :=
  imap (fun index line => (ni_line ids index, orderItemRow (ni_order ids) line)) lines.

(** An insert of no rows is an error of the query builder, not an empty insert. *)
Definition insertOrderItems (rows : list (string * OrderItemRow)) : txM unit :=
  db ← reads id;
  if bool_decide (rows = []) then
    throw (JsError "values() must be called with at least one value")
  else if existsb (fun r => negb (int4 (oi_unitPriceMinorSnapshot r.2) && int4 (oi_lineTotalMinor r.2))) rows
  then throw (DbError OUT_OF_RANGE)
  else if existsb (fun r => (oi_quantity r.2 <? 1) || (50 <? oi_quantity r.2)) rows then
    throw (DbError CHECK_VIOLATION)
  else if bool_decide (NoDup ((orderItems db).*1 ++ rows.*1)) then
    writes (fun db => with_orderItems (orderItems db ++ rows) db)
  else throw (DbError UNIQUE_VIOLATION).

Definition optionRows (ids : NewIds) (lines : list PricedLine) : list OrderItemOptionRow :=
  mjoin (imap (fun index line => (fun o => {|
    oio_orderItemId := ni_line ids index;
    oio_optionId := ps_optionId o;
    oio_groupNameSnapshot := ps_groupNameSnapshot o;
    oio_optionNameSnapshot := ps_optionNameSnapshot o;
    oio_priceDeltaMinorSnapshot := ps_priceDeltaMinorSnapshot o |}) <$> pl_options line) lines).

Definition insertOrderItemOptions (rows : list OrderItemOptionRow) : txM unit :=
  match rows with
  | [] => mret tt
  | _ => writes (fun db => with_orderItemOptions (orderItemOptions db ++ rows) db)
  end.

(** ** The response *)

Definition toView (orderId : string) (order : OrderRow) (priced : PricedOrder) : OrderView := {|
  v_id := orderId;
  v_orderNumber := o_orderNumber order;
  v_status := o_status order;
  v_channel := o_channel order;
  v_businessDay := o_businessDay order;
  v_customerName := o_customerName order;
  v_expiresAt := o_expiresAt order;
  v_items := (fun line => {|
    lv_nameSnapshot := pl_nameSnapshot line;
    lv_unitPriceMinor := pl_unitPriceMinorSnapshot line;
    lv_quantity := pl_quantity line;
    lv_lineTotalMinor := pl_lineTotalMinor line;
    lv_notes := pl_notes line;
    lv_options := (fun o => {|
      ov_group := ps_groupNameSnapshot o; ov_name := ps_optionNameSnapshot o;
      ov_priceDeltaMinor := ps_priceDeltaMinorSnapshot o |}) <$> pl_options line |})
    <$> po_lines priced;
  v_subtotalMinor := o_subtotalMinor order;
  v_vatMinor := o_vatMinor order;
  v_totalMinor := o_totalMinor order;
  v_currency := o_currency order |}.

Section create.
Context (config : Config) (tzOffset : string → Z → Z) (sha256 : string → string).

(** The channel is the principal's; a kiosk may not park, nor order while paused. *)
Definition resolveChannel (principal : Principal) (input : CreateOrderInput)
    : txM OrderChannel :=
  let expected := match principal with DevicePrincipal _ => KIOSK | _ => COUNTER end in
  if negb (bool_decide (in_channel input = expected)) then
    throw (OrderChannelMismatchError (in_channel input) expected)
  else
    match principal with
    | StaffPrincipal _ _ => mret expected
    | DevicePrincipal deviceId =>
        if isDraft input then throw OrderDraftNotAllowedError
        else
          status ← reads (fun db => kioskDevices db !! deviceId);
          if bool_decide (status = Some DevPAUSED) then throw DevicePausedError
          else mret expected
    end.

(** The order row before its queue number is claimed. *)
Definition newOrderRow (principal : Principal) (channel : OrderChannel)
    (input : CreateOrderInput) (priced : PricedOrder) (now createdAt : Z)
    (number : option string) : OrderRow := {|
  o_orderNumber := number;
  o_businessDay := businessDayOf tzOffset now (BUSINESS_TIMEZONE config)
                     (BUSINESS_DAY_START_HOUR config);
  o_channel := channel;
  o_status := if isDraft input then DRAFT else PENDING_PAYMENT;
  o_kioskDeviceId := match principal with DevicePrincipal d => Some d | _ => None end;
  o_createdByUserId := match principal with StaffPrincipal u _ => Some u | _ => None end;
  o_customerName := mjoin (in_customerName input);
  o_subtotalMinor := po_subtotalMinor priced;
  o_vatMinor := po_vatMinor priced;
  o_totalMinor := po_totalMinor priced;
  o_currency := CURRENCY config;
  o_expiresAt := if isDraft input then None
                 else Some (now + ORDER_EXPIRY_SECONDS config * 1000);
  o_createdAt := createdAt |}.

Definition persist (principal : Principal) (channel : OrderChannel)
    (input : CreateOrderInput) (priced : PricedOrder) (now : Z) (ids : NewIds)
    : txM OrderView :=
  let businessDay := businessDayOf tzOffset now (BUSINESS_TIMEZONE config)
                       (BUSINESS_DAY_START_HOUR config) in
  number ← (if isDraft input then mret None
            else n ← nextOrderNumber businessDay; mret (Some n));
  order ← insertOrder (ni_order ids)
    (newOrderRow principal channel input priced now (ni_createdAt ids) number);
  _ ← insertOrderItems (lineRows ids (po_lines priced));
  _ ← insertOrderItemOptions (optionRows ids (po_lines priced));
  _ ← insertHistory {|
    h_orderId := ni_order ids; h_fromStatus := None; h_toStatus := o_status order;
    h_actorType := ta_actorType (actorOf principal);
    h_actorId := ta_actorId (actorOf principal); h_reason := None |};
  mret (toView (ni_order ids) order priced).

Definition build (principal : Principal) (input : CreateOrderInput) (now : Z)
    (ids : NewIds) : txM OrderView :=
  channel ← resolveChannel principal input;
  catalog ← reads (fun db => readCatalog db (ri_menuItemId <$> in_items input));
  match priceOrder (in_items input) catalog (VAT_BASIS_POINTS config) with
  | Err e => throw e
  | Ok priced =>
      match in_expectedTotalMinor input with
      | Some expected =>
          if bool_decide (expected = po_totalMinor priced) then
            persist principal channel input priced now ids
          else throw (PriceMismatchError expected (po_totalMinor priced))
      | None => persist principal channel input priced now ids
      end
  end.

(** The transaction of [create]: reservation, work and stored response together. *)
Definition createWork (principal : Principal) (input : CreateOrderInput)
    (keyed : option (string * string)) (now : Z) (ids : NewIds) : txM OrderView :=
  _ ← reserveIfKeyed keyed (keyExpiry now);
  view ← build principal input now ids;
  _ ← completeIfKeyed keyed (OrderBody view);
  mret view.

(** [OrdersService.create]; Answers the response and whether it is a replay. *)
Definition createOrder (principal : Principal) (input : CreateOrderInput)
    (idempotencyKey : option string) (now : Z) (ids : NewIds) : prog (ResponseBody * bool) :=
  let keyed := (fun k => (k, hashRequest sha256 (scopeOf principal) (inputObject input))) <$> idempotencyKey in
  inTransaction (createWork principal input keyed now ids) (fun r =>
    match r with
    | Ok (view, _) => Emit (OrdersCreated (v_channel view)) (Return (OrderBody view, false))
    | Err e =>
        match isKeyAlreadyReserved e, keyed with
        | true, Some (key, requestHash) =>
            Read (fun db => replayKey db key requestHash) (fun stored =>
              match stored with
              | Ok order => Return (order, true)
              | Err e => Throw e
              end)
        | _, _ => Throw e
        end
    end).
End create.
