(* ===== verification/OrderDoors.v ===== *)
(** * OrderDoors: the other ways an order moves

    [orders/checkout/checkout-order.service.ts],
    [orders/state/order-status.service.ts],
    [orders/cancel/cancel-order.service.ts] and
    [orders/expiry/order-expiry.service.ts]. Each reads first and writes behind
    the guarded transition, so what it read may be stale by then. *)

From S2P Require Import Prelude Text Schema Errors Program OrderState Transition CreateOrder.

(** What the order routes answer with: the id and the row after the move. *)
Definition OrderSummary : Type := string * OrderRow.

(** [findFirst({ where: eq(orders.id, orderId), columns })]. *)
Definition statusOf (db : Database) (orderId : string) : option OrderStatus :=
  o_status <$> orders db !! orderId.

Definition statusAndDay (db : Database) (orderId : string) : option (OrderStatus * string) :=
  (fun o => (o_status o, o_businessDay o)) <$> orders db !! orderId.

(** ** Checkout *)

Definition queued (number : string) (expiresAt : Z) (o : OrderRow) : OrderRow := {|
  o_orderNumber := Some number; o_businessDay := o_businessDay o;
  o_channel := o_channel o; o_status := o_status o;
  o_kioskDeviceId := o_kioskDeviceId o; o_createdByUserId := o_createdByUserId o;
  o_customerName := o_customerName o; o_subtotalMinor := o_subtotalMinor o;
  o_vatMinor := o_vatMinor o; o_totalMinor := o_totalMinor o;
  o_currency := o_currency o; o_expiresAt := Some expiresAt;
  o_createdAt := o_createdAt o |}.

(** The guarded move first; the number and the window only once it has won. *)
Definition checkoutWork (config : Config) (principal : Principal) (orderId businessDay : string)
    (now : Z) : txM OrderSummary :=
  updated ← transitionOrder orderId DRAFT PENDING_PAYMENT (actorOf principal) None;
  number ← nextOrderNumber businessDay;
  let row := queued number (now + ORDER_EXPIRY_SECONDS config * 1000) updated in
  db ← reads id;
  if numberTaken db row then throw (DbError UNIQUE_VIOLATION)
  else
    _ ← writes (fun db => with_orders (<[orderId := row]> (orders db)) db);
    mret (orderId, row).

Definition checkout (config : Config) (principal : Principal) (orderId : string) (now : Z)
    : prog OrderSummary :=
  Read (fun db => statusAndDay db orderId)
    (fun current : option (OrderStatus * string) =>
      match current with
      | None => Throw (ResourceNotFoundError "order" orderId)
      | Some (status, businessDay) =>
          if negb (bool_decide (status = DRAFT)) then
            Throw (OrderInvalidTransitionError status PENDING_PAYMENT)
          else db_transaction (checkoutWork config principal orderId businessDay now)
      end).

(** ** The KDS route *)

Definition statusWork (principal : Principal) (orderId : string) (from to : OrderStatus)
    : txM OrderSummary :=
  updated ← transitionOrder orderId from to (actorOf principal) None;
  _ ← emit (if bool_decide (to = READY) then order_ready orderId (o_kioskDeviceId updated)
            else order_updated orderId (o_kioskDeviceId updated));
  mret (orderId, updated).

(** [OrderStatusService.transition]. *)
Definition transition (principal : Principal) (orderId : string) (to : OrderStatus)
    : prog OrderSummary :=
  Read (fun db => statusOf db orderId) (fun current : option OrderStatus =>
    match current with
    | None => Throw (ResourceNotFoundError "order" orderId)
    | Some status =>
        if negb (isStaffTransition status to) then
          Throw (OrderInvalidTransitionError status to)
        else afterCommit_run (statusWork principal orderId status to)
    end).

(** ** Payments still in flight *)

(** [LIVE]: the statuses [one_live_payment] covers. *)
Definition LIVE : list PaymentStatus := [PayPENDING; PayPROCESSING].

Definition isLive (p : PaymentRow) : bool := bool_decide (p_status p ∈ LIVE).

(** The rows of [SELECT ... WHERE order_id = :id AND status IN (LIVE)]. *)
Definition livePayments (db : Database) (orderId : string) : list (string * PaymentRow) :=
  filter (fun e => p_orderId e.2 = orderId ∧ isLive e.2 = true) (map_to_list (payments db)).

(** The first such row: its id and its intent. *)
Definition livePayment (db : Database) (orderId : string) : option (string * option string) :=
  (fun e => (e.1, p_providerIntentId e.2)) <$> head (livePayments db orderId).

Definition with_status (st : PaymentStatus) (p : PaymentRow) : PaymentRow := {|
  p_orderId := p_orderId p; p_provider := p_provider p;
  p_providerIntentId := p_providerIntentId p; p_method := p_method p; p_status := st;
  p_amountMinor := p_amountMinor p; p_currency := p_currency p;
  p_idempotencyKey := p_idempotencyKey p; p_cashTenderedMinor := p_cashTenderedMinor p;
  p_createdAt := p_createdAt p |}.

(** [UPDATE payments SET status WHERE id = :id], by primary key. *)
Definition setPaymentStatus (paymentId : string) (st : PaymentStatus) : txM unit :=
  writes (fun db => with_payments (alter (with_status st) paymentId (payments db)) db).

(** The same update guarded by [status NOT IN ('SUCCEEDED')]; the order id of the
    row it landed on, if it did. *)
Definition setUnsettledPayment (paymentId : string) (st : PaymentStatus) : txM (option string) :=
  db ← reads id;
  match payments db !! paymentId with
  | Some p =>
      if bool_decide (p_status p = PaySUCCEEDED) then mret None
      else
        _ ← writes (fun db => with_payments (<[paymentId := with_status st p]> (payments db)) db);
        mret (Some (p_orderId p))
  | None => mret None
  end.

(** ** Cancellation *)

Definition CANCELLABLE : list OrderStatus := [DRAFT; PENDING_PAYMENT].

Definition cancelWork (principal : Principal) (orderId : string) (from : OrderStatus)
    (reason : option string) (live : option (string * option string))
    : txM (OrderSummary * bool) :=
  updated ← transitionOrder orderId from CANCELLED (actorOf principal) reason;
  landed ← match live return txM (option string) with
           | None => mret None
           | Some (paymentId, _) => setUnsettledPayment paymentId PayCANCELLED
           end;
  _ ← emit (order_updated orderId (o_kioskDeviceId updated));
  mret ((orderId, updated), bool_decide (is_Some landed)).

Definition cancelMove (principal : Principal) (orderId : string) (from : OrderStatus)
    (reason : option string) (live : option (string * option string)) : prog OrderSummary :=
  mbind (fun r : OrderSummary * bool =>
    let '(summary, cancelledPayment) := r in
    if cancelledPayment then Emit (PaymentsMetric STRIPE PayCANCELLED) (Return summary)
    else Return summary)
    (afterCommit_run (cancelWork principal orderId from reason live)).

(** A device sees only its own orders. *)
Definition ownOrder (principal : Principal) (o : OrderRow) : bool :=
  match principal with
  | DevicePrincipal deviceId => bool_decide (o_kioskDeviceId o = Some deviceId)
  | StaffPrincipal _ _ => true
  end.

(** The status of an order this principal may see. *)
Definition ownStatus (db : Database) (principal : Principal) (orderId : string)
    : option OrderStatus :=
  o ← orders db !! orderId;
  if ownOrder principal o then Some (o_status o) else None.

Definition cancelUnavailable : AppError :=
  DependencyUnavailableError
    "The payment gateway could not be reached to cancel this order. Try again shortly.".

(** [CancelOrderService.cancel]: the gateway is asked before the order moves, and
    its answer can call the cancellation off. *)
Definition cancel (principal : Principal) (orderId : string) (reason : option string)
    : prog OrderSummary :=
  Read (fun db => ownStatus db principal orderId) (fun current : option OrderStatus =>
    match current with
    | None => Throw (ResourceNotFoundError "order" orderId)
    | Some status =>
        if negb (bool_decide (status ∈ CANCELLABLE)) then
          Throw (OrderInvalidTransitionError status CANCELLED)
        else
          Read (fun db => livePayment db orderId) (fun live =>
            match live with
            | Some (_, Some intentId) =>
                Ask (cancelIntent intentId) (fun outcome =>
                  match outcome with
                  | Err _ => Throw cancelUnavailable
                  | Ok ALREADY_SUCCEEDED => Throw OrderAlreadyPaidError
                  | Ok IntentCANCELLED => cancelMove principal orderId status reason live
                  end)
            | _ => cancelMove principal orderId status reason live
            end)
    end).

(** ** Expiry *)

Definition MAX_PER_TICK : nat := 200.

Definition expireWork (orderId : string) (live : option (string * option string)) : txM unit :=
  _ ← transitionOrder orderId PENDING_PAYMENT EXPIRED systemActor None;
  match live with
  | None => mret tt
  | Some (paymentId, _) => setPaymentStatus paymentId PayCANCELLED
  end.

(** The transaction of [expireOne] and what follows it; any failure is a [false]. *)
Definition expireMove (orderId : string) (live : option (string * option string)) : prog bool :=
  inTransaction (expireWork orderId live) (fun r =>
    match r with
    | Err _ => Return false
    | Ok _ =>
        match live with
        | Some _ => Emit (PaymentsMetric STRIPE PayCANCELLED) (Return true)
        | None => Return true
        end
    end).

Definition expireOne (orderId : string) : prog bool :=
  Read (fun db => livePayment db orderId) (fun live =>
    match live with
    | Some (_, Some intentId) =>
        Ask (cancelIntent intentId) (fun outcome =>
          match outcome with
          | Err _ => Return false
          | Ok ALREADY_SUCCEEDED => Return false
          | Ok IntentCANCELLED => expireMove orderId live
          end)
    | _ => expireMove orderId live
    end).

(** The ids of [WHERE status = 'PENDING_PAYMENT' AND expires_at < now LIMIT 200]. *)
Definition overdue (now : Z) (db : Database) : list string :=
  take MAX_PER_TICK (fst <$> filter (fun e =>
    o_status e.2 = PENDING_PAYMENT ∧
    match o_expiresAt e.2 with Some t => t <? now | None => false end = true) (map_to_list (orders db))).

Fixpoint expireEach (ids : list string) (expired : Z) : prog Z :=
  match ids with
  | [] => Return expired
  | id :: ids =>
      one ← expireOne id;
      expireEach ids (if one : bool then expired + 1 else expired)
  end.

Definition expireOverdue (now : Z) : prog Z :=
  Read (overdue now) (fun ids => expireEach ids 0).
