(* ===== verification/Gateway.v ===== *)
(** * Gateway: the payment port and its Stripe adapter

    [payments/provider/payment-provider.ts] and
    [payments/provider/stripe-payment.provider.ts]. The Stripe SDK is a
    parameter: a record of the calls the adapter makes, each answering or
    failing. The port is the class the rest of the pipeline is written against:
    what a stored payload means ([interpret]) and the network calls
    ([Program.Gateway]). *)

From S2P Require Import Prelude Text Schema Errors Program.
From Stdlib Require Import Ascii.

(** ** The port *)

(** What an event means to the order pipeline. The intent id and the amount are
    the payload's own values, compared against our rows and never trusted. *)
Inductive GatewayOutcome :=
| GwSUCCEEDED (intentId amountMinor : Json) (currency : string)
| GwFAILED (intentId reason : Json)
| GwCANCELLED (intentId : Json)
| GwIGNORED.

Class PaymentPort := interpret : Json → result AppError GatewayOutcome.

(** ** Reading a Stripe event *)

Definition upperChar (c : ascii) : ascii :=
  let n := N_of_ascii c in
  if ((97 <=? n) && (n <=? 122))%N then ascii_of_N (n - 32) else c.

Fixpoint toUpperCase (s : string) : string :=
  match s with EmptyString => "" | String c s => String (upperChar c) (toUpperCase s) end.

Definition lowerChar (c : ascii) : ascii :=
  let n := N_of_ascii c in
  if ((65 <=? n) && (n <=? 90))%N then ascii_of_N (n + 32) else c.

Fixpoint toLowerCase (s : string) : string :=
  match s with EmptyString => "" | String c s => String (lowerChar c) (toLowerCase s) end.

(** [typeof j === 'object' && j !== null]. *)
Definition isObject (j : Json) : bool :=
  match j with JObj _ | JArr _ => true | _ => false end.

Definition isString (j : Json) : bool := match j with JStr _ => true | _ => false end.

(** Enough of an event to switch on: a [type], and a [data.object] to read. *)
Definition hasEventShape (payload : Json) : bool :=
  isObject payload && isString (json_get "type" payload) &&
  isObject (json_get "data" payload) &&
  isObject (json_get "object" (json_get "data" payload)).

(** [a?.message ?? null]. *)
Definition errorMessage (lastError : Json) : Json :=
  match lastError with
  | JUndefined | JNull => JNull
  | e => match json_get "message" e with JUndefined => JNull | m => m end
  end.

(** The default is IGNORED. A [currency] that is not a string has no
    [toUpperCase] to call and throws. *)
Definition toOutcome (payload : Json) : result AppError GatewayOutcome :=
  if negb (hasEventShape payload) then Ok GwIGNORED
  else
    let intent := json_get "object" (json_get "data" payload) in
    match json_get "type" payload with
    | JStr "payment_intent.succeeded" =>
        match json_get "currency" intent with
        | JStr currency =>
            Ok (GwSUCCEEDED (json_get "id" intent) (json_get "amount_received" intent)
                  (toUpperCase currency))
        | _ => Err (JsError "intent.currency.toUpperCase is not a function")
        end
    | JStr "payment_intent.payment_failed" =>
        Ok (GwFAILED (json_get "id" intent)
              (errorMessage (json_get "last_payment_error" intent)))
    | JStr "payment_intent.canceled" => Ok (GwCANCELLED (json_get "id" intent))
    | _ => Ok GwIGNORED
    end.

#[export] Instance stripePort : PaymentPort := toOutcome.

(** ** The SDK *)

Inductive StripeErrorType :=
| StripeConnectionError | StripeAPIError | StripeRateLimitError
| StripeInvalidRequestError | StripeOtherError.

#[export] Instance StripeErrorType_eq_dec : EqDecision StripeErrorType.
Proof. solve_decision. Defined.

(** Its class, and the HTTP status the gateway answered with, if it answered. *)
Record StripeError := { sx_type : StripeErrorType; sx_statusCode : option Z }.

Inductive LatestCharge :=
| NoCharge
| ChargeId (id : string)
| ExpandedCharge (methodType : option string).

Record StripeIntent := {
  si_id : string; si_status : string; si_amountReceived : Z;
  si_clientSecret : option string; si_latestCharge : LatestCharge }.

Record StripeEvent := {
  se_id : string; se_type : string; se_created : Z; se_payload : Json }.

Record StripeClient := {
  pi_create : Z → string → option string → string → result StripeError StripeIntent;
  pi_cancel : string → result StripeError unit;
  pi_retrieve : string → result StripeError StripeIntent;
  constructEvent : string → string → string → result StripeError StripeEvent }.

Record GatewayEvent := {
  ge_eventId : string; ge_type : string; ge_createdAt : Z; ge_payload : Json }.

(** ** The adapter *)

Section adapter.
Context (stripe : StripeClient) (secrets : list string).

Definition UNREACHABLE (e : StripeError) : bool :=
  match sx_type e with
  | StripeConnectionError | StripeAPIError | StripeRateLimitError => true
  | _ => false
  end.

(** Stripe failing to answer is a 503; a refusal is left alone. *)
Definition gateway {A} (call : result StripeError A) : result AppError A :=
  match call with
  | Ok a => Ok a
  | Err e =>
      if UNREACHABLE e then
        Err (DependencyUnavailableError
          "The payment gateway could not be reached. Try again shortly, or pay at the counter.")
      else Err (GatewayFault (sx_statusCode e) "refused")
  end.

Definition secretOf (intent : StripeIntent) : result AppError string :=
  match si_clientSecret intent with
  | None => Err (JsError "Stripe returned no client secret")
  | Some s => Ok s
  end.

Definition stripe_createIntent (amountMinor : Z) (currency : string)
    (idempotencyKey : option string) (orderId : string) : result AppError CreatedIntent :=
  intent ← gateway (pi_create stripe amountMinor (toLowerCase currency) idempotencyKey orderId);
  secret ← secretOf intent;
  Ok {| ci_intentId := si_id intent; ci_clientSecret := secret |}.

(** The outcome of a refused cancel is decided by re-reading the intent. *)
Definition stripe_cancelIntent (intentId : string) : result AppError CancelIntentOutcome :=
  match pi_cancel stripe intentId with
  | Ok _ => Ok IntentCANCELLED
  | Err e =>
      if negb (bool_decide (sx_type e = StripeInvalidRequestError)) then Err (GatewayFault (sx_statusCode e) "cancel")
      else
        match pi_retrieve stripe intentId with
        | Err e' => Err (GatewayFault (sx_statusCode e') "retrieve")
        | Ok intent =>
            if bool_decide (si_status intent = "succeeded") then Ok ALREADY_SUCCEEDED
            else if bool_decide (si_status intent = "canceled") then Ok IntentCANCELLED
            else Err (GatewayFault (sx_statusCode e) "cancel")
        end
  end.

Definition stripe_clientSecretFor (intentId : string) : result AppError string :=
  intent ← gateway (pi_retrieve stripe intentId);
  secretOf intent.

(** [METHOD_BY_STRIPE_TYPE]. *)
Definition methodByStripeType (t : string) : option PaymentMethod :=
  if bool_decide (t = "card") then Some CARD
  else if bool_decide (t = "promptpay") then Some PROMPTPAY
  else None.

(** Best effort: anything that goes wrong is [null]. *)
Definition stripe_resolveMethod (intentId : string) : option PaymentMethod :=
  match pi_retrieve stripe intentId with
  | Err _ => None
  | Ok intent =>
      match si_latestCharge intent with
      | ExpandedCharge (Some t) => methodByStripeType t
      | _ => None
      end
  end.

(** One unreachable intent fails the whole total. *)
Fixpoint capturedLoop (intentIds : list string) (acc : CapturedTotal)
    : result AppError CapturedTotal :=
  match intentIds with
  | [] => Ok acc
  | id :: ids =>
      match pi_retrieve stripe id with
      | Err e => Err (GatewayFault (sx_statusCode e) "retrieve")
      | Ok intent =>
          capturedLoop ids
            (if bool_decide (si_status intent = "succeeded") then
               {| ct_totalMinor := ct_totalMinor acc + si_amountReceived intent;
                  ct_notCaptured := ct_notCaptured acc |}
             else
               {| ct_totalMinor := ct_totalMinor acc;
                  ct_notCaptured := ct_notCaptured acc ++ [id] |})
      end
  end.

Definition stripe_capturedTotalFor (intentIds : list string) : result AppError CapturedTotal :=
  capturedLoop intentIds {| ct_totalMinor := 0; ct_notCaptured := [] |}.

(** Every configured secret is tried, newest first, before giving up. *)
Fixpoint verifyWith (tried : list string) (rawBody signature : string)
    : result AppError StripeEvent :=
  match tried with
  | [] => Err WebhookSignatureInvalidError
  | secret :: rest =>
      match constructEvent stripe rawBody signature secret with
      | Ok event => Ok event
      | Err _ => verifyWith rest rawBody signature
      end
  end.

Definition verify (rawBody signature : string) : result AppError StripeEvent :=
  verifyWith secrets rawBody signature.

(** Verification, then the same [interpret] the replay path uses. *)
Definition parseWebhook (rawBody signature : string)
    : result AppError (GatewayEvent * GatewayOutcome) :=
  event ← verify rawBody signature;
  outcome ← toOutcome (se_payload event);
  Ok ({| ge_eventId := se_id event; ge_type := se_type event;
         ge_createdAt := se_created event * 1000; ge_payload := se_payload event |}, outcome).

(** The network half of the port, spoken to Stripe. *)
Definition stripeGateway : Gateway := fun call =>
  match call with
  | createIntent amount currency key orderId => stripe_createIntent amount currency key orderId
  | cancelIntent id => stripe_cancelIntent id
  | clientSecretFor id => stripe_clientSecretFor id
  | resolveMethod id => stripe_resolveMethod id
  | capturedTotalFor ids => stripe_capturedTotalFor ids
  end.
End adapter.
