(* ===== verification/Webhooks.v ===== *)
(** * Webhooks: the inbox and the processor that drains it

    [payments/webhooks/webhook-inbox.service.ts],
    [payments/webhooks/stripe-webhook.controller.ts],
    [payments/webhooks/decide-payment-outcome.ts] and
    [payments/webhooks/payment-event-processor.service.ts]. The processor reads
    the event, the payment and the order in separate statements, judges what it
    read, and writes behind guards. *)

From S2P Require Import Prelude Text Schema Errors Program OrderState Transition OrderDoors.
From S2P Require Import Gateway.

(** ** The decision *)

Record PaymentRecord := {
  pr_id : string; pr_orderId : string; pr_amountMinor : Z; pr_currency : string;
  pr_status : PaymentStatus }.

Record OrderRecord := { or_id : string; or_status : OrderStatus }.

(** Why an event changes nothing; the code puts it in a log line. *)
Inductive Why :=
| NotActedOn | NoPaymentRow | AlreadyInStatus | ContradictsSettled
| AmountMismatch | CurrencyMismatch | OrderMissing | OrderAlreadyPaid | OrderElsewhere.

Inductive PaymentDecision :=
| MARK_PAID (paymentId orderId : string)
| MARK_PAYMENT (paymentId : string) (status : PaymentStatus)
| SKIP (why : Why)
| REFUSE (why : Why).

(** [SETTLED]: payment states no later event may move. *)
Definition SETTLED : list PaymentStatus := [PaySUCCEEDED].

Definition decideSuccess (amountMinor : Json) (currency : string) (payment : PaymentRecord)
    (order : option OrderRecord) : PaymentDecision :=
  if negb (match amountMinor with JNum n => pr_amountMinor payment =? n | _ => false end) then
    REFUSE AmountMismatch
  else if negb (bool_decide (pr_currency payment = currency)) then REFUSE CurrencyMismatch
  else
    match order with
    | None => REFUSE OrderMissing
    | Some order =>
        if bool_decide (or_status order = PAID) then SKIP OrderAlreadyPaid
        else if negb (bool_decide (or_status order = PENDING_PAYMENT)) then REFUSE OrderElsewhere
        else MARK_PAID (pr_id payment) (or_id order)
    end.

Definition decidePaymentOutcome (outcome : GatewayOutcome) (payment : option PaymentRecord)
    (order : option OrderRecord) : PaymentDecision :=
  match outcome with
  | GwIGNORED => SKIP NotActedOn
  | _ =>
      match payment with
      | None => REFUSE NoPaymentRow
      | Some payment =>
          match outcome with
          | GwSUCCEEDED _ amountMinor currency => decideSuccess amountMinor currency payment order
          | _ =>
              let status := match outcome with GwFAILED _ _ => PayFAILED | _ => PayCANCELLED end in
              if bool_decide (pr_status payment = status) then SKIP AlreadyInStatus
              else if bool_decide (pr_status payment ∈ SETTLED) then REFUSE ContradictsSettled
              else MARK_PAYMENT (pr_id payment) status
          end
      end
  end.

(** ** The inbox *)

(** [INSERT ... ON CONFLICT (provider_event_id) DO NOTHING RETURNING id]; the row
    id is [None] for a redelivery. *)
Definition recordEvent (rowId : string) (event : GatewayEvent) (now : Z) (db : Database)
    : Database * result AppError (option string) :=
  if bool_decide (map_Exists (fun _ row => pe_providerEventId row = ge_eventId event)
      (paymentEvents db)) then (db, Ok None)
  else if bool_decide (is_Some (paymentEvents db !! rowId)) then
    (db, Err (DbError UNIQUE_VIOLATION))
  else
    (with_paymentEvents (<[rowId := {|
       pe_providerEventId := ge_eventId event; pe_eventType := ge_type event;
       pe_paymentId := None; pe_payload := ge_payload event;
       pe_receivedAt := now; pe_processedAt := None;
       pe_payloadTrimmedAt := None |}]> (paymentEvents db)) db,
     Ok (Some rowId)).

(** [StripeWebhookController.receive]: verify, store, kick the processor, ack. *)
Definition receive (stripe : StripeClient) (secrets : list string)
    (rawBody signature : option string) (rowId : string) (now : Z) : prog unit :=
  match rawBody with
  | None => Throw (JsError "No raw body on the webhook request")
  | Some rawBody =>
      match signature with
      | None => Throw WebhookSignatureInvalidError
      | Some signature =>
          match parseWebhook stripe secrets rawBody signature with
          | Err e => Throw e
          | Ok (event, _) =>
              Step (recordEvent rowId event now) (fun stored =>
                match stored with
                | Err e => Throw e
                | Ok None => Return tt
                | Ok (Some id) => Emit (KickProcessor id) (Return tt)
                end)
          end
      end
  end.

(** ** The processor *)

Definition MAX_EVENTS_PER_TICK : nat := 100.

(** Stamps an unprocessed row and back-fills its payment; [false] if already stamped. *)
Definition markProcessed (eventId : string) (paymentId : option string) (now : Z) : txM bool :=
  db ← reads id;
  match paymentEvents db !! eventId with
  | Some row =>
      match pe_processedAt row with
      | Some _ => mret false
      | None =>
          _ ← writes (fun db => with_paymentEvents (<[eventId := {|
                pe_providerEventId := pe_providerEventId row; pe_eventType := pe_eventType row;
                pe_paymentId := match paymentId with
                                | Some p => Some p
                                | None => pe_paymentId row end;
                pe_payload := pe_payload row; pe_receivedAt := pe_receivedAt row;
                pe_processedAt := Some now; pe_payloadTrimmedAt := pe_payloadTrimmedAt row |}]> (paymentEvents db)) db);
          mret true
      end
  | None => mret false
  end.

(** The payload of an event nobody has processed yet. *)
Definition pendingPayload (db : Database) (eventId : string) : option Json :=
  row ← paymentEvents db !! eventId;
  match pe_processedAt row with None => Some (pe_payload row) | Some _ => None end.

Definition outcomeIntent (outcome : GatewayOutcome) : option Json :=
  match outcome with
  | GwSUCCEEDED id _ _ | GwFAILED id _ | GwCANCELLED id => Some id
  | GwIGNORED => None
  end.

(** [payments.findFirst({ where: eq(provider_intent_id, intentId) })]; an intent id
    is a string, and anything else names no row. *)
Definition paymentByIntent (db : Database) (intentId : Json) : option PaymentRecord :=
  match intentId with
  | JStr id =>
      (fun e => {| pr_id := e.1; pr_orderId := p_orderId e.2;
                   pr_amountMinor := p_amountMinor e.2; pr_currency := p_currency e.2;
                   pr_status := p_status e.2 |})
      <$> head (filter (fun e => p_providerIntentId e.2 = Some id) (map_to_list (payments db)))
  | _ => None
  end.

Definition orderRecord (db : Database) (orderId : string) : option OrderRecord :=
  (fun o => {| or_id := orderId; or_status := o_status o |}) <$> orders db !! orderId.

(** Our own side of the event: the payment it names, and its order. *)
Definition load {R} (outcome : GatewayOutcome)
    (k : option PaymentRecord → option OrderRecord → prog R) : prog R :=
  match outcomeIntent outcome with
  | None => k None None
  | Some intentId =>
      Read (fun db => paymentByIntent db intentId) (fun payment =>
        match payment with
        | None => k None None
        | Some p => Read (fun db => orderRecord db (pr_orderId p)) (fun order => k payment order)
        end)
  end.

Definition markPaymentWork (eventId paymentId : string) (status : PaymentStatus) (now : Z)
    : txM bool :=
  settled ← setUnsettledPayment paymentId status;
  stamped ← markProcessed eventId (Some paymentId) now;
  _ ← match settled with
      | Some orderId =>
          if bool_decide (status = PayFAILED) then
            order ← reads (fun db => orders db !! orderId);
            match order with
            | Some o => emit (payment_failed orderId (o_kioskDeviceId o) paymentId)
            | None => mret tt
            end
          else mret tt
      | None => mret tt
      end;
  mret (bool_decide (is_Some settled) && (stamped : bool)).

(** [SET status = 'SUCCEEDED', ...(method === null ? {} : { method })]. *)
Definition succeeded (method : option PaymentMethod) (p : PaymentRow) : PaymentRow := {|
  p_orderId := p_orderId p; p_provider := p_provider p;
  p_providerIntentId := p_providerIntentId p;
  p_method := match method with Some m => Some m | None => p_method p end;
  p_status := PaySUCCEEDED;
  p_amountMinor := p_amountMinor p; p_currency := p_currency p;
  p_idempotencyKey := p_idempotencyKey p; p_cashTenderedMinor := p_cashTenderedMinor p;
  p_createdAt := p_createdAt p |}.

Definition markPaidWork (eventId paymentId orderId : string) (method : option PaymentMethod)
    (now : Z) : txM unit :=
  updated ← transitionOrder orderId PENDING_PAYMENT PAID systemActor None;
  _ ← writes (fun db => with_payments (alter (succeeded method) paymentId (payments db)) db);
  _ ← markProcessed eventId (Some paymentId) now;
  _ ← emit (order_paid orderId (o_kioskDeviceId updated));
  emit (payment_succeeded orderId (o_kioskDeviceId updated) paymentId).

Definition intentOf (db : Database) (paymentId : string) : option string :=
  p ← payments db !! paymentId; p_providerIntentId p.

Definition markPaid (eventId paymentId orderId : string) (now : Z) : prog bool :=
  Read (fun db => intentOf db paymentId) (fun intentId =>
    let finish (method : option PaymentMethod) :=
      _ ← afterCommit_run (markPaidWork eventId paymentId orderId method now);
      Emit (PaymentsMetric STRIPE PaySUCCEEDED) (Return true) in
    match intentId with
    | None => finish None
    | Some id => Ask (resolveMethod id) finish
    end).

Section processor.
Context `{port : PaymentPort}.

(** One stored event, from its payload to the writes it calls for. *)
Definition apply (eventId : string) (now : Z) : prog bool :=
  Read (fun db => pendingPayload db eventId) (fun event =>
    match event with
    | None => Return false
    | Some payload =>
        match interpret payload with
        | Err e => Throw e
        | Ok outcome =>
            load outcome (fun payment order =>
              match decidePaymentOutcome outcome payment order with
              | REFUSE _ => Return false
              | SKIP _ =>
                  _ ← db_transaction (markProcessed eventId (pr_id <$> payment) now);
                  Return false
              | MARK_PAYMENT paymentId status =>
                  landed ← afterCommit_run (markPaymentWork eventId paymentId status now);
                  if (landed : bool) then Emit (PaymentsMetric STRIPE status) (Return true)
                  else Return true
              | MARK_PAID paymentId orderId => markPaid eventId paymentId orderId now
              end)
        end
    end).

(** Never throws: a lost race is silent, anything else is counted. *)
Definition processEvent (eventId : string) (now : Z) : prog bool :=
  after (apply eventId now) (fun r =>
    match r with
    | Ok b => Return b
    | Err e => if isLostRace e then Return false
               else Emit WebhookProcessingFailure (Return false)
    end).

Definition unprocessed (db : Database) : list string :=
  take MAX_EVENTS_PER_TICK (fst <$> filter (fun e => pe_processedAt e.2 = None)
    (map_to_list (paymentEvents db))).

Fixpoint processEach (ids : list string) (applied : Z) (now : Z) : prog Z :=
  match ids with
  | [] => Return applied
  | id :: ids =>
      b ← processEvent id now;
      processEach ids (if b : bool then applied + 1 else applied) now
  end.

Definition drainInbox (now : Z) : prog Z :=
  Read unprocessed (fun ids => processEach ids 0 now).
End processor.
