(* ===== verification/CreatePayment.v ===== *)
(** * CreatePayment: [payments/create/create-payment.service.ts]

    Opening a payment: the payability checks, cash settled in one transaction,
    the gateway's intent created before its row, and the idempotent write both
    share. [insertPayment] carries the constraints of [database/schema/payments.ts];
    its [catch] reads on another connection, after the transaction is doomed, and
    is the step that follows the rollback. *)

From S2P Require Import Prelude Text Schema Errors Program OrderState Transition Idempotency.
From S2P Require Import CreateOrder OrderDoors.

Record CreatePaymentInput := {
  cp_method : PaymentMethod;
  cp_cashTenderedMinor : option Z }.

Definition methodText (method : PaymentMethod) : string :=
  match method with CARD => "CARD" | PROMPTPAY => "PROMPTPAY" | CASH => "CASH" end.

(** The request as the object that is hashed. *)
Definition paymentObject (input : CreatePaymentInput) : Json := JObj [
  ("method", JStr (methodText (cp_method input)));
  ("cashTenderedMinor", undefinedOr JNum (cp_cashTenderedMinor input))].

(** The columns of a payable order the rest of the request works from. *)
Record PayableOrder := { po_id : string; po_total : Z; po_currency : string }.

(** ** The insert *)

Definition intentTaken (db : Database) (row : PaymentRow) : bool :=
  match p_providerIntentId row with
  | None => false
  | Some i => bool_decide (map_Exists (fun _ p => p_providerIntentId p = Some i) (payments db))
  end.

Definition keyTaken (db : Database) (row : PaymentRow) : bool :=
  match p_idempotencyKey row with
  | None => false
  | Some k => bool_decide (map_Exists (fun _ p => p_idempotencyKey p = Some k) (payments db))
  end.

(** [one_live_payment]: the partial unique index on the order of a live payment. *)
Definition liveTaken (db : Database) (row : PaymentRow) : bool :=
  isLive row && bool_decide (map_Exists (fun _ p =>
    p_orderId p = p_orderId row ∧ isLive p = true) (payments db)).

Definition insertPayment (paymentId : string) (row : PaymentRow) : txM string :=
  db ← reads id;
  if negb (int4 (p_amountMinor row) && int4 (default 0 (p_cashTenderedMinor row))) then
    throw (DbError OUT_OF_RANGE)
  else if p_amountMinor row <=? 0 then throw (DbError CHECK_VIOLATION)
  else if bool_decide (is_Some (payments db !! paymentId)) || intentTaken db row
          || keyTaken db row || liveTaken db row then
    throw (DbError UNIQUE_VIOLATION)
  else if bool_decide (orders db !! p_orderId row = None) then
    throw (DbError FOREIGN_KEY_VIOLATION)
  else
    _ ← writes (fun db => with_payments (<[paymentId := row]> (payments db)) db);
    mret paymentId.

(** ** The idempotent write *)

(** The stored copy drops the client secret. *)
Definition redacted (view : PaymentView) : PaymentView := {|
  pv_id := pv_id view; pv_status := pv_status view; pv_method := pv_method view;
  pv_amountMinor := pv_amountMinor view; pv_currency := pv_currency view;
  pv_provider := pv_provider view; pv_clientSecret := None |}.

Definition with_secret (secret : string) (view : PaymentView) : PaymentView := {|
  pv_id := pv_id view; pv_status := pv_status view; pv_method := pv_method view;
  pv_amountMinor := pv_amountMinor view; pv_currency := pv_currency view;
  pv_provider := pv_provider view; pv_clientSecret := Some secret |}.

(** [SELECT provider_intent_id FROM payments WHERE id]. *)
Definition paymentIntent (db : Database) (paymentId : string) : option string :=
  p ← payments db !! paymentId; p_providerIntentId p.

(** Only an unsettled gateway payment needs its secret asked for again. *)
Definition rehydrate (body : ResponseBody) : prog ResponseBody :=
  match body with
  | OrderBody _ => Return body
  | PaymentBody view =>
      if negb (bool_decide (pv_provider view = STRIPE)) ||
         negb (bool_decide (pv_status view = PayPENDING)) then Return body
      else
        Read (fun db => paymentIntent db (pv_id view)) (fun intentId =>
          match intentId with
          | None => Return body
          | Some intentId =>
              Ask (clientSecretFor intentId) (fun secret =>
                match secret with
                | Ok s => Return (PaymentBody (with_secret s view))
                | Err e => Throw e
                end)
          end)
  end.

#[global] Arguments rehydrate : simpl never.

(** The transaction of [write]: reservation, work and redacted response together. *)
Definition writeWork (keyed : option (string * string)) (now : Z) (work : txM PaymentView)
    : txM PaymentView :=
  _ ← reserveIfKeyed keyed (keyExpiry now);
  view ← work;
  _ ← completeIfKeyed keyed (PaymentBody (redacted view));
  mret view.

(** The payment that won the race, if it is still live. *)
Definition liveWinner (db : Database) (orderId : string) : option string :=
  fst <$> livePayment db orderId.

Definition write (keyed : option (string * string)) (orderId : string) (now : Z)
    (work : txM PaymentView) : prog (ResponseBody * bool) :=
  after (afterCommit_run (writeWork keyed now work)) (fun r =>
    match r with
    | Ok view => Return (PaymentBody view, false)
    | Err e =>
        if isUniqueViolation e then
          Read (fun db => liveWinner db orderId) (fun winner =>
            Throw (PaymentAlreadyActiveError (default orderId winner)))
        else
          match isKeyAlreadyReserved e, keyed with
          | true, Some (key, requestHash) =>
              Read (fun db => replayKey db key requestHash) (fun stored =>
                match stored with
                | Ok body => view ← rehydrate body; Return (view, true)
                | Err e => Throw e
                end)
          | _, _ => Throw e
          end
    end).

#[global] Arguments writeWork : simpl never.
#[global] Arguments write : simpl never.

(** ** Reading the order *)

Definition findOrder (db : Database) (orderId : string) : option OrderRow := orders db !! orderId.

Definition loadPayableOrder {R} (principal : Principal) (orderId : string)
    (k : PayableOrder → prog R) : prog R :=
  Read (fun db => findOrder db orderId) (fun order =>
    match order with
    | None => Throw (ResourceNotFoundError "order" orderId)
    | Some order =>
        if negb (ownOrder principal order) then Throw (ResourceNotFoundError "order" orderId)
        else if bool_decide (o_status order = EXPIRED) then Throw OrderExpiredError
        else if negb (bool_decide (o_status order = PENDING_PAYMENT)) then
          Throw (OrderNotPayableError (o_status order))
        else
          Read (fun db => livePayment db orderId) (fun live =>
            match live with
            | Some (paymentId, _) => Throw (PaymentAlreadyActiveError paymentId)
            | None => k {| po_id := orderId; po_total := o_totalMinor order;
                           po_currency := o_currency order |}
            end)
    end).

(** ** Cash *)

Definition cashRow (order : PayableOrder) (tendered : Z) (key : option string) (now : Z)
    : PaymentRow := {|
  p_orderId := po_id order; p_provider := CASH_DRAWER; p_providerIntentId := None;
  p_method := Some CASH; p_status := PaySUCCEEDED; p_amountMinor := po_total order;
  p_currency := po_currency order; p_idempotencyKey := key;
  p_cashTenderedMinor := Some tendered; p_createdAt := now |}.

Definition cashWork (userId paymentId : string) (order : PayableOrder) (tendered : Z)
    (key : option string) (now : Z) : txM PaymentView :=
  id ← insertPayment paymentId (cashRow order tendered key now);
  updated ← transitionOrder (po_id order) PENDING_PAYMENT PAID
              {| ta_actorType := USER; ta_actorId := Some userId |} None;
  _ ← emit (order_paid (po_id order) (o_kioskDeviceId updated));
  mret {| pv_id := id; pv_status := PaySUCCEEDED; pv_method := Some CASH;
          pv_amountMinor := po_total order; pv_currency := po_currency order;
          pv_provider := CASH_DRAWER; pv_clientSecret := None |}.

Definition takeCash (principal : Principal) (order : PayableOrder) (input : CreatePaymentInput)
    (keyed : option (string * string)) (paymentId : string) (now : Z)
    : prog (ResponseBody * bool) :=
  match principal with
  | DevicePrincipal _ => Throw CashPaymentNotAllowedError
  | StaffPrincipal userId _ =>
      match cp_cashTenderedMinor input with
      | None => Throw (CashTenderInsufficientError 0 (po_total order))
      | Some tendered =>
          if tendered <? po_total order then
            Throw (CashTenderInsufficientError tendered (po_total order))
          else
            after (write keyed (po_id order) now
                     (cashWork userId paymentId order tendered (fst <$> keyed) now))
              (fun r =>
                match r with
                | Ok (body, false) =>
                    Emit (PaymentsMetric CASH_DRAWER PaySUCCEEDED) (Return (body, false))
                | Ok (body, true) => Return (body, true)
                | Err e => Throw e
                end)
      end
  end.

(** ** The gateway *)

Definition intentRow (order : PayableOrder) (intentId : string) (key : option string) (now : Z)
    : PaymentRow := {|
  p_orderId := po_id order; p_provider := STRIPE; p_providerIntentId := Some intentId;
  p_method := None; p_status := PayPENDING; p_amountMinor := po_total order;
  p_currency := po_currency order; p_idempotencyKey := key;
  p_cashTenderedMinor := None; p_createdAt := now |}.

Definition intentWork (paymentId : string) (order : PayableOrder) (intent : CreatedIntent)
    (key : option string) (now : Z) : txM PaymentView :=
  id ← insertPayment paymentId (intentRow order (ci_intentId intent) key now);
  mret {| pv_id := id; pv_status := PayPENDING; pv_method := None;
          pv_amountMinor := po_total order; pv_currency := po_currency order;
          pv_provider := STRIPE; pv_clientSecret := Some (ci_clientSecret intent) |}.

(** The intent first, then the row: an abandoned intent charges nobody. *)
Definition openGatewayPayment (order : PayableOrder) (keyed : option (string * string))
    (paymentId : string) (now : Z) : prog (ResponseBody * bool) :=
  Ask (createIntent (po_total order) (po_currency order) (fst <$> keyed) (po_id order))
    (fun created =>
      match created with
      | Err e => Throw e
      | Ok intent =>
          write keyed (po_id order) now (intentWork paymentId order intent (fst <$> keyed) now)
      end).

(** ** The request *)

Definition paymentScope (principal : Principal) (orderId : string) : string :=
  scopeOf principal +:+ ":payments:" +:+ orderId.

Definition payFor (principal : Principal) (orderId : string) (input : CreatePaymentInput)
    (keyed : option (string * string)) (paymentId : string) (now : Z)
    : prog (ResponseBody * bool) :=
  loadPayableOrder principal orderId (fun order =>
    if bool_decide (cp_method input = CASH) then
      takeCash principal order input keyed paymentId now
    else openGatewayPayment order keyed paymentId now).

(** [CreatePaymentService.create]: an answered key is replayed before anything is
    validated. *)
Definition createPayment (sha256 : string → string) (principal : Principal) (orderId : string)
    (input : CreatePaymentInput) (idempotencyKey : option string)
    (paymentId : string) (now : Z) : prog (ResponseBody * bool) :=
  match (fun k => (k, hashRequest sha256 (paymentScope principal orderId) (paymentObject input)))
        <$> idempotencyKey with
  | None => payFor principal orderId input None paymentId now
  | Some (key, requestHash) =>
      Read (fun db => completedResponseFor db key) (fun answered =>
        match answered with
        | Some (storedHash, stored) =>
            if negb (bool_decide (storedHash = requestHash)) then Throw IdempotencyConflictError
            else view ← rehydrate stored; Return (view, true)
        | None => payFor principal orderId input (Some (key, requestHash)) paymentId now
        end)
  end.
