(* ===== verification/Fingerprint.v ===== *)
(** * Fingerprint: what a request's hash determines

    [canonicalize] of [orders/idempotency/request-hash.ts] is an injective
    serialisation: the text that is hashed determines the caller's scope and the
    request, up to the order of object keys and absent properties. The proof
    splits [canonicalize] into a normal form, which sorts and drops, and a plain
    printer, and shows that printed values can be told apart in any context. *)

From S2P Require Import Prelude Text Schema Pricing Idempotency CreateOrder CreatePayment.
From Stdlib Require Import Ascii.

(** ** Normal form and printer *)

(** Keys sorted and absent properties dropped, at every depth. *)
Fixpoint normalize (value : Json) : Json :=
  match value with
  | JArr elems => JArr (map normalize elems)
  | JObj entries => JObj (sortEntries (concat (map (fun '(key, entry) =>
      if isUndefined entry then [] else [(key, normalize entry)]) entries)))
  | leaf => leaf
  end.

Fixpoint print (value : Json) : string :=
  match value with
  | JUndefined => ""
  | JNull => "null"
  | JBool b => if b then "true" else "false"
  | JNum n => pretty n
  | JStr s => jsonString s
  | JArr elems => "[" +:+ joinWith "," (map print elems) +:+ "]"
  | JObj entries =>
      "{" +:+ joinWith "," (map (fun '(key, entry) =>
        jsonString key +:+ ":" +:+ print entry) entries) +:+ "}"
  end.

(** A value that can come out of a parsed body: [undefined] only as a property. *)
Fixpoint onTheWire (value : Json) : bool :=
  match value with
  | JUndefined => false
  | JArr elems => forallb onTheWire elems
  | JObj entries => forallb (fun '(_, entry) => isUndefined entry || onTheWire entry) entries
  | _ => true
  end.

Fixpoint defined (value : Json) : bool :=
  match value with
  | JUndefined => false
  | JArr elems => forallb defined elems
  | JObj entries => forallb (fun '(_, entry) => defined entry) entries
  | _ => true
  end.

Section json_induction.
Context (P : Json → Prop).
Context (Hleaf : ∀ j, match j with JArr _ | JObj _ => True | _ => P j end).
Context (Harr : ∀ l, Forall P l → P (JArr l)).
Context (Hobj : ∀ es, Forall (fun e => P e.2) es → P (JObj es)).

Lemma json_induction : ∀ j, P j.
Proof.
  fix IH 1. intros j. destruct j as [| | | | |l|es]; try exact (Hleaf _).
  - exact (Hleaf JUndefined).
  - exact (Hleaf JNull).
  - exact (Hleaf (JBool b)).
  - exact (Hleaf (JNum n)).
  - exact (Hleaf (JStr s)).
  - apply Harr. induction l as [|x l IHl]; constructor; [apply IH|exact IHl].
  - apply Hobj. induction es as [|[k x] es IHl]; constructor; [apply IH|exact IHl].
Qed.
End json_induction.

(** Sorting looks at keys only. *)
Lemma insertEntry_map {A B} (f : A → B) e l :
  insertEntry (prod_map id f e) (prod_map id f <$> l) = prod_map id f <$> insertEntry e l.
Proof.
  destruct e as [k x]. induction l as [|[k' x'] l IH]; [done|]. simpl.
  destruct (String.leb k k'); [done|]. rewrite fmap_cons. by f_equal.
Qed.

Lemma sortEntries_map {A B} (f : A → B) l :
  sortEntries (prod_map id f <$> l) = prod_map id f <$> sortEntries l.
Proof.
  induction l as [|e l IH]; [done|].
  change (insertEntry (prod_map id f e) (sortEntries (prod_map id f <$> l)) =
    prod_map id f <$> insertEntry e (sortEntries l)).
  by rewrite IH, insertEntry_map.
Qed.

Lemma insertEntry_Permutation {A} (e : string * A) l : insertEntry e l ≡ₚ e :: l.
Proof.
  induction l as [|e' l IH]; simpl; [done|]. destruct (String.leb _ _); [done|].
  rewrite IH. apply Permutation_swap.
Qed.

Lemma sortEntries_Permutation {A} (l : list (string * A)) : sortEntries l ≡ₚ l.
Proof. induction l as [|e l IH]; simpl; [done|]. by rewrite insertEntry_Permutation, IH. Qed.

(** What is kept of an object's entries. *)
Definition kept {A} (f : Json → A) (entries : list (string * Json)) : list (string * A) :=
  concat (map (fun '(key, entry) => if isUndefined entry then [] else [(key, f entry)]) entries).

Lemma kept_cons {A} (f : Json → A) e entries :
  kept f (e :: entries) = (if isUndefined e.2 then [] else [(e.1, f e.2)]) ++ kept f entries.
Proof. by destruct e. Qed.

Lemma kept_map {A B} (f : Json → A) (g : A → B) entries :
  prod_map id g <$> kept f entries = kept (g ∘ f) entries.
Proof.
  induction entries as [|e entries IH]; [done|]. rewrite !kept_cons, fmap_app, IH.
  by destruct (isUndefined e.2).
Qed.

Lemma kept_ext {A} (f g : Json → A) entries :
  Forall (fun e => f e.2 = g e.2) entries → kept f entries = kept g entries.
Proof. induction 1 as [|e entries He _ IH]; [done|]. by rewrite !kept_cons, IH, He. Qed.

Lemma kept_Forall {A} (f : Json → A) (P : A → Prop) entries :
  Forall (fun e => isUndefined e.2 = false → P (f e.2)) entries →
  Forall (fun e => P e.2) (kept f entries).
Proof.
  induction 1 as [|e entries He _ IH]; [constructor|]. rewrite kept_cons.
  destruct (isUndefined e.2); [done|]. constructor; auto.
Qed.

Lemma canonicalize_print : ∀ j, canonicalize j = print (normalize j).
Proof.
  apply json_induction; [by intros []|..].
  - intros l Hl. cbn [canonicalize normalize print]. do 3 f_equal. rewrite map_map.
    induction Hl as [|x l Hx _ IH]; simpl; [done|]. by rewrite Hx, IH.
  - intros es Hes. cbn [canonicalize normalize print].
    fold (kept canonicalize es) (kept normalize es). do 3 f_equal.
    rewrite (kept_ext canonicalize (print ∘ normalize)) by done.
    rewrite <-kept_map, sortEntries_map.
    generalize (sortEntries (kept normalize es)) as l.
    induction l as [|[k x] l IH]; [done|]. rewrite fmap_cons. simpl. by rewrite IH.
Qed.

Lemma normalize_defined : ∀ j, onTheWire j = true → defined (normalize j) = true.
Proof.
  apply (json_induction (fun j => onTheWire j = true → defined (normalize j) = true)).
  { by intros []. }
  - intros l Hl Hw. cbn in *. apply forallb_forall. intros x Hx.
    apply in_map_iff in Hx as (y & <- & Hy). rewrite forallb_forall in Hw.
    rewrite Forall_forall in Hl. apply Hl; [by apply list_elem_of_In|auto].
  - intros es Hes Hw. cbn [normalize defined] in *. fold (kept normalize es).
    assert (Forall (fun e => defined e.2 = true) (sortEntries (kept normalize es))) as Hd.
    { rewrite sortEntries_Permutation. apply (kept_Forall normalize (fun j => defined j = true)).
      rewrite Forall_forall in *.
      intros e He Hu. apply Hes; [done|]. cbn in Hw. rewrite forallb_forall in Hw.
      specialize (Hw e). destruct e as [k x]. simpl in *. apply list_elem_of_In, Hw in He.
      by rewrite Hu in He. }
    apply forallb_forall. intros [k x] Hx. rewrite Forall_forall in Hd.
    apply (Hd (k, x)). by apply list_elem_of_In.
Qed.

(** ** Printed values can be told apart in any context *)

Lemma string_app_assoc (s t u : string) : (s +:+ t) +:+ u = s +:+ (t +:+ u).
Proof.
  induction s as [|c s IH]; [done|].
  change (String c ((s +:+ t) +:+ u) = String c (s +:+ (t +:+ u))). by rewrite IH.
Qed.

(** The characters that may follow a value. *)
Definition isEnd (c : ascii) : bool := bool_decide (c = "," ∨ c = "]" ∨ c = "}")%char.

Definition ends (rest : string) : bool :=
  match rest with EmptyString => true | String c _ => isEnd c end.

Definition begins (s : string) : bool :=
  match s with EmptyString => false | String c _ => negb (isEnd c) end.

(** The text of [x] is not a proper prefix of another's, whatever follows. *)
Definition apart {A} (f : A → string) (Q : A → Prop) (x : A) : Prop :=
  ∀ y r1 r2, Q y → ends r1 = true → ends r2 = true → f x +:+ r1 = f y +:+ r2 → x = y ∧ r1 = r2.

(** *** Strings *)

(** Reads one code unit of a string literal. *)
Definition unescape (s : string) : option (ascii * string) :=
  match s with
  | EmptyString => None
  | String c s =>
      if bool_decide (c = "\"%char) then
        match s with
        | String "u" (String _ (String _ (String h (String l s)))) =>
            let hex (c : ascii) := (let n := N_of_ascii c in if n <? 58 then n - 48 else n - 87)%N in
            Some (ascii_of_N (16 * hex h + hex l), s)
        | String "b" s => Some (ascii_of_N 8, s)
        | String "t" s => Some (ascii_of_N 9, s)
        | String "n" s => Some (ascii_of_N 10, s)
        | String "f" s => Some (ascii_of_N 12, s)
        | String "r" s => Some (ascii_of_N 13, s)
        | String c s => Some (c, s)
        | EmptyString => None
        end
      else Some (c, s)
  end.

Lemma unescape_jsonChar c r : unescape (jsonChar c +:+ r) = Some (c, r).
Proof. destruct c as [[] [] [] [] [] [] [] []]; reflexivity. Qed.

Lemma jsonChar_opens c r r' : jsonChar c +:+ r ≠ String (ascii_of_N 34) r'.
Proof. destruct c as [[] [] [] [] [] [] [] []]; discriminate. Qed.

Lemma jsonChars_apart s : ∀ t r1 r2,
  jsonChars s +:+ String (ascii_of_N 34) r1 = jsonChars t +:+ String (ascii_of_N 34) r2 →
  s = t ∧ r1 = r2.
Proof.
  induction s as [|c s IH]; intros [|d t] r1 r2; cbn [jsonChars]; rewrite ?string_app_assoc; intros H.
  - by injection H as ->.
  - by destruct (jsonChar_opens d _ _ (eq_sym H)).
  - by destruct (jsonChar_opens c _ _ H).
  - apply (f_equal unescape) in H. rewrite !unescape_jsonChar in H.
    injection H as -> H. by destruct (IH t r1 r2 H) as [-> ->].
Qed.

Lemma jsonString_app s r :
  jsonString s +:+ r = String (ascii_of_N 34) (jsonChars s +:+ String (ascii_of_N 34) r).
Proof. unfold jsonString. by rewrite !string_app_assoc. Qed.

Lemma jsonString_apart s t r1 r2 :
  jsonString s +:+ r1 = jsonString t +:+ r2 → s = t ∧ r1 = r2.
Proof. rewrite !jsonString_app. intros H. injection H as H. by apply jsonChars_apart. Qed.

(** *** Numbers *)

Lemma digits_apart s : ∀ t acc1 acc2 r1 r2,
  is_Some (digits_acc s acc1) → is_Some (digits_acc t acc2) →
  ends r1 = true → ends r2 = true → s +:+ r1 = t +:+ r2 → s = t ∧ r1 = r2.
Proof.
  assert (∀ c s acc r r', ends r = true → is_Some (digits_acc (String c s) acc) →
    r ≠ String c r') as Hno.
  { intros c u acc r r' Hr Hd ->. unfold ends, isEnd in Hr.
    apply bool_decide_eq_true in Hr. cbn in Hd. destruct Hr as [-> | [-> | ->]]; by destruct Hd. }
  induction s as [|c s IH]; intros [|d t] acc1 acc2 r1 r2 Hs Ht H1 H2 H; simpl in H.
  - done.
  - by destruct (Hno d t acc2 r1 (t +:+ r2)).
  - by destruct (Hno c s acc1 r2 (s +:+ r1)).
  - injection H as -> H. cbn in Hs, Ht. destruct (digit_value d) as [x|]; [|by destruct Hs].
    destruct (IH t _ _ r1 r2 Hs Ht H1 H2 H) as [-> ->]. done.
Qed.

Lemma pretty_N_apart (m n : N) r1 r2 :
  ends r1 = true → ends r2 = true → pretty m +:+ r1 = pretty n +:+ r2 → m = n ∧ r1 = r2.
Proof.
  intros H1 H2 H. apply (digits_apart _ _ 0 0) in H as [H ->]; [|by rewrite digits_acc_pretty..|done|done].
  split; [|done]. by apply (inj pretty) in H.
Qed.

Lemma pretty_N_head (n : N) : ∃ c s d, pretty n = String c s ∧ digit_value c = Some d.
Proof.
  pose proof (digits_acc_pretty n) as H. destruct (pretty n) as [|c s] eqn:E.
  - by destruct n.
  - cbn in H. destruct (digit_value c) as [d|] eqn:Hd; [|done]. by exists c, s, d.
Qed.

Lemma pretty_Z_cases (n : Z) :
  (0 ≤ n ∧ pretty n = pretty (Z.to_N n)) ∨
  (n < 0 ∧ pretty n = String "-" (pretty (Z.to_N (- n)))).
Proof. destruct n; [left|left|right]; split; try lia; done. Qed.

Lemma pretty_Z_apart (m n : Z) r1 r2 :
  ends r1 = true → ends r2 = true → pretty m +:+ r1 = pretty n +:+ r2 → m = n ∧ r1 = r2.
Proof.
  assert (∀ (k : N) r r', pretty k +:+ r ≠ String "-" r') as Hd.
  { intros k r r' H. destruct (pretty_N_head k) as (c & s & d & E & Hc). rewrite E in H.
    by injection H as -> _. }
  intros H1 H2 H.
  destruct (pretty_Z_cases m) as [[Hm Em]|[Hm Em]], (pretty_Z_cases n) as [[Hn En]|[Hn En]];
    rewrite Em, En in H.
  - apply pretty_N_apart in H as [H ->]; [|done..]. split; [lia|done].
  - by destruct (Hd _ _ _ H).
  - by destruct (Hd _ _ _ (eq_sym H)).
  - injection H as H. apply pretty_N_apart in H as [H ->]; [|done..]. split; [lia|done].
Qed.

(** *** Lists *)

Fixpoint commas (l : list string) : string :=
  match l with [] => "" | s :: l => String "," (s +:+ commas l) end.

Lemma joinWith_commas s l : joinWith "," (s :: l) = s +:+ commas l.
Proof.
  revert s. induction l as [|t l IH]; intros s; cbn [joinWith commas].
  - induction s as [|c s IH]; [done|]. change (String c s = String c (s +:+ "")). by rewrite <-IH.
  - cbn [joinWith] in IH. by rewrite <-IH.
Qed.

Section lists.
Context {A : Type} (f : A → string) (Q : A → Prop) (close : ascii).
Context (Hclose : close = "]"%char ∨ close = "}"%char).
Context (Hbegins : ∀ x, Q x → begins (f x) = true).

Lemma commas_ends l r : ends (commas (map f l) +:+ String close r) = true.
Proof. destruct l; [|done]. by destruct Hclose as [-> | ->]. Qed.

Lemma commas_apart l1 : ∀ l2 r1 r2,
  Forall (apart f Q) l1 → Forall Q l2 →
  commas (map f l1) +:+ String close r1 = commas (map f l2) +:+ String close r2 →
  l1 = l2 ∧ r1 = r2.
Proof.
  assert (close ≠ ","%char) as Hc by by destruct Hclose as [-> | ->].
  induction l1 as [|x l1 IH]; intros [|y l2] r1 r2 H1 H2 H; cbn [map commas] in H.
  - by injection H as ->.
  - by injection H as Hx _.
  - by injection H as Hx _.
  - apply Forall_cons in H1 as [Hx H1], H2 as [Hy H2].
    change (String "," ((f x +:+ commas (map f l1)) +:+ String close r1) =
            String "," ((f y +:+ commas (map f l2)) +:+ String close r2)) in H.
    injection H as H. rewrite !string_app_assoc in H.
    apply Hx in H as [-> H]; [|done|apply commas_ends..].
    by apply IH in H as [-> ->].
Qed.

Lemma list_apart l1 l2 r1 r2 :
  Forall (apart f Q) l1 → Forall Q l1 → Forall Q l2 →
  joinWith "," (map f l1) +:+ String close r1 = joinWith "," (map f l2) +:+ String close r2 →
  l1 = l2 ∧ r1 = r2.
Proof.
  assert (∀ x l r r', Q x → (f x +:+ commas (map f l)) +:+ r ≠ String close r') as Hne.
  { intros x l r r' Hx H. specialize (Hbegins _ Hx). destruct (f x) as [|c s]; [done|].
    injection H as -> _. cbn in Hbegins. by destruct Hclose as [-> | ->]. }
  destruct l1 as [|x l1], l2 as [|y l2]; intros H1 HQ H2 H; cbn [map] in H;
    rewrite ?joinWith_commas in H.
  - by injection H as ->.
  - apply Forall_cons in H2 as [Hy _]. by destruct (Hne _ _ _ _ Hy (eq_sym H)).
  - apply Forall_cons in HQ as [Hx _]. by destruct (Hne _ _ _ _ Hx H).
  - apply (commas_apart (x :: l1) (y :: l2) r1 r2); [done..|].
    cbn [map commas].
    change (String "," ((f x +:+ commas (map f l1)) +:+ String close r1) =
            String "," ((f y +:+ commas (map f l2)) +:+ String close r2)). by rewrite H.
Qed.
End lists.

(** *** Values *)

(** The kind of value a first character announces. *)
Definition kindOf (c : ascii) : nat :=
  match c with
  | "n" => 1 | "t" => 2 | "f" => 3 | "034" => 4 | "[" => 5 | "{" => 6 | "," | "]" | "}" => 7
  | _ => 0
  end%char%nat.

Definition kind (value : Json) : nat :=
  match value with
  | JNull => 1 | JBool true => 2 | JBool false => 3 | JStr _ => 4 | JArr _ => 5 | JObj _ => 6
  | _ => 0
  end.

Lemma digit_kind c d : digit_value c = Some d → kindOf c = 0%nat.
Proof. destruct c as [[] [] [] [] [] [] [] []]; done. Qed.

Lemma print_head j : defined j = true → ∃ c s, print j = String c s ∧ kindOf c = kind j.
Proof.
  destruct j as [| |[]|n|s|l|es]; intros Hd; try done; try by eexists _, _.
  destruct (pretty_Z_cases n) as [[_ E]|[_ E]]; cbn [print]; rewrite E.
  - destruct (pretty_N_head (Z.to_N n)) as (c & s & d & -> & Hc).
    eexists _, _. split; [done|]. by eapply digit_kind.
  - by eexists _, _.
Qed.

Lemma print_begins j : defined j = true → begins (print j) = true.
Proof.
  intros Hd. destruct (print_head j Hd) as (c & s & -> & Hk). cbn. unfold isEnd.
  case_bool_decide as Hc; [|done]. destruct Hc as [-> | [-> | ->]]; by destruct j as [| |[]| | | |].
Qed.

Lemma print_kind j1 j2 r1 r2 :
  defined j1 = true → defined j2 = true → print j1 +:+ r1 = print j2 +:+ r2 → kind j1 = kind j2.
Proof.
  intros (c1 & s1 & -> & <-)%print_head (c2 & s2 & -> & <-)%print_head H. by injection H as ->.
Qed.

Definition printEntry (e : string * Json) : string := jsonString e.1 +:+ ":" +:+ print e.2.

Lemma print_arr l r :
  print (JArr l) +:+ r = String "[" (joinWith "," (map print l) +:+ String "]" r).
Proof. cbn [print]. by rewrite !string_app_assoc. Qed.

Lemma print_obj es r :
  print (JObj es) +:+ r = String "{" (joinWith "," (map printEntry es) +:+ String "}" r).
Proof.
  cbn [print]. rewrite !string_app_assoc.
  by replace (map printEntry es) with (map (fun '(key, entry) =>
    jsonString key +:+ ":" +:+ print entry) es) by (apply map_ext; by intros []).
Qed.

Lemma forallb_Forall {A} (f : A → bool) l : forallb f l = true ↔ Forall (fun x => f x = true) l.
Proof.
  rewrite forallb_forall, Forall_forall. split; intros H x Hx; apply H; by apply list_elem_of_In.
Qed.

Lemma printEntry_apart e :
  apart print (fun j => defined j = true) e.2 →
  apart printEntry (fun e => defined e.2 = true) e.
Proof.
  destruct e as [k j]. intros Hj [k' j'] r1 r2 Hd H1 H2 H. unfold printEntry in H. simpl in *.
  rewrite !string_app_assoc in H. apply jsonString_apart in H as [-> H].
  injection H as H. by apply Hj in H as [-> ->].
Qed.

Lemma printEntry_begins e : begins (printEntry e) = true.
Proof. by unfold printEntry. Qed.

Lemma defined_obj es : defined (JObj es) = true ↔ Forall (fun e => defined e.2 = true) es.
Proof.
  cbn. rewrite forallb_Forall. split; intros H; (eapply Forall_impl; [exact H|]); by intros [].
Qed.

(** Whatever follows it, a printed value reads back in one way only. *)
Lemma print_apart : ∀ j, defined j = true → apart print (fun j => defined j = true) j.
Proof.
  apply (json_induction (fun j => defined j = true → apart print (fun j => defined j = true) j)).
  - intros j. destruct j as [| |b|n|s|l|es]; try done;
      intros Hd j' r1 r2 Hd' H1 H2 H; pose proof (print_kind _ _ _ _ Hd Hd' H) as Hk.
    + destruct j' as [| |[]| | | |]; try done. by apply app_inj_length in H as [_ ->].
    + destruct b, j' as [| |[]| | | |]; try done; by apply app_inj_length in H as [_ ->].
    + destruct j' as [| |[]| | | |]; try done. by apply pretty_Z_apart in H as [-> ->].
    + destruct j' as [| |[]| | | |]; try done. by apply jsonString_apart in H as [-> ->].
  - intros l IH Hd j' r1 r2 Hd' H1 H2 H. pose proof (print_kind _ _ _ _ Hd Hd' H) as Hk.
    destruct j' as [| |[]| | |l'|]; try done. rewrite !print_arr in H. injection H as H.
    cbn in Hd, Hd'. rewrite forallb_Forall in Hd, Hd'.
    apply (list_apart print (fun j => defined j = true)) in H as [-> ->]; auto using print_begins.
    eapply Forall_impl; [exact (proj2 (Forall_and _ _) (conj IH Hd))|]. naive_solver.
  - intros es IH Hd j' r1 r2 Hd' H1 H2 H. pose proof (print_kind _ _ _ _ Hd Hd' H) as Hk.
    destruct j' as [| |[]| | | |es']; try done. rewrite !print_obj in H. injection H as H.
    rewrite defined_obj in Hd, Hd'.
    apply (list_apart printEntry (fun e => defined e.2 = true)) in H as [-> ->];
      auto using printEntry_begins.
    eapply Forall_impl; [exact (proj2 (Forall_and _ _) (conj IH Hd))|].
    intros e [He Hde]. by apply printEntry_apart, He.
Qed.

Lemma print_inj j1 j2 :
  defined j1 = true → defined j2 = true → print j1 = print j2 → j1 = j2.
Proof.
  intros H1 H2 H. apply (f_equal (fun s => s +:+ "")) in H.
  by apply (print_apart j1 H1 j2 "" "" H2) in H as [? _].
Qed.

(** The canonical text is as fine as the normal form, and no finer. *)
Lemma canonicalize_inj j1 j2 :
  onTheWire j1 = true → onTheWire j2 = true → canonicalize j1 = canonicalize j2 →
  normalize j1 = normalize j2.
Proof. rewrite !canonicalize_print. intros H1 H2. apply print_inj; by apply normalize_defined. Qed.

(** ** Requests *)

Lemma itemObject_wire item : onTheWire (itemObject item) = true.
Proof.
  cbn. rewrite andb_true_r. apply andb_true_intro; split.
  - induction (ri_optionIds item); [done|]. done.
  - by destruct (ri_notes item) as [[]|].
Qed.

Lemma inputObject_wire input : onTheWire (inputObject input) = true.
Proof.
  cbn. rewrite (proj2 (forallb_Forall _ _)).
  - by destruct (in_customerName input) as [[]|], (in_expectedTotalMinor input), (in_draft input).
  - apply Forall_fmap, Forall_true. apply itemObject_wire.
Qed.

Lemma normalize_texts ids : map normalize (JStr <$> ids) = JStr <$> ids.
Proof. induction ids as [|i ids IH]; [done|]. rewrite fmap_cons. simpl. by rewrite IH. Qed.

Lemma texts_inj (l1 l2 : list string) : JStr <$> l1 = JStr <$> l2 → l1 = l2.
Proof. apply list_fmap_eq_inj. intros s t H. by injection H. Qed.

Lemma itemObject_inj i1 i2 : normalize (itemObject i1) = normalize (itemObject i2) → i1 = i2.
Proof.
  destruct i1 as [m1 q1 o1 n1], i2 as [m2 q2 o2 n2]. unfold itemObject. simpl.
  destruct n1 as [[n1|]|], n2 as [[n2|]|]; simpl; rewrite !normalize_texts; intros H;
    try discriminate H; injection H; intros; simplify_eq; try done;
    f_equal; by apply texts_inj.
Qed.

Lemma items_inj l1 : ∀ l2,
  map normalize (itemObject <$> l1) = map normalize (itemObject <$> l2) → l1 = l2.
Proof.
  induction l1 as [|i l1 IH]; intros [|i2 l2] H; [done..|]. rewrite !fmap_cons in H.
  pose proof (f_equal (default JNull ∘ head) H) as Hi%itemObject_inj.
  pose proof (f_equal tail H) as Hl%IH. by subst.
Qed.

Lemma inputObject_inj i1 i2 : normalize (inputObject i1) = normalize (inputObject i2) → i1 = i2.
Proof.
  destruct i1 as [c1 l1 n1 t1 d1], i2 as [c2 l2 n2 t2 d2]. unfold inputObject. cbn [in_channel in_items
    in_customerName in_expectedTotalMinor in_draft]. intros H.
  assert (c1 = c2 ∧ map normalize (itemObject <$> l1) = map normalize (itemObject <$> l2) ∧
    n1 = n2 ∧ t1 = t2 ∧ d1 = d2) as (-> & ->%items_inj & -> & -> & ->); [|done].
  destruct n1 as [[n1|]|], t1, d1, n2 as [[n2|]|], t2, d2; try discriminate H; destruct c1, c2; try discriminate H; injection H; intros; by subst.
Qed.

Lemma paymentObject_wire input : onTheWire (paymentObject input) = true.
Proof. cbn. by destruct (cp_cashTenderedMinor input). Qed.

Lemma paymentObject_inj i1 i2 : normalize (paymentObject i1) = normalize (paymentObject i2) → i1 = i2.
Proof.
  destruct i1 as [m1 [t1|]], i2 as [m2 [t2|]]; intros H; try discriminate H;
    destruct m1, m2; try discriminate H; try done; injection H; intros; by subst.
Qed.

Lemma hashInput_inj scope1 scope2 j1 j2 :
  onTheWire j1 = true → onTheWire j2 = true → hashInput scope1 j1 = hashInput scope2 j2 →
  scope1 = scope2 ∧ normalize j1 = normalize j2.
Proof. intros H1 H2 [-> H]%hashInput_split. split; [done|]. by apply canonicalize_inj. Qed.

Lemma order_text_inj scope1 scope2 i1 i2 :
  hashInput scope1 (inputObject i1) = hashInput scope2 (inputObject i2) →
  scope1 = scope2 ∧ i1 = i2.
Proof.
  intros [Hs H]%hashInput_inj; [|apply inputObject_wire..]. by apply inputObject_inj in H.
Qed.

(** C38. A fingerprint stands for one request of one caller: the text hashed for
    an order determines the caller's scope and every field of the basket, the text
    hashed for a payment the scope (caller and order) and every field of the
    request, and no text is hashed for both. So, but for a SHA-256 collision, a key never
    answers a request other than the one it was first used with. *)
Theorem fingerprint_faithful p1 p2 :
  (∀ i1 i2, hashInput (scopeOf p1) (inputObject i1) = hashInput (scopeOf p2) (inputObject i2) →
    scopeOf p1 = scopeOf p2 ∧ i1 = i2) ∧
  (∀ o1 o2 i1 i2, hashInput (paymentScope p1 o1) (paymentObject i1) =
      hashInput (paymentScope p2 o2) (paymentObject i2) →
    paymentScope p1 o1 = paymentScope p2 o2 ∧ i1 = i2) ∧
  (∀ o i1 i2, hashInput (scopeOf p1) (inputObject i1) ≠
      hashInput (paymentScope p2 o) (paymentObject i2)).
Proof.
  split_and!.
  - intros i1 i2. apply order_text_inj.
  - intros o1 o2 i1 i2 [Hs H]%hashInput_inj; [|apply paymentObject_wire..].
    by apply paymentObject_inj in H.
  - intros o i1 i2 [_ H]%hashInput_inj; [|apply inputObject_wire|apply paymentObject_wire].
    destruct i1 as [[] ? [[]|] [] []], i2 as [[] []]; discriminate H.
Qed.
