(* ===== verification/Refunds.v ===== *)
(** * Refunds: [payments/refunds/create-refund.service.ts],
    [payments/query/order-payments.service.ts] and
    [payments/reconciliation/reconciliation.service.ts] *)

From S2P Require Import Prelude Text Schema Errors Program OrderState Transition BusinessDay.
From S2P Require Import CreateOrder OrderDoors CreatePayment.

(** ** Refunds *)

Record CreateRefundInput := { cr_amountMinor : Z; cr_reason : string }.

Record RefundView := {
  rv_id : string; rv_paymentId : string; rv_amountMinor : Z; rv_reason : string;
  rv_status : RefundStatus; rv_fullyRefunded : bool }.

(** The part of [r] that counts against payment [paymentId]. *)
Definition refundOf (paymentId : string) (r : RefundRow) : Z :=
  if bool_decide (r_paymentId r = paymentId) then r_amountMinor r else 0.

(** [COALESCE(SUM(amount_minor), 0) WHERE payment_id]. *)
Definition refundedTotal (db : Database) (paymentId : string) : Z :=
  sum_map (refundOf paymentId) (refunds db).

Definition insertRefund (refundId : string) (row : RefundRow) : txM unit :=
  db ← reads id;
  if negb (int4 (r_amountMinor row)) then throw (DbError OUT_OF_RANGE)
  else if r_amountMinor row <=? 0 then throw (DbError CHECK_VIOLATION)
  else if bool_decide (is_Some (refunds db !! refundId)) then throw (DbError UNIQUE_VIOLATION)
  else if bool_decide (payments db !! r_paymentId row = None) then
    throw (DbError FOREIGN_KEY_VIOLATION)
  else writes (fun db => with_refunds (<[refundId := row]> (refunds db)) db).

Definition refundRow (userId paymentId : string) (input : CreateRefundInput) : RefundRow := {|
  r_paymentId := paymentId; r_providerRefundId := None;
  r_amountMinor := cr_amountMinor input; r_reason := cr_reason input;
  r_status := RefSUCCEEDED; r_initiatedByUserId := userId |}.

(** The transaction: the sum is read behind the payment's row lock. *)
Definition refundWork (userId refundId paymentId orderId : string) (orderStatus : OrderStatus)
    (amountMinor : Z) (input : CreateRefundInput) : txM RefundView :=
  already ← reads (fun db => refundedTotal db paymentId);
  let remaining := amountMinor - already in
  if remaining <? cr_amountMinor input then
    throw (RefundExceedsRemainingError (cr_amountMinor input) remaining)
  else
    _ ← insertRefund refundId (refundRow userId paymentId input);
    let fullyRefunded := already + cr_amountMinor input =? amountMinor in
    _ ← when fullyRefunded
      (updated ← transitionOrder orderId orderStatus REFUNDED
                   {| ta_actorType := USER; ta_actorId := Some userId |}
                   (Some (cr_reason input));
       emit (order_updated orderId (o_kioskDeviceId updated)));
    mret {| rv_id := refundId; rv_paymentId := paymentId;
            rv_amountMinor := cr_amountMinor input; rv_reason := cr_reason input;
            rv_status := RefSUCCEEDED; rv_fullyRefunded := fullyRefunded |}.

Definition findPayment (db : Database) (paymentId : string) : option PaymentRow :=
  payments db !! paymentId.

Section refund.
Context (config : Config) (tzOffset : string → Z → Z).

Definition businessDayAt (now : Z) : string :=
  businessDayOf tzOffset now (BUSINESS_TIMEZONE config) (BUSINESS_DAY_START_HOUR config).

(** [CreateRefundService.refund]. *)
Definition refund (userId refundId paymentId : string) (input : CreateRefundInput) (now : Z)
    : prog RefundView :=
  Read (fun db => findPayment db paymentId) (fun payment =>
    match payment with
    | None => Throw (ResourceNotFoundError "payment" paymentId)
    | Some payment =>
        if negb (bool_decide (p_status payment = PaySUCCEEDED)) then
          Throw (PaymentNotRefundableError "only a SUCCEEDED payment can be refunded")
        else
          Read (fun db => findOrder db (p_orderId payment)) (fun order =>
            match order with
            | None => Throw (ResourceNotFoundError "order" (p_orderId payment))
            | Some order =>
                if negb (bool_decide (o_businessDay order = businessDayAt now)) then
                  Throw (PaymentNotRefundableError "refunds are same-day only")
                else
                  afterCommit_run (refundWork userId refundId paymentId (p_orderId payment)
                    (o_status order) (p_amountMinor payment) input)
            end)
    end).

(** ** Reconciliation *)

Record ReconciliationReport := {
  rr_businessDay : string; rr_gatewayCapturedMinor : Z; rr_dbRecordedMinor : Z;
  rr_deltaMinor : Z; rr_unmatchedEvents : list string; rr_notCaptured : list string }.

(** The captured gateway payments of the orders of a day. *)
Definition recordedOn (db : Database) (businessDay : string) : list (option string * Z) :=
  omap (fun e : string * PaymentRow =>
    order ← orders db !! p_orderId e.2;
    if bool_decide (o_businessDay order = businessDay ∧ p_provider e.2 = STRIPE ∧
                    p_status e.2 = PaySUCCEEDED)
    then Some (p_providerIntentId e.2, p_amountMinor e.2) else None)
    (map_to_list (payments db)).

(** The provider ids of inbox rows nobody has acted on. *)
Definition unmatched (db : Database) : list string :=
  (fun e => pe_providerEventId e.2) <$>
    filter (fun e => pe_processedAt e.2 = None) (map_to_list (paymentEvents db)).

Definition reconcile (businessDay : string) : prog ReconciliationReport :=
  Read (fun db => recordedOn db businessDay) (fun recorded =>
    let dbRecordedMinor := foldl (fun total row => total + row.2) 0 recorded in
    let intentIds := omap fst recorded in
    Ask (capturedTotalFor intentIds) (fun captured =>
      match captured with
      | Err e => Throw e
      | Ok total =>
          Read unmatched (fun events =>
            Return {|
              rr_businessDay := businessDay;
              rr_gatewayCapturedMinor := ct_totalMinor total;
              rr_dbRecordedMinor := dbRecordedMinor;
              rr_deltaMinor := ct_totalMinor total - dbRecordedMinor;
              rr_unmatchedEvents := events;
              rr_notCaptured := ct_notCaptured total |})
      end)).

(** A run that could not reach the gateway is a failure, never a delta of zero. *)
Definition reconcileYesterday (now : Z) : prog (option ReconciliationReport) :=
  after (reconcile (businessDayAt (now - 24 * 60 * 60 * 1000))) (fun r =>
    match r with
    | Ok report => Emit (ReconciliationRun (Some (rr_deltaMinor report))) (Return (Some report))
    | Err _ => Emit (ReconciliationRun None) (Return None)
    end).
End refund.

(** ** The attempts behind an order *)

Record PaymentAttemptView := {
  pa_id : string; pa_status : PaymentStatus; pa_method : option PaymentMethod;
  pa_amountMinor : Z; pa_currency : string; pa_provider : Provider;
  pa_providerIntentId : option string; pa_cashTenderedMinor : option Z; pa_createdAt : Z }.

Definition toAttempt (e : string * PaymentRow) : PaymentAttemptView := {|
  pa_id := e.1; pa_status := p_status e.2; pa_method := p_method e.2;
  pa_amountMinor := p_amountMinor e.2; pa_currency := p_currency e.2;
  pa_provider := p_provider e.2; pa_providerIntentId := p_providerIntentId e.2;
  pa_cashTenderedMinor := p_cashTenderedMinor e.2; pa_createdAt := p_createdAt e.2 |}.

Definition byCreatedAt (a b : string * PaymentRow) : Prop := p_createdAt a.2 ≤ p_createdAt b.2.
#[export] Instance byCreatedAt_dec : RelDecision byCreatedAt.
Proof. intros a b. unfold byCreatedAt. apply _. Defined.

Definition paymentsOf (db : Database) (orderId : string) : list PaymentAttemptView :=
  toAttempt <$> merge_sort byCreatedAt
    (filter (fun e => p_orderId e.2 = orderId) (map_to_list (payments db))).

(** [OrderPaymentsService.listFor]. *)
Definition listFor (principal : Principal) (orderId : string)
    : prog (list PaymentAttemptView) :=
  Read (fun db => findOrder db orderId) (fun order =>
    match order with
    | None => Throw (ResourceNotFoundError "order" orderId)
    | Some order =>
        if negb (ownOrder principal order) then Throw (ResourceNotFoundError "order" orderId)
        else Read (fun db => paymentsOf db orderId) (fun rows => Return rows)
    end).
