(* ===== verification/JsonText.v ===== *)
(** * JsonText: [JSON.parse]

    The grammar of ECMA-404 as the platform reads it, over text in UTF-8. The
    order cursor ([orders/query/cursor.ts]) and the revocation messages
    ([identity/revocation/revocation.service.ts]) are read with it. A number keeps its lexeme, since
    no reader of the program uses one. What [JSON.stringify] writes is read
    back ([parse_print]). *)

From S2P Require Import Prelude Text Schema Idempotency Fingerprint.
From Stdlib Require Import Ascii.

Inductive JsonValue :=
| VNull
| VBool (b : bool)
| VNum (lexeme : string)
| VStr (s : string)
| VArr (elems : list JsonValue)
| VObj (members : list (string * JsonValue)).

(** ** Lexical level *)

Definition isJsonSpace (c : ascii) : bool :=
  let n := N_of_ascii c in ((n =? 32) || (n =? 9) || (n =? 10) || (n =? 13))%N.

Fixpoint skipSpace (s : string) : string :=
  match s with
  | EmptyString => ""
  | String c s' => if isJsonSpace c then skipSpace s' else s
  end.

Definition hexValue (c : ascii) : option N :=
  let n := N_of_ascii c in
  (if (48 <=? n) && (n <=? 57) then Some (n - 48)
   else if (97 <=? n) && (n <=? 102) then Some (n - 87)
   else if (65 <=? n) && (n <=? 70) then Some (n - 55)
   else None)%N.

Definition hex4 (a b c d : ascii) : option N :=
  x ← hexValue a; y ← hexValue b; z ← hexValue c; w ← hexValue d;
  Some (4096 * x + 256 * y + 16 * z + w)%N.

(** UTF-8 of a code point (a lone surrogate takes three bytes as well). *)
Definition utf8 (n : N) : string :=
  let byte (k : N) (rest : string) := String (ascii_of_N k) rest in
  (if n <? 128 then byte n ""
   else if n <? 2048 then byte (192 + n / 64) (byte (128 + n mod 64) "")
   else if n <? 65536 then
     byte (224 + n / 4096) (byte (128 + n / 64 mod 64) (byte (128 + n mod 64) ""))
   else byte (240 + n / 262144) (byte (128 + n / 4096 mod 64)
          (byte (128 + n / 64 mod 64) (byte (128 + n mod 64) ""))))%N.

(** The escapes of one character after the backslash. *)
Definition shortEscape (c : ascii) : option ascii :=
  match c with
  | "034" => Some "034" | "\" => Some "\" | "/" => Some "/"
  | "b" => Some (ascii_of_N 8) | "t" => Some (ascii_of_N 9) | "n" => Some (ascii_of_N 10)
  | "f" => Some (ascii_of_N 12) | "r" => Some (ascii_of_N 13)
  | _ => None
  end%char.

(** The code point of a surrogate pair, [u] being its first half and the six
    characters the escape of the second. *)
Definition surrogatePair (u : N) (b1 b2 l1 l2 l3 l4 : ascii) : option N :=
  if (b1 =? "\")%char && (b2 =? "u")%char then
    l ← hex4 l1 l2 l3 l4;
    if ((55296 <=? u) && (u <=? 56319) && (56320 <=? l) && (l <=? 57343))%N
    then Some (65536 + 1024 * (u - 55296) + (l - 56320))%N else None
  else None.

(** Adds what was read to the front of the rest of the literal. *)
Definition prepend (t : string) (rest : option (string * string)) : option (string * string) :=
  '(t', r) ← rest; Some (t +:+ t', r).

(** The rest of a string literal, after its opening quote: its value, and what
    follows the closing quote. *)
Fixpoint scanString (s : string) : option (string * string) :=
  match s with
  | EmptyString => None
  | String c s1 =>
      if (c =? "034")%char then Some ("", s1)
      else if (c =? "\")%char then
        match s1 with
        | EmptyString => None
        | String e s2 =>
            if (e =? "u")%char then
              match s2 with
              | String h1 (String h2 (String h3 (String h4 s3))) =>
                  u ← hex4 h1 h2 h3 h4;
                  match s3 with
                  | String b1 (String b2 (String l1 (String l2 (String l3 (String l4 s4))))) =>
                      match surrogatePair u b1 b2 l1 l2 l3 l4 with
                      | Some point => prepend (utf8 point) (scanString s4)
                      | None => prepend (utf8 u) (scanString s3)
                      end
                  | _ => prepend (utf8 u) (scanString s3)
                  end
              | _ => None
              end
            else c' ← shortEscape e; prepend (String c' "") (scanString s2)
        end
      else if (N_of_ascii c <? 32)%N then None
      else prepend (String c "") (scanString s1)
  end.

(** The longest run of digits, and the rest. *)
Fixpoint scanDigits (s : string) : string * string :=
  match s with
  | EmptyString => ("", "")
  | String c s' =>
      match digit_value c with
      | Some _ => let '(ds, r) := scanDigits s' in (String c ds, r)
      | None => ("", s)
      end
  end.

Definition scanDigits1 (s : string) : option (string * string) :=
  match scanDigits s with (EmptyString, _) => None | dr => Some dr end.

(** [rest] when [s] is [c] and then [rest]. *)
Definition after (c : ascii) (s : string) : option string :=
  match s with String d r => if (d =? c)%char then Some r else None | EmptyString => None end.

(** [0], or a digit run that does not start with [0]. *)
Definition scanInt (s : string) : option (string * string) :=
  match after "0" s with Some r => Some ("0", r) | None => scanDigits1 s end.

Definition scanFraction (s : string) : option (string * string) :=
  match after "." s with
  | Some r => prepend "." (scanDigits1 r)
  | None => Some ("", s)
  end.

Definition scanSign (s : string) : string * string :=
  match s with
  | String c r => if (c =? "+")%char || (c =? "-")%char then (String c "", r) else ("", s)
  | EmptyString => ("", s)
  end.

Definition scanExponent (s : string) : option (string * string) :=
  match s with
  | String c r =>
      if (c =? "e")%char || (c =? "E")%char then
        let '(sign, r') := scanSign r in prepend (String c sign) (scanDigits1 r')
      else Some ("", s)
  | EmptyString => Some ("", s)
  end.

Definition scanNumber (s : string) : option (string * string) :=
  let '(sign, s1) := match after "-" s with Some r => ("-", r) | None => ("", s) end in
  '(i, s2) ← scanInt s1; '(f, s3) ← scanFraction s2; '(e, s4) ← scanExponent s3;
  Some (sign +:+ i +:+ f +:+ e, s4).

(** ** Syntax *)

(** [rest] when [s] starts with [word]. *)
Fixpoint afterWord (word s : string) : option string :=
  match word with
  | EmptyString => Some s
  | String c w => r ← after c s; afterWord w r
  end.

(** [rest] when the next token is the punctuator [c]. *)
Definition token (c : ascii) (s : string) : option string := after c (skipSpace s).

Definition literal (s : string) : option (JsonValue * string) :=
  match afterWord "null" s, afterWord "true" s, afterWord "false" s with
  | Some r, _, _ => Some (VNull, r)
  | _, Some r, _ => Some (VBool true, r)
  | _, _, Some r => Some (VBool false, r)
  | _, _, _ => '(n, r) ← scanNumber s; Some (VNum n, r)
  end.

Fixpoint parseValue (fuel : nat) (s : string) : option (JsonValue * string) :=
  match fuel with
  | O => None
  | S fuel =>
      match token "034" s, token "[" s, token "{" s with
      | Some s1, _, _ => '(t, r) ← scanString s1; Some (VStr t, r)
      | _, Some s1, _ =>
          match token "]" s1 with
          | Some r => Some (VArr [], r)
          | None => '(l, r) ← parseElements fuel s1; Some (VArr l, r)
          end
      | _, _, Some s1 =>
          match token "}" s1 with
          | Some r => Some (VObj [], r)
          | None => '(l, r) ← parseMembers fuel s1; Some (VObj l, r)
          end
      | _, _, _ => literal (skipSpace s)
      end
  end
with parseElements (fuel : nat) (s : string) : option (list JsonValue * string) :=
  match fuel with
  | O => None
  | S fuel =>
      '(v, r) ← parseValue fuel s;
      match token "]" r with
      | Some r' => Some ([v], r')
      | None => r' ← token "," r; '(l, r'') ← parseElements fuel r'; Some (v :: l, r'')
      end
  end
with parseMembers (fuel : nat) (s : string) : option (list (string * JsonValue) * string) :=
  match fuel with
  | O => None
  | S fuel =>
      s1 ← token "034" s; '(k, r) ← scanString s1; r1 ← token ":" r;
      '(v, r2) ← parseValue fuel r1;
      match token "}" r2 with
      | Some r' => Some ([(k, v)], r')
      | None => r' ← token "," r2; '(l, r'') ← parseMembers fuel r'; Some ((k, v) :: l, r'')
      end
  end.

(** Fuel for a text: two calls per character at most ([parseValue_fuel]). *)
Definition jsonFuel (s : string) : nat := 2 * String.length s + 2.

(** [JSON.parse]; [None] where it throws. *)
Definition jsonParse (s : string) : option JsonValue :=
  '(v, r) ← parseValue (jsonFuel s) s;
  match skipSpace r with EmptyString => Some v | _ => None end.

(** [parsed.key] of an own property: of equal keys the last one wins. *)
Definition property (key : string) (v : JsonValue) : option JsonValue :=
  match v with
  | VObj members => assoc_last key members
  | _ => None
  end.

(** [typeof v === 'string']. *)
Definition asString (v : option JsonValue) : option string :=
  match v with Some (VStr s) => Some s | _ => None end.

(** ** The parser consumes what it reads, and the fuel is enough *)

Lemma skipSpace_length s : (String.length (skipSpace s) <= String.length s)%nat.
Proof. induction s as [|c s IH]; cbn; [done|]. destruct (isJsonSpace c); cbn; lia. Qed.

Lemma after_length c s r : after c s = Some r → String.length s = S (String.length r).
Proof. destruct s as [|d s]; cbn; [done|]. case_match; congruence. Qed.

Lemma token_length c s r : token c s = Some r → (String.length r < String.length s)%nat.
Proof. intros H%after_length. pose proof (skipSpace_length s). lia. Qed.

Lemma prepend_Some t o t' r : prepend t o = Some (t', r) → ∃ u, o = Some (u, r).
Proof. destruct o as [[u r']|]; [|done]. intros [= _ ->]. by exists u. Qed.

Lemma scanString_length s t r : scanString s = Some (t, r) → (String.length r < String.length s)%nat.
Proof.
  remember (String.length s) as n eqn:Hn. revert s t r Hn.
  induction (lt_wf n) as [n _ IH]. intros s t r ->.
  assert (∀ p s', (String.length s' < String.length s)%nat →
    prepend p (scanString s') = Some (t, r) → (String.length r < String.length s)%nat) as Hrec.
  { intros p s' Hl (u & H)%prepend_Some. pose proof (IH _ Hl s' u r eq_refl H). lia. }
  clear IH. destruct s as [|c s]; [done|]. cbn [scanString].
  destruct (c =? "034")%char; [intros [= _ ->]; cbn; lia|].
  destruct (c =? "\")%char.
  - destruct s as [|e s]; [done|]. destruct (e =? "u")%char.
    + destruct s as [|h1 [|h2 [|h3 [|h4 s]]]]; try done. destruct (hex4 h1 h2 h3 h4); [|done].
      cbn [mbind option_bind].
      destruct s as [|b1 [|b2 [|l1 [|l2 [|l3 [|l4 s]]]]]];
        try (intros H; eapply Hrec; [|exact H]; cbn; lia).
      destruct (surrogatePair _ _ _ _ _ _ _); intros H; (eapply Hrec; [|exact H]; cbn; lia).
    + destruct (shortEscape e); [|done]. intros H. eapply Hrec; [|exact H]. cbn; lia.
  - destruct (N_of_ascii c <? 32)%N; [done|]. intros H. eapply Hrec; [|exact H]. cbn; lia.
Qed.

Lemma scanDigits_length s : (String.length (scanDigits s).2 <= String.length s)%nat.
Proof.
  induction s as [|c s IH]; [done|]. cbn [scanDigits].
  destruct (digit_value c); [|done]. destruct (scanDigits s). cbn in *. lia.
Qed.

Lemma scanDigits1_length s ds r :
  scanDigits1 s = Some (ds, r) → (String.length r < String.length s)%nat.
Proof.
  unfold scanDigits1. destruct s as [|c s]; [done|]. cbn [scanDigits].
  destruct (digit_value c); [|done]. pose proof (scanDigits_length s).
  destruct (scanDigits s) as [d r']. intros [= <- <-]. cbn in *. lia.
Qed.

Lemma scanInt_length s i r : scanInt s = Some (i, r) → (String.length r < String.length s)%nat.
Proof.
  unfold scanInt. destruct (after "0" s) eqn:E.
  - intros [= _ ->]. apply after_length in E. lia.
  - apply scanDigits1_length.
Qed.

Lemma scanFraction_length s f r :
  scanFraction s = Some (f, r) → (String.length r <= String.length s)%nat.
Proof.
  unfold scanFraction. destruct (after "." s) eqn:E.
  - intros (u & H%scanDigits1_length)%prepend_Some. apply after_length in E. lia.
  - by intros [= _ ->].
Qed.

Lemma scanExponent_length s e r :
  scanExponent s = Some (e, r) → (String.length r <= String.length s)%nat.
Proof.
  unfold scanExponent, scanSign. destruct s as [|c s]; [by intros [= _ ->]|].
  destruct (_ || _); [|by intros [= _ ->]].
  destruct s as [|c' s]; [done|]. destruct ((c' =? "+")%char || _);
    intros (u & H%scanDigits1_length)%prepend_Some; cbn in *; lia.
Qed.

Lemma scanNumber_length s n r : scanNumber s = Some (n, r) → (String.length r < String.length s)%nat.
Proof.
  unfold scanNumber. intros H.
  assert (∃ sign s1, (String.length s1 <= String.length s)%nat ∧
    ('(i, s2) ← scanInt s1; '(f, s3) ← scanFraction s2; '(e, s4) ← scanExponent s3;
     Some (sign +:+ i +:+ f +:+ e, s4)) = Some (n, r)) as (sign & s1 & Hl & H').
  { destruct (after "-" s) eqn:E; [apply after_length in E|]; eexists _, _; (split; [|exact H]); lia. }
  clear H. destruct (scanInt s1) as [[i s2]|] eqn:E1; [|done]. cbn in H'.
  destruct (scanFraction s2) as [[f s3]|] eqn:E2; [|done]. cbn in H'.
  destruct (scanExponent s3) as [[e s4]|] eqn:E3; [|done]. injection H' as _ ->.
  apply scanInt_length in E1. apply scanFraction_length in E2. apply scanExponent_length in E3. lia.
Qed.

Lemma afterWord_length w : ∀ s r, afterWord w s = Some r →
  String.length s = (String.length w + String.length r)%nat.
Proof.
  induction w as [|c w IH]; intros s r; [by intros [= ->]|]. cbn.
  destruct (after c s) eqn:E; [|done]. apply after_length in E. intros H%IH. lia.
Qed.

Lemma literal_length s v r : literal s = Some (v, r) → (String.length r < String.length s)%nat.
Proof.
  unfold literal. destruct (afterWord "null" s) eqn:E1;
    [intros [= _ ->]; apply afterWord_length in E1; cbn in E1; lia|].
  destruct (afterWord "true" s) eqn:E2;
    [intros [= _ ->]; apply afterWord_length in E2; cbn in E2; lia|].
  destruct (afterWord "false" s) eqn:E3;
    [intros [= _ ->]; apply afterWord_length in E3; cbn in E3; lia|].
  destruct (scanNumber s) as [[n r']|] eqn:E; [|done]. intros [= _ ->]. by eapply scanNumber_length.
Qed.

Lemma parse_length f : ∀ s,
  (∀ v r, parseValue f s = Some (v, r) → (String.length r < String.length s)%nat) ∧
  (∀ v r, parseElements f s = Some (v, r) → (String.length r < String.length s)%nat) ∧
  (∀ v r, parseMembers f s = Some (v, r) → (String.length r < String.length s)%nat).
Proof.
  induction f as [|f IH]; [done|]. intros s. split_and!; intros v r; cbn [parseValue parseElements parseMembers].
  - destruct (token "034" s) as [s1|] eqn:E1.
    { destruct (scanString s1) as [[t r']|] eqn:E; [|done]. intros [= _ ->].
      apply token_length in E1. apply scanString_length in E. lia. }
    destruct (token "[" s) as [s1|] eqn:E2.
    { apply token_length in E2. destruct (token "]" s1) eqn:E3.
      - intros [= _ ->]. apply token_length in E3. lia.
      - destruct (parseElements f s1) as [[l r']|] eqn:E4; [|done]. intros [= _ ->].
        apply (IH s1) in E4. lia. }
    destruct (token "{" s) as [s1|] eqn:E4.
    { apply token_length in E4. destruct (token "}" s1) eqn:E5.
      - intros [= _ ->]. apply token_length in E5. lia.
      - destruct (parseMembers f s1) as [[l r']|] eqn:E6; [|done]. intros [= _ ->].
        apply (IH s1) in E6. lia. }
    intros H%literal_length. pose proof (skipSpace_length s). lia.
  - destruct (parseValue f s) as [[w r1]|] eqn:E1; [|done]. cbn. apply (IH s) in E1.
    destruct (token "]" r1) eqn:E2; [intros [= _ ->]; apply token_length in E2; lia|].
    destruct (token "," r1) as [r2|] eqn:E3; [|done]. apply token_length in E3. cbn.
    destruct (parseElements f r2) as [[l r3]|] eqn:E4; [|done]. intros [= _ ->].
    apply (IH r2) in E4. lia.
  - destruct (token "034" s) as [s1|] eqn:E1; [|done]. cbn. apply token_length in E1.
    destruct (scanString s1) as [[k r0]|] eqn:E2; [|done]. cbn. apply scanString_length in E2.
    destruct (token ":" r0) as [r1|] eqn:E3; [|done]. cbn. apply token_length in E3.
    destruct (parseValue f r1) as [[w r2]|] eqn:E4; [|done]. cbn. apply (IH r1) in E4.
    destruct (token "}" r2) eqn:E5; [intros [= _ ->]; apply token_length in E5; lia|].
    destruct (token "," r2) as [r3|] eqn:E6; [|done]. apply token_length in E6. cbn.
    destruct (parseMembers f r3) as [[l r4]|] eqn:E7; [|done]. intros [= _ ->].
    apply (IH r3) in E7. lia.
Qed.

(** More fuel than two calls per character changes nothing. *)
Lemma parse_fuel f1 : ∀ f2 s,
  ((2 * String.length s + 1 <= f1)%nat → (2 * String.length s + 1 <= f2)%nat →
    parseValue f1 s = parseValue f2 s) ∧
  ((2 * String.length s + 2 <= f1)%nat → (2 * String.length s + 2 <= f2)%nat →
    parseElements f1 s = parseElements f2 s ∧ parseMembers f1 s = parseMembers f2 s).
Proof.
  induction f1 as [|f1 IH]; intros f2 s; [split; lia|].
  split; intros H1 H2; (destruct f2 as [|f2]; [lia|]).
  - cbn [parseValue]. destruct (token "034" s); [done|].
    destruct (token "[" s) as [s1|] eqn:E1.
    { apply token_length in E1. by rewrite (proj1 (proj2 (IH f2 s1) ltac:(lia) ltac:(lia))). }
    destruct (token "{" s) as [s1|] eqn:E2; [|done].
    apply token_length in E2. by rewrite (proj2 (proj2 (IH f2 s1) ltac:(lia) ltac:(lia))).
  - split; cbn [parseElements parseMembers].
    + rewrite (proj1 (IH f2 s)) by lia. destruct (parseValue f2 s) as [[w r1]|] eqn:E1; [|done].
      cbn. apply (parse_length f2 s) in E1. destruct (token "]" r1); [done|].
      destruct (token "," r1) as [r2|] eqn:E2; [|done]. cbn. apply token_length in E2.
      by rewrite (proj1 (proj2 (IH f2 r2) ltac:(lia) ltac:(lia))).
    + destruct (token "034" s) as [s1|] eqn:E1; [|done]. cbn. apply token_length in E1.
      destruct (scanString s1) as [[k r0]|] eqn:E2; [|done]. cbn. apply scanString_length in E2.
      destruct (token ":" r0) as [r1|] eqn:E3; [|done]. cbn. apply token_length in E3.
      rewrite (proj1 (IH f2 r1)) by lia.
      destruct (parseValue f2 r1) as [[w r2]|] eqn:E4; [|done]. cbn. apply (parse_length f2 r1) in E4.
      destruct (token "}" r2); [done|]. destruct (token "," r2) as [r3|] eqn:E5; [|done]. cbn.
      apply token_length in E5. by rewrite (proj2 (proj2 (IH f2 r3) ltac:(lia) ltac:(lia))).
Qed.

Lemma parseValue_fuel f s :
  (jsonFuel s <= f)%nat → parseValue f s = parseValue (jsonFuel s) s.
Proof. unfold jsonFuel. intros H. apply (parse_fuel f (2 * String.length s + 2) s); lia. Qed.

(** ** What is written is read back *)

Fixpoint ofJson (j : Json) : JsonValue :=
  match j with
  | JUndefined | JNull => VNull
  | JBool b => VBool b
  | JNum n => VNum (pretty n)
  | JStr s => VStr s
  | JArr l => VArr (map ofJson l)
  | JObj es => VObj (map (fun '(k, e) => (k, ofJson e)) es)
  end.

Lemma surrogatePair_control u b1 b2 l1 l2 l3 l4 :
  (u < 32)%N → surrogatePair u b1 b2 l1 l2 l3 l4 = None.
Proof.
  intros Hu. unfold surrogatePair. destruct (_ && _); [|done].
  destruct (hex4 l1 l2 l3 l4) as [l|]; [|done]. cbn.
  destruct (N.leb_spec 55296 u); [lia|done].
Qed.

Lemma scanString_control h1 h2 h3 h4 s u :
  hex4 h1 h2 h3 h4 = Some u → (u < 32)%N →
  scanString (String "\" (String "u" (String h1 (String h2 (String h3 (String h4 s))))))
  = prepend (utf8 u) (scanString s).
Proof.
  intros H Hu. cbn [scanString]. cbn [Ascii.eqb Bool.eqb]. rewrite H. cbn [mbind option_bind].
  destruct s as [|b1 [|b2 [|l1 [|l2 [|l3 [|l4 s]]]]]]; try done. by rewrite surrogatePair_control.
Qed.

Lemma scanString_jsonChar c s : scanString (jsonChar c +:+ s) = prepend (String c "") (scanString s).
Proof.
  destruct (decide (N_of_ascii c < 32)%N) as [Hc|Hc].
  - destruct c as [[] [] [] [] [] [] [] []]; try (exfalso; cbn in Hc; lia);
      match goal with |- scanString (jsonChar ?c +:+ _) = _ =>
        first [reflexivity | exact (scanString_control "0" "0" (hexDigit (N_of_ascii c / 16))
          (hexDigit (N_of_ascii c mod 16)) s (N_of_ascii c) eq_refl eq_refl)] end.
  - unfold jsonChar. case_match eqn:E1; [by apply N.eqb_eq in E1; rewrite <-(ascii_N_embedding c), E1|].
    case_match eqn:E2; [by apply N.eqb_eq in E2; rewrite <-(ascii_N_embedding c), E2|].
    do 5 (case_match eqn:E; [apply N.eqb_eq in E; lia|clear E]).
    destruct (N.ltb_spec (N_of_ascii c) 32) as [|Hge]; [done|].
    change (String c "" +:+ s) with (String c s). cbn [scanString].
    destruct (Ascii.eqb_spec c "034"); [by subst|]. destruct (Ascii.eqb_spec c "\"); [by subst|].
    by destruct (N.ltb_spec (N_of_ascii c) 32).
Qed.

Lemma scanString_jsonChars s r :
  scanString (jsonChars s +:+ String (ascii_of_N 34) r) = Some (s, r).
Proof.
  induction s as [|c s IH]; [done|]. cbn [jsonChars].
  by rewrite string_app_assoc, scanString_jsonChar, IH.
Qed.

(** The first characters of printed numbers. *)
Definition numeric (c : ascii) : bool :=
  (c =? "-")%char || match digit_value c with Some _ => true | None => false end.

Lemma token_numeric c d s : numeric d = true → numeric c = false → token c (String d s) = None.
Proof.
  intros Hd Hc. unfold token. cbn [skipSpace].
  assert (isJsonSpace d = false) as -> by by destruct d as [[] [] [] [] [] [] [] []].
  cbn. destruct (Ascii.eqb_spec d c); [congruence|done].
Qed.

Lemma literal_numeric d s : numeric d = true →
  literal (skipSpace (String d s)) = '(n, r) ← scanNumber (String d s); Some (VNum n, r).
Proof.
  intros Hd. cbn [skipSpace].
  assert (isJsonSpace d = false) as -> by by destruct d as [[] [] [] [] [] [] [] []].
  unfold literal. cbn [afterWord after].
  assert ((d =? "n")%char = false ∧ (d =? "t")%char = false ∧ (d =? "f")%char = false)
    as (-> & -> & ->) by by destruct d as [[] [] [] [] [] [] [] []].
  done.
Qed.

Lemma scanDigits_app s r : ∀ acc, is_Some (digits_acc s acc) → ends r = true →
  scanDigits (s +:+ r) = (s, r).
Proof.
  induction s as [|c s IH]; intros acc Hs Hr.
  - destruct r as [|c r]; [done|]. cbn in Hr. unfold isEnd in Hr. apply bool_decide_eq_true in Hr.
    by destruct Hr as [->|[->| ->]].
  - cbn in Hs. change (String c s +:+ r) with (String c (s +:+ r)). cbn [scanDigits].
    destruct (digit_value c) as [d|]; [|by destruct Hs]. by rewrite (IH _ Hs Hr).
Qed.

Lemma pretty_N_go_head x : (0 < x)%N → ∀ s, ∃ c s', pretty_N_go x s = String c s' ∧ c ≠ "0"%char.
Proof.
  induction (N.lt_wf_0 x) as [x _ IH]; intros Hx s. rewrite pretty_N_go_step by done.
  destruct (decide (x < 10)%N) as [Hs|Hs].
  - rewrite N.div_small, pretty_N_go_0, N.mod_small by done. eexists _, _. split; [done|].
    assert (x = 1 ∨ x = 2 ∨ x = 3 ∨ x = 4 ∨ x = 5 ∨ x = 6 ∨ x = 7 ∨ x = 8 ∨ x = 9)%N
      as Hc by lia. by destruct_or! Hc; subst.
  - apply IH; [apply N.div_lt; lia|]. apply N.div_str_pos. lia.
Qed.

Lemma scanInt_pretty (n : N) r : ends r = true → scanInt (pretty n +:+ r) = Some (pretty n, r).
Proof.
  intros Hr. destruct (decide (n = 0%N)) as [->|Hn]; [done|].
  pose proof (scanDigits_app (pretty n) r 0 ltac:(by rewrite digits_acc_pretty) Hr) as Hd.
  assert (∃ c s, pretty n = String c s ∧ c ≠ "0"%char) as (c & s & E & Hc).
  { unfold pretty, pretty_N. rewrite decide_False by done. apply pretty_N_go_head. lia. }
  rewrite E in *. unfold scanInt, scanDigits1. rewrite Hd.
  change (String c s +:+ r) with (String c (s +:+ r)). cbn [after].
  by destruct (Ascii.eqb_spec c "0").
Qed.

Lemma scan_tail r : ends r = true → scanFraction r = Some ("", r) ∧ scanExponent r = Some ("", r).
Proof.
  destruct r as [|c r]; [done|]. cbn. unfold isEnd. intros Hr%bool_decide_eq_true.
  by destruct Hr as [->|[->| ->]].
Qed.

Lemma string_app_nil (s : string) : s +:+ "" = s.
Proof. induction s as [|c s IH]; [done|]. change (String c (s +:+ "") = String c s). by rewrite IH. Qed.

Lemma scanNumber_pretty (n : Z) r : ends r = true → scanNumber (pretty n +:+ r) = Some (pretty n, r).
Proof.
  intros Hr. destruct (scan_tail r Hr) as [Hf He]. unfold scanNumber.
  destruct (pretty_Z_cases n) as [[_ ->]|[_ ->]].
  - destruct (pretty_N_head (Z.to_N n)) as (c & s & d & E & Hd).
    assert (after "-" (pretty (Z.to_N n) +:+ r) = None) as ->.
    { rewrite E. change (String c s +:+ r) with (String c (s +:+ r)). cbn [after].
      destruct (Ascii.eqb_spec c "-"); [by subst|done]. }
    rewrite scanInt_pretty by done. cbn. rewrite Hf. cbn. rewrite He. cbn. by rewrite string_app_nil.
  - cbn [after]. change (String "-" ?s +:+ r) with (String "-" (s +:+ r)). cbn [after].
    rewrite Ascii.eqb_refl. rewrite scanInt_pretty by done. cbn. rewrite Hf. cbn. rewrite He. cbn.
    by rewrite string_app_nil.
Qed.

Lemma pretty_Z_head (n : Z) : ∃ c s, pretty n = String c s ∧ numeric c = true.
Proof.
  destruct (pretty_Z_cases n) as [[_ ->]|[_ ->]]; [|by eexists _, _].
  destruct (pretty_N_head (Z.to_N n)) as (c & s & d & -> & Hd). eexists _, _. split; [done|].
  unfold numeric. rewrite Hd. apply orb_true_r.
Qed.

(** A printed value starts with neither a space nor a closing bracket. *)
Lemma print_front j r : defined j = true → token "]" (print j +:+ r) = None.
Proof.
  destruct j as [| |[]|n|s|l|es]; try discriminate; intros _; try reflexivity. cbn [print].
  destruct (pretty_Z_head n) as (c & s & -> & Hc). by apply token_numeric.
Qed.

(** The parser reads a printed value back, whatever closes it. *)
Definition readsBack (j : Json) : Prop := ∀ fuel r,
  ends r = true → (2 * String.length (print j +:+ r) + 1 <= fuel)%nat →
  parseValue fuel (print j +:+ r) = Some (ofJson j, r).

Lemma string_length_app (s t : string) :
  String.length (s +:+ t) = (String.length s + String.length t)%nat.
Proof. induction s as [|c s IH]; [done|]. change (S (String.length (s +:+ t)) = S (String.length s + String.length t)). by rewrite IH. Qed.

Lemma elements_readBack l : ∀ x fuel r,
  Forall readsBack (x :: l) →
  (2 * String.length (print x +:+ (commas (map print l) +:+ String "]" r)) + 2 <= fuel)%nat →
  parseElements fuel (print x +:+ (commas (map print l) +:+ String "]" r))
  = Some (map ofJson (x :: l), r).
Proof.
  induction l as [|y l IH]; intros x fuel r Hall Hf;
    apply Forall_cons in Hall as [Hx Hall]; (destruct fuel as [|fuel]; [lia|]); cbn [parseElements].
  - rewrite Hx; [done|done|lia].
  - rewrite Hx; [|done|lia]. cbn [mbind option_bind map commas].
    change (String "," ?s +:+ ?t) with (String "," (s +:+ t)). rewrite string_app_assoc.
    cbn [map commas] in Hf.
    change (String "," ?s +:+ ?t) with (String "," (s +:+ t)) in Hf.
    rewrite string_length_app, string_app_assoc in Hf. cbn [String.length] in Hf.
    change (token "]" (String "," ?s)) with (@None string).
    change (token "," (String "," ?s)) with (Some s). cbn [mbind option_bind].
    rewrite IH; [done|done|lia].
Qed.

Lemma members_readBack l : ∀ x fuel r,
  Forall (fun e => readsBack e.2) (x :: l) →
  (2 * String.length (printEntry x +:+ (commas (map printEntry l) +:+ String "}" r)) + 2 <= fuel)%nat →
  parseMembers fuel (printEntry x +:+ (commas (map printEntry l) +:+ String "}" r))
  = Some (map (fun '(k, e) => (k, ofJson e)) (x :: l), r).
Proof.
  induction l as [|y l IH]; intros [k j] fuel r Hall Hf;
    apply Forall_cons in Hall as [Hx Hall]; (destruct fuel as [|fuel]; [lia|]);
    cbn [parseMembers]; unfold printEntry in Hf |- *; fold printEntry in Hf |- *;
    rewrite ?string_app_assoc, jsonString_app in Hf |- *; cbn [fst snd] in *;
    change (token "034" (String (ascii_of_N 34) ?s)) with (Some s); cbn [mbind option_bind];
    rewrite scanString_jsonChars; cbn [mbind option_bind];
    change (token ":" (":" +:+ ?s)) with (Some s); cbn [mbind option_bind];
    cbn [String.length] in Hf; rewrite string_length_app in Hf; cbn [String.length] in Hf;
    change (String.length (":" +:+ ?s)) with (S (String.length s)) in Hf.
  - rewrite Hx; [done|done|lia].
  - rewrite Hx; [|done|lia]. cbn [mbind option_bind map commas].
    change (String "," ?s +:+ ?t) with (String "," (s +:+ t)). rewrite string_app_assoc.
    cbn [map commas] in Hf. change (String "," ?s +:+ ?t) with (String "," (s +:+ t)) in Hf.
    rewrite string_length_app, string_app_assoc in Hf. cbn [String.length] in Hf.
    change (token "}" (String "," ?s)) with (@None string).
    change (token "," (String "," ?s)) with (Some s). cbn [mbind option_bind].
    rewrite IH; [done|done|lia].
Qed.

Lemma print_readsBack : ∀ j, defined j = true → readsBack j.
Proof.
  apply (json_induction (fun j => defined j = true → readsBack j)).
  - intros j. destruct j as [| |[]|n|s|l|es]; try done; intros _ fuel r Hr Hf;
      (destruct fuel as [|fuel]; [lia|]); try reflexivity.
    + cbn [print ofJson]. pose proof (scanNumber_pretty n r Hr) as Hn.
      destruct (pretty_Z_head n) as (c & s & E & Hc). rewrite E in *. cbn [parseValue].
      change (String c s +:+ r) with (String c (s +:+ r)) in *.
      rewrite !token_numeric by done. by rewrite literal_numeric, Hn by done.
    + cbn [print ofJson]. rewrite jsonString_app. cbn [parseValue].
      change (token "034" (String (ascii_of_N 34) ?s)) with (Some s). cbn [mbind option_bind].
      by rewrite scanString_jsonChars.
  - intros l IH Hd fuel r Hr Hf. destruct fuel as [|fuel]; [lia|].
    rewrite print_arr in *. destruct l as [|x l]; [reflexivity|].
    change (forallb defined (x :: l) = true) in Hd. rewrite forallb_Forall in Hd.
    change (map print (x :: l)) with (print x :: map print l) in *.
    rewrite joinWith_commas in Hf |- *. cbn [parseValue].
    change (token "034" (String "[" ?s)) with (@None string).
    change (token "[" (String "[" ?s)) with (Some s). cbn [String.length] in Hf.
    rewrite string_app_assoc in Hf |- *. rewrite print_front by by apply Forall_cons in Hd as [? _].
    rewrite elements_readBack; [done| |lia].
    eapply Forall_impl; [exact (proj2 (Forall_and _ _) (conj IH Hd))|]. naive_solver.
  - intros es IH Hd fuel r Hr Hf. destruct fuel as [|fuel]; [lia|].
    rewrite print_obj in *. destruct es as [|x es]; [reflexivity|].
    rewrite defined_obj in Hd.
    change (map printEntry (x :: es)) with (printEntry x :: map printEntry es) in *.
    rewrite joinWith_commas in Hf |- *. cbn [parseValue].
    change (token "034" (String "{" ?s)) with (@None string).
    change (token "[" (String "{" ?s)) with (@None string).
    change (token "{" (String "{" ?s)) with (Some s). cbn [String.length] in Hf.
    rewrite string_app_assoc in Hf |- *.
    change (token "}" (printEntry x +:+ ?s)) with (@None string).
    rewrite members_readBack; [done| |lia].
    eapply Forall_impl; [exact (proj2 (Forall_and _ _) (conj IH Hd))|]. naive_solver.
Qed.

(** [JSON.parse] reads back what [JSON.stringify] wrote. *)
Lemma parse_print j : defined j = true → jsonParse (print j) = Some (ofJson j).
Proof.
  intros Hd. unfold jsonParse. rewrite <-(string_app_nil (print j)) at 2.
  rewrite print_readsBack; [done|done|done|]. rewrite string_app_nil. unfold jsonFuel. lia.
Qed.

(** Texts that are and are not JSON. *)
Example jsonParse_samples :
  jsonParse " [1.5e+3, {} ,true]  " = Some (VArr [VNum "1.5e+3"; VObj []; VBool true]) ∧
  jsonParse "[1,]" = None ∧ jsonParse "01" = None ∧ jsonParse "{} x" = None ∧ jsonParse "" = None.
Proof. by vm_compute. Qed.
