(* ===== verification/Ordering.v ===== *)
(** * Ordering: sorted reads

    The order of text ([a < b] on strings, a [uuid] column, [ORDER BY] a date
    label), [ORDER BY] as a merge sort, and that filtering and sorting commute
    when no two rows tie; [DISTINCT], [GROUP BY] and sums over the groups; and the
    stable [Array.prototype.sort]. *)

From S2P Require Import Prelude Text.
From Stdlib Require Import Ascii.

(** ** Text *)

Definition textLe (s t : string) : Prop := String.compare s t ≠ Gt.
Definition textLt (s t : string) : Prop := String.compare s t = Lt.

#[export] Instance textLe_dec s t : Decision (textLe s t).
Proof. unfold textLe. destruct (String.compare s t); [left|left|right]; congruence. Defined.

#[export] Instance textLt_dec s t : Decision (textLt s t).
Proof. unfold textLt. destruct (String.compare s t); [right|left|right]; congruence. Defined.

Lemma ascii_compare_N a b : Ascii.compare a b = N.compare (N_of_ascii a) (N_of_ascii b).
Proof. done. Qed.

Lemma string_compare_refl s : String.compare s s = Eq.
Proof. induction s as [|c s IH]; [done|]. cbn. rewrite ascii_compare_N, N.compare_refl. done. Qed.

Lemma string_compare_cons a b s t :
  String.compare (String a s) (String b t)
  = match N.compare (N_of_ascii a) (N_of_ascii b) with Eq => String.compare s t | c => c end.
Proof. done. Qed.

Lemma N_of_ascii_inj a b : N_of_ascii a = N_of_ascii b → a = b.
Proof. intros H. by rewrite <-(ascii_N_embedding a), <-(ascii_N_embedding b), H. Qed.

#[export] Instance textLt_trans : Transitive textLt.
Proof.
  unfold textLt. intros s. induction s as [|a s IH]; intros [|b t] [|c u] H1 H2; try done.
  rewrite string_compare_cons in *.
  destruct (N.compare_spec (N_of_ascii a) (N_of_ascii b)) as [E1|L1|L1];
    destruct (N.compare_spec (N_of_ascii b) (N_of_ascii c)) as [E2|L2|L2]; try done.
  - rewrite E1, E2, N.compare_refl. by eapply IH.
  - rewrite E1. by apply N.compare_lt_iff in L2 as ->.
  - rewrite <-E2. by apply N.compare_lt_iff in L1 as ->.
  - assert (N_of_ascii a < N_of_ascii c)%N as L by lia. by apply N.compare_lt_iff in L as ->.
Qed.

Lemma textLt_irrefl s : ¬ textLt s s.
Proof. unfold textLt. by rewrite string_compare_refl. Qed.

Lemma textLe_lt s t : textLe s t ↔ s = t ∨ textLt s t.
Proof.
  unfold textLe, textLt. split.
  - intros H. destruct (String.compare s t) eqn:E; [left|by right|done].
    by apply String.compare_eq_iff.
  - intros [->| ->]; [by rewrite string_compare_refl|done].
Qed.

Lemma textLt_not_le s t : textLt s t ↔ ¬ textLe t s.
Proof.
  unfold textLe, textLt. rewrite (String.compare_antisym t s).
  destruct (String.compare s t); cbn; intuition congruence.
Qed.

#[export] Instance textLe_trans : Transitive textLe.
Proof.
  intros s t u [->|H1]%textLe_lt [->|H2]%textLe_lt; apply textLe_lt; auto. right. by etrans.
Qed.

#[export] Instance textLe_total : Total textLe.
Proof.
  intros s t. unfold textLe. rewrite (String.compare_antisym t s).
  destruct (String.compare s t); cbn; auto.
Qed.

#[export] Instance textLe_antisymm : AntiSymm eq textLe.
Proof.
  intros s t [->|H1]%textLe_lt [H|H2]%textLe_lt; try done.
  exfalso. eapply textLt_irrefl. by etrans.
Qed.

(** ** Sorted lists *)

Section sorted.
Context {A : Type} (R : relation A) `{HR : ∀ x y, Decision (R x y)}.

Lemma StronglySorted_filter (P : A → Prop) `{∀ x, Decision (P x)} l :
  StronglySorted R l → StronglySorted R (filter P l).
Proof.
  induction 1 as [|x l Hl IH Hx]; [constructor|]. rewrite filter_cons. case_decide; [|done].
  constructor; [done|]. rewrite Forall_forall in *. intros y [_ Hy]%list_elem_of_filter. auto.
Qed.

(** No two elements of a list tie. *)
Definition untied (l : list A) : Prop := ∀ x y, x ∈ l → y ∈ l → R x y → R y x → x = y.

Lemma untied_Permutation l1 l2 : l1 ≡ₚ l2 → untied l1 → untied l2.
Proof. intros E H x y Hx Hy. apply H; by rewrite E. Qed.

Lemma untied_filter (P : A → Prop) `{∀ x, Decision (P x)} l : untied l → untied (filter P l).
Proof. intros Hu x y [_ Hx]%list_elem_of_filter [_ Hy]%list_elem_of_filter. by apply Hu. Qed.

(** Two sorted arrangements of the same rows are the same list. *)
Lemma sorted_unique l1 : ∀ l2, untied l1 →
  StronglySorted R l1 → StronglySorted R l2 → l1 ≡ₚ l2 → l1 = l2.
Proof.
  induction l1 as [|x l1 IH]; intros l2 Hu H1 H2 E; [by apply Permutation_nil_l in E|].
  destruct l2 as [|y l2]; [by apply Permutation_nil_r in E|].
  apply StronglySorted_inv in H1 as [H1 Hx], H2 as [H2 Hy]. rewrite Forall_forall in Hx, Hy.
  assert (x = y) as <-.
  { assert (x ∈ y :: l2) as Hx2 by (rewrite <-E; apply elem_of_cons; auto).
    assert (y ∈ x :: l1) as Hy1 by (rewrite E; apply elem_of_cons; auto).
    apply elem_of_cons in Hx2 as [|Hx2]; [done|]. pose proof Hy1 as Hy1'.
    apply elem_of_cons in Hy1 as [|Hy1]; [done|].
    apply Hu; [apply elem_of_cons; auto|done|auto|auto]. }
  f_equal. apply IH; [|done|done|by apply Permutation_cons_inv in E].
  intros a b Ha Hb. apply Hu; apply elem_of_cons; auto.
Qed.

Context `{!Transitive R, !Total R}.

Lemma elem_of_merge_sort x l : x ∈ merge_sort R l ↔ x ∈ l.
Proof. by rewrite merge_sort_Permutation. Qed.

(** [WHERE] before [ORDER BY] is [WHERE] after it. *)
Lemma merge_sort_filter (P : A → Prop) `{∀ x, Decision (P x)} l :
  untied l → merge_sort R (filter P l) = filter P (merge_sort R l).
Proof.
  intros Hu. apply sorted_unique.
  - eapply untied_Permutation; [symmetry; apply merge_sort_Permutation|by apply untied_filter].
  - by apply StronglySorted_merge_sort.
  - by apply StronglySorted_filter, StronglySorted_merge_sort.
  - rewrite !merge_sort_Permutation. done.
Qed.
End sorted.

Lemma StronglySorted_impl {A} (R S : relation A) l :
  (∀ x y, x ∈ l → y ∈ l → R x y → S x y) → StronglySorted R l → StronglySorted S l.
Proof.
  intros H. induction 1 as [|x l Hl IH Hx]; constructor.
  - apply IH. intros a b Ha Hb. apply H; by apply list_elem_of_further.
  - rewrite Forall_forall in *. intros y Hy.
    apply H; [apply list_elem_of_here|by apply list_elem_of_further|auto].
Qed.

Lemma filter_all {A} (P : A → Prop) `{∀ x, Decision (P x)} (l : list A) :
  (∀ x, x ∈ l → P x) → filter P l = l.
Proof.
  induction l as [|x l IH]; intros HP; [done|]. rewrite filter_cons, decide_True by (apply HP, list_elem_of_here).
  f_equal. apply IH. intros y Hy. by apply HP, list_elem_of_further.
Qed.

Lemma filter_none {A} (P : A → Prop) `{∀ x, Decision (P x)} (l : list A) :
  (∀ x, x ∈ l → ¬ P x) → filter P l = [].
Proof.
  induction l as [|x l IH]; intros HP; [done|]. rewrite filter_cons, decide_False by (apply HP, list_elem_of_here).
  apply IH. intros y Hy. by apply HP, list_elem_of_further.
Qed.

(** ** Distinct values and groups *)

(** [[...new Set(values)]]: the first occurrence of each, in order. *)
Fixpoint dedupe {A} `{EqDecision A} (seen : list A) (l : list A) : list A :=
  match l with
  | [] => []
  | x :: l => if bool_decide (x ∈ seen) then dedupe seen l else x :: dedupe (x :: seen) l
  end.

Lemma dedupe_spec {A} `{EqDecision A} (l : list A) : ∀ seen,
  NoDup (dedupe seen l) ∧ ∀ x, x ∈ dedupe seen l ↔ x ∈ l ∧ x ∉ seen.
Proof.
  induction l as [|x l IH]; intros seen; cbn; [split; [constructor|set_solver]|].
  case_bool_decide as Hx.
  - destruct (IH seen) as [H1 H2]. split; [done|]. intros y. rewrite H2. set_solver.
  - destruct (IH (x :: seen)) as [H1 H2]. split.
    + constructor; [|done]. rewrite H2. set_solver.
    + intros y. rewrite elem_of_cons, H2. destruct (decide (y = x)); set_solver.
Qed.

(** [GROUP BY key]: one group per value that occurs. *)
Definition groupBy {A K} `{EqDecision K} (key : A → K) (l : list A) : list (K * list A) :=
  map (fun k => (k, filter (fun x => key x = k) l)) (dedupe [] (map key l)).

(** Summing by groups is summing: each row is in the group of its key. *)
Lemma sumZ_partition {A K} `{EqDecision K} (key : A → K) (f : A → Z) (ks : list K) (l : list A) :
  NoDup ks → (∀ x, x ∈ l → key x ∈ ks) →
  sumZ (fun k => sumZ f (filter (fun x => key x = k) l)) ks = sumZ f l.
Proof.
  intros Hn. induction l as [|x l IH]; intros Hk.
  - clear. induction ks as [|k ks IH]; [done|]. rewrite sumZ_cons, IH. done.
  - rewrite sumZ_cons, <-IH by (intros y Hy; apply Hk; by apply list_elem_of_further).
    assert (key x ∈ ks) as Hx by apply Hk, list_elem_of_here. clear IH Hk.
    induction Hn as [|k ks Hnk Hn IH]; [by apply elem_of_nil in Hx|]. rewrite !sumZ_cons.
    rewrite filter_cons. case_decide as E.
    + subst k. rewrite sumZ_cons.
      rewrite (sumZ_ext (fun k => sumZ f (filter (fun y => key y = k) (x :: l)))
        (fun k => sumZ f (filter (fun y => key y = k) l))); [lia|].
      apply Forall_forall. intros k Hk. rewrite filter_cons, decide_False; [done|]. by intros <-.
    + apply elem_of_cons in Hx as [Hx|Hx]; [by symmetry in Hx|]. rewrite IH by done. lia.
Qed.

Lemma sumZ_groupBy {A K} `{EqDecision K} (key : A → K) (f : A → Z) (l : list A) :
  sumZ (fun g => sumZ f g.2) (groupBy key l) = sumZ f l.
Proof.
  unfold groupBy. change (map ?f ?l) with (f <$> l). rewrite sumZ_fmap. cbn.
  destruct (dedupe_spec (key <$> l) []) as [Hn Hin].
  apply sumZ_partition; [done|]. intros x Hx. apply Hin. split; [|by apply not_elem_of_nil].
  apply list_elem_of_fmap. eauto.
Qed.

Lemma length_sumZ {A} (l : list A) : Z.of_nat (length l) = sumZ (fun _ => 1) l.
Proof. induction l as [|x l IH]; [done|]. rewrite sumZ_cons, <-IH. cbn. lia. Qed.

Lemma sumZ_le {A} (f g : A → Z) (l : list A) :
  (∀ x, x ∈ l → f x ≤ g x) → sumZ f l ≤ sumZ g l.
Proof.
  induction l as [|x l IH]; intros H; [done|]. rewrite !sumZ_cons.
  pose proof (H x (list_elem_of_here _ _)).
  assert (sumZ f l ≤ sumZ g l); [|lia]. apply IH. intros y Hy. by apply H, list_elem_of_further.
Qed.

(** ** [Array.prototype.sort] *)

(** Stable: an element goes before those that do not come strictly earlier. *)
Fixpoint insertSorted {A} (cmp : A → A → Z) (x : A) (l : list A) : list A :=
  match l with
  | [] => [x]
  | y :: l' => if cmp x y <=? 0 then x :: l else y :: insertSorted cmp x l'
  end.

Definition sortWith {A} (cmp : A → A → Z) (l : list A) : list A := foldr (insertSorted cmp) [] l.

Lemma insertSorted_Permutation {A} (cmp : A → A → Z) x l : insertSorted cmp x l ≡ₚ x :: l.
Proof.
  induction l as [|y l IH]; [done|]. cbn. destruct (cmp x y <=? 0); [done|].
  rewrite IH. apply Permutation_swap.
Qed.

Lemma sortWith_Permutation {A} (cmp : A → A → Z) l : sortWith cmp l ≡ₚ l.
Proof. induction l as [|x l IH]; [done|]. cbn. by rewrite insertSorted_Permutation, IH. Qed.

(** A comparison that orders: its sign is antisymmetric and transitive. *)
Class Comparison {A} (cmp : A → A → Z) : Prop := {
  cmp_flip : ∀ x y, 0 < cmp x y → cmp y x ≤ 0;
  cmp_trans : ∀ x y z, cmp x y ≤ 0 → cmp y z ≤ 0 → cmp x z ≤ 0 }.

Lemma insertSorted_sorted {A} (cmp : A → A → Z) `{!Comparison cmp} x l :
  StronglySorted (fun a b => cmp a b ≤ 0) l →
  StronglySorted (fun a b => cmp a b ≤ 0) (insertSorted cmp x l).
Proof.
  induction 1 as [|y l Hl IH Hy]; [repeat constructor|]. cbn.
  rewrite Forall_forall in Hy. destruct (Z.leb_spec (cmp x y) 0) as [Hxy|Hxy].
  - constructor; [constructor; [done|by apply Forall_forall]|]. apply Forall_forall.
    intros z [->|Hz]%elem_of_cons; [done|]. eapply cmp_trans; eauto.
  - constructor; [done|]. apply Forall_forall. intros z Hz.
    rewrite insertSorted_Permutation in Hz. apply elem_of_cons in Hz as [->|Hz]; [|auto].
    by apply cmp_flip.
Qed.

Lemma sortWith_sorted {A} (cmp : A → A → Z) `{!Comparison cmp} l :
  StronglySorted (fun a b => cmp a b ≤ 0) (sortWith cmp l).
Proof. induction l as [|x l IH]; [constructor|]. by apply insertSorted_sorted. Qed.

Lemma filter_iff_in {A} (P Q : A → Prop) `{∀ x, Decision (P x)} `{∀ x, Decision (Q x)} (l : list A) :
  (∀ x, x ∈ l → P x ↔ Q x) → filter P l = filter Q l.
Proof.
  induction l as [|x l IH]; intros HPQ; [done|]. rewrite !filter_cons.
  rewrite IH by (intros y Hy; by apply HPQ, list_elem_of_further).
  pose proof (HPQ x (list_elem_of_here _ _)). repeat case_decide; naive_solver.
Qed.
