(* ===== verification/Cursor.v ===== *)
(** * Cursor: [orders/query/cursor.ts]

    The opaque cursor of the order list: a sort, the sort value of the last row
    shown and its id, as base64url of a JSON object. Decoding validates every
    field; the value is then cast by the database ([cursorPredicate] of
    [orders-read.service.ts]). [toISOString] and [Date.parse] are modelled on
    the one shape the code accepts. *)

From S2P Require Import Prelude Text Schema Errors BusinessDay Idempotency CreateOrder Fingerprint JsonText.
From Stdlib Require Import Ascii.

(** ** [Buffer] and the [base64url] encoding

    [Buffer.from(s).toString('base64url')] and [Buffer.from(raw, 'base64url')],
    as the order cursor uses them ([orders/query/cursor.ts]). The encoder writes
    the URL alphabet without padding; the decoder takes both alphabets, skips
    every other character, stops at a [=] and drops an incomplete sextet. *)

(** The character of a sextet in the URL alphabet. *)
Definition digit64 (n : N) : ascii :=
  ascii_of_N (if n <? 26 then 65 + n else if n <? 52 then 71 + n else if n <? 62 then n - 4
              else if n =? 62 then 45 else 95)%N.

(** The sextet of a character, [None] outside both alphabets. *)
Definition sextet (c : ascii) : option N :=
  let n := N_of_ascii c in
  (if (65 <=? n) && (n <=? 90) then Some (n - 65)
   else if (97 <=? n) && (n <=? 122) then Some (n - 71)
   else if (48 <=? n) && (n <=? 57) then Some (n + 4)
   else if (n =? 45) || (n =? 43) then Some 62
   else if (n =? 95) || (n =? 47) then Some 63
   else None)%N.

Fixpoint text64 (l : list N) : string :=
  match l with [] => "" | n :: l => String (digit64 n) (text64 l) end.

Fixpoint toSextets (s : string) : list N :=
  match s with
  | String a (String b (String c r)) =>
      let '(x, y, z) := (N_of_ascii a, N_of_ascii b, N_of_ascii c) in
      (x / 4 :: x mod 4 * 16 + y / 16 :: y mod 16 * 4 + z / 64 :: z mod 64 :: toSextets r)%N
  | String a (String b EmptyString) =>
      let '(x, y) := (N_of_ascii a, N_of_ascii b) in
      [x / 4; x mod 4 * 16 + y / 16; y mod 16 * 4]%N
  | String a EmptyString => let x := N_of_ascii a in [x / 4; x mod 4 * 16]%N
  | EmptyString => []
  end.

Definition toBase64url (s : string) : string := text64 (toSextets s).

(** The sextets the decoder sees. *)
Fixpoint readSextets (s : string) : list N :=
  match s with
  | EmptyString => []
  | String c s' =>
      if (c =? "=")%char then []
      else match sextet c with
           | Some n => n :: readSextets s'
           | None => readSextets s'
           end
  end.

Fixpoint fromSextets (l : list N) : string :=
  match l with
  | (x :: y :: z :: w :: l')%N =>
      String (ascii_of_N (x * 4 + y / 16)) (String (ascii_of_N (y mod 16 * 16 + z / 4))
        (String (ascii_of_N (z mod 4 * 64 + w)) (fromSextets l')))
  | [x; y; z]%N =>
      String (ascii_of_N (x * 4 + y / 16)) (String (ascii_of_N (y mod 16 * 16 + z / 4)) "")
  | [x; y]%N => String (ascii_of_N (x * 4 + y / 16)) ""
  | _ => ""
  end.

Definition fromBase64url (raw : string) : string := fromSextets (readSextets raw).

(** ** Round trip *)

#[local] Ltac Zify.zify_post_hook ::= Z.to_euclidean_division_equations.

Lemma sextet_digit64 n : (n < 64)%N → (digit64 n =? "=")%char = false ∧ sextet (digit64 n) = Some n.
Proof.
  intros Hn. apply (Forall_forall (fun n => (digit64 n =? "=")%char = false ∧ sextet (digit64 n) = Some n)
    (N.of_nat <$> seq 0 64)).
  - by repeat (constructor; [split; reflexivity|]).
  - apply list_elem_of_fmap. exists (N.to_nat n). split; [lia|]. apply elem_of_seq. lia.
Qed.

Lemma readSextets_text64 l : Forall (fun n => n < 64)%N l → readSextets (text64 l) = l.
Proof.
  induction 1 as [|n l Hn Hl IH]; [done|]. cbn [text64 readSextets].
  destruct (sextet_digit64 n Hn) as [-> ->]. f_equal. exact IH.
Qed.

Lemma N_of_ascii_lt c : (N_of_ascii c < 256)%N.
Proof. apply N_ascii_bounded. Qed.

(** Induction three characters at a time. *)
Lemma triples_ind (P : string → Prop) :
  P "" → (∀ a, P (String a "")) → (∀ a b, P (String a (String b ""))) →
  (∀ a b c s, P s → P (String a (String b (String c s)))) → ∀ s, P s.
Proof.
  intros H0 H1 H2 H3. fix IH 1. intros [|a [|b [|c s]]]; [apply H0|apply H1|apply H2|].
  apply H3, IH.
Qed.

Lemma toSextets_bound s : Forall (fun n => n < 64)%N (toSextets s).
Proof.
  induction s as [|a|a b|a b c s IH] using triples_ind; cbn [toSextets];
    try pose proof (N_of_ascii_lt a); try pose proof (N_of_ascii_lt b);
    try pose proof (N_of_ascii_lt c);
    repeat (apply Forall_cons; split; [lia|]); try done; by constructor.
Qed.

Lemma byte_eq n c : n = N_of_ascii c → ascii_of_N n = c.
Proof. intros ->. apply ascii_N_embedding. Qed.

Lemma from_toSextets s : fromSextets (toSextets s) = s.
Proof.
  induction s as [|a|a b|a b c s IH] using triples_ind; cbn [toSextets fromSextets]; [done| | |];
    pose proof (N_of_ascii_lt a); try pose proof (N_of_ascii_lt b); try pose proof (N_of_ascii_lt c);
    rewrite ?IH; repeat f_equal; apply byte_eq; lia.
Qed.

(** Decoding an encoded buffer gives the buffer back. *)
Lemma base64url_round_trip s : fromBase64url (toBase64url s) = s.
Proof.
  unfold fromBase64url, toBase64url. rewrite readSextets_text64 by apply toSextets_bound.
  apply from_toSextets.
Qed.

Example base64url_samples :
  toBase64url "light work" = "bGlnaHQgd29yaw" ∧ fromBase64url "bGlnaHQgd29yaw==" = "light work" ∧
  toBase64url "??>" = "Pz8-" ∧ fromBase64url "Pz 8+" = "??>".
Proof. by vm_compute. Qed.

(** ** The sorts ([orderSorts] of [orders-query.dto.ts]) *)

Inductive OrderSort := createdAt_desc | createdAt_asc | totalMinor_desc | totalMinor_asc.

#[export] Instance OrderSort_eq_dec : EqDecision OrderSort.
Proof. solve_decision. Defined.

Definition sortText (sort : OrderSort) : string :=
  match sort with
  | createdAt_desc => "-createdAt"
  | createdAt_asc => "createdAt"
  | totalMinor_desc => "-totalMinor"
  | totalMinor_asc => "totalMinor"
  end.

(** [sort.endsWith('totalMinor')] and [sort.startsWith('-')]. *)
Definition byTotal (sort : OrderSort) : bool :=
  match sort with totalMinor_desc | totalMinor_asc => true | _ => false end.

Definition descending (sort : OrderSort) : bool :=
  match sort with createdAt_desc | totalMinor_desc => true | _ => false end.

(** ** Instants as text *)

(** [Date.prototype.toISOString]; years outside 0..9999 take six digits and a sign. *)
Definition isoYear (y : Z) : string :=
  if (0 <=? y) && (y <=? 9999) then padStart 4 (pretty y)
  else (if y <? 0 then "-" else "+") +:+ padStart 6 (pretty (Z.abs y)).

Definition toISOString (ms : Z) : string :=
  let '(y, m, d) := utcDate ms in
  let t := ms mod MILLIS_PER_DAY in
  isoYear y +:+ "-" +:+ padStart 2 (pretty m) +:+ "-" +:+ padStart 2 (pretty d) +:+ "T"
  +:+ padStart 2 (pretty (t / 3600000)) +:+ ":" +:+ padStart 2 (pretty (t / 60000 mod 60)) +:+ ":"
  +:+ padStart 2 (pretty (t / 1000 mod 60)) +:+ "." +:+ padStart 3 (pretty (t mod 1000)) +:+ "Z".

Record IsoFields := {
  iso_year : Z; iso_month : Z; iso_day : Z;
  iso_hour : Z; iso_minute : Z; iso_second : Z; iso_ms : Z
}.

(** [n] digits and the rest. *)
Fixpoint takeDigits (n : nat) (acc : Z) (s : string) : option (Z * string) :=
  match n, s with
  | O, _ => Some (acc, s)
  | S n, String c s' => d ← digit_value c; takeDigits n (10 * acc + Z.of_N d) s'
  | S _, EmptyString => None
  end.

(** [/^\d{4}-\d{2}-\d{2}T\d{2}:\d{2}:\d{2}\.\d{3}Z$/], with its fields. *)
Definition isoFields (s : string) : option IsoFields :=
  '(y, s) ← takeDigits 4 0 s; s ← after "-" s; '(mo, s) ← takeDigits 2 0 s; s ← after "-" s;
  '(d, s) ← takeDigits 2 0 s; s ← after "T" s; '(h, s) ← takeDigits 2 0 s; s ← after ":" s;
  '(mi, s) ← takeDigits 2 0 s; s ← after ":" s; '(se, s) ← takeDigits 2 0 s; s ← after "." s;
  '(ms, s) ← takeDigits 3 0 s; s ← after "Z" s;
  match s with
  | EmptyString => Some {| iso_year := y; iso_month := mo; iso_day := d; iso_hour := h;
                           iso_minute := mi; iso_second := se; iso_ms := ms |}
  | _ => None
  end.

(** [!Number.isNaN(Date.parse(value))] on that shape: the engine bounds the day
    by 31 whatever the month, and takes 24:00:00.000. *)
Definition dateParses (f : IsoFields) : bool :=
  (1 <=? iso_month f) && (iso_month f <=? 12) && (1 <=? iso_day f) && (iso_day f <=? 31)
  && ((iso_hour f <=? 23) && (iso_minute f <=? 59) && (iso_second f <=? 59)
      || (iso_hour f =? 24) && (iso_minute f =? 0) && (iso_second f =? 0) && (iso_ms f =? 0)).

(** [value::timestamptz], in microseconds. The database has no year 0 and refuses a
    day its month does not have. *)
Definition timestamptz (value : string) : result AppError Z :=
  match isoFields value with
  | Some f =>
      if (1 <=? iso_year f) && (1 <=? iso_month f) && (iso_month f <=? 12)
         && (1 <=? iso_day f) && (iso_day f <=? monthLength (iso_year f) (iso_month f))
      then Ok (1000 * (makeDay (iso_year f) (iso_month f) (iso_day f) * MILLIS_PER_DAY
                       + iso_hour f * 3600000 + iso_minute f * 60000 + iso_second f * 1000
                       + iso_ms f))
      else Err (DbError DATETIME_OVERFLOW)
  | None => Err (DbError "22007")
  end.

(** ** Numbers as text *)

(** [/^-?\d+$/.test(value)] and [Number(value)]. *)
Definition digitsNumber (s : string) : option Z :=
  match s with EmptyString => None | _ => js_Number s end.

Definition signedNumber (s : string) : option Z :=
  match after "-" s with
  | Some s' => Z.opp <$> digitsNumber s'
  | None => digitsNumber s
  end.

Definition MAX_SAFE_INTEGER : Z := 2 ^ 53 - 1.

Definition isSafeInteger (n : Z) : bool := Z.abs n <=? MAX_SAFE_INTEGER.

(** [Number(value)::integer]. *)
Definition castInteger (n : Z) : result AppError Z :=
  if int4 n then Ok n else Err (DbError OUT_OF_RANGE).

(** ** The cursor *)

Record Cursor := { cursor_value : string; cursor_id : string }.

Definition hexChar (c : ascii) : bool :=
  match hexValue c with Some _ => true | None => false end.

(** A run of [n] hex digits and the rest. *)
Fixpoint hexRun (n : nat) (s : string) : option string :=
  match n, s with
  | O, _ => Some s
  | S n, String c s' => if hexChar c then hexRun n s' else None
  | S _, EmptyString => None
  end.

(** [UUID_PATTERN.test]. *)
Definition isUuid (s : string) : bool :=
  bool_decide (Some "" =
    (s ← hexRun 8 s; s ← after "-" s; s ← hexRun 4 s; s ← after "-" s; s ← hexRun 4 s;
     s ← after "-" s; s ← hexRun 4 s; s ← after "-" s; hexRun 12 s)).

Definition cursorObject (sort value id : string) : Json :=
  JObj [("s", JStr sort); ("v", JStr value); ("i", JStr id)].

Definition encodeCursor (sort value id : string) : string :=
  toBase64url (print (cursorObject sort value id)).

Definition isIssuableValue (sort : OrderSort) (value : string) : bool :=
  if byTotal sort then
    match signedNumber value with Some n => isSafeInteger n | None => false end
  else
    match isoFields value with Some f => dateParses f | None => false end.

Definition decodeCursor (raw : string) (sort : OrderSort) : result AppError Cursor :=
  match jsonParse (fromBase64url raw) with
  | Some parsed =>
      match asString (property "s" parsed), asString (property "v" parsed),
            asString (property "i" parsed) with
      | Some s, Some v, Some i =>
          if negb (bool_decide (s = sortText sort)) then Err CursorInvalidError
          else if negb (isUuid i) then Err CursorInvalidError
          else if negb (isIssuableValue sort v) then Err CursorInvalidError
          else Ok {| cursor_value := v; cursor_id := i |}
      | _, _, _ => Err CursorInvalidError
      end
  | None => Err CursorInvalidError
  end.

(** ** What is issued is accepted *)

Lemma takeDigits_app s r : ∀ acc v, 0 ≤ acc → digits_acc s (Z.to_N acc) = Some v →
  takeDigits (String.length s) acc (s +:+ r) = Some (Z.of_N v, r).
Proof.
  induction s as [|c s IH]; intros acc v Hacc H.
  - injection H as <-. change ("" +:+ r) with r. cbn. repeat f_equal. lia.
  - change (String c s +:+ r) with (String c (s +:+ r)). cbn [digits_acc takeDigits String.length] in *.
    destruct (digit_value c) as [d|]; [|done]. cbn [mbind option_bind] in *.
    apply IH; [lia|]. rewrite <-H. f_equal. lia.
Qed.

Lemma pretty_N_go_length k : ∀ x s, (x < 10 ^ N.of_nat k)%N →
  (String.length (pretty_N_go x s) <= k + String.length s)%nat.
Proof.
  induction k as [|k IH]; intros x s Hx.
  - replace x with 0%N by (cbn in Hx; lia). by rewrite pretty_N_go_0.
  - destruct (decide (x = 0%N)) as [->|]; [rewrite pretty_N_go_0; lia|].
    rewrite pretty_N_go_step by lia. etrans; [apply IH|cbn; lia].
    rewrite Nat2N.inj_succ, N.pow_succ_r' in Hx. apply N.Div0.div_lt_upper_bound. lia.
Qed.

Lemma padStart_length w (n : Z) :
  (0 < w)%nat → 0 ≤ n < 10 ^ Z.of_nat w → String.length (padStart w (pretty n)) = w.
Proof.
  intros Hw Hn. unfold padStart.
  assert (String.length (pretty n) <= w)%nat as Hl.
  { rewrite pretty_Z_of_N by lia. unfold pretty, pretty_N. case_decide as Hz; [cbn; lia|].
    etrans; [apply (pretty_N_go_length w)|cbn; lia].
    apply N2Z.inj_lt. rewrite N2Z.inj_pow, nat_N_Z, Z2N.id by lia. simpl. lia. }
  rewrite string_length_app.
  assert (∀ k, String.length (zeros k) = k) as -> by (intros k; induction k; cbn; lia). lia.
Qed.

Lemma takeDigits_padStart w (n : Z) r :
  (0 < w)%nat → 0 ≤ n < 10 ^ Z.of_nat w →
  takeDigits w 0 (padStart w (pretty n) +:+ r) = Some (n, r).
Proof.
  intros Hw Hn. rewrite <-(padStart_length w n Hw Hn) at 1.
  rewrite (takeDigits_app _ _ _ (Z.to_N n)); [f_equal; f_equal; lia|done|].
  pose proof (js_Number_padStart w n ltac:(lia)) as H. unfold js_Number in H.
  change (Z.to_N 0) with 0%N. destruct (digits_acc _ 0) as [v|]; [|done].
  injection H as H. f_equal. lia.
Qed.

(** The instants whose year has four digits; the database has no year 0. *)
Definition fourDigitYear (ms : Z) : Prop := 1 ≤ (utcDate ms).1.1 ≤ 9999.

Definition fieldsOf (ms : Z) : IsoFields :=
  let t := ms mod MILLIS_PER_DAY in
  {| iso_year := (utcDate ms).1.1; iso_month := (utcDate ms).1.2; iso_day := (utcDate ms).2;
     iso_hour := t / 3600000; iso_minute := t / 60000 mod 60; iso_second := t / 1000 mod 60;
     iso_ms := t mod 1000 |}.

#[local] Ltac Zify.zify_post_hook ::= Z.div_mod_to_equations.

Lemma utcDate_valid ms :
  validDate (utcDate ms).1.1 (utcDate ms).1.2 (utcDate ms).2 ∧
  makeDay (utcDate ms).1.1 (utcDate ms).1.2 (utcDate ms).2 = ms / MILLIS_PER_DAY.
Proof.
  unfold utcDate. destruct (civilFromDays (ms / MILLIS_PER_DAY)) as [[y m] d] eqn:E.
  by apply civil_spec in E as [? ?].
Qed.

Lemma monthLength_le y m : monthLength y m ≤ 31.
Proof. unfold monthLength. repeat case_match; lia. Qed.

Lemma after_app c s : after c (String c "" +:+ s) = Some s.
Proof. change (String c "" +:+ s) with (String c s). cbn. by rewrite Ascii.eqb_refl. Qed.

Lemma isoFields_toISOString ms : fourDigitYear ms → isoFields (toISOString ms) = Some (fieldsOf ms).
Proof.
  intros Hy. destruct (utcDate_valid ms) as [[Hm Hd] _]. unfold fourDigitYear in Hy.
  unfold toISOString, fieldsOf, isoFields. destruct (utcDate ms) as [[y m] d]. cbn [fst snd] in *.
  pose proof (monthLength_le y m).
  assert (0 ≤ ms mod MILLIS_PER_DAY < MILLIS_PER_DAY) as Ht by (unfold MILLIS_PER_DAY; lia).
  set (t := ms mod MILLIS_PER_DAY) in *. clearbody t. change MILLIS_PER_DAY with 86400000 in Ht.
  unfold isoYear. replace ((0 <=? y) && (y <=? 9999)) with true by lia.
  repeat (rewrite takeDigits_padStart by (cbn; lia); cbn [mbind option_bind];
          rewrite ?after_app; cbn [mbind option_bind]).
  done.
Qed.

Lemma dateParses_fieldsOf ms : dateParses (fieldsOf ms) = true.
Proof.
  destruct (utcDate_valid ms) as [[Hm Hd] _]. unfold dateParses, fieldsOf. cbn [iso_year iso_month
    iso_day iso_hour iso_minute iso_second iso_ms].
  pose proof (monthLength_le (utcDate ms).1.1 (utcDate ms).1.2).
  assert (0 ≤ ms mod MILLIS_PER_DAY < 86400000) as Ht by (unfold MILLIS_PER_DAY; lia).
  set (t := ms mod MILLIS_PER_DAY) in *. clearbody t.
  rewrite !andb_true_iff, orb_true_iff. split; [lia|]. left. lia.
Qed.

(** The cast reads an issued timestamp as the instant it names. *)
Lemma timestamptz_toISOString ms : fourDigitYear ms → timestamptz (toISOString ms) = Ok (1000 * ms).
Proof.
  intros Hy. unfold timestamptz. rewrite isoFields_toISOString by done.
  destruct (utcDate_valid ms) as [[Hm Hd] Hmk]. unfold fourDigitYear in Hy.
  unfold fieldsOf. cbn [iso_year iso_month iso_day iso_hour iso_minute iso_second iso_ms].
  replace (_ && _) with true by (symmetry; rewrite !andb_true_iff; lia).
  rewrite Hmk. f_equal. unfold MILLIS_PER_DAY. lia.
Qed.

Lemma signedNumber_pretty (n : Z) : signedNumber (pretty n) = Some n.
Proof.
  destruct (pretty_Z_cases n) as [[Hn ->]|[Hn ->]].
  - pose proof (js_Number_pretty n Hn) as Hj. rewrite pretty_Z_of_N in Hj by done.
    destruct (pretty_N_head (Z.to_N n)) as (c & s & d & E & Hd). rewrite E in *.
    unfold signedNumber. cbn [after]. destruct (Ascii.eqb_spec c "-"); [by subst|done].
  - pose proof (js_Number_pretty (- n) ltac:(lia)) as Hj. rewrite pretty_Z_of_N in Hj by lia.
    destruct (pretty_N_head (Z.to_N (- n))) as (c & s & d & E & Hd). rewrite E in *.
    unfold signedNumber. cbn [after Ascii.eqb Bool.eqb digitsNumber]. rewrite Hj. cbn. f_equal. lia.
Qed.

(** A cursor decodes to the value and the id it was made of. *)
Lemma decode_encode sort value id :
  isUuid id = true → isIssuableValue sort value = true →
  decodeCursor (encodeCursor (sortText sort) value id) sort
  = Ok {| cursor_value := value; cursor_id := id |}.
Proof.
  intros Hid Hv. unfold decodeCursor, encodeCursor. rewrite base64url_round_trip.
  rewrite parse_print by done.
  set (parsed := ofJson (cursorObject (sortText sort) value id)). cbv iota beta.
  change (asString (property "s" parsed)) with (Some (sortText sort)).
  change (asString (property "v" parsed)) with (Some value).
  change (asString (property "i" parsed)) with (Some id).
  cbv iota beta. rewrite bool_decide_eq_true_2 by done. by rewrite Hid, Hv.
Qed.
