(* ===== verification/OrdersRead.v ===== *)
(** * OrdersRead: [orders/query/orders-read.service.ts] and its query schema

    The filtered, sorted, cursor-paginated order list and the order detail.
    [created_at] has the database's microseconds, while a [Date], and so a
    cursor, has milliseconds. *)

From S2P Require Import Prelude Text Schema Errors Idempotency CreateOrder Ordering Cursor.
From Stdlib Require Import Ascii.

(** ** Projections *)

Record OrderSummary := {
  os_id : string;
  os_orderNumber : option string;
  os_status : OrderStatus;
  os_channel : OrderChannel;
  os_businessDay : string;
  os_customerName : option string;
  os_subtotalMinor : Z;
  os_vatMinor : Z;
  os_totalMinor : Z;
  os_currency : string;
  os_createdAt : string;
  os_expiresAt : option string
}.

(** The [Date] of a [timestamptz], which keeps milliseconds. *)
Definition dateOf (micros : Z) : Z := micros / 1000.

Definition toOrderSummary (id : string) (row : OrderRow) : OrderSummary := {|
  os_id := id; os_orderNumber := o_orderNumber row; os_status := o_status row;
  os_channel := o_channel row; os_businessDay := o_businessDay row;
  os_customerName := o_customerName row; os_subtotalMinor := o_subtotalMinor row;
  os_vatMinor := o_vatMinor row; os_totalMinor := o_totalMinor row;
  os_currency := o_currency row; os_createdAt := toISOString (dateOf (o_createdAt row));
  os_expiresAt := toISOString <$> o_expiresAt row |}.

Definition toOrderLine (line : OrderItemRow) (opts : list OrderItemOptionRow) : LineView := {|
  lv_nameSnapshot := oi_nameSnapshot line;
  lv_unitPriceMinor := oi_unitPriceMinorSnapshot line;
  lv_quantity := oi_quantity line;
  lv_lineTotalMinor := oi_lineTotalMinor line;
  lv_notes := oi_notes line;
  lv_options := map (fun o => {| ov_group := oio_groupNameSnapshot o;
    ov_name := oio_optionNameSnapshot o;
    ov_priceDeltaMinor := oio_priceDeltaMinorSnapshot o |}) opts |}.

Definition toOrderLines (lines : list (OrderItemRow * list OrderItemOptionRow)) : list LineView :=
  map (fun '(line, opts) => toOrderLine line opts) lines.

(** [with: { items: { with: { options: true } } }] of one order. *)
Definition itemsWithOptions (db : Database) (orderId : string)
    : list (OrderItemRow * list OrderItemOptionRow) :=
  map (fun '(itemId, line) =>
         (line, filter (fun o => oio_orderItemId o = itemId) (orderItemOptions db)))
    (filter (fun e => oi_orderId e.2 = orderId) (orderItems db)).

(** ** Filters *)

Record OrdersQuery := {
  oq_status : option (list OrderStatus);
  oq_channel : option (list OrderChannel);
  oq_method : option (list PaymentMethod);
  oq_from : option Z;  (* [new Date(query.from)], in milliseconds *)
  oq_to : option Z;
  oq_businessDay : option string;
  oq_q : option string;
  oq_sort : OrderSort;
  oq_limit : nat;
  oq_cursor : option string
}.

(** [value.replace(/[\\%_]/g, (match) => `\\${match}`)]. *)
Definition likeSpecial (c : ascii) : bool :=
  (c =? "\")%char || (c =? "%")%char || (c =? "_")%char.

Fixpoint escapeLikePrefix (value : string) : string :=
  match value with
  | EmptyString => ""
  | String c rest =>
      if likeSpecial c then String "\" (String c (escapeLikePrefix rest))
      else String c (escapeLikePrefix rest)
  end.

Definition toLower (c : ascii) : ascii :=
  let n := N_of_ascii c in if ((65 <=? n) && (n <=? 90))%N then ascii_of_N (n + 32) else c.

Fixpoint lowerText (s : string) : string :=
  match s with EmptyString => "" | String c s => String (toLower c) (lowerText s) end.

(** [s LIKE p] with the escape character [\]; a pattern that ends in it matches
    nothing (the database raises there). *)
Fixpoint like (p s : string) : bool :=
  match p with
  | EmptyString => match s with EmptyString => true | _ => false end
  | String c p' =>
      if (c =? "%")%char then
        (fix anySuffix (s : string) : bool :=
           like p' s || match s with EmptyString => false | String _ s' => anySuffix s' end) s
      else if (c =? "_")%char then
        match s with EmptyString => false | String _ s' => like p' s' end
      else if (c =? "\")%char then
        match p' with
        | EmptyString => false
        | String e p'' =>
            match s with EmptyString => false | String d s' => (d =? e)%char && like p'' s' end
        end
      else match s with EmptyString => false | String d s' => (d =? c)%char && like p' s' end
  end.

Definition ilike (p s : string) : bool := like (lowerText p) (lowerText s).

Definition paidBy (db : Database) (orderId : string) (methods : list PaymentMethod) : bool :=
  existsb (fun '(_, p) =>
    bool_decide (p_orderId p = orderId) && bool_decide (p_status p = PaySUCCEEDED)
    && match p_method p with Some m => bool_decide (m ∈ methods) | None => false end)
    (map_to_list (payments db)).

Definition absent {A} (o : option A) (test : A → bool) : bool :=
  match o with Some x => test x | None => true end.

(** [(order_number = q or customer_name ilike escape(q) || '%')], where a null
    column makes its comparison not true. *)
Definition matchesSearch (q : string) (o : OrderRow) : bool :=
  bool_decide (o_orderNumber o = Some q)
  || match o_customerName o with
     | Some name => ilike (escapeLikePrefix q +:+ "%") name
     | None => false
     end.

(** The conjunction of [filters(query)] on one row. *)
Definition filters (query : OrdersQuery) (db : Database) (id : string) (o : OrderRow) : bool :=
  absent (oq_status query) (fun l => bool_decide (o_status o ∈ l))
  && absent (oq_channel query) (fun l => bool_decide (o_channel o ∈ l))
  && absent (oq_method query) (paidBy db id)
  && absent (oq_businessDay query) (fun day => bool_decide (o_businessDay o = day))
  && match oq_from query, oq_to query with
     | Some from, Some to => (from * 1000 <=? o_createdAt o) && (o_createdAt o <=? to * 1000)
     | _, _ => true
     end
  && absent (oq_q query) (fun q => matchesSearch q o).

(** ** The list *)

(** A row's position in the sort: the sort column and the id that breaks ties. *)
Definition Key : Type := Z * string.

Definition sortKey (sort : OrderSort) (row : string * OrderRow) : Key :=
  (if byTotal sort then o_totalMinor row.2 else o_createdAt row.2, row.1).

(** [(a, id) < (b, id')] as a row-value comparison. *)
Definition keyLt (a b : Key) : Prop := a.1 < b.1 ∨ (a.1 = b.1 ∧ textLt a.2 b.2).

#[export] Instance keyLt_dec a b : Decision (keyLt a b).
Proof. unfold keyLt. apply _. Defined.

(** [a] comes strictly before [b] under the sort's direction. *)
Definition precedes (sort : OrderSort) (a b : Key) : Prop :=
  if descending sort then keyLt b a else keyLt a b.

#[export] Instance precedes_dec sort a b : Decision (precedes sort a b).
Proof. unfold precedes. destruct (descending sort); apply _. Defined.

Definition rowLe (sort : OrderSort) (r1 r2 : string * OrderRow) : Prop :=
  ¬ precedes sort (sortKey sort r2) (sortKey sort r1).

(** [sortValueOf]. *)
Definition sortValueOf (sort : OrderSort) (row : OrderRow) : string :=
  if byTotal sort then pretty (o_totalMinor row) else toISOString (dateOf (o_createdAt row)).

(** The casts of [cursorPredicate]: the key the next page resumes after. *)
Definition cursorKey (raw : string) (sort : OrderSort) : result AppError Key :=
  match decodeCursor raw sort with
  | Err e => Err e
  | Ok c =>
      match (if byTotal sort then castInteger (default 0 (signedNumber (cursor_value c)))
             else timestamptz (cursor_value c)) with
      | Err e => Err e
      | Ok v => Ok (v, lowerText (cursor_id c))
      end
  end.

Definition selected (query : OrdersQuery) (db : Database) (resume : option Key)
    (row : string * OrderRow) : Prop :=
  filters query db row.1 row.2 = true ∧
  match resume with Some k => precedes (oq_sort query) k (sortKey (oq_sort query) row) | None => True end.

#[export] Instance selected_dec query db resume row : Decision (selected query db resume row).
Proof. unfold selected. destruct resume; apply _. Defined.

(** [WHERE ... ORDER BY column, id]. *)
Definition sortedRows (query : OrdersQuery) (db : Database) (resume : option Key)
    : list (string * OrderRow) :=
  merge_sort (rowLe (oq_sort query))
    (filter (selected query db resume) (map_to_list (orders db))).

Record OrderPage := { page_orders : list OrderSummary; page_nextCursor : option string }.

(** The page and its cursor out of the [limit + 1] rows read. *)
Definition pageOf (query : OrdersQuery) (rows : list (string * OrderRow)) : OrderPage :=
  let page := take (oq_limit query) rows in
  {| page_orders := map (fun '(id, o) => toOrderSummary id o) page;
     page_nextCursor :=
       match last page with
       | Some (id, o) =>
           if (oq_limit query <? length rows)%nat
           then Some (encodeCursor (sortText (oq_sort query)) (sortValueOf (oq_sort query) o) id)
           else None
       | None => None
       end |}.

(** [OrdersReadService.list]. *)
Definition list_orders (query : OrdersQuery) (db : Database) : result AppError OrderPage :=
  match (match oq_cursor query with
         | None => Ok None
         | Some raw => match cursorKey raw (oq_sort query) with Ok k => Ok (Some k) | Err e => Err e end
         end) with
  | Err e => Err e
  | Ok resume => Ok (pageOf query (take (oq_limit query + 1) (sortedRows query db resume)))
  end.

(** ** The detail *)

Record OrderStatusChange := {
  sc_fromStatus : option OrderStatus;
  sc_toStatus : OrderStatus;
  sc_actorType : ActorType;
  sc_actorId : option string;
  sc_createdAt : string
}.

Record OrderDetail := {
  od_summary : OrderSummary;
  od_items : list LineView;
  od_statusHistory : list OrderStatusChange
}.

Section detail.
(** [created_at] of the history rows, by position in the table, in milliseconds. *)
Context (historyCreatedAt : nat → Z).

(** The order's history rows with their position. *)
Definition historyRows (db : Database) (orderId : string) : list (nat * HistoryRow) :=
  filter (fun e => h_orderId e.2 = orderId)
    (zip (seq 0 (length (orderStatusHistory db))) (orderStatusHistory db)).

(** The comparison of a stable sort by [createdAt]. *)
Definition historyLe (a b : nat * HistoryRow) : Prop :=
  historyCreatedAt a.1 < historyCreatedAt b.1 ∨
  (historyCreatedAt a.1 = historyCreatedAt b.1 ∧ (a.1 <= b.1)%nat).

#[export] Instance historyLe_dec a b : Decision (historyLe a b).
Proof. unfold historyLe. apply _. Defined.

Definition toStatusChange (e : nat * HistoryRow) : OrderStatusChange := {|
  sc_fromStatus := h_fromStatus e.2; sc_toStatus := h_toStatus e.2;
  sc_actorType := h_actorType e.2; sc_actorId := h_actorId e.2;
  sc_createdAt := toISOString (historyCreatedAt e.1) |}.

(** [OrdersReadService.detail]. *)
Definition detail (principal : Principal) (id : string) (db : Database)
    : result AppError OrderDetail :=
  let inScope (o : OrderRow) : bool :=
    match principal with
    | DevicePrincipal deviceId => bool_decide (o_kioskDeviceId o = Some deviceId)
    | StaffPrincipal _ _ => true
    end in
  match orders db !! id with
  | Some o =>
      if inScope o then
        Ok {| od_summary := toOrderSummary id o;
              od_items := toOrderLines (itemsWithOptions db id);
              od_statusHistory := map toStatusChange (merge_sort historyLe (historyRows db id)) |}
      else Err (ResourceNotFoundError "order" id)
  | None => Err (ResourceNotFoundError "order" id)
  end.
End detail.

(** ** The order of the keys *)

#[export] Instance keyLt_trans : Transitive keyLt.
Proof.
  intros a b c [H1|[E1 H1]] [H2|[E2 H2]]; unfold keyLt; [left; lia..|].
  right. split; [lia|]. by etrans.
Qed.

Lemma keyLt_irrefl a : ¬ keyLt a a.
Proof. intros [H|[_ H]]; [lia|by eapply textLt_irrefl]. Qed.

Lemma keyLt_tri a b : keyLt a b ∨ a = b ∨ keyLt b a.
Proof.
  destruct a as [x s], b as [y t]. unfold keyLt. cbn.
  destruct (Z.lt_trichotomy x y) as [?|[->|?]]; [auto| |auto].
  destruct (textLe_total s t) as [[->|H]%textLe_lt|[->|H]%textLe_lt]; auto 6.
Qed.
