(* ===== verification/OrdersQueryDto.v ===== *)
(** * OrdersQueryDto: [orders/query/orders-query.dto.ts]

    The schema of the order list's query string. A query string maps a key to its
    values; a repeated key arrives as an array, which no field takes. Zod's checks of
    an ISO instant, of an ISO date and its number coercion are parameters. *)

From S2P Require Import Prelude Text Schema Idempotency Ordering Cursor OrdersRead.
From Stdlib Require Import Ascii.

Definition orderStatusText (s : OrderStatus) : string :=
  match s with
  | DRAFT => "DRAFT" | PENDING_PAYMENT => "PENDING_PAYMENT" | PAID => "PAID"
  | IN_PREPARATION => "IN_PREPARATION" | READY => "READY" | COMPLETED => "COMPLETED"
  | CANCELLED => "CANCELLED" | EXPIRED => "EXPIRED" | REFUNDED => "REFUNDED"
  end.

Definition orderChannels : list OrderChannel := [KIOSK; COUNTER].

Definition orderChannelText (c : OrderChannel) : string :=
  match c with KIOSK => "KIOSK" | COUNTER => "COUNTER" end.

Definition paymentMethods : list PaymentMethod := [CARD; PROMPTPAY; CASH].

Definition paymentMethodText (m : PaymentMethod) : string :=
  match m with CARD => "CARD" | PROMPTPAY => "PROMPTPAY" | CASH => "CASH" end.

Definition orderSorts : list OrderSort :=
  [createdAt_desc; createdAt_asc; totalMinor_desc; totalMinor_asc].

Definition DEFAULT_LIMIT : Z := 25.
Definition MAX_LIMIT : Z := 100.
Definition MAX_RANGE_DAYS : Z := 92.
Definition MAX_RANGE_MS : Z := MAX_RANGE_DAYS * 24 * 60 * 60 * 1000.
Definition MAX_SEARCH_LENGTH : nat := 40.

(** [z.enum(values)]. *)
Definition enumValue {A} (values : list A) (text : A → string) (s : string) : option A :=
  find (fun v => bool_decide (text v = s)) values.

Definition commaSeparated {A} `{EqDecision A} (values : list A) (text : A → string) (raw : string)
    : option (list A) :=
  l ← mapM (fun value => enumValue values text (trimText value)) (split_on "," raw);
  Some (dedupe [] l).

Section schema.
(** [z.iso.datetime()] with [Date.parse], [z.iso.date()], and [z.coerce.number().int()]. *)
Context (isoDatetime : string → option Z) (isoDate : string → bool) (coerceInt : string → option Z).

(** A field that may be absent; [None] refuses the query. *)
Definition optionalField {A} (raw : gmap string (list string)) (key : string)
    (parse : string → option A) : option (option A) :=
  match raw !! key with
  | None => Some None
  | Some [value] => Some <$> parse value
  | Some _ => None
  end.

Definition knownKeys : list string :=
  ["status"; "channel"; "method"; "from"; "to"; "businessDay"; "q"; "sort"; "limit"; "cursor"].

Definition searchText (raw : string) : option string :=
  let q := trimText raw in
  if (1 <=? jsLength q)%nat && (jsLength q <=? MAX_SEARCH_LENGTH)%nat then Some q else None.

Definition limitValue (raw : string) : option Z :=
  n ← coerceInt raw; if (1 <=? n) && (n <=? MAX_LIMIT) then Some n else None.

(** The three refinements on the range. *)
Definition rangeOk (from to : option Z) : bool :=
  match from, to with
  | Some f, Some t => (f <=? t) && (t - f <=? MAX_RANGE_MS)
  | None, None => true
  | _, _ => false
  end.

Definition OrdersQuerySchema (raw : gmap string (list string)) : option OrdersQuery :=
  if negb (forallb (fun '(key, _) => bool_decide (key ∈ knownKeys)) (map_to_list raw)) then None
  else
    status ← optionalField raw "status" (commaSeparated orderStatuses orderStatusText);
    channel ← optionalField raw "channel" (commaSeparated orderChannels orderChannelText);
    method ← optionalField raw "method" (commaSeparated paymentMethods paymentMethodText);
    from ← optionalField raw "from" isoDatetime;
    to ← optionalField raw "to" isoDatetime;
    businessDay ← optionalField raw "businessDay" (fun s => if isoDate s then Some s else None);
    q ← optionalField raw "q" searchText;
    sort ← optionalField raw "sort" (enumValue orderSorts sortText);
    limit ← optionalField raw "limit" limitValue;
    cursor ← optionalField raw "cursor" (fun s => if bool_decide (s = "") then None else Some s);
    if rangeOk from to then
      Some {| oq_status := status; oq_channel := channel; oq_method := method; oq_from := from;
              oq_to := to; oq_businessDay := businessDay; oq_q := q;
              oq_sort := default createdAt_desc sort;
              oq_limit := Z.to_nat (default DEFAULT_LIMIT limit); oq_cursor := cursor |}
    else None.

(** ** What a parsed query promises *)

Lemma split_on_not_nil sep s : split_on sep s ≠ [].
Proof. destruct s; cbn; [done|]. case_bool_decide; [done|]. by destruct (split_on _ _). Qed.

Lemma commaSeparated_spec {A} `{EqDecision A} (values : list A) text raw l :
  commaSeparated values text raw = Some l → NoDup l ∧ l ≠ [].
Proof.
  unfold commaSeparated. destruct (mapM _ _) as [l'|] eqn:E; [|done]. intros [= <-].
  destruct (dedupe_spec l' []) as [H1 H2]. split; [done|]. intros Hn.
  destruct l' as [|x l'].
  - apply mapM_Some_1, Forall2_length in E. pose proof (split_on_not_nil "," raw).
    by destruct (split_on "," raw).
  - assert (x ∈ dedupe [] (x :: l')) as Hx by (apply H2; set_solver). rewrite Hn in Hx. set_solver.
Qed.

Lemma optionalField_Some {A} raw key (parse : string → option A) x :
  optionalField raw key parse = Some (Some x) → ∃ v, parse v = Some x.
Proof.
  unfold optionalField. destruct (raw !! key) as [[|v []]|]; try done.
  destruct (parse v) as [y|] eqn:E; [|done]. intros [= ->]. by exists v.
Qed.

(** A query that parses is well formed: its page holds 1 to 100 rows, a range has both
    ends, in order and at most 92 days apart, an enum filter lists alternatives without
    repeating one, and a search has text. *)
Theorem query_well_formed raw query :
  OrdersQuerySchema raw = Some query →
  (1 <= oq_limit query <= 100)%nat ∧
  match oq_from query, oq_to query with
  | Some from, Some to => from ≤ to ≤ from + MAX_RANGE_MS
  | None, None => True
  | _, _ => False
  end ∧
  (∀ l, oq_status query = Some l → NoDup l ∧ l ≠ []) ∧
  (∀ l, oq_channel query = Some l → NoDup l ∧ l ≠ []) ∧
  (∀ l, oq_method query = Some l → NoDup l ∧ l ≠ []) ∧
  (∀ q, oq_q query = Some q → (1 <= jsLength q <= MAX_SEARCH_LENGTH)%nat).
Proof.
  unfold OrdersQuerySchema. destruct (negb _); [done|].
  destruct (optionalField raw "status" _) as [status|] eqn:Es; [|done].
  destruct (optionalField raw "channel" _) as [channel|] eqn:Ec; [|done].
  destruct (optionalField raw "method" _) as [method|] eqn:Em; [|done]. cbn [mbind option_bind].
  destruct (optionalField raw "from" _) as [from|]; [|done].
  destruct (optionalField raw "to" _) as [to|]; [|done].
  destruct (optionalField raw "businessDay" _) as [day|]; [|done].
  destruct (optionalField raw "q" _) as [q|] eqn:Eq; [|done].
  destruct (optionalField raw "sort" _) as [sort|]; [|done].
  destruct (optionalField raw "limit" _) as [limit|] eqn:El; [|done].
  destruct (optionalField raw "cursor" _) as [cursor|]; [|done]. cbn [mbind option_bind].
  destruct (rangeOk from to) eqn:Er; [|done]. intros [= <-].
  cbn [oq_limit oq_from oq_to oq_status oq_channel oq_method oq_q].
  assert (1 ≤ default DEFAULT_LIMIT limit ≤ 100) as Hl.
  { destruct limit as [n|]; [|done]. apply optionalField_Some in El as [v El].
    unfold limitValue in El. destruct (coerceInt v); [|done]. cbn in El.
    destruct (_ && _) eqn:E; [|done]. injection El as ->. unfold MAX_LIMIT in E. cbn. lia. }
  split_and!.
  - lia.
  - lia.
  - destruct from, to; cbn in Er; try done. lia.
  - intros l ->. apply optionalField_Some in Es as [v ?]. by eapply commaSeparated_spec.
  - intros l ->. apply optionalField_Some in Ec as [v ?]. by eapply commaSeparated_spec.
  - intros l ->. apply optionalField_Some in Em as [v ?]. by eapply commaSeparated_spec.
  - intros t ->. apply optionalField_Some in Eq as [v Eq]. unfold searchText in Eq.
    destruct (_ && _) eqn:E; [|done]. injection Eq as <-.
    apply andb_true_iff in E as [?%Nat.leb_le ?%Nat.leb_le]. lia.
Qed.
End schema.

Lemma query_well_formed_witness :
  ∃ query, OrdersQuerySchema (fun _ => None) (fun _ => true) js_Number
    {[ "status" := ["PAID, READY,PAID"]; "limit" := ["10"] ]} = Some query ∧
    oq_status query = Some [PAID; READY] ∧ (1 <= oq_limit query <= 100)%nat.
Proof.
  eexists. split; [vm_compute; reflexivity|]. split; [reflexivity|].
  refine (proj1 (query_well_formed (fun _ => None) (fun _ => true) js_Number
    {[ "status" := ["PAID, READY,PAID"]; "limit" := ["10"] ]} _ _)).
  vm_compute. reflexivity.
Defined.
