(* ===== verification/Rollup.v ===== *)
(** * Rollup: [reporting/rollup/*.ts]

    What one business day totalled ([aggregate-day.ts]), the stored row
    ([build-rollup-row.ts]), what a re-roll changed ([describe-correction.ts]) and
    the nightly job ([daily-rollup.service.ts]). The table [daily_sales_rollups] is a
    state of its own; the job reads the orders and payments and writes only to it.
    The order in which SQL returns groups is that of first occurrence; no theorem
    depends on it. *)

From S2P Require Import Prelude Text Schema Errors BusinessDay Ordering OrdersQueryDto Refunds.

(** ** One day, from the live tables *)

Record RollupItem := {
  it_menuItemId : string; it_name : string; it_quantity : Z; it_revenueMinor : Z }.

Record RollupParts := {
  rp_statusCounts : list (OrderStatus * Z);
  rp_revenueByMethod : list (option PaymentMethod * Z);
  rp_refundsMinor : Z;
  rp_vatMinor : Z;
  rp_ordersSettled : Z;
  rp_items : list RollupItem
}.

(** [EXISTS (payment of the order with status SUCCEEDED)]. *)
Definition settled (db : Database) (orderId : string) : bool :=
  existsb (fun '(_, p) => bool_decide (p_orderId p = orderId ∧ p_status p = PaySUCCEEDED))
    (map_to_list (payments db)).

Definition onDay (db : Database) (day orderId : string) : bool :=
  match orders db !! orderId with Some o => bool_decide (o_businessDay o = day) | None => false end.

Definition dayOrders (db : Database) (day : string) : list (string * OrderRow) :=
  filter (fun e => o_businessDay e.2 = day) (map_to_list (orders db)).

Definition settledOrders (db : Database) (day : string) : list (string * OrderRow) :=
  filter (fun e => settled db e.1 = true) (dayOrders db day).

(** [payments] joined with the day's orders, captured rows only. *)
Definition dayPayments (db : Database) (day : string) : list (string * PaymentRow) :=
  filter (fun e => onDay db day (p_orderId e.2) = true ∧ p_status e.2 = PaySUCCEEDED)
    (map_to_list (payments db)).

(** [refunds] joined with their payments and the day's orders, settled rows only. *)
Definition paymentOnDay (db : Database) (day paymentId : string) : bool :=
  match payments db !! paymentId with Some p => onDay db day (p_orderId p) | None => false end.

Definition dayRefunds (db : Database) (day : string) : list (string * RefundRow) :=
  filter (fun e => paymentOnDay db day (r_paymentId e.2) = true ∧ r_status e.2 = RefSUCCEEDED)
    (map_to_list (refunds db)).

(** [order_items] joined with the day's orders that took money. *)
Definition dayItems (db : Database) (day : string) : list OrderItemRow :=
  (filter (fun e => onDay db day (oi_orderId e.2) = true ∧ settled db (oi_orderId e.2) = true)
    (orderItems db)).*2.

Definition aggregateDay (db : Database) (day : string) : RollupParts := {|
  rp_statusCounts := map (fun '(s, g) => (s, Z.of_nat (length g)))
    (groupBy (fun e => o_status e.2) (dayOrders db day));
  rp_revenueByMethod := map (fun '(m, g) => (m, sumZ (fun e => p_amountMinor e.2) g))
    (groupBy (fun e => p_method e.2) (dayPayments db day));
  rp_refundsMinor := sumZ (fun e => r_amountMinor e.2) (dayRefunds db day);
  rp_vatMinor := sumZ (fun e => o_vatMinor e.2) (settledOrders db day);
  rp_ordersSettled := Z.of_nat (length (settledOrders db day));
  rp_items := map (fun '((itemId, name), g) =>
      {| it_menuItemId := itemId; it_name := name; it_quantity := sumZ oi_quantity g;
         it_revenueMinor := sumZ oi_lineTotalMinor g |})
    (groupBy (fun i => (oi_menuItemId i, oi_nameSnapshot i)) (dayItems db day)) |}.

(** ** The row *)

Definition UNKNOWN_METHOD : string := "UNKNOWN".

Record RollupRow := {
  rw_businessDay : string;
  rw_ordersCompleted : Z;
  rw_ordersRefunded : Z;
  rw_ordersCancelled : Z;
  rw_ordersExpired : Z;
  rw_ordersSettled : Z;
  rw_revenueMinor : Z;
  rw_revenueByMethod : gmap string Z;
  rw_refundsMinor : Z;
  rw_vatMinor : Z;
  rw_topItems : list RollupItem
}.

(** A row of [daily_sales_rollups], and the table by its primary key. *)
Record StoredRollup := { sr_row : RollupRow; sr_finalizedAt : option Z }.

Notation Rollups := (gmap string StoredRollup).

(** [new Map(entries).get(key)]: of equal keys the last one wins. *)
Fixpoint mapGet (entries : list (OrderStatus * Z)) (key : OrderStatus) : option Z :=
  match entries with
  | [] => None
  | (k, v) :: rest =>
      match mapGet rest key with
      | Some w => Some w
      | None => if bool_decide (k = key) then Some v else None
      end
  end.

Definition methodKey (m : option PaymentMethod) : string :=
  match m with Some m => paymentMethodText m | None => UNKNOWN_METHOD end.

(** The loop that fills the buckets. *)
Definition addToBucket (buckets : gmap string Z) (entry : option PaymentMethod * Z) : gmap string Z :=
  let key := methodKey entry.1 in
  <[key := default 0 (buckets !! key) + entry.2]> buckets.

Section locale.
(** [a.localeCompare(b)]. *)
Context (localeCompare : string → string → Z).

(** [b.quantity - a.quantity || a.name.localeCompare(b.name)]. *)
Definition compareItems (a b : RollupItem) : Z :=
  let byQuantity := it_quantity b - it_quantity a in
  if byQuantity =? 0 then localeCompare (it_name a) (it_name b) else byQuantity.

Definition buildRollupRow (businessDay : string) (parts : RollupParts) : RollupRow :=
  let revenueByMethod := foldl addToBucket ∅ (rp_revenueByMethod parts) in
  let count s := default 0 (mapGet (rp_statusCounts parts) s) in
  {| rw_businessDay := businessDay;
     rw_ordersCompleted := count COMPLETED;
     rw_ordersRefunded := count REFUNDED;
     rw_ordersCancelled := count CANCELLED;
     rw_ordersExpired := count EXPIRED;
     rw_ordersSettled := rp_ordersSettled parts;
     rw_revenueMinor := sum_map id revenueByMethod;
     rw_revenueByMethod := revenueByMethod;
     rw_refundsMinor := rp_refundsMinor parts;
     rw_vatMinor := rp_vatMinor parts;
     rw_topItems := sortWith compareItems (rp_items parts) |}.

Definition liveRow (db : Database) (day : string) : RollupRow := buildRollupRow day (aggregateDay db day).

(** ** Corrections *)

(** [COMPARED_FIELDS], with their values in a row. *)
Definition comparedFields (row : RollupRow) : list (string * Z) :=
  [("ordersCompleted", rw_ordersCompleted row); ("ordersRefunded", rw_ordersRefunded row);
   ("ordersCancelled", rw_ordersCancelled row); ("ordersExpired", rw_ordersExpired row);
   ("ordersSettled", rw_ordersSettled row); ("revenueMinor", rw_revenueMinor row);
   ("refundsMinor", rw_refundsMinor row); ("vatMinor", rw_vatMinor row)].

(** The fields that moved, with both values; [None] when none did. *)
Definition describeCorrection (previous next : RollupRow) : option (list (string * Z * Z)) :=
  match filter (fun e => e.1.2 ≠ e.2)
          (zip_with (fun p n => (p.1, p.2, n.2)) (comparedFields previous) (comparedFields next)) with
  | [] => None
  | moved => Some moved
  end.

(** ** The nightly job *)

Definition CATCH_UP_DAYS : Z := 30.
Definition REROLL_DAYS : Z := 3.

Context (config : Config) (tzOffset : string → Z → Z).

(** [rollDay]: the row, the correction it logs, and the table after it. *)
Definition rollDay (now : Z) (day : string) (db : Database) (rollups : Rollups)
    : result AppError (RollupRow * option (list (string * Z * Z)) * Rollups) :=
  let current := businessDayAt config tzOffset now in
  if bool_decide (textLe current day) then Err (BusinessDayNotClosedError day current)
  else
    let row := liveRow db day in
    let correction :=
      match rollups !! day with
      | Some {| sr_row := previous; sr_finalizedAt := Some _ |} => describeCorrection previous row
      | _ => None
      end in
    Ok (row, correction, <[day := {| sr_row := row; sr_finalizedAt := Some now |}]> rollups).

Record RollupSummary := { rs_rolled : Z; rs_failed : Z }.

(** [rollDays]. [attempt day] is the database the day's transaction sees, or the fault
    that ends the attempt before its upsert. *)
Definition rollOne (now : Z) (attempt : string → result AppError Database)
    (acc : RollupSummary * Rollups) (day : string) : RollupSummary * Rollups :=
  let '(summary, rollups) := acc in
  match db ← attempt day; rollDay now day db rollups with
  | Ok (_, _, rollups') => ({| rs_rolled := rs_rolled summary + 1; rs_failed := rs_failed summary |}, rollups')
  | Err _ => ({| rs_rolled := rs_rolled summary; rs_failed := rs_failed summary + 1 |}, rollups)
  end.

Definition rollDays (now : Z) (attempt : string → result AppError Database) (days : list string)
    (rollups : Rollups) : RollupSummary * Rollups :=
  foldl (rollOne now attempt) ({| rs_rolled := 0; rs_failed := 0 |}, rollups) days.

Definition finalized (rollups : Rollups) (day : string) : bool :=
  match rollups !! day with Some {| sr_finalizedAt := Some _ |} => true | _ => false end.

(** The days before [target] tonight's run has to roll, oldest first. *)
Definition needsRoll (target : string) (rollups : Rollups) (day : string) : Prop :=
  textLe (minusDays target CATCH_UP_DAYS) day ∧ textLt day target ∧
  (textLe (minusDays target REROLL_DAYS) day ∨ finalized rollups day = false).

#[export] Instance needsRoll_dec target rollups day : Decision (needsRoll target rollups day).
Proof. unfold needsRoll. apply _. Defined.

Definition daysNeedingRoll (target : string) (db : Database) (rollups : Rollups) : list string :=
  merge_sort textLe
    (filter (needsRoll target rollups) (dedupe [] ((fun e => o_businessDay e.2) <$> map_to_list (orders db)))).

Definition rollUpYesterday (now : Z) (db : Database) (attempt : string → result AppError Database)
    (rollups : Rollups) : RollupSummary * Rollups :=
  let target := businessDayAt config tzOffset (now - 24 * 60 * 60 * 1000) in
  rollDays now attempt (target :: daysNeedingRoll target db rollups) rollups.
End locale.
