(* ===== verification/Reports.v ===== *)
(** * Reports: [reporting/reports/reports.service.ts] and [shape-reports.ts]

    Sales by day and by hour, the top items of a range and the Z-report. A day's
    totals come from its finalized rollup when there is one and from the live tables
    otherwise. [rollups] is the table the nightly job writes. *)

From S2P Require Import Prelude Text Schema Errors Program BusinessDay Ordering Refunds Rollup.

(** ** Shaping ([shape-reports.ts]) *)

Record SalesBucket := {
  sb_bucket : string; sb_revenueMinor : Z; sb_ordersSettled : Z; sb_avgTicketMinor : option Z }.

(** [Math.round(revenueMinor / ordersSettled)], halves upward. The quotient of two
    integers below 2^52 is within a half unit in the last place of the exact one, and
    no closer to a half-integer than that without being one, so the exact quotient
    rounds the same way. *)
Definition avgTicketMinor (revenueMinor ordersSettled : Z) : option Z :=
  if ordersSettled <=? 0 then None
  else Some ((2 * revenueMinor + ordersSettled) / (2 * ordersSettled)).

Definition salesBucket (bucket : string) (row : RollupRow) : SalesBucket := {|
  sb_bucket := bucket; sb_revenueMinor := rw_revenueMinor row;
  sb_ordersSettled := rw_ordersSettled row;
  sb_avgTicketMinor := avgTicketMinor (rw_revenueMinor row) (rw_ordersSettled row) |}.

(** A running total of [mergeTopItems], with the day its name is from. *)
Record Running := { ru_item : RollupItem; ru_nameFrom : string }.

(** [running.quantity += ...; running.name = ...] on an entry of the map. *)
Definition addItem (businessDay : string) (item : RollupItem) (r : Running) : Running :=
  let renamed := bool_decide (textLe (ru_nameFrom r) businessDay) in
  {| ru_item := {| it_menuItemId := it_menuItemId (ru_item r);
                   it_name := if renamed then it_name item else it_name (ru_item r);
                   it_quantity := it_quantity (ru_item r) + it_quantity item;
                   it_revenueMinor := it_revenueMinor (ru_item r) + it_revenueMinor item |};
     ru_nameFrom := if renamed then businessDay else ru_nameFrom r |}.

(** The body of the inner loop; the list is the [Map], in insertion order. *)
Fixpoint mergeItem (businessDay : string) (totals : list Running) (item : RollupItem) : list Running :=
  match totals with
  | [] => [{| ru_item := item; ru_nameFrom := businessDay |}]
  | r :: rest =>
      if bool_decide (it_menuItemId (ru_item r) = it_menuItemId item)
      then addItem businessDay item r :: rest
      else r :: mergeItem businessDay rest item
  end.

Definition mergeDay (totals : list Running) (day : string * list RollupItem) : list Running :=
  foldl (mergeItem day.1) totals day.2.

Section reports.
Context (localeCompare : string → string → Z).

Definition mergedItems (days : list (string * list RollupItem)) : list RollupItem :=
  sortWith (compareItems localeCompare) (ru_item <$> foldl mergeDay [] days).

Definition mergeTopItems (days : list (string * list RollupItem)) (limit : nat) : list RollupItem :=
  take limit (mergedItems days).

(** ** The service *)

Context (config : Config) (tzOffset : string → Z → Z).

Definition MAX_LIVE_DAYS : nat := 31.

Definition currentBusinessDay (now : Z) : string := businessDayAt config tzOffset now.

Definition refuseIfAfterCurrent (field value current : string) : result AppError unit :=
  if bool_decide (textLt current value) then Err (UnprocessableRangeError field current) else Ok tt.

(** The finalized rows of the range, by day. *)
Definition storedRows (rollups : Rollups) (from to : string) : gmap string RollupRow :=
  omap (fun s => match sr_finalizedAt s with Some _ => Some (sr_row s) | None => None end)
    (filter (fun e => textLe from e.1 ∧ textLe e.1 to) rollups).

Definition staleRollups (missing days : nat) : AppError :=
  DependencyUnavailableError (pretty missing +:+ " of the " +:+ pretty days
    +:+ " days requested have no finalized rollup, which is past the " +:+ pretty MAX_LIVE_DAYS
    +:+ "-day limit this endpoint will compute on demand. The nightly rollup has not been running.").

Definition dayTotals (days : list string) (db : Database) (rollups : Rollups)
    : result AppError (gmap string RollupRow) :=
  match days with
  | [] => Ok ∅
  | from :: _ =>
      let stored := storedRows rollups from (List.last days "") in
      let missing := filter (fun day => stored !! day = None) days in
      if (MAX_LIVE_DAYS <? length missing)%nat then Err (staleRollups (length missing) (length days))
      else Ok (foldl (fun totals day => <[day := liveRow localeCompare db day]> totals) stored missing)
  end.

Inductive GroupBy := by_day | by_hour.

Record SalesReport := {
  sp_from : string; sp_to : string; sp_groupBy : GroupBy; sp_provisional : bool;
  sp_buckets : list SalesBucket }.

(** *** By the hour *)

(** [to_char(date_trunc('hour', created_at AT TIME ZONE zone), 'HH24')]. *)
Definition localHour (createdAt : Z) : Z :=
  let ms := createdAt / 1000 in
  (ms + tzOffset (BUSINESS_TIMEZONE config) ms) mod MILLIS_PER_DAY / 3600000.

Definition bucketOf (o : OrderRow) : string :=
  o_businessDay o +:+ "T" +:+ padStart 2 (pretty (localHour (o_createdAt o))).

Definition rangeOrders (db : Database) (from to : string) : list (string * OrderRow) :=
  filter (fun e => textLe from (o_businessDay e.2) ∧ textLe (o_businessDay e.2) to ∧
                   settled db e.1 = true)
    (map_to_list (orders db)).

(** [min(created_at)] of a group. *)
Definition minCreatedAt (g : list (string * OrderRow)) : Z :=
  match g with
  | [] => 0
  | e :: g => foldl (fun m e => Z.min m (o_createdAt e.2)) (o_createdAt e.2) g
  end.

Definition firstSold (a b : string * list (string * OrderRow)) : Prop :=
  minCreatedAt a.2 ≤ minCreatedAt b.2.

#[local] Instance firstSold_dec a b : Decision (firstSold a b).
Proof. unfold firstSold. apply _. Defined.

Definition hourlyBuckets (db : Database) (from to : string) : list SalesBucket :=
  map (fun '(bucket, g) =>
    let revenue := sumZ (fun e => o_totalMinor e.2) g in
    let count := Z.of_nat (length g) in
    {| sb_bucket := bucket; sb_revenueMinor := revenue; sb_ordersSettled := count;
       sb_avgTicketMinor := avgTicketMinor revenue count |})
    (merge_sort firstSold (groupBy (fun e => bucketOf e.2) (rangeOrders db from to))).

(** *** The reports *)

(** [totals.get(day)!]: every requested day is there ([dayTotals_total]). *)
Definition rowFor (totals : gmap string RollupRow) (day : string) : result AppError RollupRow :=
  match totals !! day with Some row => Ok row | None => Err (JsError "Cannot read properties of undefined") end.

Fixpoint mapResult {A B} (f : A → result AppError B) (l : list A) : result AppError (list B) :=
  match l with
  | [] => Ok []
  | x :: l => y ← f x; ys ← mapResult f l; Ok (y :: ys)
  end.

Definition salesReport (now : Z) (from to : string) (group : GroupBy) (db : Database) (rollups : Rollups)
    : result AppError SalesReport :=
  let current := currentBusinessDay now in
  _ ← refuseIfAfterCurrent "to" to current;
  let days := eachBusinessDay from to in
  let provisional := bool_decide (current ∈ days) in
  match group with
  | by_hour =>
      Ok {| sp_from := from; sp_to := to; sp_groupBy := by_hour; sp_provisional := provisional;
            sp_buckets := hourlyBuckets db from to |}
  | by_day =>
      totals ← dayTotals days db rollups;
      buckets ← mapResult (fun day => row ← rowFor totals day; Ok (salesBucket day row)) days;
      Ok {| sp_from := from; sp_to := to; sp_groupBy := by_day; sp_provisional := provisional;
            sp_buckets := buckets |}
  end.

Record TopItemsReport := {
  ti_from : string; ti_to : string; ti_provisional : bool; ti_items : list RollupItem }.

Definition topItemsReport (now : Z) (from to : string) (limit : nat) (db : Database) (rollups : Rollups)
    : result AppError TopItemsReport :=
  let current := currentBusinessDay now in
  _ ← refuseIfAfterCurrent "to" to current;
  let days := eachBusinessDay from to in
  totals ← dayTotals days db rollups;
  lists ← mapResult (fun day => row ← rowFor totals day; Ok (day, rw_topItems row)) days;
  Ok {| ti_from := from; ti_to := to; ti_provisional := bool_decide (current ∈ days);
        ti_items := mergeTopItems lists limit |}.

(** *** The Z-report *)

Inductive ReconciliationUnavailable := DAY_STILL_TRADING | GATEWAY_UNREACHABLE | DATABASE_UNAVAILABLE.

Record ZReport := {
  z_businessDay : string;
  z_provisional : bool;
  z_completed : Z; z_refunded : Z; z_cancelled : Z; z_expired : Z;
  z_revenueTotal : Z; z_revenueByMethod : gmap string Z;
  z_refundsMinor : Z;
  z_vatMinor : Z;
  z_reconciliation : option ReconciliationReport;
  z_reconciliationUnavailable : option ReconciliationUnavailable }.

(** The report without its reconciliation block. *)
Definition zReportOf (businessDay : string) (provisional : bool) (row : RollupRow)
    (reconciliation : option ReconciliationReport) (unavailable : option ReconciliationUnavailable)
    : ZReport := {|
  z_businessDay := businessDay; z_provisional := provisional;
  z_completed := rw_ordersCompleted row; z_refunded := rw_ordersRefunded row;
  z_cancelled := rw_ordersCancelled row; z_expired := rw_ordersExpired row;
  z_revenueTotal := rw_revenueMinor row; z_revenueByMethod := rw_revenueByMethod row;
  z_refundsMinor := rw_refundsMinor row; z_vatMinor := rw_vatMinor row;
  z_reconciliation := reconciliation; z_reconciliationUnavailable := unavailable |}.

(** The candidates whose payment is for an order of the day. *)
Definition unmatchedEventsForDay (businessDay : string) (candidateIds : list string) (db : Database)
    : list string :=
  (fun e => pe_providerEventId e.2) <$>
    filter (fun e => pe_providerEventId e.2 ∈ candidateIds ∧
      match pe_paymentId e.2 with
      | Some pid => paymentOnDay db businessDay pid
      | None => false
      end = true)
    (map_to_list (paymentEvents db)).

Definition withUnmatched (report : ReconciliationReport) (events : list string) : ReconciliationReport := {|
  rr_businessDay := rr_businessDay report; rr_gatewayCapturedMinor := rr_gatewayCapturedMinor report;
  rr_dbRecordedMinor := rr_dbRecordedMinor report; rr_deltaMinor := rr_deltaMinor report;
  rr_unmatchedEvents := events; rr_notCaptured := rr_notCaptured report |}.

(** [reconcileWithDeadline]: [late] says that the timer fired first, in which case the
    reconciliation goes on unobserved. *)
Definition reconcileWithDeadline (late : bool) (businessDay : string) : prog ReconciliationReport :=
  if late then Throw (JsError "reconciliation exceeded the deadline") else reconcile businessDay.

(** [(await this.dayTotals([businessDay])).get(businessDay)!]. *)
Definition oneDay (businessDay : string) (rollups : Rollups) (db : Database) : result AppError RollupRow :=
  totals ← dayTotals [businessDay] db rollups; rowFor totals businessDay.

(** [scopingFails] says that the query that scopes the unmatched events raises. *)
Definition zReport (now : Z) (businessDay : string) (rollups : Rollups) (late scopingFails : bool)
    : prog ZReport :=
  let current := currentBusinessDay now in
  match refuseIfAfterCurrent "businessDay" businessDay current with
  | Err e => Throw e
  | Ok _ =>
      let provisional := bool_decide (businessDay = current) in
      Read (oneDay businessDay rollups) (fun row =>
        match row with
        | Err e => Throw e
        | Ok row =>
            if provisional then Return (zReportOf businessDay true row None (Some DAY_STILL_TRADING))
            else
              after (reconcileWithDeadline late businessDay) (fun r =>
                match r with
                | Err _ => Return (zReportOf businessDay false row None (Some GATEWAY_UNREACHABLE))
                | Ok report =>
                    if scopingFails then
                      Return (zReportOf businessDay false row None (Some DATABASE_UNAVAILABLE))
                    else
                      Read (unmatchedEventsForDay businessDay (rr_unmatchedEvents report)) (fun events =>
                        Return (zReportOf businessDay false row (Some (withUnmatched report events)) None))
                end)
        end)
  end.
End reports.
