(* ===== verification/Books.v ===== *)
(** * Books: what the tables promise between any two transactions

    The invariants of the order and payment tables, each over exactly the tables
    it speaks of, and the table-level changes that keep them. Nothing here knows
    which handler makes a change; [System.v] shows that every handler makes only
    these. *)

From S2P Require Import Prelude Text Schema Errors Program OrderState Transition CreateOrder.
From S2P Require Import OrderDoors CreatePayment Refunds.

(** ** Columns that never change *)

Definition order_frozen (o : OrderRow) :=
  (o_businessDay o, o_channel o, o_kioskDeviceId o, o_createdByUserId o, o_customerName o,
   (o_subtotalMinor o, o_vatMinor o, o_totalMinor o), o_currency o, o_createdAt o).

Definition payment_frozen (p : PaymentRow) :=
  (p_orderId p, p_provider p, p_providerIntentId p, p_amountMinor p, p_currency p,
   p_idempotencyKey p, p_cashTenderedMinor p, p_createdAt p).

(** Rows that agree on them. *)
Record same_order (o o' : OrderRow) : Prop := { so_frozen : order_frozen o = order_frozen o' }.
Record same_payment (p p' : PaymentRow) : Prop := {
  sp_frozen : payment_frozen p = payment_frozen p' }.

#[export] Instance same_order_equiv : Equivalence same_order.
Proof. split; repeat intros []; try split; congruence. Qed.
#[export] Instance same_payment_equiv : Equivalence same_payment.
Proof. split; repeat intros []; try split; congruence. Qed.

#[export] Instance same_order_total : Proper (same_order ==> eq) o_totalMinor.
Proof. intros o o' [H]. unfold order_frozen in H. congruence. Qed.
#[export] Instance same_order_currency : Proper (same_order ==> eq) o_currency.
Proof. intros o o' [H]. unfold order_frozen in H. congruence. Qed.
#[export] Instance same_order_day : Proper (same_order ==> eq) o_businessDay.
Proof. intros o o' [H]. unfold order_frozen in H. congruence. Qed.
#[export] Instance same_order_subtotal : Proper (same_order ==> eq) o_subtotalMinor.
Proof. intros o o' [H]. unfold order_frozen in H. congruence. Qed.
#[export] Instance same_payment_order : Proper (same_payment ==> eq) p_orderId.
Proof. intros p p' [H]. unfold payment_frozen in H. congruence. Qed.
#[export] Instance same_payment_amount : Proper (same_payment ==> eq) p_amountMinor.
Proof. intros p p' [H]. unfold payment_frozen in H. congruence. Qed.
#[export] Instance same_payment_currency : Proper (same_payment ==> eq) p_currency.
Proof. intros p p' [H]. unfold payment_frozen in H. congruence. Qed.
#[export] Instance same_payment_intent : Proper (same_payment ==> eq) p_providerIntentId.
Proof. intros p p' [H]. unfold payment_frozen in H. congruence. Qed.
#[export] Instance same_payment_provider : Proper (same_payment ==> eq) p_provider.
Proof. intros p p' [H]. unfold payment_frozen in H. congruence. Qed.
#[export] Instance same_payment_tender : Proper (same_payment ==> eq) p_cashTenderedMinor.
Proof. intros p p' [H]. unfold payment_frozen in H. congruence. Qed.

Lemma moved_same from to o : same_order o (moved from to o).
Proof. by split. Qed.
Lemma queued_same n t o : same_order o (queued n t o).
Proof. by split. Qed.
Lemma with_status_same st p : same_payment p (with_status st p).
Proof. by split. Qed.

(** ** Money *)

Section money.
Context (O : gmap string OrderRow) (P : gmap string PaymentRow) (R : gmap string RefundRow).

Definition succeeded_for (oid pid : string) (p : PaymentRow) : Prop :=
  P !! pid = Some p ∧ p_orderId p = oid ∧ p_status p = PaySUCCEEDED.

Definition refunded (pid : string) : Z := sum_map (refundOf pid) R.

Record money_ok : Prop := {
  (* a payment is for an existing order, for exactly what the order costs *)
  pay_order : ∀ pid p, P !! pid = Some p → ∃ o, O !! p_orderId p = Some o ∧
    p_amountMinor p = o_totalMinor o ∧ p_currency p = o_currency o ∧ 0 < p_amountMinor p;
  (* a captured payment is for an order that counts as paid, and conversely *)
  pay_taken : ∀ oid o pid p, O !! oid = Some o → succeeded_for oid pid p →
    moneyTaken (o_status o) = true;
  pay_exists : ∀ oid o, O !! oid = Some o → moneyTaken (o_status o) = true →
    ∃ pid p, succeeded_for oid pid p;
  pay_once : ∀ oid pid p pid' p', succeeded_for oid pid p → succeeded_for oid pid' p' → pid = pid';
  pay_live : ∀ pid p pid' p', P !! pid = Some p → P !! pid' = Some p' →
    isLive p = true → isLive p' = true → p_orderId p = p_orderId p' → pid = pid';
  pay_intent : ∀ pid p pid' p' i, P !! pid = Some p → P !! pid' = Some p' →
    p_providerIntentId p = Some i → p_providerIntentId p' = Some i → pid = pid';
  (* a refund gives back captured money, and never more of it than was taken *)
  pay_refund : ∀ rid r, R !! rid = Some r → 0 < r_amountMinor r ∧
    ∃ p, P !! r_paymentId r = Some p ∧ p_status p = PaySUCCEEDED;
  pay_bound : ∀ pid p, P !! pid = Some p → refunded pid ≤ p_amountMinor p;
  (* REFUNDED means fully refunded *)
  pay_full : ∀ oid o pid p, O !! oid = Some o → succeeded_for oid pid p →
    (o_status o = REFUNDED ↔ refunded pid = p_amountMinor p)
}.
End money.

Lemma live_not_succeeded p : isLive p = true → p_status p ≠ PaySUCCEEDED.
Proof. unfold isLive. intros H%bool_decide_eq_true Hs. rewrite Hs in H. by apply (bool_decide_eq_true_2 _) in H. Qed.

Lemma live_status st p : isLive (with_status st p) = bool_decide (st ∈ LIVE).
Proof. done. Qed.

Lemma refunded_nonneg O P R pid : money_ok O P R → 0 ≤ refunded R pid.
Proof.
  intros HM. apply sum_map_nonneg. intros rid r Hr. unfold refundOf.
  case_bool_decide; [|done]. destruct (pay_refund _ _ _ HM _ _ Hr). lia.
Qed.

(** A payment nobody captured has no refunds against it. *)
Lemma refunded_unsettled O P R pid :
  money_ok O P R → (∀ p, P !! pid = Some p → p_status p ≠ PaySUCCEEDED) → refunded R pid = 0.
Proof.
  intros HM Hp. unfold refunded. rewrite (sum_map_ext _ (fun _ => 0)).
  - clear. induction R as [|k x R Hk IH] using map_ind; [by rewrite sum_map_empty|].
    by rewrite sum_map_insert, IH.
  - intros rid r Hr. unfold refundOf. case_bool_decide; [|done]. subst.
    destruct (pay_refund _ _ _ HM _ _ Hr) as (_ & p & HP & HS). exfalso. by eapply Hp.
Qed.

(** Case analysis on a row of an updated table. *)
Ltac lookup_cases :=
  repeat match goal with
  | H : <[?k := _]> _ !! ?k = Some _ |- _ => rewrite lookup_insert_eq in H; injection H as <-
  | H : <[?k := _]> _ !! ?k' = Some _ |- _ =>
      apply lookup_insert_Some in H as [[<- <-]|[? H]]; try done
  end.

(** The order a payment is for, still there and still costing the same after a move. *)
Lemma priced_after_move (O : gmap string OrderRow) id o o' oid amount currency :
  O !! id = Some o → same_order o o' →
  (∃ o1, O !! oid = Some o1 ∧ amount = o_totalMinor o1 ∧ currency = o_currency o1 ∧ 0 < amount) →
  ∃ o1, <[id := o']> O !! oid = Some o1 ∧ amount = o_totalMinor o1 ∧
    currency = o_currency o1 ∧ 0 < amount.
Proof.
  intros Ho Hsame (o1 & Ho1 & Ha & Hc & Hpos).
  destruct (decide (oid = id)) as [->|Hne]; [|exists o1; by rewrite lookup_insert_ne].
  exists o'. rewrite lookup_insert_eq. simplify_eq. split_and!; [done|by rewrite Hsame..|done].
Qed.

Section money_changes.
Context (O : gmap string OrderRow) (P : gmap string PaymentRow) (R : gmap string RefundRow).
Context (HM : money_ok O P R).

(** A new order that has taken no money yet. *)
Lemma money_new_order id row :
  O !! id = None → moneyTaken (o_status row) = false → money_ok (<[id := row]> O) P R.
Proof.
  intros Hid Hrow.
  assert (∀ pid p, P !! pid = Some p → p_orderId p ≠ id) as Hfresh.
  { intros pid p HP Heq. destruct (pay_order _ _ _ HM _ _ HP) as (o & Ho & _). congruence. }
  destruct HM as [H1 H2 H3 H4 H5 H6 H7 H8 H9]. split; try done.
  - intros pid p HP. destruct (H1 _ _ HP) as (o & Ho & ?). exists o.
    rewrite lookup_insert_ne; [done|]. intros Heq. by eapply Hfresh.
  - intros oid o pid p Ho HS. lookup_cases; [|by eauto].
    destruct HS as (HP & ? & _). by apply Hfresh in HP.
  - intros oid o Ho Hm. lookup_cases; [congruence|]. eauto.
  - intros oid o pid p Ho HS. lookup_cases; [|by eauto].
    destruct HS as (HP & ? & _). by apply Hfresh in HP.
Qed.

(** An order moves without crossing the line between owed, taken and given back. *)
Lemma money_move id o o' :
  O !! id = Some o → same_order o o' →
  moneyTaken (o_status o') = moneyTaken (o_status o) →
  (o_status o' = REFUNDED ↔ o_status o = REFUNDED) →
  money_ok (<[id := o']> O) P R.
Proof.
  intros Hid Hsame Htaken Hfull.
  destruct HM as [H1 H2 H3 H4 H5 H6 H7 H8 H9]. split; try done.
  - intros pid p HP. eapply priced_after_move; eauto.
  - intros oid o1 pid p Ho HS. lookup_cases; [rewrite Htaken|]; eauto.
  - intros oid o1 Ho Hm. lookup_cases; [rewrite Htaken in Hm|]; eauto.
  - intros oid o1 pid p Ho HS. lookup_cases; [rewrite Hfull|]; eauto.
Qed.

(** An uncaptured payment ends without capturing. *)
Lemma money_unsettle pid p st :
  P !! pid = Some p → p_status p ≠ PaySUCCEEDED → st ≠ PaySUCCEEDED → st ∉ LIVE →
  money_ok O (<[pid := with_status st p]> P) R.
Proof.
  intros Hpid Hp Hst Hl.
  assert (∀ oid q r, succeeded_for (<[pid := with_status st p]> P) oid q r ↔
                     succeeded_for P oid q r) as Heq.
  { intros oid q r. unfold succeeded_for.
    destruct (decide (q = pid)) as [->|]; [rewrite lookup_insert_eq|by rewrite lookup_insert_ne].
    split; intros (?&?&?); simplify_eq; simpl in *; congruence. }
  destruct HM as [H1 H2 H3 H4 H5 H6 H7 H8 H9]. split.
  - intros q r Hq. lookup_cases; [apply (H1 pid p Hpid)|eauto].
  - intros oid o q r Ho HS%Heq. eauto.
  - intros oid o Ho Hm. destruct (H3 _ _ Ho Hm) as (q & r & HS). exists q, r. by apply Heq.
  - intros oid q r q' r' HS%Heq HS'%Heq. eauto.
  - intros q r q' r' Hq Hq' Hr Hr' Hoid.
    assert (∀ r0, <[pid := with_status st p]> P !! q = Some r0 → True) by done.
    lookup_cases; rewrite ?live_status in *; try done;
      try (apply bool_decide_eq_true in Hr; done); try (apply bool_decide_eq_true in Hr'; done).
    eauto.
  - intros q r q' r' i Hq Hq' Hr Hr'. lookup_cases; try done; eauto.
  - intros rid r Hr. destruct (H7 _ _ Hr) as (? & q & Hq & Hs). split; [done|]. exists q.
    rewrite lookup_insert_ne; [done|]. intros ->. congruence.
  - intros q r Hq. lookup_cases; [apply (H8 pid p Hpid)|eauto].
  - intros oid o q r Ho HS%Heq. eauto.
Qed.

(** A live payment is opened for an order that has none. *)
Lemma money_open pid p o :
  P !! pid = None → isLive p = true → O !! p_orderId p = Some o →
  p_amountMinor p = o_totalMinor o → p_currency p = o_currency o → 0 < p_amountMinor p →
  (∀ q r i, P !! q = Some r → p_providerIntentId r = Some i → p_providerIntentId p ≠ Some i) →
  (∀ q r, P !! q = Some r → isLive r = true → p_orderId r ≠ p_orderId p) →
  money_ok O (<[pid := p]> P) R.
Proof.
  intros Hpid Hl Ho Ha Hc Hpos Hint Hlive. pose proof (live_not_succeeded _ Hl) as Hns.
  assert (∀ oid q r, succeeded_for (<[pid := p]> P) oid q r ↔ succeeded_for P oid q r) as Heq.
  { intros oid q r. unfold succeeded_for.
    destruct (decide (q = pid)) as [->|]; [rewrite lookup_insert_eq|by rewrite lookup_insert_ne].
    split; intros (?&?&?); simplify_eq. }
  assert (refunded R pid = 0) as H0 by (eapply refunded_unsettled; [done|]; congruence).
  destruct HM as [H1 H2 H3 H4 H5 H6 H7 H8 H9]. split.
  - intros q r Hq. lookup_cases; eauto.
  - intros oid o1 q r Ho1 HS%Heq. eauto.
  - intros oid o1 Ho1 Hm. destruct (H3 _ _ Ho1 Hm) as (q & r & HS). exists q, r. by apply Heq.
  - intros oid q r q' r' HS%Heq HS'%Heq. eauto.
  - intros q r q' r' Hq Hq' Hr Hr' Hoid. lookup_cases; try done; eauto.
    + exfalso. by eapply (Hlive q r).
    + exfalso. by eapply (Hlive q' r').
  - intros q r q' r' i Hq Hq' Hr Hr'. lookup_cases; try done; eauto.
    + exfalso. by eapply (Hint q r).
    + exfalso. by eapply (Hint q' r').
  - intros rid r Hr. destruct (H7 _ _ Hr) as (? & q & Hq & Hs). split; [done|]. exists q.
    rewrite lookup_insert_ne; [done|]. intros ->. congruence.
  - intros q r Hq. lookup_cases; [lia|eauto].
  - intros oid o1 q r Ho1 HS%Heq. eauto.
Qed.

(** The order is paid: its status and one captured payment arrive together. *)
Lemma money_pay oid o o' pid p :
  O !! oid = Some o → moneyTaken (o_status o) = false → same_order o o' → o_status o' = PAID →
  p_orderId p = oid → p_status p = PaySUCCEEDED →
  p_amountMinor p = o_totalMinor o → p_currency p = o_currency o → 0 < p_amountMinor p →
  (∀ q, P !! pid = Some q → same_payment q p) →
  (∀ q r i, q ≠ pid → P !! q = Some r → p_providerIntentId r = Some i →
    p_providerIntentId p ≠ Some i) →
  money_ok (<[oid := o']> O) (<[pid := p]> P) R.
Proof.
  intros Ho Hun Hsame Hpaid Hoid Hs Ha Hc Hpos Hold Hint.
  assert (∀ q r, ¬ succeeded_for P oid q r) as Hnone.
  { intros q r HS. pose proof (pay_taken _ _ _ HM _ _ _ _ Ho HS). congruence. }
  assert (∀ q, P !! pid = Some q → p_status q ≠ PaySUCCEEDED) as Hq.
  { intros q Hq Hqs. apply (Hnone pid q). split_and!; [done| |done].
    by rewrite (Hold q Hq). }
  assert (refunded R pid = 0) as H0 by (eapply refunded_unsettled; done).
  assert (∀ oid' q r, succeeded_for (<[pid := p]> P) oid' q r →
    (oid' = oid ∧ q = pid ∧ r = p) ∨ (oid' ≠ oid ∧ succeeded_for P oid' q r)) as Hcases.
  { intros oid' q r (HP & Ho' & HS). lookup_cases; [left; split_and!; congruence|]. right.
    split; [|by split_and!]. intros ->. by apply (Hnone q r). }
  destruct HM as [H1 H2 H3 H4 H5 H6 H7 H8 H9]. split.
  - intros q r HP. eapply priced_after_move; [done..|]. lookup_cases; [|eauto]. exists o. by rewrite Hoid.
  - intros oid' o1 q r Ho1 [(->&->&->)|(Hne & HS)]%Hcases; lookup_cases; [by rewrite Hpaid|eauto].
  - intros oid' o1 Ho1 Hm. lookup_cases.
    + exists pid, p. by rewrite <- Hoid; split_and!; rewrite ?lookup_insert_eq.
    + destruct (H3 _ _ Ho1 Hm) as (q & r & HP & ? & HS). exists q, r. split_and!; [|done..].
      rewrite lookup_insert_ne; [done|]. intros ->. by apply (Hq r).
  - intros oid' q r q' r' [(?&?&?)|(?&?)]%Hcases [(?&?&?)|(?&?)]%Hcases; subst; try done; eauto.
  - assert (isLive p ≠ true) as Hdead by (intros ?%live_not_succeeded; done).
    intros q r q' r' HP HP' Hr Hr' Ho1. lookup_cases; eauto.
  - intros q r q' r' i HP HP' Hr Hr'. lookup_cases; try done; eauto.
    + exfalso. by eapply (Hint q r).
    + exfalso. by eapply (Hint q' r').
  - intros rid r Hr. destruct (H7 _ _ Hr) as (? & q & HP & HS). split; [done|]. exists q.
    rewrite lookup_insert_ne; [done|]. intros ->. by apply (Hq q).
  - intros q r HP. lookup_cases; [lia|eauto].
  - intros oid' o1 q r Ho1 [(->&->&->)|(Hne & HS)]%Hcases; lookup_cases; [|by eauto].
    rewrite Hpaid, H0. split; [done|lia].
Qed.

Lemma refunded_insert rid r q :
  R !! rid = None →
  refunded (<[rid := r]> R) q = refundOf q r + refunded R q.
Proof. apply sum_map_insert. Qed.

(** A refund that leaves some of the payment in the till. *)
Lemma money_refund_part rid r p :
  R !! rid = None → P !! r_paymentId r = Some p → p_status p = PaySUCCEEDED →
  0 < r_amountMinor r → refunded R (r_paymentId r) + r_amountMinor r < p_amountMinor p →
  money_ok O P (<[rid := r]> R).
Proof.
  intros Hrid HP HS Hpos Hlt.
  destruct HM as [H1 H2 H3 H4 H5 H6 H7 H8 H9]. split; try done.
  - intros rid' r' Hr. lookup_cases; eauto.
  - intros q p1 Hq. rewrite refunded_insert by done. unfold refundOf.
    case_bool_decide; [subst; simplify_eq; lia|]. specialize (H8 _ _ Hq). lia.
  - intros oid o q p1 Ho HS1. rewrite refunded_insert by done. rewrite (H9 _ _ _ _ Ho HS1).
    unfold refundOf. case_bool_decide; [|by rewrite Z.add_0_l].
    destruct HS1 as (? & _). subst. simplify_eq. lia.
Qed.

(** The refund that takes the last of it, with the order's move to REFUNDED. *)
Lemma money_refund_full rid r p o o' :
  R !! rid = None → P !! r_paymentId r = Some p → p_status p = PaySUCCEEDED →
  0 < r_amountMinor r → refunded R (r_paymentId r) + r_amountMinor r = p_amountMinor p →
  O !! p_orderId p = Some o → same_order o o' → o_status o' = REFUNDED →
  money_ok (<[p_orderId p := o']> O) P (<[rid := r]> R).
Proof.
  intros Hrid HP HS Hpos Heq Ho Hsame Hst.
  destruct HM as [H1 H2 H3 H4 H5 H6 H7 H8 H9].
  assert (succeeded_for P (p_orderId p) (r_paymentId r) p) as HSF by by split_and!.
  split; try done.
  - intros q p1 Hq. eapply priced_after_move; eauto.
  - intros oid o1 q p1 Ho1 HS1. lookup_cases; [by rewrite Hst|eauto].
  - intros oid o1 Ho1 Hm. lookup_cases; eauto.
  - intros rid' r' Hr. lookup_cases; eauto.
  - intros q p1 Hq. rewrite refunded_insert by done. unfold refundOf.
    case_bool_decide; [subst; simplify_eq; lia|]. specialize (H8 _ _ Hq). lia.
  - intros oid o1 q p1 Ho1 HS1. rewrite refunded_insert by done. unfold refundOf.
    lookup_cases.
    + pose proof (H4 _ _ _ _ _ HS1 HSF) as ->. destruct HS1 as (? & _). simplify_eq.
      rewrite bool_decide_true by done. rewrite Hst. split; [lia|done].
    + rewrite (H9 _ _ _ _ Ho1 HS1). case_bool_decide; [|by rewrite Z.add_0_l].
      destruct HS1 as (HP1 & ? & _). subst. by simplify_eq.
Qed.
End money_changes.
