(* ===== verification/Paging.v ===== *)
(** * Paging: what a client that follows cursors sees

    The order list is paged by a client that sends each page's cursor back. Over a
    database that does not change, the pages are the whole sorted result, cut into
    pieces, and the walk ends. Over one that changes between requests, no order is
    shown twice and none that matched throughout is missed. Both are proved for
    cursors that carry the sort value exactly: totals always do, timestamps when
    they are whole milliseconds (see [Findings]). *)

From S2P Require Import Prelude Text Schema Errors BusinessDay CreateOrder Books Ordering Cursor OrdersRead.
From Stdlib Require Import Ascii.

Lemma elem_of_take_sub {A} n (l : list A) x : x ∈ take n l → x ∈ l.
Proof. rewrite <-(take_drop n l) at 2. rewrite elem_of_app. auto. Qed.

Lemma last_take {A} (l : list A) n : (1 <= n)%nat → (n < length l)%nat →
  ∃ l1 x l2, l = l1 ++ x :: l2 ∧ take n l = l1 ++ [x] ∧ drop n l = l2.
Proof.
  intros Hn Hl. destruct (lookup_lt_is_Some_2 l (n - 1) ltac:(lia)) as [x Hx].
  exists (take (n - 1) l), x, (drop n l). pose proof (take_drop_middle l (n - 1) x Hx) as E.
  replace (S (n - 1)) with n in E by lia. split_and!; [done| |done].
  rewrite <-(take_S_r _ _ _ Hx). f_equal. lia.
Qed.

Section paging.
Context (sort : OrderSort).

Local Notation "a ≺ b" := (precedes sort a b) (at level 70).

#[local] Instance precedes_trans : Transitive (precedes sort).
Proof. unfold precedes. intros a b c. destruct (descending sort); intros; by etrans. Qed.

Lemma precedes_irrefl a : ¬ a ≺ a.
Proof. unfold precedes. destruct (descending sort); apply keyLt_irrefl. Qed.

Lemma precedes_tri a b : a ≺ b ∨ a = b ∨ b ≺ a.
Proof.
  unfold precedes. destruct (descending sort); destruct (keyLt_tri a b) as [?|[?|?]]; auto.
Qed.

Lemma not_precedes a b : ¬ b ≺ a ↔ a = b ∨ a ≺ b.
Proof.
  split.
  - intros H. destruct (precedes_tri a b) as [?|[?|?]]; auto. done.
  - intros [->|H] H'; [by eapply precedes_irrefl|]. eapply precedes_irrefl. by etrans.
Qed.

#[local] Instance rowLe_dec r1 r2 : Decision (rowLe sort r1 r2).
Proof. unfold rowLe. apply _. Defined.

#[local] Instance rowLe_trans : Transitive (rowLe sort).
Proof.
  intros a b c. unfold rowLe. rewrite !not_precedes. intros [->|H1] [H2|H2]; auto.
  - rewrite <-H2. auto.
  - right. by etrans.
Qed.

#[local] Instance rowLe_total : Total (rowLe sort).
Proof.
  intros a b. unfold rowLe. rewrite !not_precedes.
  destruct (precedes_tri (sortKey sort a) (sortKey sort b)) as [?|[?|?]]; auto.
Qed.

(** ** The rows of a request *)

Context (query : OrdersQuery) (Hsort : oq_sort query = sort).

Definition rowKey (row : string * OrderRow) : Key := sortKey sort row.

Lemma rows_untied (m : gmap string OrderRow) : untied (rowLe sort) (map_to_list m).
Proof.
  intros [id o] [id' o'] H1%elem_of_map_to_list H2%elem_of_map_to_list.
  unfold rowLe. rewrite !not_precedes. intros [H|H].
  - injection H as _ ->. intros _. by simplify_eq.
  - intros [H'|H']; [by injection H' as _ ->; simplify_eq|].
    exfalso. eapply precedes_irrefl. by etrans.
Qed.

Lemma elem_of_sortedRows db resume row :
  row ∈ sortedRows query db resume ↔
  orders db !! row.1 = Some row.2 ∧ filters query db row.1 row.2 = true ∧
  match resume with Some k => k ≺ rowKey row | None => True end.
Proof.
  unfold sortedRows. rewrite elem_of_merge_sort, list_elem_of_filter. unfold selected. rewrite Hsort.
  destruct row as [id o]. rewrite elem_of_map_to_list. cbn. tauto.
Qed.

Lemma sortedRows_sorted db resume :
  StronglySorted (fun r1 r2 => rowKey r1 ≺ rowKey r2) (sortedRows query db resume).
Proof.
  assert (untied (rowLe sort) (sortedRows query db resume)) as Hu.
  { unfold sortedRows. rewrite Hsort.
    eapply untied_Permutation; [symmetry; apply merge_sort_Permutation|].
    apply untied_filter, rows_untied. }
  assert (NoDup (sortedRows query db resume)) as Hn.
  { unfold sortedRows. rewrite merge_sort_Permutation. apply NoDup_filter, NoDup_map_to_list. }
  assert (StronglySorted (rowLe sort) (sortedRows query db resume)) as Hs.
  { unfold sortedRows. rewrite Hsort. by apply StronglySorted_merge_sort; try apply _. }
  induction Hs as [|x l Hs IH Hx]; constructor.
  - apply IH; [|by apply NoDup_cons in Hn as [_ ?]].
    intros a b Ha Hb. apply Hu; by apply list_elem_of_further.
  - rewrite Forall_forall in *. intros y Hy. specialize (Hx y Hy).
    pose proof Hx as Hx'. unfold rowLe in Hx'. apply not_precedes in Hx' as [E|?]; [|done].
    exfalso. apply NoDup_cons in Hn as [Hn _]. apply Hn.
    rewrite (Hu x y); [done|apply list_elem_of_here|by apply list_elem_of_further|done|].
    unfold rowLe. rewrite E. apply precedes_irrefl.
Qed.

(** A cursor leaves exactly the rows behind it. *)
Lemma sortedRows_resume db k :
  sortedRows query db (Some k) = filter (fun r => k ≺ rowKey r) (sortedRows query db None).
Proof.
  unfold sortedRows. rewrite Hsort, <-merge_sort_filter by (try apply _; apply untied_filter, rows_untied).
  f_equal. rewrite list_filter_filter. apply list_filter_iff. intros r. unfold selected.
  rewrite Hsort. cbn. tauto.
Qed.

Lemma sortedRows_None_ge db k row : k ≺ rowKey row →
  sortedRows query db (Some (rowKey row))
  = filter (fun r => rowKey row ≺ rowKey r) (sortedRows query db (Some k)).
Proof.
  intros Hk. rewrite !sortedRows_resume, list_filter_filter. apply list_filter_iff. intros r. cbn.
  split; [|tauto]. intros H. split; [done|]. by etrans.
Qed.

(** In a strictly sorted list, what lies behind an element is what follows it. *)
Lemma filter_behind (l1 l2 : list (string * OrderRow)) row :
  StronglySorted (fun r1 r2 => rowKey r1 ≺ rowKey r2) (l1 ++ row :: l2) →
  filter (fun r => rowKey row ≺ rowKey r) (l1 ++ row :: l2) = l2.
Proof.
  intros Hs. apply StronglySorted_app in Hs as (H12 & _ & H2).
  apply StronglySorted_inv in H2 as [_ H2]. rewrite Forall_forall in H2.
  rewrite filter_app, filter_cons, decide_False by apply precedes_irrefl.
  rewrite (filter_all _ l2) by done. rewrite (filter_none _ l1); [done|].
  intros x Hx Hr. eapply precedes_irrefl. etrans; [exact Hr|].
  apply H12; [done|apply list_elem_of_here].
Qed.

(** ** Walks *)

(** The walk on rows: each request resumes after the last row of the page before
    it; the flag says that there was more. *)
Fixpoint walkRows (resume : option Key) (dbs : list Database) : list (list (string * OrderRow) * bool) :=
  match dbs with
  | [] => []
  | db :: dbs =>
      let rows := sortedRows query db resume in
      let page := take (oq_limit query) rows in
      if (oq_limit query <? length rows)%nat then
        (page, true) :: match last page with
                        | Some row => walkRows (Some (rowKey row)) dbs
                        | None => []
                        end
      else [(page, false)]
  end.

Definition shown (pages : list (list (string * OrderRow) * bool)) : list (string * OrderRow) :=
  concat (fst <$> pages).

Definition finished (pages : list (list (string * OrderRow) * bool)) : Prop :=
  snd <$> last pages = Some false.

Context (Hlimit : (1 <= oq_limit query)%nat).

(** Over a database that does not change, the pages are the sorted result. *)
Lemma walkRows_fixed db n : ∀ resume, (length (sortedRows query db resume) < n)%nat →
  shown (walkRows resume (repeat db n)) = sortedRows query db resume ∧
  finished (walkRows resume (repeat db n)).
Proof.
  induction n as [|n IH]; intros resume Hl; [lia|]. cbn [repeat walkRows].
  destruct (Nat.ltb_spec (oq_limit query) (length (sortedRows query db resume))) as [Hmore|Hend].
  - destruct (last_take _ _ Hlimit Hmore) as (l1 & row & l2 & E & Et & Ed).
    rewrite Et, last_snoc.
    assert (sortedRows query db (Some (rowKey row)) = l2) as Hnext.
    { pose proof (sortedRows_sorted db resume) as Hs. rewrite E in Hs.
      rewrite <-(filter_behind l1 l2 row Hs), <-E. destruct resume as [k|].
      - apply sortedRows_None_ge. assert (row ∈ sortedRows query db (Some k)) as Hin.
        { rewrite E. apply elem_of_app. right. apply list_elem_of_here. }
        by apply elem_of_sortedRows in Hin as (_ & _ & ?).
      - apply sortedRows_resume. }
    destruct (IH (Some (rowKey row))) as [IH1 IH2].
    { rewrite Hnext. rewrite E, length_app in Hl. cbn in Hl. lia. }
    split.
    + unfold shown in *. cbn. rewrite IH1, Hnext, E, <-app_assoc. done.
    + unfold finished in *. rewrite last_cons. destruct (last (walkRows _ _)); [|done]. done.
  - split; [|done]. unfold shown. cbn. rewrite app_nil_r. by apply take_ge.
Qed.

Definition behind (resume : option Key) (row : string * OrderRow) : Prop :=
  match resume with Some k => k ≺ rowKey row | None => True end.

(** Every row shown lies behind the cursor, and the rows come in order. *)
Lemma walkRows_sorted dbs : ∀ resume,
  StronglySorted (fun r1 r2 => rowKey r1 ≺ rowKey r2) (shown (walkRows resume dbs)) ∧
  ∀ row, row ∈ shown (walkRows resume dbs) → behind resume row ∧
    ∃ db, db ∈ dbs ∧ orders db !! row.1 = Some row.2 ∧ filters query db row.1 row.2 = true.
Proof.
  induction dbs as [|db dbs IH]; intros resume; [split; [constructor|by intros ? ?%elem_of_nil]|].
  assert (∀ row, row ∈ take (oq_limit query) (sortedRows query db resume) → behind resume row ∧
    ∃ d, d ∈ db :: dbs ∧ orders d !! row.1 = Some row.2 ∧ filters query d row.1 row.2 = true) as Hpage.
  { intros row (Ho & Hf & Hb)%elem_of_take_sub%elem_of_sortedRows. split; [done|].
    exists db. by split; [apply list_elem_of_here|]. }
  assert (StronglySorted (fun r1 r2 => rowKey r1 ≺ rowKey r2)
    (take (oq_limit query) (sortedRows query db resume))) as Hs.
  { pose proof (sortedRows_sorted db resume) as Hs.
    rewrite <-(take_drop (oq_limit query)) in Hs. by apply StronglySorted_app in Hs as (_ & ? & _). }
  cbn [walkRows]. destruct (Nat.ltb_spec (oq_limit query) (length (sortedRows query db resume))) as [Hmore|Hend].
  - destruct (last_take _ _ Hlimit Hmore) as (l1 & row & l2 & E & Et & Ed).
    rewrite Et in *. rewrite last_snoc. destruct (IH (Some (rowKey row))) as [IH1 IH2].
    unfold shown in *. cbn. split.
    + apply StronglySorted_app_2; [|done|done]. intros x y Hx [Hy _]%IH2. cbn in Hy.
      apply elem_of_app in Hx as [Hx| ->%list_elem_of_singleton]; [|done].
      etrans; [|exact Hy]. apply StronglySorted_app in Hs as (Hs & _).
      apply Hs; [done|apply list_elem_of_here].
    + intros x [Hx|(Hb & d & Hd & Hx)%IH2]%elem_of_app; [auto|]. split.
      * destruct resume as [k|]; [|done]. cbn in *. etrans; [|exact Hb].
        apply (Hpage row). apply elem_of_app. right. apply list_elem_of_here.
      * exists d. split; [by apply list_elem_of_further|done].
  - unfold shown. cbn. rewrite app_nil_r. done.
Qed.

(** A finished walk has shown every row that was there at each request. *)
Lemma walkRows_shows dbs key id : ∀ resume,
  (∀ db, db ∈ dbs → ∃ o, orders db !! id = Some o ∧ filters query db id o = true ∧
    rowKey (id, o) = key) →
  (match resume with Some k => k ≺ key | None => True end) →
  finished (walkRows resume dbs) → id ∈ (shown (walkRows resume dbs)).*1.
Proof.
  induction dbs as [|db dbs IH]; intros resume Hdbs Hb Hf; [done|].
  destruct (Hdbs db (list_elem_of_here _ _)) as (o & Ho & Hfil & Hk).
  assert ((id, o) ∈ sortedRows query db resume) as Hin.
  { apply elem_of_sortedRows. split_and!; [done|done|]. destruct resume; [|done]. by rewrite Hk. }
  cbn [walkRows] in *.
  destruct (Nat.ltb_spec (oq_limit query) (length (sortedRows query db resume))) as [Hmore|Hend].
  - destruct (last_take _ _ Hlimit Hmore) as (l1 & row & l2 & E & Et & Ed).
    rewrite Et in *. rewrite last_snoc in *. unfold shown in *. cbn. rewrite fmap_app.
    apply elem_of_app. pose proof Hin as Hin'. rewrite E, cons_middle, app_assoc in Hin'.
    apply elem_of_app in Hin' as [Hin'|Hin'].
    + left. apply list_elem_of_fmap. by exists (id, o).
    + right. apply IH.
      * intros d Hd. apply Hdbs. by apply list_elem_of_further.
      * pose proof (sortedRows_sorted db resume) as Hs. rewrite E in Hs.
        apply StronglySorted_app in Hs as (_ & _ & Hs). apply StronglySorted_inv in Hs as [_ Hs].
        rewrite Forall_forall in Hs. rewrite <-Hk. by apply Hs.
      * unfold finished in *. rewrite last_cons in Hf. by destruct (last (walkRows _ _)).
  - unfold shown. cbn. rewrite app_nil_r. rewrite take_ge by lia. apply list_elem_of_fmap. by exists (id, o).
Qed.
End paging.

(** ** The client *)

Definition resumed (query : OrdersQuery) (cursor : option string) : OrdersQuery := {|
  oq_status := oq_status query; oq_channel := oq_channel query; oq_method := oq_method query;
  oq_from := oq_from query; oq_to := oq_to query; oq_businessDay := oq_businessDay query;
  oq_q := oq_q query; oq_sort := oq_sort query; oq_limit := oq_limit query; oq_cursor := cursor |}.

(** A client that asks for the first page and then for each next one, until there
    is none; the database each request runs against is the next of [dbs]. *)
Fixpoint walk (query : OrdersQuery) (cursor : option string) (dbs : list Database)
    : result AppError (list OrderPage) :=
  match dbs with
  | [] => Ok []
  | db :: dbs =>
      match list_orders (resumed query cursor) db with
      | Err e => Err e
      | Ok page =>
          match page_nextCursor page with
          | None => Ok [page]
          | next =>
              match walk query next dbs with
              | Err e => Err e
              | Ok pages => Ok (page :: pages)
              end
          end
      end
  end.

(** What the column types promise of an order row. *)
Definition typed_orders (db : Database) : Prop := ∀ id o, orders db !! id = Some o →
  isUuid id = true ∧ lowerText id = id ∧ int4 (o_totalMinor o) = true ∧
  fourDigitYear (dateOf (o_createdAt o)).

(** The cursor carries the sort value exactly. *)
Definition exact_sort (sort : OrderSort) (db : Database) : Prop :=
  byTotal sort = true ∨ ∀ id o, orders db !! id = Some o → o_createdAt o mod 1000 = 0.

Definition summary (row : string * OrderRow) : OrderSummary := toOrderSummary row.1 row.2.

Definition isLast (page : OrderPage) : bool :=
  match page_nextCursor page with Some _ => false | None => true end.

Lemma int4_safe n : int4 n = true → isSafeInteger n = true.
Proof. unfold int4, isSafeInteger, MAX_SAFE_INTEGER. rewrite andb_true_iff. lia. Qed.

(** The cursor issued for a row resumes exactly after it. *)
Lemma cursorKey_issued sort db id o :
  typed_orders db → exact_sort sort db → orders db !! id = Some o →
  cursorKey (encodeCursor (sortText sort) (sortValueOf sort o) id) sort = Ok (sortKey sort (id, o)).
Proof.
  intros Ht He Ho. destruct (Ht _ _ Ho) as (Hu & Hlow & Hi & Hy). unfold cursorKey.
  assert (isIssuableValue sort (sortValueOf sort o) = true) as Hv.
  { unfold isIssuableValue, sortValueOf. destruct (byTotal sort).
    - rewrite signedNumber_pretty. by apply int4_safe.
    - rewrite isoFields_toISOString by done. apply dateParses_fieldsOf. }
  rewrite decode_encode by done. cbn [cursor_value cursor_id]. rewrite Hlow.
  unfold sortValueOf, sortKey. destruct He as [Hb|He].
  - rewrite Hb, signedNumber_pretty. unfold castInteger. cbn -[int4]. by rewrite Hi.
  - destruct (byTotal sort).
    + rewrite signedNumber_pretty. unfold castInteger. cbn -[int4]. by rewrite Hi.
    + rewrite timestamptz_toISOString by done. repeat f_equal. unfold dateOf.
      specialize (He _ _ Ho). pose proof (Z.div_mod (o_createdAt o) 1000). cbn in *. lia.
Qed.

Section client.
Context (query : OrdersQuery) (Hlimit : (1 <= oq_limit query)%nat).

Definition resumes (cursor : option string) (resume : option Key) : Prop :=
  match cursor, resume with
  | None, None => True
  | Some raw, Some k => cursorKey raw (oq_sort query) = Ok k
  | _, _ => False
  end.

Lemma list_orders_rows cursor resume db :
  resumes cursor resume →
  list_orders (resumed query cursor) db
  = Ok (pageOf query (take (oq_limit query + 1) (sortedRows query db resume))).
Proof.
  unfold list_orders, resumes. cbn [oq_cursor oq_sort resumed].
  destruct cursor as [raw|], resume as [k|]; try done. by intros ->.
Qed.

Lemma walk_rows dbs : ∀ cursor resume,
  (∀ db, db ∈ dbs → typed_orders db ∧ exact_sort (oq_sort query) db) →
  resumes cursor resume →
  ∃ pages, walk query cursor dbs = Ok pages ∧
    let rows := walkRows (oq_sort query) query resume dbs in
    page_orders <$> pages = (fun '(page, _) => summary <$> page) <$> rows ∧
    isLast <$> pages = (fun '(_, more) => negb more) <$> rows.
Proof.
  induction dbs as [|db dbs IH]; intros cursor resume Hdbs Hr; [by exists []|].
  destruct (Hdbs db (list_elem_of_here _ _)) as [Ht He].
  cbn [walk walkRows]. rewrite (list_orders_rows _ _ _ Hr).
  set (rows := sortedRows query db resume). unfold pageOf. cbn [page_nextCursor].
  rewrite take_take, Nat.min_l by lia. rewrite length_take.
  assert (map (fun '(id, o) => toOrderSummary id o) (take (oq_limit query) rows)
    = summary <$> take (oq_limit query) rows) as Hpage.
  { apply list_fmap_ext. by intros ? [] _. }
  destruct (Nat.ltb_spec (oq_limit query) (length rows)) as [Hmore|Hend].
  - destruct (last_take _ _ Hlimit Hmore) as (l1 & [id o] & l2 & E & Et & Ed).
    rewrite Et in *. rewrite last_snoc.
    destruct (Nat.ltb_spec (oq_limit query) ((oq_limit query + 1) `min` length rows)); [|lia].
    destruct (IH (Some (encodeCursor (sortText (oq_sort query)) (sortValueOf (oq_sort query) o) id))
      (Some (rowKey (oq_sort query) (id, o)))) as (pages & -> & Hp & Hn).
    { intros d Hd. apply Hdbs. by apply list_elem_of_further. }
    { cbn. apply (cursorKey_issued _ db); [done|done|].
      assert ((id, o) ∈ rows) as Hin by (rewrite E; apply elem_of_app; right; apply list_elem_of_here).
      by apply (elem_of_sortedRows _ _ eq_refl) in Hin as [? _]. }
    eexists. split; [done|]. cbn. by rewrite Hp, Hn, Hpage.
  - destruct (Nat.ltb_spec (oq_limit query) ((oq_limit query + 1) `min` length rows)); [lia|].
    exists [{| page_orders := map (fun '(id, o) => toOrderSummary id o) (take (oq_limit query) rows);
               page_nextCursor := None |}].
    split; [by destruct (last _) as [[]|]|]. cbn. by rewrite Hpage.
Qed.

Lemma finished_isLast pages rows :
  isLast <$> pages = (fun '(_, more) => negb more) <$> rows →
  isLast <$> last pages = Some true ↔ finished rows.
Proof.
  intros H. unfold finished. apply (f_equal last) in H. rewrite !fmap_last in H. rewrite H.
  destruct (last rows) as [[page []]|]; cbn; naive_solver.
Qed.

Lemma shown_pages pages rows :
  page_orders <$> pages = (fun '(page, _) => summary <$> page) <$> rows →
  concat (page_orders <$> pages) = summary <$> shown rows.
Proof.
  intros ->. unfold shown. induction rows as [|[page more] rows IH]; [done|].
  cbn. by rewrite IH, fmap_app.
Qed.

(** C31. With a page size of at least one, following the cursors over a database that does not
    change and whose orders are typed as the columns are (UUIDs, 32-bit totals, years of four
    digits) ends, and shows
    every matching order once, in the order of the sort, whenever a cursor carries the sort
    value exactly: always when sorting by total, and when sorting by time if every
    [created_at] is a whole number of milliseconds. The column has microseconds, and without
    that condition orders are skipped or repeated ([Findings.cursor_drops_microseconds]). *)
Theorem paging_complete db :
  typed_orders db → exact_sort (oq_sort query) db →
  ∃ pages, walk query None (repeat db (S (size (orders db)))) = Ok pages ∧
    isLast <$> last pages = Some true ∧
    concat (page_orders <$> pages) = summary <$> sortedRows query db None ∧
    ∀ id o, orders db !! id = Some o → filters query db id o = true →
      toOrderSummary id o ∈ concat (page_orders <$> pages).
Proof.
  intros Ht He. destruct (walk_rows (repeat db (S (size (orders db)))) None None) as (pages & Hw & Hp & Hl).
  { intros d Hd%list_elem_of_In%repeat_spec. by subst. }
  { done. }
  destruct (walkRows_fixed (oq_sort query) query eq_refl Hlimit db (S (size (orders db))) None) as [Hs Hf].
  { unfold sortedRows. rewrite merge_sort_Permutation.
    pose proof (length_filter (selected query db None) (map_to_list (orders db))).
    rewrite length_map_to_list in *. lia. }
  exists pages. split; [done|]. split; [by eapply finished_isLast|].
  rewrite (shown_pages _ _ Hp), Hs. split; [done|]. intros id o Ho Hfil.
  apply list_elem_of_fmap. exists (id, o). split; [done|].
  by apply (elem_of_sortedRows _ _ eq_refl).
Qed.

(** Following the cursors while orders come and change: no order is shown twice,
    every order shown matched the filters when it was, and a walk that ended has
    shown every order that matched at each request. *)
Theorem paging_stable dbs :
  (∀ db, db ∈ dbs → typed_orders db ∧ exact_sort (oq_sort query) db) →
  (∀ db db' id o o', db ∈ dbs → db' ∈ dbs →
    orders db !! id = Some o → orders db' !! id = Some o' → same_order o o') →
  ∃ pages, walk query None dbs = Ok pages ∧
    let shown := concat (page_orders <$> pages) in
    NoDup (os_id <$> shown) ∧
    (∀ s, s ∈ shown → ∃ db o, db ∈ dbs ∧ orders db !! os_id s = Some o ∧
      s = toOrderSummary (os_id s) o ∧ filters query db (os_id s) o = true) ∧
    (isLast <$> last pages = Some true →
     ∀ id, (∀ db, db ∈ dbs → ∃ o, orders db !! id = Some o ∧ filters query db id o = true) →
       id ∈ os_id <$> shown).
Proof.
  intros Hdbs Hsame. destruct (walk_rows dbs None None Hdbs I) as (pages & Hw & Hp & Hl).
  exists pages. split; [done|]. rewrite (shown_pages _ _ Hp).
  destruct (walkRows_sorted (oq_sort query) query eq_refl Hlimit dbs None) as [Hs Hin].
  assert (∀ l : list (string * OrderRow), os_id <$> (summary <$> l) = l.*1) as Hids.
  { intros l. rewrite <-list_fmap_compose. by apply list_fmap_ext. }
  assert (∀ db db' id o o', db ∈ dbs → db' ∈ dbs → orders db !! id = Some o →
    orders db' !! id = Some o' → rowKey (oq_sort query) (id, o) = rowKey (oq_sort query) (id, o')) as Hkey.
  { intros db db' id o o' H1 H2 H3 H4. destruct (Hsame db db' id o o' H1 H2 H3 H4) as [Hfr].
    unfold order_frozen in Hfr. unfold rowKey, sortKey. cbn. f_equal. destruct (byTotal _); congruence. }
  split_and!.
  - rewrite Hids. induction Hs as [|[id o] l Hs IH Hx]; constructor.
    + intros ([id' o'] & Hid & Hy)%list_elem_of_fmap. cbn in Hid. subst id'.
      rewrite Forall_forall in Hx. specialize (Hx _ Hy).
      destruct (Hin (id, o) (list_elem_of_here _ _)) as (_ & d1 & H1 & H2 & _).
      destruct (Hin (id, o') (list_elem_of_further _ _ _ Hy)) as (_ & d2 & H3 & H4 & _). cbn in *.
      rewrite (Hkey d1 d2 id o o') in Hx by done. by eapply precedes_irrefl.
    + apply IH. intros row Hrow. apply Hin. by apply list_elem_of_further.
  - intros s ([id o] & -> & Hrow)%list_elem_of_fmap. destruct (Hin _ Hrow) as (_ & db & Hdb & Ho & Hfil).
    by exists db, o.
  - intros Hlast id Hid. rewrite Hids.
    destruct dbs as [|db0 dbs']; [by destruct pages|].
    destruct (Hid db0 (list_elem_of_here _ _)) as (o0 & Ho0 & _).
    apply (walkRows_shows (oq_sort query) query eq_refl Hlimit (db0 :: dbs') (rowKey (oq_sort query) (id, o0)));
      [|done|by eapply finished_isLast].
    intros db Hdb. destruct (Hid db Hdb) as (o & Ho & Hfil). exists o. split_and!; [done|done|].
    apply (Hkey db db0); [done|apply list_elem_of_here|done|done].
Qed.
End client.

(** ** Search and scope *)

Lemma toLower_special c :
  likeSpecial (toLower c) = likeSpecial c ∧ (likeSpecial c = true → toLower c = c).
Proof. destruct c as [[] [] [] [] [] [] [] []]; by vm_compute. Qed.

Lemma lowerText_escape q :
  lowerText (escapeLikePrefix q +:+ "%") = escapeLikePrefix (lowerText q) +:+ "%".
Proof.
  induction q as [|c q IH]; [done|]. cbn [escapeLikePrefix lowerText].
  destruct (toLower_special c) as [-> Hs]. destruct (likeSpecial c); cbn [lowerText].
  - change (String "\" (String (toLower c) (lowerText (escapeLikePrefix q +:+ "%")))
      = String "\" (String (toLower c) (escapeLikePrefix (lowerText q) +:+ "%"))). by rewrite IH.
  - change (String (toLower c) (lowerText (escapeLikePrefix q +:+ "%"))
      = String (toLower c) (escapeLikePrefix (lowerText q) +:+ "%")). by rewrite IH.
Qed.

Lemma like_everything s : like "%" s = true.
Proof. induction s as [|c s IH]; [done|]. cbn in *. exact IH. Qed.

(** An escaped pattern is matched literally. *)
Lemma like_escape q : ∀ s, like (escapeLikePrefix q +:+ "%") s = String.prefix q s.
Proof.
  induction q as [|c q IH]; intros s; [change ("" +:+ "%") with "%"; rewrite like_everything; by destruct s|].
  cbn [escapeLikePrefix]. destruct (likeSpecial c) eqn:E.
  - change (String "\" (String c (escapeLikePrefix q)) +:+ "%")
      with (String "\" (String c (escapeLikePrefix q +:+ "%"))). cbn [like Ascii.eqb Bool.eqb].
    destruct s as [|d s]; [done|]. cbn [String.prefix]. rewrite IH.
    destruct (Ascii.eqb_spec d c) as [->|Hne].
    + by destruct (Ascii.ascii_dec c c).
    + by destruct (Ascii.ascii_dec c d).
  - change (String c (escapeLikePrefix q) +:+ "%") with (String c (escapeLikePrefix q +:+ "%")).
    unfold likeSpecial in E. apply orb_false_iff in E as [[E1 E2]%orb_false_iff E3].
    cbn [like]. rewrite E1, E2, E3. destruct s as [|d s]; [done|]. cbn [String.prefix]. rewrite IH.
    destruct (Ascii.eqb_spec d c) as [->|Hne].
    + by destruct (Ascii.ascii_dec c c).
    + by destruct (Ascii.ascii_dec c d).
Qed.

(** A search is the exact queue number or a prefix of the customer's name, whatever
    wildcards the text carries. *)
Theorem search_is_prefix q o :
  matchesSearch q o = true ↔
  o_orderNumber o = Some q ∨
  ∃ name, o_customerName o = Some name ∧ String.prefix (lowerText q) (lowerText name) = true.
Proof.
  unfold matchesSearch, ilike. rewrite orb_true_iff, bool_decide_eq_true.
  destruct (o_customerName o) as [name|].
  - rewrite lowerText_escape, like_escape. naive_solver.
  - naive_solver.
Qed.

(** A kiosk reads its own orders only, and cannot tell another's order from one that
    does not exist; staff read any. What is read is the order's row, its own lines
    and its own history, oldest first. *)
Theorem detail_scope historyCreatedAt principal id db :
  let allowed o := match principal with
    | DevicePrincipal device => o_kioskDeviceId o = Some device
    | StaffPrincipal _ _ => True end in
  match detail historyCreatedAt principal id db with
  | Ok d => ∃ o, orders db !! id = Some o ∧ allowed o ∧
      od_summary d = toOrderSummary id o ∧
      od_items d = toOrderLines (itemsWithOptions db id) ∧
      ∃ rows, od_statusHistory d = map (toStatusChange historyCreatedAt) rows ∧
        rows ≡ₚ historyRows db id ∧
        StronglySorted (fun a b => historyCreatedAt a.1 ≤ historyCreatedAt b.1) rows
  | Err e => e = ResourceNotFoundError "order" id ∧
      ∀ o, orders db !! id = Some o → ¬ allowed o
  end.
Proof.
  cbv zeta. unfold detail. destruct (orders db !! id) as [o|]; [|done].
  assert (Transitive (historyLe historyCreatedAt)) by (intros a b c; unfold historyLe; lia).
  assert (Total (historyLe historyCreatedAt)) by (intros a b; unfold historyLe; lia).
  assert (∃ rows, map (toStatusChange historyCreatedAt)
      (merge_sort (historyLe historyCreatedAt) (historyRows db id))
    = map (toStatusChange historyCreatedAt) rows ∧ rows ≡ₚ historyRows db id ∧
    StronglySorted (fun a b => historyCreatedAt a.1 ≤ historyCreatedAt b.1) rows) as Hh.
  { eexists. split; [done|]. split; [apply merge_sort_Permutation|].
    eapply StronglySorted_impl; [|by apply StronglySorted_merge_sort].
    intros a b _ _. unfold historyLe. lia. }
  destruct principal as [user role|device].
  - exists o. done.
  - case_bool_decide as Hd; [by exists o|]. split; [done|]. by intros o' [= <-].
Qed.

(** ** A small list of orders, paged *)

Module PagedShop.

Definition order (total createdAt : Z) (name : option string) : OrderRow := {|
  o_orderNumber := None; o_businessDay := "2026-06-11"; o_channel := COUNTER;
  o_status := PENDING_PAYMENT; o_kioskDeviceId := None; o_createdByUserId := None;
  o_customerName := name; o_subtotalMinor := total; o_vatMinor := 0; o_totalMinor := total;
  o_currency := "THB"; o_expiresAt := None; o_createdAt := createdAt |}.

Definition id1 : string := "0197f3aa-8e1c-7c3a-9f2b-2a1d4c6e8f01".
Definition id2 : string := "0197f3aa-8e1c-7c3a-9f2b-2a1d4c6e8f02".
Definition id3 : string := "0197f3aa-8e1c-7c3a-9f2b-2a1d4c6e8f03".

(** 2026-06-11T07:32:10.000Z, in microseconds. *)
Definition noon : Z := 1781163130000000.

Definition withOrders (l : list (string * OrderRow)) : Database :=
  with_orders (list_to_map l) empty_db.

Definition early : Database :=
  withOrders [(id1, order 17500 noon (Some "Ploy")); (id2, order 9000 noon None)].
Definition later : Database :=
  withOrders [(id1, order 17500 noon (Some "Ploy")); (id2, order 9000 noon None);
              (id3, order 4000 (noon + 5000) (Some "Ake"))].

Definition query (sort : OrderSort) : OrdersQuery := {|
  oq_status := Some [PENDING_PAYMENT]; oq_channel := None; oq_method := None; oq_from := None;
  oq_to := None; oq_businessDay := Some "2026-06-11"; oq_q := None; oq_sort := sort;
  oq_limit := 1; oq_cursor := None |}.

Lemma all_orders (test : string → OrderRow → bool) db :
  forallb (fun '(id, o) => test id o) (map_to_list (orders db)) = true →
  ∀ id o, orders db !! id = Some o → test id o = true.
Proof.
  rewrite forallb_forall. intros H id o Ho.
  apply (H (id, o)), list_elem_of_In, elem_of_map_to_list, Ho.
Qed.

Definition typedb (id : string) (o : OrderRow) : bool :=
  isUuid id && bool_decide (lowerText id = id) && int4 (o_totalMinor o)
  && bool_decide (1 ≤ (utcDate (dateOf (o_createdAt o))).1.1 ≤ 9999)
  && (o_createdAt o mod 1000 =? 0).

Lemma typed_of sort db :
  forallb (fun '(id, o) => typedb id o) (map_to_list (orders db)) = true →
  typed_orders db ∧ exact_sort sort db.
Proof.
  intros H. pose proof (all_orders typedb db H) as Hall. split.
  - intros id o Ho. specialize (Hall id o Ho). unfold typedb in Hall.
    rewrite !andb_true_iff, !bool_decide_eq_true in Hall. unfold fourDigitYear. tauto.
  - right. intros id o Ho. specialize (Hall id o Ho). unfold typedb in Hall.
    rewrite !andb_true_iff in Hall. lia.
Qed.

(** The list is the same in every sort, and grows between requests. *)
Lemma early_typed sort : typed_orders early ∧ exact_sort sort early.
Proof. apply typed_of. vm_compute. reflexivity. Qed.

Lemma later_typed sort : typed_orders later ∧ exact_sort sort later.
Proof. apply typed_of. vm_compute. reflexivity. Qed.

Lemma later_keeps db db' id o o' : db ∈ [early; later; later; later] → db' ∈ [early; later; later; later] →
  orders db !! id = Some o → orders db' !! id = Some o' → same_order o o'.
Proof.
  assert (orders early ⊆ orders later) as Hsub.
  { apply map_subseteq_spec. intros i x Hi.
    assert (∀ i x, orders early !! i = Some x → i = id1 ∨ i = id2) as Hids.
    { intros j y Hj. apply (bool_decide_eq_true_1 _).
      refine (all_orders (fun j _ => bool_decide (j = id1 ∨ j = id2)) early _ j y Hj).
      vm_compute. reflexivity. }
    destruct (Hids i x Hi) as [->| ->]; vm_compute in Hi; injection Hi as <-; vm_compute; reflexivity. }
  intros H1 H2 Ho Ho'.
  assert (∀ d, d ∈ [early; later; later; later] → orders d ⊆ orders later) as Hall.
  { intros d Hd. repeat (apply elem_of_cons in Hd as [->|Hd]; [done|]). by apply elem_of_nil in Hd. }
  assert (o = o') as ->; [|done].
  pose proof (lookup_weaken _ _ _ _ Ho (Hall _ H1)).
  pose proof (lookup_weaken _ _ _ _ Ho' (Hall _ H2)). congruence.
Qed.
End PagedShop.

Lemma paging_complete_witness :
  ∃ pages, walk (PagedShop.query createdAt_desc) None (repeat PagedShop.early 3) = Ok pages ∧
    isLast <$> last pages = Some true ∧
    os_id <$> concat (page_orders <$> pages) = [PagedShop.id2; PagedShop.id1].
Proof.
  destruct (paging_complete (PagedShop.query createdAt_desc) (le_n 1) PagedShop.early
    (proj1 (PagedShop.early_typed createdAt_desc))
    (proj2 (PagedShop.early_typed createdAt_desc))) as (pages & Hw & Hl & Hs & _).
  exists pages. split; [exact Hw|]. split; [exact Hl|]. rewrite Hs. vm_compute. reflexivity.
Defined.

Lemma paging_stable_witness :
  ∃ pages, walk (PagedShop.query totalMinor_desc) None
      [PagedShop.early; PagedShop.later; PagedShop.later; PagedShop.later] = Ok pages ∧
    NoDup (os_id <$> concat (page_orders <$> pages)).
Proof.
  destruct (paging_stable (PagedShop.query totalMinor_desc) (le_n 1)
    [PagedShop.early; PagedShop.later; PagedShop.later; PagedShop.later]) as (pages & Hw & Hn & _).
  - intros db Hd. apply elem_of_cons in Hd as [->|Hd]; [apply PagedShop.early_typed|].
    repeat (apply elem_of_cons in Hd as [->|Hd]; [apply PagedShop.later_typed|]). by apply elem_of_nil in Hd.
  - apply PagedShop.later_keeps.
  - exists pages. exact (conj Hw Hn).
Defined.
