(* ===== verification/Invariants.v ===== *)
(** * Invariants: the rest of what the tables promise, and how they may evolve

    The audit trail, the queue numbers, the payment window, the line items, the
    evidence behind captured money and the stored responses, each with the
    changes that keep it; then [Inv], all of them with the money invariant of
    [Books.v], and [Ev], the ways one committed database may follow another. *)

From S2P Require Import Prelude Text Schema Errors Program Pricing OrderState Transition.
From S2P Require Import Idempotency CreateOrder OrderDoors Gateway CreatePayment Refunds Books.

(** ** The audit trail *)

Definition historyOf (H : list HistoryRow) (oid : string) : list HistoryRow :=
  filter (fun row => h_orderId row = oid) H.

(** [story rows s]: an order born as the first row says and moved, legally, by
    each of the others, now stands at [s]. *)
Inductive story : list HistoryRow → OrderStatus → Prop :=
| story_born row :
    h_fromStatus row = None → h_toStatus row ∈ [DRAFT; PENDING_PAYMENT] →
    story [row] (h_toStatus row)
| story_move rows s row :
    story rows s → h_fromStatus row = Some s → isLegalTransition s (h_toStatus row) = true →
    story (rows ++ [row]) (h_toStatus row).

Record trail_ok (O : gmap string OrderRow) (H : list HistoryRow) : Prop := {
  trail_story : ∀ oid o, O !! oid = Some o → story (historyOf H oid) (o_status o);
  trail_none : ∀ oid, O !! oid = None → historyOf H oid = [] }.

Lemma historyOf_snoc H row oid :
  historyOf (H ++ [row]) oid =
  historyOf H oid ++ (if bool_decide (h_orderId row = oid) then [row] else []).
Proof.
  unfold historyOf. rewrite filter_app. f_equal. rewrite filter_cons, filter_nil.
  by case_bool_decide; case_decide.
Qed.

Lemma trail_new O H id row hist :
  trail_ok O H → O !! id = None → h_orderId hist = id → h_fromStatus hist = None →
  h_toStatus hist = o_status row → o_status row ∈ [DRAFT; PENDING_PAYMENT] →
  trail_ok (<[id := row]> O) (H ++ [hist]).
Proof.
  intros [H1 H2] Hid Hh Hf Ht Hs. split.
  - intros oid o Ho. rewrite historyOf_snoc. lookup_cases.
    + rewrite bool_decide_true, (H2 id Hid) by done. simpl. rewrite <- Ht.
      by apply story_born; [|rewrite Ht].
    + rewrite bool_decide_false, app_nil_r by congruence. eauto.
  - intros oid [Ho Hne]%lookup_insert_None. rewrite historyOf_snoc, bool_decide_false by congruence.
    rewrite app_nil_r. eauto.
Qed.

Lemma trail_move O H id o o' hist :
  trail_ok O H → O !! id = Some o → h_orderId hist = id →
  h_fromStatus hist = Some (o_status o) → h_toStatus hist = o_status o' →
  isLegalTransition (o_status o) (o_status o') = true →
  trail_ok (<[id := o']> O) (H ++ [hist]).
Proof.
  intros [H1 H2] Hid Hh Hf Ht Hl. split.
  - intros oid o1 Ho. rewrite historyOf_snoc. lookup_cases.
    + rewrite bool_decide_true by done. rewrite <- Ht.
      eapply story_move; [by apply H1|done|by rewrite Ht].
    + rewrite bool_decide_false, app_nil_r by congruence. eauto.
  - intros oid [Ho Hne]%lookup_insert_None. rewrite historyOf_snoc, bool_decide_false by congruence.
    rewrite app_nil_r. eauto.
Qed.

(** ** Queue numbers *)

Definition counter (C : gmap string Z) (day : string) : Z := default 0 (C !! day).

Record queue_ok (O : gmap string OrderRow) (C : gmap string Z) : Prop := {
  queue_draft : ∀ oid o, O !! oid = Some o → o_status o = DRAFT → o_orderNumber o = None;
  queue_called : ∀ oid o, O !! oid = Some o → o_status o ∉ [DRAFT; CANCELLED] →
    is_Some (o_orderNumber o);
  queue_range : ∀ oid o n, O !! oid = Some o → o_orderNumber o = Some n →
    ∃ k, n = formatOrderNumber k ∧ 1 ≤ k ≤ counter C (o_businessDay o);
  queue_unique : ∀ oid o oid' o' n, O !! oid = Some o → O !! oid' = Some o' →
    o_businessDay o = o_businessDay o' → o_orderNumber o = Some n → o_orderNumber o' = Some n →
    oid = oid';
  queue_gapless : ∀ day k, 1 ≤ k ≤ counter C day → ∃ oid o, O !! oid = Some o ∧
    o_businessDay o = day ∧ o_orderNumber o = Some (formatOrderNumber k);
  queue_nonneg : ∀ day, 0 ≤ counter C day }.

Lemma counter_insert C day k day' :
  counter (<[day := k]> C) day' = if decide (day = day') then k else counter C day'.
Proof. unfold counter. rewrite lookup_insert. by case_decide. Qed.

(** An order parked without a number. *)
Lemma queue_park O C id row :
  queue_ok O C → O !! id = None → o_status row = DRAFT → o_orderNumber row = None →
  queue_ok (<[id := row]> O) C.
Proof.
  intros [H1 H2 H3 H4 H5 H6] Hid Hs Hn. split; [..|done].
  - intros oid o Ho ?. lookup_cases; eauto.
  - intros oid o Ho Hst. lookup_cases; [|eauto]. rewrite Hs in Hst. set_solver.
  - intros oid o n Ho ?. lookup_cases; [congruence|eauto].
  - intros oid o oid' o' n Ho Ho' ???. lookup_cases; try congruence; eauto.
  - intros day k Hk. destruct (H5 _ _ Hk) as (oid & o & Ho & ? & ?). exists oid, o.
    rewrite lookup_insert_ne; [done|]. intros ->. congruence.
Qed.

(** The next number of a day goes to an order that had none. *)
Lemma queue_call O C id row :
  queue_ok O C → (∀ o, O !! id = Some o → o_orderNumber o = None) → o_status row ≠ DRAFT →
  o_orderNumber row = Some (formatOrderNumber (counter C (o_businessDay row) + 1)) →
  queue_ok (<[id := row]> O)
    (<[o_businessDay row := counter C (o_businessDay row) + 1]> C).
Proof.
  intros [H1 H2 H3 H4 H5 H6] Hid Hs Hn. set (day := o_businessDay row) in *.
  pose proof (H6 day) as Hnn.
  assert (∀ oid o, O !! oid = Some o → o_businessDay o = day →
    o_orderNumber o ≠ Some (formatOrderNumber (counter C day + 1))) as Hfresh.
  { intros oid o Ho Hday Hnum. destruct (H3 _ _ _ Ho Hnum) as (k & Hk & Hr).
    rewrite Hday in Hr. apply formatOrderNumber_inj in Hk; lia. }
  split.
  - intros oid o Ho ?. lookup_cases; eauto.
  - intros oid o Ho ?. lookup_cases; eauto.
  - intros oid o n Ho Hnum. rewrite counter_insert. lookup_cases.
    + rewrite Hn in Hnum. simplify_eq. exists (counter C day + 1).
      rewrite decide_True by done. split; [done|lia].
    + destruct (H3 _ _ _ Ho Hnum) as (k & ? & ?). exists k. case_decide; [|done].
      split; [done|]. subst day. replace (o_businessDay row) with (o_businessDay o). lia.
  - intros oid o oid' o' n Ho Ho' Hd Hx Hy. lookup_cases; try done; [| |eauto].
    + exfalso. rewrite Hn in Hy. eapply (Hfresh oid o); [done..|]. congruence.
    + exfalso. rewrite Hn in Hx. eapply (Hfresh oid' o'); [done..|]. congruence.
  - intros day' k. rewrite counter_insert. intros Hk.
    destruct (decide (day = day' ∧ k = counter C day + 1)) as [[<- ->]|Hne].
    { exists id, row. by rewrite lookup_insert_eq. }
    destruct (H5 day' k) as (oid & o & Ho & ? & Hk').
    { case_decide; [subst; split; [lia|]|lia]. destruct (decide (k = counter C day + 1)); [tauto|lia]. }
    exists oid, o. rewrite lookup_insert_ne; [done|]. intros <-. rewrite (Hid _ Ho) in Hk'. done.
  - intros day'. rewrite counter_insert. case_decide; [lia|done].
Qed.

(** An order moves and keeps its number, or leaves the queue before it had one. *)
Lemma queue_move O C id o o' :
  queue_ok O C → O !! id = Some o → o_businessDay o' = o_businessDay o →
  o_orderNumber o' = o_orderNumber o → o_status o' ≠ DRAFT →
  (o_status o' = CANCELLED ∨ o_status o ∉ [DRAFT; CANCELLED]) →
  queue_ok (<[id := o']> O) C.
Proof.
  intros [H1 H2 H3 H4 H5 H6] Hid Hd Hn Hs Hc. split; [..|done].
  - intros oid o1 Ho ?. lookup_cases; eauto.
  - intros oid o1 Ho Hst. lookup_cases; [|eauto]. rewrite Hn.
    destruct Hc as [Hc|Hc]; [rewrite Hc in Hst; set_solver|eauto].
  - intros oid o1 n Ho Hnum. lookup_cases; [|eauto]. rewrite Hd. eapply H3; [done|congruence].
  - intros oid o1 oid' o1' n Ho Ho' Hdd Hx Hy. lookup_cases; try done; [| |eauto].
    + eapply (H4 oid o1 id o n); congruence.
    + eapply (H4 id o oid' o1' n); congruence.
  - intros day k Hk. destruct (H5 _ _ Hk) as (oid & o1 & Ho & Hdd & Hkk).
    destruct (decide (oid = id)) as [->|].
    + exists id, o'. rewrite lookup_insert_eq. simplify_eq. by rewrite Hd, Hn.
    + exists oid, o1. by rewrite lookup_insert_ne.
Qed.

(** ** The payment window *)

(** An order has a deadline exactly while it waits for its payment. *)
Definition window_ok (O : gmap string OrderRow) : Prop :=
  ∀ oid o, O !! oid = Some o → is_Some (o_expiresAt o) ↔ o_status o = PENDING_PAYMENT.

Lemma window_insert O id row :
  window_ok O → (is_Some (o_expiresAt row) ↔ o_status row = PENDING_PAYMENT) →
  window_ok (<[id := row]> O).
Proof. intros HW Hr oid o Ho. lookup_cases; eauto. Qed.

(** ** Line items *)

Definition itemsOf (OI : list (string * OrderItemRow)) (oid : string) : list OrderItemRow :=
  (filter (fun e => oi_orderId e.2 = oid) OI).*2.

(** A line as it was sold: a clamped unit price times a permitted quantity. *)
Definition line_ok (i : OrderItemRow) : Prop :=
  0 ≤ oi_unitPriceMinorSnapshot i ∧ 1 ≤ oi_quantity i ≤ 50 ∧
  oi_lineTotalMinor i = oi_unitPriceMinorSnapshot i * oi_quantity i.

Record items_ok (O : gmap string OrderRow) (OI : list (string * OrderItemRow)) : Prop := {
  items_total : ∀ oid o, O !! oid = Some o →
    o_totalMinor o = sumZ oi_lineTotalMinor (itemsOf OI oid) ∧ o_subtotalMinor o = o_totalMinor o;
  items_none : ∀ oid, O !! oid = None → itemsOf OI oid = [];
  items_line : Forall (fun e => line_ok e.2) OI }.

Lemma itemsOf_app OI OI' oid : itemsOf (OI ++ OI') oid = itemsOf OI oid ++ itemsOf OI' oid.
Proof. unfold itemsOf. by rewrite filter_app, fmap_app. Qed.

Lemma itemsOf_own OI oid : Forall (fun e => oi_orderId e.2 = oid) OI → itemsOf OI oid = OI.*2.
Proof.
  intros H. unfold itemsOf.
  induction H as [|e l He _ IH]; [done|]. rewrite filter_cons_True by done. by rewrite !fmap_cons, IH.
Qed.

Lemma itemsOf_other OI oid oid' :
  Forall (fun e => oi_orderId e.2 = oid) OI → oid ≠ oid' → itemsOf OI oid' = [].
Proof.
  intros H Hne. unfold itemsOf.
  induction H as [|e l He _ IH]; [done|]. rewrite filter_cons_False by congruence. done.
Qed.

Lemma items_new O OI id row lines :
  items_ok O OI → O !! id = None →
  Forall (fun e => oi_orderId e.2 = id) lines → Forall (fun e => line_ok e.2) lines →
  o_totalMinor row = sumZ oi_lineTotalMinor lines.*2 → o_subtotalMinor row = o_totalMinor row →
  items_ok (<[id := row]> O) (OI ++ lines).
Proof.
  intros [H1 H2 H3] Hid Hown Hok Htot Hsub. split.
  - intros oid o Ho. rewrite itemsOf_app. lookup_cases.
    + by rewrite (H2 id Hid), itemsOf_own.
    + rewrite (itemsOf_other lines id oid) by done. rewrite app_nil_r. eauto.
  - intros oid [Ho Hne]%lookup_insert_None. rewrite itemsOf_app, H2 by done.
    by rewrite (itemsOf_other lines id oid).
  - by apply Forall_app.
Qed.

Lemma items_move O OI id o o' :
  items_ok O OI → O !! id = Some o → same_order o o' → items_ok (<[id := o']> O) OI.
Proof.
  intros [H1 H2 H3] Hid Hsame. split; [| |done].
  - intros oid o1 Ho. lookup_cases; [|eauto].
    destruct (H1 _ _ Hid) as [Ht Hs].
    by rewrite <- (same_order_total _ _ Hsame), <- (same_order_subtotal _ _ Hsame).
  - intros oid [Ho Hne]%lookup_insert_None. eauto.
Qed.

(** ** Evidence *)

(** What has to be on file before a payment counts as captured: for the gateway,
    a processed event that says exactly this intent captured exactly this amount
    in this currency; for cash, a tender that covers it. *)
Definition evidence `{PaymentPort} (E : gmap string PaymentEventRow) (p : PaymentRow) : Prop :=
  match p_provider p with
  | STRIPE => ∃ i eid row, p_providerIntentId p = Some i ∧ E !! eid = Some row ∧
      is_Some (pe_processedAt row) ∧
      interpret (pe_payload row) = Ok (GwSUCCEEDED (JStr i) (JNum (p_amountMinor p)) (p_currency p))
  | CASH_DRAWER => ∃ t, p_cashTenderedMinor p = Some t ∧ p_amountMinor p ≤ t
  end.

#[export] Instance evidence_proper `{PaymentPort} E : Proper (same_payment ==> iff) (evidence E).
Proof.
  intros p p' Hs. unfold evidence.
  by rewrite (same_payment_provider _ _ Hs), (same_payment_intent _ _ Hs),
    (same_payment_amount _ _ Hs), (same_payment_currency _ _ Hs), (same_payment_tender _ _ Hs).
Qed.

Record evidence_ok `{PaymentPort} (P : gmap string PaymentRow) (E : gmap string PaymentEventRow)
    : Prop := {
  ev_rail : ∀ pid p, P !! pid = Some p → p_provider p = STRIPE ↔ is_Some (p_providerIntentId p);
  ev_captured : ∀ pid p, P !! pid = Some p → p_status p = PaySUCCEEDED → evidence E p;
  ev_once : ∀ e row e' row', E !! e = Some row → E !! e' = Some row' →
    pe_providerEventId row = pe_providerEventId row' → e = e' }.

(** Events are never lost, rewritten or un-processed. *)
Definition events_ev (E E' : gmap string PaymentEventRow) : Prop :=
  ∀ e row, E !! e = Some row → ∃ row', E' !! e = Some row' ∧
    pe_providerEventId row' = pe_providerEventId row ∧ pe_payload row' = pe_payload row ∧
    (∀ t, pe_processedAt row = Some t → pe_processedAt row' = Some t).

#[export] Instance events_ev_preorder : PreOrder events_ev.
Proof.
  split.
  - intros E e row He. eauto.
  - intros E1 E2 E3 H12 H23 e row (row2 & H2 & Hp & Hq & Hr)%H12.
    destruct (H23 _ _ H2) as (row3 & ? & Hp' & Hq' & Hr'). exists row3. split_and!; [done|congruence..|auto].
Qed.

Lemma evidence_mono `{PaymentPort} E E' p : events_ev E E' → evidence E p → evidence E' p.
Proof.
  intros HE. unfold evidence. destruct (p_provider p); [|done].
  intros (i & e & row & Hi & He & [t Ht] & Hint). destruct (HE _ _ He) as (row' & He' & _ & Hp & Ht').
  exists i, e, row'. rewrite Hp. split_and!; eauto.
Qed.

Lemma evidence_payment `{PaymentPort} P E pid p :
  evidence_ok P E → (p_provider p = STRIPE ↔ is_Some (p_providerIntentId p)) →
  (p_status p = PaySUCCEEDED → evidence E p) → evidence_ok (<[pid := p]> P) E.
Proof. intros [H1 H2 H3] Hr Hs. split; [| |done]; intros q r Hq; lookup_cases; eauto. Qed.

Lemma evidence_event `{PaymentPort} P E e row :
  evidence_ok P E → events_ev E (<[e := row]> E) →
  (∀ e' row', E !! e' = Some row' → pe_providerEventId row' = pe_providerEventId row → e' = e) →
  evidence_ok P (<[e := row]> E).
Proof.
  intros [H1 H2 H3] Hev Hfresh. split; [done|..].
  - intros pid p HP HS. eauto using evidence_mono.
  - intros e1 r1 e2 r2 He1 He2 Heq. lookup_cases; eauto. symmetry. eauto.
Qed.

Lemma events_ev_insert E e row :
  (∀ old, E !! e = Some old → pe_providerEventId row = pe_providerEventId old ∧
    pe_payload row = pe_payload old ∧
    (∀ t, pe_processedAt old = Some t → pe_processedAt row = Some t)) →
  events_ev E (<[e := row]> E).
Proof.
  intros Hold e' r He'. destruct (decide (e' = e)) as [->|]; [|exists r; by rewrite lookup_insert_ne].
  exists row. rewrite lookup_insert_eq. destruct (Hold _ He') as (?&?&?). done.
Qed.

(** ** Stored responses *)

(** Every key that others can see has answered, with 201, and what it stored
    describes rows that exist and gives away no client secret. *)
Definition response_ok (O : gmap string OrderRow) (P : gmap string PaymentRow)
    (row : IdempotencyRow) : Prop :=
  ik_responseStatus row = Some 201 ∧
  match ik_responseBody row with
  | None => False
  | Some (OrderBody v) => ∃ o, O !! v_id v = Some o ∧ v_totalMinor v = o_totalMinor o
  | Some (PaymentBody v) => pv_clientSecret v = None ∧
      ∃ p, P !! pv_id v = Some p ∧ pv_amountMinor v = p_amountMinor p
  end.

Definition responses_ok (O : gmap string OrderRow) (P : gmap string PaymentRow)
    (K : gmap string IdempotencyRow) : Prop :=
  ∀ k row, K !! k = Some row → response_ok O P row.

(** ** Evolution *)

Definition legal_step (s t : OrderStatus) : Prop := isLegalTransition s t = true.

(** Orders are never lost; only status, number and deadline change, the status
    along the machine and a number never once called. *)
Definition orders_ev (O O' : gmap string OrderRow) : Prop :=
  ∀ oid o, O !! oid = Some o → ∃ o', O' !! oid = Some o' ∧ same_order o o' ∧
    rtc legal_step (o_status o) (o_status o') ∧
    (∀ n, o_orderNumber o = Some n → o_orderNumber o' = Some n).

(** Payments are never lost; a captured one stays captured and a dead one dead. *)
Definition payments_ev (P P' : gmap string PaymentRow) : Prop :=
  ∀ pid p, P !! pid = Some p → ∃ p', P' !! pid = Some p' ∧ same_payment p p' ∧
    (p_status p = PaySUCCEEDED → p_status p' = PaySUCCEEDED) ∧
    (isLive p = false → isLive p' = false).

#[export] Instance orders_ev_preorder : PreOrder orders_ev.
Proof.
  split.
  - intros O oid o Ho. exists o. split_and!; [done|reflexivity|reflexivity|done].
  - intros O1 O2 O3 H12 H23 oid o (o2 & H2 & Hs & Hr & Hn)%H12.
    destruct (H23 _ _ H2) as (o3 & H3 & Hs' & Hr' & Hn'). exists o3.
    split_and!; [done|by etransitivity|by etransitivity|auto].
Qed.

#[export] Instance payments_ev_preorder : PreOrder payments_ev.
Proof.
  split.
  - intros P pid p Hp. exists p. split_and!; [done|reflexivity|done|done].
  - intros P1 P2 P3 H12 H23 pid p (p2 & H2 & Hs & Hr & Hn)%H12.
    destruct (H23 _ _ H2) as (p3 & H3 & Hs' & Hr' & Hn'). exists p3.
    split_and!; [done|by etransitivity|auto|auto].
Qed.

Lemma orders_ev_insert O id row :
  (∀ o, O !! id = Some o → same_order o row ∧ legal_step (o_status o) (o_status row) ∧
    (∀ n, o_orderNumber o = Some n → o_orderNumber row = Some n)) →
  orders_ev O (<[id := row]> O).
Proof.
  intros Hold oid o Ho.
  destruct (decide (oid = id)) as [->|].
  - exists row. rewrite lookup_insert_eq. destruct (Hold _ Ho) as (?&?&?).
    split_and!; [done..|by apply rtc_once|done].
  - exists o. rewrite lookup_insert_ne by done. split_and!; [done|reflexivity|reflexivity|done].
Qed.

Lemma payments_ev_insert P pid row :
  (∀ p, P !! pid = Some p → same_payment p row ∧
    (p_status p = PaySUCCEEDED → p_status row = PaySUCCEEDED) ∧
    (isLive p = false → isLive row = false)) →
  payments_ev P (<[pid := row]> P).
Proof.
  intros Hold q p Hp.
  destruct (decide (q = pid)) as [->|].
  - exists row. rewrite lookup_insert_eq. destruct (Hold _ Hp) as (?&?&?). done.
  - exists p. rewrite lookup_insert_ne by done. split_and!; [done|reflexivity|done|done].
Qed.

Lemma responses_mono O O' P P' K :
  orders_ev O O' → payments_ev P P' → responses_ok O P K → responses_ok O' P' K.
Proof.
  intros HO HP HK k row Hk. destruct (HK _ _ Hk) as [Hs Hb]. split; [done|].
  destruct (ik_responseBody row) as [[v|v]|]; [..|done].
  - destruct Hb as (o & Ho & Ht). destruct (HO _ _ Ho) as (o' & ? & Hsame & _).
    exists o'. by rewrite <- (same_order_total _ _ Hsame).
  - destruct Hb as (? & p & Hp & Ht). split; [done|]. destruct (HP _ _ Hp) as (p' & ? & Hsame & _).
    exists p'. by rewrite <- (same_payment_amount _ _ Hsame).
Qed.

(** ** The database *)

(** Everything but the stored responses. *)
Record Core `{PaymentPort} (db : Database) : Prop := {
  inv_money : money_ok (orders db) (payments db) (refunds db);
  inv_trail : trail_ok (orders db) (orderStatusHistory db);
  inv_queue : queue_ok (orders db) (orderNumberCounters db);
  inv_window : window_ok (orders db);
  inv_items : items_ok (orders db) (orderItems db);
  inv_evidence : evidence_ok (payments db) (paymentEvents db) }.

Record Inv `{PaymentPort} (db : Database) : Prop := {
  inv_core : Core db;
  inv_responses : responses_ok (orders db) (payments db) (idempotencyKeys db) }.

Record CoreEv (db db' : Database) : Prop := {
  evo_orders : orders_ev (orders db) (orders db');
  evo_payments : payments_ev (payments db) (payments db');
  evo_refunds : refunds db ⊆ refunds db';
  evo_history : orderStatusHistory db `prefix_of` orderStatusHistory db';
  evo_items : orderItems db `prefix_of` orderItems db';
  evo_options : orderItemOptions db `prefix_of` orderItemOptions db';
  evo_counters : ∀ day, counterOf db day ≤ counterOf db' day;
  evo_events : events_ev (paymentEvents db) (paymentEvents db') }.

(** What one committed database may become: a stored response never changes. *)
Record Ev (db db' : Database) : Prop := {
  evo_core : CoreEv db db';
  evo_keys : idempotencyKeys db ⊆ idempotencyKeys db' }.

#[export] Instance CoreEv_preorder : PreOrder CoreEv.
Proof.
  split.
  - intros db. split; reflexivity.
  - intros db1 db2 db3 [] []. split; try by etransitivity.
    intros day. etransitivity; eauto.
Qed.

#[export] Instance Ev_preorder : PreOrder Ev.
Proof.
  split.
  - intros db. split; reflexivity.
  - intros db1 db2 db3 [] []. split; by etransitivity.
Qed.

Lemma Inv_empty `{PaymentPort} : Inv empty_db.
Proof.
  repeat split; simpl in *; intros; unfold succeeded_for, counter in *; destruct_and?;
    repeat match goal with H : ∅ !! _ = Some _ |- _ => by rewrite lookup_empty in H end;
    try rewrite lookup_empty in *; simpl in *; try done; lia.
Qed.

(** The stored responses are no part of the core. *)
Lemma Core_keys `{PaymentPort} K db : Core (with_idempotencyKeys K db) ↔ Core db.
Proof. split; intros []; by split. Qed.

Lemma CoreEv_keys_l K db db' : CoreEv (with_idempotencyKeys K db) db' ↔ CoreEv db db'.
Proof. split; intros []; by split. Qed.

Lemma CoreEv_keys_r K db db' : CoreEv db (with_idempotencyKeys K db') ↔ CoreEv db db'.
Proof. split; intros []; by split. Qed.

(** A transaction that leaves the stored responses alone. *)
Lemma keep_responses `{PaymentPort} db db' :
  Inv db → Core db' → CoreEv db db' → idempotencyKeys db' = idempotencyKeys db →
  Inv db' ∧ Ev db db'.
Proof.
  intros [_ HR] HC HE HK. split.
  - split; [done|]. rewrite HK. destruct HE. by eapply responses_mono.
  - split; [done|]. by rewrite HK.
Qed.
