(* ===== verification/Handlers.v ===== *)
(** * Handlers: every transaction keeps the invariant

    For each transaction of the order and payment services: from a database
    where [Core] holds, and what the handler read earlier still does, a commit
    leaves a database where [Core] holds and that [CoreEv] allows. *)

From S2P Require Import Prelude Text Schema Errors Program Pricing OrderState Transition.
From S2P Require Import BusinessDay Idempotency CreateOrder OrderDoors Gateway Webhooks.
From S2P Require Import CreatePayment Refunds Books Invariants.

(** ** The guarded move *)

Lemma transitionOrder_Ok orderId from to actor reason s row s' :
  transitionOrder orderId from to actor reason s = Ok (row, s') →
  ∃ o, orders (tx_db s) !! orderId = Some o ∧ o_status o = from ∧ row = moved from to o ∧
    s' = mkTx (moveOrder orderId from to o actor reason (tx_db s)) (tx_pending s).
Proof.
  rewrite transitionOrder_eq. destruct (orders (tx_db s) !! orderId) as [o|] eqn:E; [|done].
  case_bool_decide; [|done]. intros. simplify_eq. eauto.
Qed.

Lemma nextOrderNumber_Ok day s n s' :
  nextOrderNumber day s = Ok (n, s') →
  n = formatOrderNumber (counterOf (tx_db s) day + 1) ∧
  s' = mkTx (with_orderNumberCounters
         (<[day := counterOf (tx_db s) day + 1]> (orderNumberCounters (tx_db s))) (tx_db s))
       (tx_pending s).
Proof. rewrite nextOrderNumber_eq. simpl. intros. by simplify_eq. Qed.

(** The facts about an order a handler may carry from an earlier read. *)
Definition order_costs (oid : string) (total : Z) (currency : string) (db : Database) : Prop :=
  ∃ o, orders db !! oid = Some o ∧ o_totalMinor o = total ∧ o_currency o = currency.

Definition order_day (oid day : string) (db : Database) : Prop :=
  ∃ o, orders db !! oid = Some o ∧ o_businessDay o = day.

Definition payment_of (pid oid : string) (db : Database) : Prop :=
  ∃ p, payments db !! pid = Some p ∧ p_orderId p = oid.

Section handlers.
Context `{port : PaymentPort}.

(** A change that keeps the core, evolves it as allowed and stores no response. *)
Record keeps (db db' : Database) : Prop := {
  keeps_core : Core db';
  keeps_ev : CoreEv db db';
  keeps_keys : idempotencyKeys db' = idempotencyKeys db }.

Lemma keeps_refl db : Core db → keeps db db.
Proof. by split. Qed.

Lemma keeps_trans db1 db2 db3 : keeps db1 db2 → keeps db2 db3 → keeps db1 db3.
Proof. intros [] []. split; [done|by etransitivity|congruence]. Qed.

(** What a legal move does to everything but the money; it may not reopen the
    payment window, which only checkout does. *)
Record moved_ok (db db' : Database) : Prop := {
  mo_trail : trail_ok (orders db') (orderStatusHistory db');
  mo_queue : queue_ok (orders db') (orderNumberCounters db');
  mo_window : window_ok (orders db');
  mo_items : items_ok (orders db') (orderItems db');
  mo_ev : CoreEv db db' }.

Lemma moved_rest db id o to actor reason :
  Core db → orders db !! id = Some o → isLegalTransition (o_status o) to = true →
  to ≠ PENDING_PAYMENT →
  moved_ok db (moveOrder id (o_status o) to o actor reason db).
Proof.
  intros [_ HT HQ HW HI _] Ho Hl Hto. split; simpl.
  - by eapply trail_move.
  - eapply queue_move; [done..| |]; clear -Hl Hto; simpl; legal_cases Hl; try done;
      try (by left); right; by apply (bool_decide_eq_false_1 _).
  - apply window_insert; [done|]. simpl. specialize (HW _ _ Ho). rewrite <- not_eq_None_Some in *.
    case_bool_decide; naive_solver.
  - by eapply items_move, moved_same.
  - split; simpl; try reflexivity.
    + apply orders_ev_insert. intros o1 ?. simplify_eq. split_and!; [apply moved_same|done|done].
    + by apply prefix_app_r.
Qed.

(** A move that keeps the order on the same side of the till. *)
Lemma Core_move db id o to actor reason :
  Core db → orders db !! id = Some o → isLegalTransition (o_status o) to = true →
  to ≠ PENDING_PAYMENT → moneyTaken to = moneyTaken (o_status o) → to ≠ REFUNDED →
  keeps db (moveOrder id (o_status o) to o actor reason db).
Proof.
  intros HC Ho Hl Hto Hm Hr.
  destruct (moved_rest db id o to actor reason HC Ho Hl Hto) as [????].
  destruct HC as [HM _ _ _ _ HE]. split; [|done..]. split; try done. simpl.
  eapply money_move; [done..|apply moved_same|done|].
  simpl. split; [done|]. intros Heq. rewrite Heq in Hl. by destruct to.
Qed.

(** Settling the payment row beside a move that takes no money. *)
Lemma Core_unsettle db pid p st :
  Core db → payments db !! pid = Some p → p_status p ≠ PaySUCCEEDED →
  st ≠ PaySUCCEEDED → st ∉ LIVE →
  keeps db (with_payments (<[pid := with_status st p]> (payments db)) db).
Proof.
  intros [HM HT HQ HW HI HE] Hp Hns Hst Hl. split; [..|done].
  - split; simpl; try done; [by apply money_unsettle|].
    apply evidence_payment; [done|exact (ev_rail _ _ HE pid p Hp)|done].
  - split; simpl; try reflexivity. apply payments_ev_insert. intros p1 ?. simplify_eq.
    split_and!; [apply with_status_same|done|]. intros _. rewrite live_status.
    by apply bool_decide_eq_false_2.
Qed.

(** ** The KDS route *)

Lemma statusWork_ok principal oid from to s a s' :
  Core (tx_db s) → isStaffTransition from to = true →
  statusWork principal oid from to s = Ok (a, s') →
  keeps (tx_db s) (tx_db s').
Proof.
  intros HC Hst H. unfold statusWork in H. tx_inv.
  apply transitionOrder_Ok in H0 as (o & Ho & <- & -> & ->). simpl.
  apply Core_move; try done; by destruct (o_status o), to.
Qed.

(** ** Checkout *)

Lemma checkoutWork_ok config principal oid day now s a s' :
  Core (tx_db s) → order_day oid day (tx_db s) →
  checkoutWork config principal oid day now s = Ok (a, s') →
  keeps (tx_db s) (tx_db s').
Proof.
  intros [HM HT HQ HW HI HE] (o & Ho & Hday) H. unfold checkoutWork in H. tx_inv.
  apply transitionOrder_Ok in H0 as (o1 & Ho1 & Hdraft & -> & ->).
  apply nextOrderNumber_Ok in H1 as [-> ->]. simplify_eq. cbn [tx_db].
  set (row := queued _ _ _). set (C := orderNumberCounters (tx_db s)).
  assert (same_order o row) as Hsame by by split.
  split; [split; simpl; rewrite ?insert_insert_eq|split; simpl; rewrite ?insert_insert_eq|done];
    try done; try reflexivity.
  - eapply money_move; [done..| |]; simpl; rewrite Hdraft; done.
  - eapply (trail_move _ _ oid o row); try done; simpl; by rewrite Hdraft.
  - change (counterOf _ _) with (counter C (o_businessDay row)).
    change (o_businessDay o) with (o_businessDay row) at 1.
    apply (queue_call _ _ oid row); [done| |done|done].
    intros o1 ?. simplify_eq. by eapply queue_draft.
  - apply window_insert; [done|]. simpl. split; eauto.
  - by eapply items_move.
  - apply orders_ev_insert. intros o1 ?. simplify_eq. split_and!; [done| |].
    + unfold legal_step. by rewrite Hdraft.
    + intros n. by erewrite (queue_draft _ _ HQ).
  - by apply prefix_app_r.
  - intros day'. unfold counterOf. simpl. rewrite lookup_insert. case_decide; simpl; [subst|lia].
    fold (counterOf (tx_db s) (o_businessDay o)). unfold counterOf. simpl. lia.
Qed.

(** ** Cancellation *)

Lemma setUnsettledPayment_ok pid st s a s' :
  Core (tx_db s) → st ≠ PaySUCCEEDED → st ∉ LIVE →
  setUnsettledPayment pid st s = Ok (a, s') → keeps (tx_db s) (tx_db s').
Proof.
  intros HC Hst Hl H. unfold setUnsettledPayment in H. tx_inv; try by apply keeps_refl.
  case_bool_decide; [done|]. by apply Core_unsettle.
Qed.

Lemma cancelWork_ok principal oid from reason live s a s' :
  Core (tx_db s) → from ∈ CANCELLABLE →
  cancelWork principal oid from reason live s = Ok (a, s') → keeps (tx_db s) (tx_db s').
Proof.
  intros HC Hfrom H. unfold cancelWork in H. apply (bool_decide_eq_true_2 _) in Hfrom. tx_inv.
  all: apply transitionOrder_Ok in H0 as (ord & Ho & <- & -> & ->).
  all: assert (keeps (tx_db s) (moveOrder oid (o_status ord) CANCELLED ord (actorOf principal) reason
    (tx_db s))) as Hk by (apply Core_move; try done; by destruct (o_status ord)).
  all: try exact Hk.
  eapply keeps_trans; [exact Hk|]. eapply setUnsettledPayment_ok in H1; try done.
  - by apply Hk.
  - by apply (bool_decide_eq_false_1 _).
Qed.

(** ** Expiry *)

Lemma expireWork_ok oid live s a s' :
  Core (tx_db s) → (∀ pid i, live = Some (pid, i) → payment_of pid oid (tx_db s)) →
  expireWork oid live s = Ok (a, s') → keeps (tx_db s) (tx_db s').
Proof.
  intros HC Hlive H. unfold expireWork in H. apply txM_bind_Ok in H as (row & s1 & H0 & H).
  apply transitionOrder_Ok in H0 as (o & Ho & Hst & -> & ->). rewrite <- Hst in *.
  assert (keeps (tx_db s) (moveOrder oid (o_status o) EXPIRED o systemActor None (tx_db s)))
    as Hk by (apply Core_move; try done; by rewrite Hst).
  destruct live as [[pid i]|]; [|by apply mret_Ok in H as [_ ->]].
  unfold setPaymentStatus in H. apply writes_Ok in H as [_ ->]. simpl.
  destruct (Hlive pid i eq_refl) as (p & Hp & Hpo). erewrite alter_is_insert by done.
  eapply keeps_trans; [exact Hk|].
  eapply (Core_unsettle (moveOrder _ _ _ _ _ _ _)); [by apply Hk|done| |done|].
  - intros HS. pose proof (pay_taken _ _ _ (inv_money _ HC) oid o pid p Ho) as Hm.
    rewrite Hst in Hm. by discriminate Hm.
  - by apply (bool_decide_eq_false_1 _).
Qed.

(** ** The inbox *)

Lemma Core_event db e row :
  Core db → events_ev (paymentEvents db) (<[e := row]> (paymentEvents db)) →
  (∀ e' row', paymentEvents db !! e' = Some row' →
    pe_providerEventId row' = pe_providerEventId row → e' = e) →
  keeps db (with_paymentEvents (<[e := row]> (paymentEvents db)) db).
Proof.
  intros [] Hev Hfresh. split; [|by split|done].
  split; simpl; try done. by apply evidence_event.
Qed.

Lemma recordEvent_ok rowId event now db :
  Core db → keeps db (recordEvent rowId event now db).1.
Proof.
  intros HC. unfold recordEvent. do 2 (case_bool_decide; [by apply keeps_refl|]). simpl.
  apply Core_event; [done|..].
  - apply events_ev_insert. intros old Ho. exfalso. eauto.
  - intros e' row' He' Heq. exfalso. eapply H. exists e', row'. done.
Qed.

(** Stamping an event: nothing else changes, and afterwards it is processed. *)
Lemma markProcessed_Ok e paymentId now s b s' :
  markProcessed e paymentId now s = Ok (b, s') →
  ∃ E', s' = mkTx (with_paymentEvents E' (tx_db s)) (tx_pending s) ∧
    events_ev (paymentEvents (tx_db s)) E' ∧
    (∀ P, evidence_ok P (paymentEvents (tx_db s)) → evidence_ok P E') ∧
    (∀ row, paymentEvents (tx_db s) !! e = Some row → ∃ row', E' !! e = Some row' ∧
      pe_payload row' = pe_payload row ∧ is_Some (pe_processedAt row')).
Proof.
  intros H. unfold markProcessed in H. destruct s as [db pending].
  tx_inv; simpl in *; [exists (paymentEvents db)|eexists|exists (paymentEvents db)];
    (split; [by destruct db|]).
  - split_and!; [done..|]. intros row ?. simplify_eq. eauto.
  - assert (∀ E row row', E !! e = Some row → pe_providerEventId row' = pe_providerEventId row →
      pe_payload row' = pe_payload row → pe_processedAt row = None →
      events_ev E (<[e := row']> E)) as Hev.
    { intros E row row' He ???. apply events_ev_insert. intros old ?. simplify_eq.
      split_and!; congruence. }
    split_and!; [by eapply Hev|..].
    + intros P HP. apply evidence_event; [done|by eapply Hev|]. simpl.
      intros e' row' He' Heq. by eapply (ev_once _ _ HP).
    + intros row ?. simplify_eq. eexists. rewrite lookup_insert_eq. split_and!; eauto.
  - split_and!; [done..|]. intros row ?. congruence.
Qed.

Lemma markProcessed_ok e paymentId now s b s' :
  Core (tx_db s) → markProcessed e paymentId now s = Ok (b, s') → keeps (tx_db s) (tx_db s').
Proof.
  intros [HM HT HQ HW HI HE] (E' & -> & Hev & Hok & _)%markProcessed_Ok.
  split; [|by split|done]. split; simpl; eauto.
Qed.

Lemma markPaymentWork_ok eid pid st now s a s' :
  Core (tx_db s) → st ≠ PaySUCCEEDED → st ∉ LIVE →
  markPaymentWork eid pid st now s = Ok (a, s') → keeps (tx_db s) (tx_db s').
Proof.
  intros HC Hst Hl H. unfold markPaymentWork in H.
  apply txM_bind_Ok in H as (settled & s1 & H1 & H).
  apply txM_bind_Ok in H as (stamped & s2 & H2 & H).
  assert (tx_db s' = tx_db s2) as -> by by tx_inv.
  apply setUnsettledPayment_ok in H1; [|done..].
  apply markProcessed_ok in H2; [|by apply H1]. by eapply keeps_trans.
Qed.

(** The facts that entitle the processor to mark an order paid. *)
Definition captured_for (eid pid oid : string) (db : Database) : Prop :=
  ∃ p i row, payments db !! pid = Some p ∧ p_orderId p = oid ∧
    p_providerIntentId p = Some i ∧ paymentEvents db !! eid = Some row ∧
    interpret (pe_payload row) =
      Ok (GwSUCCEEDED (JStr i) (JNum (p_amountMinor p)) (p_currency p)).

Lemma markPaidWork_ok eid pid oid method now s a s' :
  Core (tx_db s) → captured_for eid pid oid (tx_db s) →
  markPaidWork eid pid oid method now s = Ok (a, s') → keeps (tx_db s) (tx_db s').
Proof.
  intros HC (p & i & row & Hp & Hoid & Hi & Hrow & Hint) H. unfold markPaidWork in H.
  apply txM_bind_Ok in H as (? & s1 & (o & Ho & Hst & -> & ->)%transitionOrder_Ok & H).
  apply txM_bind_Ok in H as (? & s2 & [_ ->]%writes_Ok & H).
  apply txM_bind_Ok in H as (? & s3 & (E' & -> & Hev & Hok & Hpr)%markProcessed_Ok & H).
  simpl in *. erewrite alter_is_insert in * by done. tx_inv. rewrite <- Hst in *.
  destruct (Hpr _ Hrow) as (row' & Hrow' & Hpay & Hproc).
  destruct (moved_rest (tx_db s) oid o PAID systemActor None) as [HT HQ HW HI HE]; [done..|by rewrite Hst|done|].
  destruct (pay_order _ _ _ (inv_money _ HC) _ _ Hp) as (o1 & Ho1 & Ha & Hc & Hpos).
  rewrite Hoid in Ho1. simplify_eq.
  assert (same_payment p (succeeded method p)) as Hsame by by split.
  split; [split; simpl; try done|destruct HE; split; simpl; try done|done].
  - eapply money_pay; try done; [by apply HC|by rewrite Hst|..].
    + intros q Hq. by simplify_eq.
    + intros q r j Hne Hq Hr Hj. apply Hne. eapply (pay_intent _ _ _ (inv_money _ HC)); done.
  - apply evidence_payment; [apply Hok, HC| |].
    + rewrite <- Hsame. by eapply (ev_rail _ _ (inv_evidence _ HC)).
    + intros _. rewrite <- Hsame. unfold evidence.
      replace (p_provider p) with STRIPE.
      * exists i, eid, row'. by rewrite Hpay.
      * symmetry. eapply (ev_rail _ _ (inv_evidence _ HC)); eauto.
  - apply payments_ev_insert. intros q Hq. by simplify_eq.
Qed.

(** ** Payments *)

Lemma insertPayment_Ok pid row s a s' :
  insertPayment pid row s = Ok (a, s') →
  a = pid ∧ s' = mkTx (with_payments (<[pid := row]> (payments (tx_db s))) (tx_db s)) (tx_pending s) ∧
  0 < p_amountMinor row ∧ payments (tx_db s) !! pid = None ∧
  (∀ q r i, payments (tx_db s) !! q = Some r → p_providerIntentId r = Some i →
    p_providerIntentId row ≠ Some i) ∧
  (isLive row = true → ∀ q r, payments (tx_db s) !! q = Some r → isLive r = true →
    p_orderId r ≠ p_orderId row).
Proof.
  intros H. unfold insertPayment in H. tx_inv.
  apply orb_false_iff in Heqb1 as [[[Hpid Hint]%orb_false_iff _]%orb_false_iff Hlive].
  split_and!; [done..|lia| | |].
  - apply bool_decide_eq_false in Hpid. by apply eq_None_not_Some.
  - intros q r i Hq Hr Hi. unfold intentTaken in Hint. rewrite Hi in Hint.
    apply bool_decide_eq_false in Hint. apply Hint. by exists q, r.
  - intros Hl q r Hq Hr Heq. unfold liveTaken in Hlive. rewrite Hl in Hlive.
    apply bool_decide_eq_false in Hlive. apply Hlive. by exists q, r.
Qed.

(** What the stored response of a payment may say. *)
Definition payment_view_ok (v : PaymentView) (db : Database) : Prop :=
  ∃ p, payments db !! pv_id v = Some p ∧ pv_amountMinor v = p_amountMinor p.

Lemma intentWork_ok pid order intent key now s v s' :
  Core (tx_db s) → order_costs (po_id order) (po_total order) (po_currency order) (tx_db s) →
  intentWork pid order intent key now s = Ok (v, s') →
  keeps (tx_db s) (tx_db s') ∧ payment_view_ok v (tx_db s').
Proof.
  intros [HM HT HQ HW HI HE] (o & Ho & Ht & Hc) H. unfold intentWork in H. tx_inv.
  apply insertPayment_Ok in H0 as (-> & -> & Hpos & Hpid & Hint & Hlive). simpl.
  split; [|eexists; simpl; by rewrite lookup_insert_eq].
  split; [|split; simpl; try reflexivity|done].
  - split; simpl; try done.
    + eapply money_open; try done. intros q r Hq Hr. by eapply Hlive.
    + apply evidence_payment; [done| |done]. simpl. split; eauto.
  - apply payments_ev_insert. intros p Hp. congruence.
Qed.

Lemma cashWork_ok userId pid order tendered key now s v s' :
  Core (tx_db s) → order_costs (po_id order) (po_total order) (po_currency order) (tx_db s) →
  po_total order ≤ tendered →
  cashWork userId pid order tendered key now s = Ok (v, s') →
  keeps (tx_db s) (tx_db s') ∧ payment_view_ok v (tx_db s').
Proof.
  intros HC (o & Ho & Ht & Hc) Hten H. unfold cashWork in H.
  apply txM_bind_Ok in H as (? & s1 & (-> & -> & Hpos & Hpid & _)%insertPayment_Ok & H).
  apply txM_bind_Ok in H as (? & s2 & (o1 & Ho1 & Hst & -> & ->)%transitionOrder_Ok & H).
  simpl in *. tx_inv. simplify_eq. rewrite <- Hst in *.
  split; [|eexists; simpl; by rewrite lookup_insert_eq].
  destruct (moved_rest (tx_db s) (po_id order) o PAID
    {| ta_actorType := USER; ta_actorId := Some userId |} None) as [HT HQ HW HI HE];
    [done..|by rewrite Hst|done|].
  split; [split; simpl; try done|destruct HE; split; simpl; try done|done].
  - eapply money_pay; try done; [by apply HC|by rewrite Hst|]. intros q Hq. congruence.
  - apply evidence_payment; [apply HC|simpl; split; [done|by intros []]|].
    intros _. unfold evidence. simpl. eauto.
  - apply payments_ev_insert. intros p Hp. congruence.
Qed.

(** ** Idempotent writes *)

(** A transaction that reserves its key, works, and stores the response: the
    reservation is never visible without its answer. *)
Lemma keyed_ok {A} (work : txM A) (body : A → ResponseBody) keyed expiresAt db pending a s' :
  Inv db →
  (∀ K pending' s1, work (mkTx (with_idempotencyKeys K db) pending') = Ok (a, s1) →
    keeps (with_idempotencyKeys K db) (tx_db s1) ∧
    match body a with
    | OrderBody v => ∃ o, orders (tx_db s1) !! v_id v = Some o ∧ v_totalMinor v = o_totalMinor o
    | PaymentBody v => pv_clientSecret v = None ∧ payment_view_ok v (tx_db s1)
    end) →
  (_ ← reserveIfKeyed keyed expiresAt; x ← work; _ ← completeIfKeyed keyed (body x); mret x)
    (mkTx db pending) = Ok (a, s') →
  Inv (tx_db s') ∧ Ev db (tx_db s').
Proof.
  intros HInv Hwork H.
  apply txM_bind_Ok in H as (u & s1 & H1 & H).
  apply txM_bind_Ok in H as (x & s2 & H2 & H).
  apply txM_bind_Ok in H as (u3 & s3 & H3 & [-> ->]%mret_Ok).
  destruct keyed as [[key hash]|]; cbn [reserveIfKeyed completeIfKeyed] in H1, H3.
  - unfold reserveKey in H1. tx_inv. unfold completeKey in H3. tx_inv.
    apply Hwork in H2 as [[HC HE HK] Hbody]. apply CoreEv_keys_l in HE.
    simpl in *. rewrite HK. erewrite alter_is_insert by apply lookup_insert_eq.
    rewrite insert_insert_eq. simpl. split.
    + split; [by apply Core_keys|]. simpl. intros k row Hk. lookup_cases.
      destruct HInv as [_ HR]. destruct HE. by eapply responses_mono.
    + split; [by apply CoreEv_keys_r|]. simpl. by apply insert_subseteq.
  - tx_inv. replace db with (with_idempotencyKeys (idempotencyKeys db) db) in H2 by by destruct db.
    apply Hwork in H2 as [[HC HE HK] _].
    apply keep_responses; [done..|by apply CoreEv_keys_l in HE|done].
Qed.

Lemma writeWork_ok keyed now work db v s' :
  Inv db →
  (∀ K pending s1, work (mkTx (with_idempotencyKeys K db) pending) = Ok (v, s1) →
    keeps (with_idempotencyKeys K db) (tx_db s1) ∧ payment_view_ok v (tx_db s1)) →
  writeWork keyed now work (mkTx db []) = Ok (v, s') →
  Inv (tx_db s') ∧ Ev db (tx_db s').
Proof.
  intros HInv Hwork. apply (keyed_ok work (fun v => PaymentBody (redacted v))); [done|].
  intros K pending s1 [Hk Hv]%Hwork. done.
Qed.

(** ** Order creation *)

Lemma insertOrder_Ok id row s a s' :
  insertOrder id row s = Ok (a, s') →
  a = row ∧ orders (tx_db s) !! id = None ∧
  s' = mkTx (with_orders (<[id := row]> (orders (tx_db s))) (tx_db s)) (tx_pending s).
Proof.
  intros H. unfold insertOrder in H.
  apply txM_bind_Ok in H as (db & s1 & [-> ->]%reads_Ok & H). unfold Datatypes.id in H.
  tx_inv_step; [tx_inv|]. tx_inv_step; [tx_inv|]. tx_inv_step; [tx_inv|]. tx_inv.
  apply orb_false_iff in Heqb0 as [Hid%bool_decide_eq_false _].
  by rewrite <- eq_None_not_Some in Hid.
Qed.

Lemma insertOrderItems_Ok rows s a s' :
  insertOrderItems rows s = Ok (a, s') →
  Forall (fun r => 1 ≤ oi_quantity r.2 ≤ 50) rows ∧
  s' = mkTx (with_orderItems (orderItems (tx_db s) ++ rows) (tx_db s)) (tx_pending s).
Proof.
  intros H. unfold insertOrderItems in H. tx_inv. split; [|done].
  apply Forall_forall. intros r Hr.
  destruct (((oi_quantity r.2 <? 1) || (50 <? oi_quantity r.2))) eqn:E; [|lia].
  assert (existsb (fun r => (oi_quantity r.2 <? 1) || (50 <? oi_quantity r.2)) rows = true);
    [|congruence].
  apply existsb_exists. exists r. by rewrite <- list_elem_of_In.
Qed.

Lemma insertOrderItemOptions_Ok rows s a s' :
  insertOrderItemOptions rows s = Ok (a, s') →
  s' = mkTx (with_orderItemOptions (orderItemOptions (tx_db s) ++ rows) (tx_db s)) (tx_pending s).
Proof.
  intros H. unfold insertOrderItemOptions in H. destruct rows as [|r rows]; tx_inv; [|done].
  destruct s as [[]]. simpl. by rewrite app_nil_r.
Qed.

(** What pricing guarantees about the amounts an order is written with. *)
Definition priced_ok (priced : PricedOrder) : Prop :=
  po_totalMinor priced = sumZ pl_lineTotalMinor (po_lines priced) ∧
  po_subtotalMinor priced = po_totalMinor priced ∧
  Forall (fun l => 0 ≤ pl_unitPriceMinorSnapshot l ∧
    pl_lineTotalMinor l = pl_unitPriceMinorSnapshot l * pl_quantity l) (po_lines priced).

Lemma priceOrder_priced requested catalog vat priced :
  priceOrder requested catalog vat = Ok priced → priced_ok priced.
Proof.
  intros (Hlines & Hsub & Htot & _)%priceOrder_Ok. split_and!; [congruence..|].
  clear Hsub Htot. induction Hlines as [|line pl ls pls (item & _ & _ & _ & Hu & Hq & Ht & _) _ IH];
    constructor; [|done].
  rewrite Hu, Ht, Hq. unfold PricingSpec.unitPrice. split; [lia|done].
Qed.

(** The rows of a new order, number aside. *)
Lemma Core_create db id row lines opts hist C :
  Core db → orders db !! id = None → queue_ok (<[id := row]> (orders db)) C →
  (∀ day, counter (orderNumberCounters db) day ≤ counter C day) →
  o_status row ∈ [DRAFT; PENDING_PAYMENT] →
  (is_Some (o_expiresAt row) ↔ o_status row = PENDING_PAYMENT) →
  Forall (fun e => oi_orderId e.2 = id) lines → Forall (fun e => line_ok e.2) lines →
  o_totalMinor row = sumZ oi_lineTotalMinor lines.*2 → o_subtotalMinor row = o_totalMinor row →
  h_orderId hist = id → h_fromStatus hist = None → h_toStatus hist = o_status row →
  keeps db
    (with_orderStatusHistory (orderStatusHistory db ++ [hist])
      (with_orderItemOptions (orderItemOptions db ++ opts)
        (with_orderItems (orderItems db ++ lines)
          (with_orders (<[id := row]> (orders db)) (with_orderNumberCounters C db))))).
Proof.
  intros [HM HT HQ HW HI HE] Hid HC Hmono Hst Hwin ???????.
  split; [split; simpl; try done|split; simpl; try reflexivity|done].
  - apply money_new_order; [done..|]. apply (bool_decide_eq_true_2 _) in Hst. by destruct (o_status row).
  - by apply trail_new.
  - by apply window_insert.
  - by apply items_new.
  - apply orders_ev_insert. intros o Ho. congruence.
  - by apply prefix_app_r.
  - by apply prefix_app_r.
  - by apply prefix_app_r.
  - done.
Qed.

Lemma lineRows_lines ids lines :
  (lineRows ids lines).*2 = orderItemRow (ni_order ids) <$> lines.
Proof.
  unfold lineRows. rewrite fmap_imap.
  apply list_eq. intros i. rewrite list_lookup_imap, list_lookup_fmap. by destruct (lines !! i).
Qed.

(** A property of each row the lines are written as. *)
Lemma lineRows_Forall ids lines (Q : OrderItemRow → Prop) :
  Forall (fun l => Q (orderItemRow (ni_order ids) l)) lines →
  Forall (fun e => Q e.2) (lineRows ids lines).
Proof.
  intros H. assert (Forall Q (lineRows ids lines).*2) as HQ.
  { rewrite lineRows_lines. by apply Forall_fmap. }
  by rewrite Forall_fmap in HQ.
Qed.

Definition order_view_ok (v : OrderView) (db : Database) : Prop :=
  ∃ o, orders db !! v_id v = Some o ∧ v_totalMinor v = o_totalMinor o.

Section create.
Context (config : Config) (tzOffset : string → Z → Z).

Lemma persist_ok principal channel input priced now ids s v s' :
  Core (tx_db s) → priced_ok priced →
  persist config tzOffset principal channel input priced now ids s = Ok (v, s') →
  keeps (tx_db s) (tx_db s') ∧ order_view_ok v (tx_db s').
Proof.
  intros HC (Htot & Hsub & Hlines) H. unfold persist in H.
  set (day := businessDayOf _ _ _ _) in *.
  apply txM_bind_Ok in H as (number & s1 & H1 & H).
  apply txM_bind_Ok in H as (order & s2 & (-> & Hid & ->)%insertOrder_Ok & H).
  apply txM_bind_Ok in H as (? & s3 & (Hqty & ->)%insertOrderItems_Ok & H).
  apply txM_bind_Ok in H as (? & s4 & ->%insertOrderItemOptions_Ok & H).
  apply txM_bind_Ok in H as (? & s5 & [_ ->]%writes_Ok & [-> ->]%mret_Ok).
  set (row := newOrderRow _ _ _ _ _ _ _ _ _) in *. simpl in *.
  assert (∃ C, tx_db s1 = with_orderNumberCounters C (tx_db s) ∧
    queue_ok (<[ni_order ids := row]> (orders (tx_db s))) C ∧
    ∀ d, counter (orderNumberCounters (tx_db s)) d ≤ counter C d) as (C & Hs1 & HQ & Hmono).
  { destruct (isDraft input) eqn:Hd.
    - apply mret_Ok in H1 as [-> ->]. exists (orderNumberCounters (tx_db s)).
      split; [by destruct (tx_db s)|]. split; [|done].
      apply queue_park; [by apply HC|done|simpl; by rewrite Hd|done].
    - apply txM_bind_Ok in H1 as (n & s1' & [-> ->]%nextOrderNumber_Ok & [-> ->]%mret_Ok).
      eexists. split; [done|]. split.
      + apply (queue_call _ _ (ni_order ids) row); [by apply HC| |simpl; by rewrite Hd|done].
        intros o Ho. simpl in Hid. congruence.
      + intros d. rewrite counter_insert. case_decide; [subst; unfold counterOf, counter; lia|done]. }
  rewrite Hs1 in *. simpl in *.
  split; [|exists row; simpl; by rewrite lookup_insert_eq].
  eapply (Core_create (tx_db s)); try done.
  - simpl. destruct (isDraft input); by apply (bool_decide_eq_true_1 _).
  - simpl. destruct (isDraft input); simpl; [|split; eauto]. split; [by intros []|done].
  - apply (lineRows_Forall _ _ (fun r => oi_orderId r = ni_order ids)). by apply Forall_true.
  - apply (lineRows_Forall _ _ (fun r => line_ok r)).
    assert (Forall (fun l => 1 ≤ pl_quantity l ≤ 50) (po_lines priced)) as Hq.
    { assert (Forall (fun r => 1 ≤ oi_quantity r ≤ 50) (lineRows ids (po_lines priced)).*2) as Hq
        by by apply Forall_fmap.
      rewrite lineRows_lines in Hq. by apply Forall_fmap in Hq. }
    eapply Forall_impl; [exact (proj2 (Forall_and _ _) (conj Hlines Hq))|].
    intros l ((?&?)&?). unfold line_ok. simpl. auto.
  - rewrite lineRows_lines, sumZ_fmap. done.
Qed.

Lemma build_ok principal input now ids s v s' :
  Core (tx_db s) →
  build config tzOffset principal input now ids s = Ok (v, s') →
  keeps (tx_db s) (tx_db s') ∧ order_view_ok v (tx_db s').
Proof.
  intros HC H. unfold build in H.
  apply txM_bind_Ok in H as (channel & s1 & H1 & H).
  assert (s1 = s) as ->.
  { unfold resolveChannel in H1. destruct principal; tx_inv; done. }
  apply txM_bind_Ok in H as (catalog & s2 & [-> ->]%reads_Ok & H).
  destruct (priceOrder _ _ _) as [priced|e] eqn:Hp; [|done].
  apply priceOrder_priced in Hp. tx_inv; by eapply persist_ok.
Qed.

Lemma createWork_ok principal input keyed now ids db v s' :
  Inv db → createWork config tzOffset principal input keyed now ids (mkTx db []) = Ok (v, s') →
  Inv (tx_db s') ∧ Ev db (tx_db s').
Proof.
  intros HInv. apply (keyed_ok _ OrderBody); [done|].
  intros K pending s1 H. eapply build_ok in H; [done|]. simpl. by apply Core_keys, HInv.
Qed.
End create.

(** ** Refunds *)

(** What the refund handler knows by the time it opens its transaction. *)
Definition refundable (pid oid : string) (amount : Z) (db : Database) : Prop :=
  ∃ p, payments db !! pid = Some p ∧ p_orderId p = oid ∧ p_amountMinor p = amount ∧
    p_status p = PaySUCCEEDED.

Lemma refundWork_ok userId rid pid oid status amount input s v s' :
  Core (tx_db s) → refundable pid oid amount (tx_db s) →
  refundWork userId rid pid oid status amount input s = Ok (v, s') →
  keeps (tx_db s) (tx_db s').
Proof.
  intros HC (p & Hp & Hoid & Ha & HS) H. unfold refundWork in H.
  apply txM_bind_Ok in H as (already & s1 & [-> ->]%reads_Ok & H).
  tx_inv_step; [done|]. apply txM_bind_Ok in H as (u & s1 & H1 & H).
  unfold insertRefund in H1. tx_inv. rename Heqb into Hle, Heqb2 into Hfresh.
  apply bool_decide_eq_false in Hfresh. rewrite <- eq_None_not_Some in Hfresh.
  change (refundedTotal (tx_db s) pid) with (refunded (refunds (tx_db s)) pid) in *.
  simpl in Hle, Heqb0, Heqb1. unfold when in H0. destruct (_ =? _) eqn:Hfull in H0.
  - apply txM_bind_Ok in H0 as (? & s2 & (o & Ho & Hst & -> & ->)%transitionOrder_Ok & H0). tx_inv.
    simpl in Ho. rewrite <- Hst in *.
    pose proof (pay_full _ _ _ (inv_money _ HC) oid o pid p Ho (conj Hp (conj Hoid HS))) as Hiff.
    pose proof (pay_taken _ _ _ (inv_money _ HC) oid o pid p Ho (conj Hp (conj Hoid HS))) as Htaken.
    assert (o_status o ≠ REFUNDED) as Hnr by (rewrite Hiff; simpl in *; lia).
    destruct (moved_rest (tx_db s) oid o REFUNDED
      {| ta_actorType := USER; ta_actorId := Some userId |} (Some (cr_reason input)))
      as [HT HQ HW HI HE]; [done..|by destruct (o_status o)|done|].
    destruct HC as [HM _ _ _ _ HEv].
    split; [split; simpl; try done|destruct HE; split; simpl; try done|done].
    + rewrite <- Hoid. eapply (money_refund_full _ _ _ HM rid (refundRow userId pid input) p o); try done;
        simpl; [lia|lia|by rewrite Hoid].
    + by apply insert_subseteq.
  - tx_inv. destruct HC as [HM HT HQ HW HI HEv].
    split; [split; simpl; try done|split; simpl; try reflexivity|done].
    + eapply (money_refund_part _ _ _ HM rid (refundRow userId pid input) p); try done; simpl; lia.
    + by apply insert_subseteq.
Qed.
End handlers.
