(* ===== verification/System.v ===== *)
(** * System: every interleaving of every handler

    The requests and jobs that touch orders and payments, each shown safe under
    the rely-guarantee rule of [Program.v] with [Inv] and [Ev] of
    [Invariants.v]; then what that says of every database the running system can
    reach, whatever the schedule, the gateway's answers and the crashes. *)

From S2P Require Import Prelude Text Schema Errors Program Pricing OrderState Transition.
From S2P Require Import BusinessDay Idempotency CreateOrder OrderDoors Gateway Webhooks.
From S2P Require Import CreatePayment Refunds Books Invariants Handlers.

(** ** Facts that survive the other handlers *)

Section stability.
Context `{port : PaymentPort}.
Notation stable := (stable Inv Ev).

Lemma stable_costs oid total currency : stable (order_costs oid total currency).
Proof.
  intros db db' _ _ [[HO _ _ _ _ _ _ _] _] (o & Ho & Ht & Hc).
  destruct (HO _ _ Ho) as (o' & Ho' & Hs & _). exists o'.
  by rewrite <- (same_order_total _ _ Hs), <- (same_order_currency _ _ Hs).
Qed.

Lemma stable_day oid day : stable (order_day oid day).
Proof.
  intros db db' _ _ [[HO _ _ _ _ _ _ _] _] (o & Ho & Hd).
  destruct (HO _ _ Ho) as (o' & Ho' & Hs & _). exists o'.
  by rewrite <- (same_order_day _ _ Hs).
Qed.

Lemma stable_payment_of pid oid : stable (payment_of pid oid).
Proof.
  intros db db' _ _ [[_ HP _ _ _ _ _ _] _] (p & Hp & Ho).
  destruct (HP _ _ Hp) as (p' & Hp' & Hs & _). exists p'.
  by rewrite <- (same_payment_order _ _ Hs).
Qed.

Lemma stable_refundable pid oid amount : stable (refundable pid oid amount).
Proof.
  intros db db' _ _ [[_ HP _ _ _ _ _ _] _] (p & Hp & Ho & Ha & Hst).
  destruct (HP _ _ Hp) as (p' & Hp' & Hs & HS & _). exists p'.
  rewrite <- (same_payment_order _ _ Hs), <- (same_payment_amount _ _ Hs). auto.
Qed.

(** The payload of an event in the inbox. *)
Definition event_says (eid : string) (payload : Json) (db : Database) : Prop :=
  ∃ row, paymentEvents db !! eid = Some row ∧ pe_payload row = payload.

Lemma stable_event_says eid payload : stable (event_says eid payload).
Proof.
  intros db db' _ _ [[_ _ _ _ _ _ _ HE] _] (row & Hr & Hp).
  destruct (HE _ _ Hr) as (row' & Hr' & _ & Hp' & _). exists row'. by rewrite Hp'.
Qed.

(** The rows the processor found behind an outcome. *)
Definition loaded (outcome : GatewayOutcome) (payment : option PaymentRecord)
    (order : option OrderRecord) (db : Database) : Prop :=
  match payment with
  | None => True
  | Some r => ∃ i p, outcomeIntent outcome = Some (JStr i) ∧ payments db !! pr_id r = Some p ∧
      p_providerIntentId p = Some i ∧ p_orderId p = pr_orderId r ∧
      p_amountMinor p = pr_amountMinor r ∧ p_currency p = pr_currency r ∧
      (∀ o, order = Some o → or_id o = pr_orderId r)
  end.

Lemma stable_loaded outcome payment order : stable (loaded outcome payment order).
Proof.
  intros db db' _ _ [[_ HP _ _ _ _ _ _] _]. destruct payment as [r|]; [|done].
  intros (i & p & Hi & Hp & Hpi & Ho & Ha & Hc & Hor).
  destruct (HP _ _ Hp) as (p' & Hp' & Hs & _). exists i, p'.
  by rewrite <- (same_payment_intent _ _ Hs), <- (same_payment_order _ _ Hs),
    <- (same_payment_amount _ _ Hs), <- (same_payment_currency _ _ Hs).
Qed.
End stability.

(** ** Safety of each handler *)

Section safety.
Context `{port : PaymentPort}.
Notation stable := (stable Inv Ev).
Notation rg := (rg Inv Ev).
Notation any := (fun _ : Database => True).

Lemma keeps_inv db db' : Inv db → keeps db db' → Inv db' ∧ Ev db db'.
Proof. intros HI [? ? ?]. by apply keep_responses. Qed.

(** A transaction that keeps the invariant, and a continuation that needs nothing. *)
Lemma rg_work {R A} P (work : txM A) (k : result AppError (A * list DomainEvent) → prog R) :
  (∀ db a s, Inv db → P db → work (mkTx db []) = Ok (a, s) → Inv (tx_db s) ∧ Ev db (tx_db s)) →
  (∀ r, rg any (k r)) →
  rg P (inTransaction work k).
Proof.
  intros Hw Hk. apply (rg_transaction Inv Ev _ _ _ (fun _ => any)); [done| |done|done].
  intros db HI HP a s Ha. destruct (Hw db a s HI HP Ha). done.
Qed.

Lemma rg_keeps {R A} P (work : txM A) (k : result AppError (A * list DomainEvent) → prog R) :
  (∀ s a s', Core (tx_db s) → P (tx_db s) → work s = Ok (a, s') → keeps (tx_db s) (tx_db s')) →
  (∀ r, rg any (k r)) →
  rg P (inTransaction work k).
Proof.
  intros Hw Hk. apply rg_work; [|done]. intros db a s HI HP H.
  apply keeps_inv; [done|]. by apply (Hw (mkTx db [])) in H; [|apply HI|].
Qed.

Lemma rg_afterCommit {A} P (work : txM A) :
  (∀ s a s', Core (tx_db s) → P (tx_db s) → work s = Ok (a, s') → keeps (tx_db s) (tx_db s')) →
  rg P (afterCommit_run work).
Proof. intros Hw. apply rg_keeps; [done|]. intros [[a [|]]|]; done. Qed.

Lemma rg_pure_read {R X} P (f : Database → X) (k : X → prog R) :
  stable P → (∀ x, rg P (k x)) → rg P (Read f k).
Proof. intros HP Hk. by apply (rg_read Inv Ev _ _ _ (fun _ => P)). Qed.

Lemma rg_bind {A B} P (p : prog A) (k : A → prog B) :
  stable P → rg P p → (∀ a, rg any (k a)) → rg P (p ≫= k).
Proof.
  intros HP Hp Hk. apply (rg_after Inv Ev _ _ _ any); [done..|]. intros [a|e]; [apply Hk|done].
Qed.

Lemma rg_any {R} P (p : prog R) : rg any p → rg P p.
Proof. by apply rg_weaken. Qed.

(** *** Orders *)

Lemma createOrder_safe config tzOffset sha256 principal input key now ids :
  rg any (createOrder config tzOffset sha256 principal input key now ids).
Proof.
  apply rg_work; [intros; by eapply createWork_ok|].
  intros [[v pend]|e]; [done|].
  destruct (isKeyAlreadyReserved e), key as [key|]; try done.
  apply rg_pure_read; [done|]. by intros [].
Qed.

Lemma checkout_safe config principal oid now : rg any (checkout config principal oid now).
Proof.
  apply (rg_read Inv Ev _ _ _ (fun current db =>
    match current with Some (_, day) => order_day oid day db | None => True end)).
  - intros [[st day]|]; [apply stable_day|done].
  - intros db _ _. unfold statusAndDay, order_day.
    destruct (orders db !! oid) as [o|] eqn:E; simpl; eauto.
  - intros [[st day]|]; [|done]. case_bool_decide; [|done].
    apply rg_keeps; [|by intros [[]|]]. intros. by eapply checkoutWork_ok.
Qed.

Lemma transition_safe principal oid to : rg any (transition principal oid to).
Proof.
  apply rg_pure_read; [done|]. intros [st|]; [|done].
  destruct (isStaffTransition st to) eqn:E; [|done].
  apply rg_afterCommit. intros. by eapply statusWork_ok.
Qed.

Lemma cancelMove_safe principal oid from reason live :
  from ∈ CANCELLABLE → rg any (cancelMove principal oid from reason live).
Proof.
  intros Hf. apply rg_bind; [done| |].
  - apply rg_afterCommit. intros. by eapply cancelWork_ok.
  - intros [sum []]; done.
Qed.

Lemma cancel_safe principal oid reason : rg any (cancel principal oid reason).
Proof.
  apply rg_pure_read; [done|]. intros [st|]; [|done].
  case_bool_decide as Hc; [|done]. apply rg_pure_read; [done|].
  intros [[pid [i|]]|]; try by apply cancelMove_safe.
  intros [[]|]; try done. by apply cancelMove_safe.
Qed.

Lemma livePayment_Some db oid pid i :
  livePayment db oid = Some (pid, i) → payment_of pid oid db.
Proof.
  unfold livePayment. intros H. apply fmap_Some in H as ([q p] & Hq & [= -> _]).
  apply head_Some_elem_of in Hq. unfold livePayments in Hq.
  apply list_elem_of_filter in Hq as [[Ho _] Hin%elem_of_map_to_list]. by exists p.
Qed.

Lemma expireMove_safe oid live :
  rg (fun db => ∀ pid i, live = Some (pid, i) → payment_of pid oid db) (expireMove oid live).
Proof.
  apply rg_keeps.
  - intros. by eapply expireWork_ok.
  - intros [[]|]; [|done]. by destruct live.
Qed.

Lemma expireOne_safe oid : rg any (expireOne oid).
Proof.
  apply (rg_read Inv Ev _ _ _ (fun live db =>
    ∀ pid i, live = Some (pid, i) → payment_of pid oid db)).
  - intros live db db' ??? H pid i Hl. eapply (stable_payment_of pid oid db db'); [done..|by eapply H].
  - intros db _ _ pid i Hl. by eapply livePayment_Some.
  - intros [[pid [i|]]|]; try apply expireMove_safe.
    intros [[]|]; try done. apply expireMove_safe.
Qed.

Lemma expireOverdue_safe now : rg any (expireOverdue now).
Proof.
  apply rg_pure_read; [done|]. intros ids. generalize 0.
  induction ids as [|id ids IH]; intros n; [done|].
  apply rg_bind; [done|apply expireOne_safe|]. intros b. apply IH.
Qed.

(** *** Payments *)

Lemma rehydrate_safe body : rg any (rehydrate body).
Proof.
  destruct body as [v|v]; [done|]. unfold rehydrate. destruct (_ || _); [done|].
  apply rg_pure_read; [done|]. intros [i|]; [|done]. by intros [].
Qed.

Lemma replay_safe body : rg any (view ← rehydrate body; Return (view, true)).
Proof. apply rg_bind; [done|apply rehydrate_safe|done]. Qed.

Lemma write_safe P keyed oid now work :
  stable P →
  (∀ s v s', Core (tx_db s) → P (tx_db s) → work s = Ok (v, s') →
    keeps (tx_db s) (tx_db s') ∧ payment_view_ok v (tx_db s')) →
  (∀ K db, P db → P (with_idempotencyKeys K db)) →
  rg P (write keyed oid now work).
Proof.
  intros HP Hw HK. apply (rg_after Inv Ev _ _ _ any); [done..| |].
  - apply rg_work; [|by intros [[? [|]]|]]. intros db v s HI HPdb H.
    eapply writeWork_ok; [done| |exact H]. intros K pending s1 H1.
    apply (Hw (mkTx _ _)) in H1; [done|apply Core_keys, HI|by apply HK].
  - intros [v|e]; [done|]. destruct (isUniqueViolation e).
    { by apply rg_pure_read. }
    destruct (isKeyAlreadyReserved e), keyed as [[k h]|]; try done.
    apply rg_pure_read; [done|]. intros [b|]; [apply replay_safe|done].
Qed.

Lemma takeCash_safe principal order input keyed pid now :
  rg (order_costs (po_id order) (po_total order) (po_currency order))
    (takeCash principal order input keyed pid now).
Proof.
  unfold takeCash. destruct principal as [userId role|]; [|done].
  destruct (cp_cashTenderedMinor input) as [tendered|]; [|done].
  destruct (_ <? _) eqn:Hlt; [done|].
  apply (rg_after Inv Ev _ _ _ any); [apply stable_costs|done|done| |].
  - apply write_safe; [apply stable_costs| |done].
    intros s v s' HC HP H. eapply (cashWork_ok userId pid order tendered); [done..|lia|done].
  - by intros [[b []]|].
Qed.

Lemma openGatewayPayment_safe order keyed pid now :
  rg (order_costs (po_id order) (po_total order) (po_currency order))
    (openGatewayPayment order keyed pid now).
Proof.
  intros [intent|e]; [|done]. apply write_safe; [apply stable_costs| |done].
  intros s v s' HC HP H. by eapply intentWork_ok.
Qed.

Lemma payFor_safe principal oid input keyed pid now :
  rg any (payFor principal oid input keyed pid now).
Proof.
  apply (rg_read Inv Ev _ _ _ (fun order db =>
    match order with
    | Some o => order_costs oid (o_totalMinor o) (o_currency o) db
    | None => True
    end)).
  - intros [o|]; [apply stable_costs|done].
  - intros db _ _. unfold findOrder. destruct (orders db !! oid) as [o|] eqn:E; [|done].
    by exists o.
  - intros [o|]; [|done]. destruct (ownOrder principal o); [|done]. simpl.
    case_bool_decide; [done|]. case_bool_decide; [|done].
    apply rg_pure_read; [apply stable_costs|]. intros [[q i]|]; [done|].
    pose (order := {| po_id := oid; po_total := o_totalMinor o; po_currency := o_currency o |}).
    case_bool_decide; [apply (takeCash_safe principal order)|apply (openGatewayPayment_safe order)].
Qed.

Lemma createPayment_safe sha256 principal oid input key pid now :
  rg any (createPayment sha256 principal oid input key pid now).
Proof.
  unfold createPayment. destruct key as [key|]; simpl; [|apply payFor_safe].
  apply rg_pure_read; [done|]. intros [[h b]|]; [|apply payFor_safe].
  case_bool_decide; [apply replay_safe|done].
Qed.

(** *** Refunds and reconciliation *)

Lemma refund_safe config tzOffset userId rid pid input now :
  rg any (refund config tzOffset userId rid pid input now).
Proof.
  apply (rg_read Inv Ev _ _ _ (fun payment db =>
    match payment with
    | Some p => p_status p = PaySUCCEEDED → refundable pid (p_orderId p) (p_amountMinor p) db
    | None => True
    end)).
  - intros [p|]; [|done]. intros db db' ??? H Hs.
    eapply (stable_refundable _ _ _ db db'); [done..|by apply H].
  - intros db _ _. unfold findPayment. destruct (payments db !! pid) as [p|] eqn:E; [|done].
    intros Hs. by exists p.
  - intros [p|]; [|done]. case_bool_decide as Hs; [|done].
    eapply rg_weaken; [by intros db _ H; exact (H Hs)|].
    apply rg_pure_read; [apply stable_refundable|]. intros [o|]; [|done].
    case_bool_decide; [|done]. apply rg_afterCommit. intros. by eapply refundWork_ok.
Qed.

Lemma listFor_safe principal oid : rg any (listFor principal oid).
Proof.
  apply rg_pure_read; [done|]. intros [o|]; [|done]. destruct (ownOrder _ _); [|done].
  by apply rg_pure_read.
Qed.

Lemma reconcile_safe day : rg any (reconcile day).
Proof.
  apply rg_pure_read; [done|]. intros recorded [total|]; [|done]. by apply rg_pure_read.
Qed.

Lemma reconcileYesterday_safe config tzOffset now :
  rg any (reconcileYesterday config tzOffset now).
Proof. apply (rg_after Inv Ev _ _ _ any); [done..|apply reconcile_safe|by intros []]. Qed.

(** *** Webhooks *)

Lemma receive_safe stripe secrets rawBody signature rowId now :
  rg any (receive stripe secrets rawBody signature rowId now).
Proof.
  unfold receive. destruct rawBody as [raw|]; [|done]. destruct signature as [sig|]; [|done].
  destruct (parseWebhook _ _ _ _) as [[event ?]|]; [|done].
  intros db HI _. destruct (keeps_inv db (recordEvent rowId event now db).1 HI) as [??].
  { apply recordEvent_ok, HI. }
  split_and!; [done..|]. exists any. split_and!; [done..|]. by destruct (recordEvent _ _ _ _).2 as [[]|].
Qed.

Lemma decide_paid outcome payment order pid oid :
  decidePaymentOutcome outcome payment order = MARK_PAID pid oid →
  ∃ i r o, outcome = GwSUCCEEDED i (JNum (pr_amountMinor r)) (pr_currency r) ∧
    payment = Some r ∧ pr_id r = pid ∧ order = Some o ∧ or_id o = oid ∧
    or_status o = PENDING_PAYMENT.
Proof.
  unfold decidePaymentOutcome, decideSuccess. intros H.
  repeat (case_match; try done); simplify_eq.
  all: repeat case_bool_decide; simplify_eq.
  all: try match goal with E : negb (_ =? _) = false |- _ =>
    apply negb_false_iff, Z.eqb_eq in E; rewrite <- E end.
  eauto 10.
Qed.

Lemma decide_mark outcome payment order pid st :
  decidePaymentOutcome outcome payment order = MARK_PAYMENT pid st →
  st = PayFAILED ∨ st = PayCANCELLED.
Proof.
  unfold decidePaymentOutcome, decideSuccess. intros H.
  repeat (case_match; try done); simplify_eq; eauto.
Qed.

Lemma paymentByIntent_Some db j r :
  paymentByIntent db j = Some r →
  ∃ i p, j = JStr i ∧ payments db !! pr_id r = Some p ∧ p_providerIntentId p = Some i ∧
    p_orderId p = pr_orderId r ∧ p_amountMinor p = pr_amountMinor r ∧
    p_currency p = pr_currency r.
Proof.
  unfold paymentByIntent. destruct j; try done. intros H.
  apply fmap_Some in H as ([q p] & Hq & ->). apply head_Some_elem_of in Hq.
  apply list_elem_of_filter in Hq as [Hi Hin%elem_of_map_to_list]. simpl. eauto 10.
Qed.

Lemma load_safe {R} P outcome (k : option PaymentRecord → option OrderRecord → prog R) :
  stable P →
  (∀ payment order, rg (fun db => P db ∧ loaded outcome payment order db) (k payment order)) →
  rg P (load outcome k).
Proof.
  intros HP Hk. unfold load. destruct (outcomeIntent outcome) as [j|] eqn:Ej.
  2:{ eapply rg_weaken; [|apply Hk]. by intros. }
  apply (rg_read Inv Ev _ _ _ (fun payment db => P db ∧ loaded outcome payment None db)).
  - intros payment. exact (stable_and _ _ _ _ HP (stable_loaded _ _ _)).
  - intros db _ HPdb. split; [done|]. destruct (paymentByIntent db j) as [r|] eqn:E; [|done].
    apply paymentByIntent_Some in E as (i & p & -> & ?). simpl. rewrite Ej. naive_solver.
  - intros [r|]; [|apply Hk].
    apply (rg_read Inv Ev _ _ _ (fun order db => P db ∧ loaded outcome (Some r) order db)).
    + intros order. exact (stable_and _ _ _ _ HP (stable_loaded _ _ _)).
    + intros db _ [HPdb (i & p & H)]. split; [done|]. exists i, p. destruct_and! H.
      split_and!; try done. intros o Ho. unfold orderRecord in Ho.
      apply fmap_Some in Ho as (? & _ & ->). done.
    + intros order. apply Hk.
Qed.

Lemma markPaid_safe eid pid oid now :
  rg (captured_for eid pid oid) (markPaid eid pid oid now).
Proof.
  assert (stable (captured_for eid pid oid)) as Hstab.
  { intros db db' _ _ [[_ HP _ _ _ _ _ HE] _] (p & i & row & Hp & Ho & Hi & Hr & Hint).
    destruct (HP _ _ Hp) as (p' & Hp' & Hs & _). destruct (HE _ _ Hr) as (row' & Hr' & _ & Hpay & _).
    exists p', i, row'. rewrite Hpay.
    by rewrite <- (same_payment_order _ _ Hs), <- (same_payment_intent _ _ Hs),
      <- (same_payment_amount _ _ Hs), <- (same_payment_currency _ _ Hs). }
  assert (∀ method, rg (captured_for eid pid oid)
    (_ ← afterCommit_run (markPaidWork eid pid oid method now);
     Emit (PaymentsMetric STRIPE PaySUCCEEDED) (Return true))) as Hfin.
  { intros method. apply rg_bind; [done| |done].
    apply rg_afterCommit. intros. by eapply markPaidWork_ok. }
  apply rg_pure_read; [done|]. intros [i|]; [|apply Hfin]. intros method. apply Hfin.
Qed.

Lemma apply_safe eid now : rg any (Webhooks.apply eid now).
Proof.
  apply (rg_read Inv Ev _ _ _ (fun event db =>
    match event with Some payload => event_says eid payload db | None => True end)).
  - intros [payload|]; [apply stable_event_says|done].
  - intros db _ _. unfold pendingPayload.
    destruct (paymentEvents db !! eid) as [row|] eqn:E; simpl; [|done].
    destruct (pe_processedAt row); [done|]. by exists row.
  - intros [payload|]; [|done]. destruct (interpret payload) as [outcome|] eqn:Hint; [|done].
    apply load_safe; [apply stable_event_says|]. intros payment order.
    destruct (decidePaymentOutcome outcome payment order) as [pid oid|pid st|why|why] eqn:Hd.
    + eapply rg_weaken; [|apply markPaid_safe]. intros db _ [(row & Hr & Hpay) Hl].
      apply decide_paid in Hd as (j & r & o & -> & -> & <- & -> & <- & _). simpl in Hl.
      destruct Hl as (i & p & [= ->] & Hp & Hi & Ho & Ha & Hc & Hor).
      exists p, i, row. rewrite (Hor o eq_refl), Hpay, Ha, Hc. done.
    + apply rg_any, rg_bind; [done| |by intros []].
      apply rg_afterCommit. intros s a s' HC _ H. apply decide_mark in Hd.
      eapply markPaymentWork_ok in H; [done..| |]; destruct Hd as [-> | ->]; try done;
        by apply (bool_decide_eq_false_1 _).
    + apply rg_any, rg_bind; [done| |done].
      apply rg_keeps; [|by intros [[]|]]. intros. by eapply markProcessed_ok.
    + done.
Qed.

Lemma processEvent_safe eid now : rg any (processEvent eid now).
Proof.
  apply (rg_after Inv Ev _ _ _ any); [done..|apply apply_safe|].
  intros [b|e]; [done|]. by destruct (isLostRace e).
Qed.

Lemma drainInbox_safe now : rg any (drainInbox now).
Proof.
  apply rg_pure_read; [done|]. intros ids. generalize 0.
  induction ids as [|id ids IH]; intros n; [done|].
  apply rg_bind; [done|apply processEvent_safe|]. intros b. apply IH.
Qed.
End safety.

(** ** The running system *)

(** The admin's side of the shop: the menu and the devices change under the
    pipeline's feet, in any way that leaves the order and payment tables alone. *)
Definition admin_change (t : Database → Database) : Prop :=
  ∀ db, (orders (t db), orderItems (t db), orderItemOptions (t db), orderStatusHistory (t db)) =
          (orders db, orderItems db, orderItemOptions db, orderStatusHistory db) ∧
        (orderNumberCounters (t db), payments (t db), refunds (t db), paymentEvents (t db),
          idempotencyKeys (t db)) =
          (orderNumberCounters db, payments db, refunds db, paymentEvents db, idempotencyKeys db).

(** A shop that has taken no order yet; its menu and devices may be anything. *)
Definition opening (db : Database) : Prop :=
  orders db = ∅ ∧ orderItems db = [] ∧ orderStatusHistory db = [] ∧
  orderNumberCounters db = ∅ ∧ payments db = ∅ ∧ refunds db = ∅ ∧
  paymentEvents db = ∅ ∧ idempotencyKeys db = ∅.

Section system.
Context `{port : PaymentPort}.
Context (config : Config) (tzOffset : string → Z → Z) (sha256 : string → string).

(** Every request and job that reads or writes orders and payments. The clock,
    the drawn ids, the bodies, the SDK's answers: all arbitrary. *)
Inductive request : thread → Prop :=
| req_create principal input key now ids :
    request (thread_of (createOrder config tzOffset sha256 principal input key now ids))
| req_checkout principal oid now : request (thread_of (checkout config principal oid now))
| req_transition principal oid to : request (thread_of (transition principal oid to))
| req_cancel principal oid reason : request (thread_of (cancel principal oid reason))
| req_pay principal oid input key pid now :
    request (thread_of (createPayment sha256 principal oid input key pid now))
| req_refund userId rid pid input now :
    request (thread_of (refund config tzOffset userId rid pid input now))
| req_payments principal oid : request (thread_of (listFor principal oid))
| req_webhook stripe secrets rawBody signature rowId now :
    request (thread_of (receive stripe secrets rawBody signature rowId now))
| job_process eid now : request (thread_of (processEvent eid now))
| job_drain now : request (thread_of (drainInbox now))
| job_expire now : request (thread_of (expireOverdue now))
| job_reconcile now : request (thread_of (reconcileYesterday config tzOffset now))
| req_admin t : admin_change t →
    request (thread_of (Step (fun db => (t db, tt)) (fun _ => Return tt))).

Lemma request_safe db th : Inv db → request th → thread_safe Inv Ev db th.
Proof.
  intros _ Hr. exists (fun _ => True). split_and!; [done..|].
  destruct Hr as [| | | | | | | | | | | |t Ht]; simpl.
  - apply createOrder_safe.
  - apply checkout_safe.
  - apply transition_safe.
  - apply cancel_safe.
  - apply createPayment_safe.
  - apply refund_safe.
  - apply listFor_safe.
  - apply receive_safe.
  - apply processEvent_safe.
  - apply drainInbox_safe.
  - apply expireOverdue_safe.
  - apply reconcileYesterday_safe.
  - intros db0 [[HM HT HQ HW HI HE] HR] _. simpl.
    destruct (Ht db0) as [[= HO HOI HX HH] [= HC HP HRf HPE HK]]. split_and!.
    + split; [split|]; rewrite ?HO, ?HOI, ?HH, ?HC, ?HP, ?HRf, ?HPE, ?HK; done.
    + split; [split|]; unfold counterOf;
        rewrite ?HO, ?HOI, ?HX, ?HH, ?HC, ?HP, ?HRf, ?HPE, ?HK; reflexivity.
    + by exists (fun _ => True).
Qed.

(** Everything the system can get to from an opening database. *)
Definition reachable (c : Pool) : Prop :=
  ∃ db0, opening db0 ∧ pool_steps request (idle db0) c.

Lemma opening_inv db : opening db → Inv db.
Proof.
  intros (H1 & H2 & H3 & H4 & H5 & H6 & H7 & H8).
  pose proof Inv_empty as [[HM HT HQ HW HI HE] HR].
  split; [split|]; rewrite ?H1, ?H2, ?H3, ?H4, ?H5, ?H6, ?H7, ?H8; done.
Qed.

Lemma reachable_safe c : reachable c → pool_safe Inv Ev c.
Proof.
  intros (db0 & Ho & Hsteps).
  eapply (pool_steps_safe Inv Ev) in Hsteps as [Hs _]; [done|apply request_safe|].
  split; [by apply opening_inv|constructor].
Qed.

Lemma reachable_inv c : reachable c → Inv (pool_db c).
Proof. by intros [? _]%reachable_safe. Qed.

Lemma reachable_ev c c' :
  reachable c → pool_steps request c c' → Ev (pool_db c) (pool_db c').
Proof.
  intros Hr%reachable_safe Hs. by eapply (pool_steps_safe Inv Ev) in Hs as [_ ?]; [|apply request_safe|].
Qed.

(** Running one more request alone is one way to get further. *)
Lemma run_steps {R} (p : prog R) gw db log l :
  pool_steps request {| pool_db := db; pool_threads := thread_of p :: l; pool_log := log |}
    {| pool_db := (run gw p db).1.1; pool_threads := l;
       pool_log := log ++ (run gw p db).1.2 |}.
Proof.
  revert db log. induction p as [r|X t k IH|call k IH|e k IH]; intros db log; simpl.
  - rewrite app_nil_r. apply rtc_once, (pool_crash _ _ _ []).
  - eapply rtc_l; [apply (pool_db_step _ _ _ [])|]. apply IH.
  - eapply rtc_l; [apply (pool_answer _ _ _ [] _ _ _ _ (gw call))|]. apply IH.
  - eapply rtc_l; [apply (pool_effect _ _ _ [])|]. specialize (IH db (log ++ [e])).
    destruct (run gw k db) as [[db' log'] r]. simpl in *. by rewrite <- app_assoc in IH.
Qed.
End system.
