(* ===== verification/Scenario.v ===== *)
(** * Scenario: one small shop, run

    A menu, a kiosk, a gateway that says yes, and a morning's requests: two
    orders, one paid in cash and refunded in two halves, one paid through the
    gateway and made. The theorems about reachable databases are instantiated
    here, and their definitions evaluated. *)

From S2P Require Import Prelude Text Schema Errors Program Pricing OrderState Transition.
From S2P Require Import BusinessDay Idempotency CreateOrder OrderDoors Gateway Webhooks.
From S2P Require Import CreatePayment Refunds Books Invariants Handlers System.

Section runs.
Context `{port : PaymentPort}.
Context (config : Config) (tzOffset : string → Z → Z) (sha256 : string → string).

(** Requests served one after another. *)
Definition serve (gw : Gateway) (c : Pool) (th : thread) : Pool :=
  let r := run gw (projT2 th) (pool_db c) in
  {| pool_db := r.1.1; pool_threads := pool_threads c; pool_log := pool_log c ++ r.1.2 |}.

Lemma serve_steps gw l c :
  Forall (request config tzOffset sha256) l →
  pool_steps (request config tzOffset sha256) c (foldl (serve gw) c l).
Proof.
  revert c. induction l as [|[R p] l IH]; intros c Hl; [apply rtc_refl|].
  apply Forall_cons in Hl as [Hp Hl]. etransitivity; [|by apply IH].
  destruct c as [db threads log]. eapply rtc_l; [by apply pool_spawn|].
  apply (run_steps config tzOffset sha256 p).
Qed.
End runs.

Module Shop.
Definition config : Config := {|
  VAT_BASIS_POINTS := 700; BUSINESS_TIMEZONE := "Asia/Bangkok";
  BUSINESS_DAY_START_HOUR := 5; ORDER_EXPIRY_SECONDS := 600; CURRENCY := "THB" |}.

(** Bangkok keeps UTC+7 all year. *)
Definition tzOffset (zone : string) (instant : Z) : Z := 7 * 3600000.

(** A stand-in for the digest: no two requests of the scenario collide under it. *)
Definition sha256 (s : string) : string := s.

Definition noon : Z := 1753246800000.

Definition morning : Database := {|
  categories := {[ "drinks" := {| cat_name := "Drinks"; cat_sortOrder := 0; cat_isActive := true |} ]};
  menuItems := {[ "latte" := {| mi_categoryId := "drinks"; mi_name := "Latte";
                                mi_description := None; mi_imageUrl := None;
                                mi_basePriceMinor := 10000; mi_isAvailable := true;
                                mi_sortOrder := 0 |} ]};
  optionGroups := {[ "milk" := {| og_name := "Milk"; og_minSelect := 0; og_maxSelect := 1 |} ]};
  options := {[ "oat" := {| opt_optionGroupId := "milk"; opt_name := "Oat";
                            opt_priceDeltaMinor := 1500; opt_isDefault := false;
                            opt_isAvailable := true |} ]};
  menuItemOptionGroups := [ {| lk_menuItemId := "latte"; lk_optionGroupId := "milk"; lk_sortOrder := 0 |} ];
  kioskDevices := {[ "k1" := DevACTIVE ]};
  orders := ∅; orderItems := []; orderItemOptions := []; orderStatusHistory := [];
  orderNumberCounters := ∅; payments := ∅; refunds := ∅; paymentEvents := ∅;
  idempotencyKeys := ∅ |}.

Definition cashier : Principal := StaffPrincipal "u1" CASHIER.
Definition kiosk : Principal := DevicePrincipal "k1".

Definition basket (channel : OrderChannel) (quantity : Z) : CreateOrderInput := {|
  in_channel := channel;
  in_items := [ {| ri_menuItemId := "latte"; ri_quantity := quantity;
                   ri_optionIds := ["oat"]; ri_notes := None |} ];
  in_customerName := None; in_expectedTotalMinor := None; in_draft := None |}.

Definition ids (o : string) : NewIds := {|
  ni_order := o; ni_line := fun n => o +:+ pretty n; ni_createdAt := noon * 1000 |}.

Definition succeededPayload : Json := JObj [
  ("type", JStr "payment_intent.succeeded");
  ("data", JObj [("object", JObj [("id", JStr "pi_2"); ("amount_received", JNum 11500);
                                  ("currency", JStr "thb")])])].

(** A gateway whose every answer is the happy one. *)
Definition stripe : StripeClient := {|
  pi_create := fun _ _ _ _ => Ok {| si_id := "pi_2"; si_status := "requires_payment_method";
    si_amountReceived := 0; si_clientSecret := Some "secret"; si_latestCharge := NoCharge |};
  pi_cancel := fun _ => Ok tt;
  pi_retrieve := fun _ => Ok {| si_id := "pi_2"; si_status := "succeeded";
    si_amountReceived := 11500; si_clientSecret := Some "secret";
    si_latestCharge := ExpandedCharge (Some "promptpay") |};
  constructEvent := fun _ signature secret =>
    if bool_decide (signature = secret) then
      Ok {| se_id := "evt_1"; se_type := "payment_intent.succeeded"; se_created := 1753246800;
            se_payload := succeededPayload |}
    else Err {| sx_type := StripeOtherError; sx_statusCode := None |} |}.

Definition gw : Gateway := stripeGateway stripe.

Definition cash (tendered : Z) : CreatePaymentInput :=
  {| cp_method := CASH; cp_cashTenderedMinor := Some tendered |}.
Definition byGateway : CreatePaymentInput :=
  {| cp_method := CARD; cp_cashTenderedMinor := None |}.
Definition give (amount : Z) : CreateRefundInput :=
  {| cr_amountMinor := amount; cr_reason := "spilt" |}.

Definition createFor (principal : Principal) (channel : OrderChannel) (quantity : Z)
    (key oid : string) : thread :=
  thread_of (createOrder config tzOffset sha256 principal (basket channel quantity)
    (Some key) noon (ids oid)).

(** The morning's requests, in order. *)
Definition day : list thread := [
  createFor cashier COUNTER 2 "create-o1" "o1";
  createFor kiosk KIOSK 1 "create-o2" "o2";
  thread_of (createPayment sha256 cashier "o1" (cash 30000) (Some "pay-o1") "p1" noon);
  thread_of (createPayment sha256 kiosk "o2" byGateway (Some "pay-o2") "p2" noon);
  thread_of (receive stripe ["whsec"] (Some "body") (Some "whsec") "e1" noon);
  thread_of (processEvent (port := stripePort) "e1" noon);
  thread_of (transition cashier "o2" IN_PREPARATION);
  thread_of (refund config tzOffset "u1" "r1" "p1" (give 3000) noon);
  thread_of (refund config tzOffset "u1" "r2" "p1" (give 20000) noon)].

Definition closing : Pool := foldl (serve gw) (idle morning) day.

(** Where things stood before the webhook came in. *)
Definition midday : Pool := foldl (serve gw) (idle morning) (take 4 day).

Lemma midday_reachable : reachable (port := stripePort) config tzOffset sha256 midday.
Proof.
  exists morning. split; [by split_and!|]. apply serve_steps. repeat constructor.
Qed.

Lemma midday_closing :
  pool_steps (request (port := stripePort) config tzOffset sha256) midday closing.
Proof. apply (serve_steps (port := stripePort) config tzOffset sha256 gw (drop 4 day)). repeat constructor. Qed.

Lemma closing_reachable : reachable (port := stripePort) config tzOffset sha256 closing.
Proof.
  destruct midday_reachable as (db & Ho & Hs). exists db. split; [done|].
  etransitivity; [exact Hs|exact midday_closing].
Qed.

(** What the morning left on the books. *)
Example closing_books :
  o_status <$> orders (pool_db closing) = {[ "o1" := REFUNDED; "o2" := IN_PREPARATION ]} ∧
  o_orderNumber <$> orders (pool_db closing) =
    {[ "o1" := Some "A-001"; "o2" := Some "A-002" ]} ∧
  p_status <$> payments (pool_db closing) = {[ "p1" := PaySUCCEEDED; "p2" := PaySUCCEEDED ]} ∧
  o_totalMinor <$> orders (pool_db closing) = {[ "o1" := 23000; "o2" := 11500 ]} ∧
  length (orderStatusHistory (pool_db closing)) = 6%nat.
Proof. vm_compute. auto 10. Qed.

Definition blankOrder : OrderRow := {|
  o_orderNumber := None; o_businessDay := ""; o_channel := COUNTER; o_status := DRAFT;
  o_kioskDeviceId := None; o_createdByUserId := None; o_customerName := None;
  o_subtotalMinor := 0; o_vatMinor := 0; o_totalMinor := 0; o_currency := "THB";
  o_expiresAt := None; o_createdAt := 0 |}.

Definition blankPayment : PaymentRow := {|
  p_orderId := ""; p_provider := STRIPE; p_providerIntentId := None; p_method := None;
  p_status := PayFAILED; p_amountMinor := 0; p_currency := "THB"; p_idempotencyKey := None;
  p_cashTenderedMinor := None; p_createdAt := 0 |}.

(** The rows at closing time, evaluated. *)
Definition paid_o2 : OrderRow :=
  Eval vm_compute in default blankOrder (orders (pool_db closing) !! "o2").
Definition cash_p1 : PaymentRow :=
  Eval vm_compute in default blankPayment (payments (pool_db closing) !! "p1").
Definition card_p2 : PaymentRow :=
  Eval vm_compute in default blankPayment (payments (pool_db closing) !! "p2").

Definition waiting_o2 : OrderRow :=
  Eval vm_compute in default blankOrder (orders (pool_db midday) !! "o2").

Lemma find_waiting_o2 : orders (pool_db midday) !! "o2" = Some waiting_o2.
Proof. vm_compute. reflexivity. Qed.
Lemma find_o2 : orders (pool_db closing) !! "o2" = Some paid_o2.
Proof. vm_compute. reflexivity. Qed.
Lemma find_p1 : payments (pool_db closing) !! "p1" = Some cash_p1.
Proof. vm_compute. reflexivity. Qed.
Lemma find_p2 : payments (pool_db closing) !! "p2" = Some card_p2.
Proof. vm_compute. reflexivity. Qed.
End Shop.
