(* ===== verification/Guarantees.v ===== *)
(** * Guarantees: what holds of every database the system can reach

    The invariant of [Invariants.v] read off [System.reachable_inv], one promise
    at a time, each with an instance at the shop of [Scenario.v]. *)

From S2P Require Import Prelude Text Schema Errors Program Pricing OrderState Transition.
From S2P Require Import BusinessDay Idempotency CreateOrder OrderDoors Gateway Webhooks.
From S2P Require Import CreatePayment Refunds Books Invariants Handlers System Scenario.

(** ** Consequences of an audit trail *)

Lemma story_length rows s : story rows s → (length rows + movesLeft s ≤ 7)%nat.
Proof.
  induction 1 as [row _ Hs|rows s row Hst IH _ Hl].
  - apply (bool_decide_eq_true_2 _) in Hs. by destruct (h_toStatus row); simpl; lia.
  - apply legal_descends in Hl. rewrite length_app. simpl. lia.
Qed.

(** The rows by which an order became paid. *)
Definition paidRows (rows : list HistoryRow) : list HistoryRow :=
  filter (fun row => h_toStatus row = PAID) rows.

Lemma story_paid rows s :
  story rows s → length (paidRows rows) = if moneyTaken s then 1%nat else 0%nat.
Proof.
  unfold paidRows. induction 1 as [row _ Hs|rows s row Hst IH _ Hl].
  - apply (bool_decide_eq_true_2 _) in Hs. rewrite filter_cons, filter_nil.
    by destruct (h_toStatus row).
  - rewrite filter_app, length_app, IH, filter_cons, filter_nil. clear Hst IH.
    case_decide as Hd; [rewrite Hd in *; by destruct s|].
    destruct s; try done; by destruct (h_toStatus row).
Qed.

Section guarantees.
Context `{port : PaymentPort}.
Context (config : Config) (tzOffset : string → Z → Z) (sha256 : string → string).
Notation reachable := (reachable config tzOffset sha256).

(** C1. Paid means paid, exactly once: however requests, jobs, webhooks and
    crashes interleave, an order counts as paid (PAID, IN_PREPARATION, READY,
    COMPLETED or REFUNDED) exactly when it has a captured payment, it never has
    two, and every payment ever opened for it is for exactly its total, in its
    currency, and positive. *)
Theorem paid_iff_captured c oid o :
  reachable c → orders (pool_db c) !! oid = Some o →
  (moneyTaken (o_status o) = true ↔
    ∃ pid p, payments (pool_db c) !! pid = Some p ∧ p_orderId p = oid ∧
      p_status p = PaySUCCEEDED) ∧
  (∀ pid p pid' p',
    payments (pool_db c) !! pid = Some p → payments (pool_db c) !! pid' = Some p' →
    p_orderId p = oid → p_orderId p' = oid →
    p_status p = PaySUCCEEDED → p_status p' = PaySUCCEEDED → pid = pid') ∧
  (∀ pid p, payments (pool_db c) !! pid = Some p → p_orderId p = oid →
    p_amountMinor p = o_totalMinor o ∧ p_currency p = o_currency o ∧ 0 < p_amountMinor p).
Proof.
  intros [[HM _ _ _ _ _] _]%reachable_inv Ho. split_and!.
  - split; [by eapply pay_exists|]. intros (pid & p & HS). by eapply (pay_taken _ _ _ HM).
  - intros pid p pid' p' Hp Hp' Hoid Hoid' HS HS'.
    by eapply (pay_once _ _ _ HM oid pid p pid' p').
  - intros pid p Hp Hoid. destruct (pay_order _ _ _ HM _ _ Hp) as (o1 & Ho1 & ?).
    rewrite Hoid in Ho1. by simplify_eq.
Qed.


(** C3. Nothing is booked as captured on anyone's say-so: behind every captured
    gateway payment there is a stored, processed event that the port reads as
    exactly this intent capturing exactly this amount in this currency, and
    behind every captured cash payment a tender that covers it. *)
Theorem captured_has_evidence c pid p :
  reachable c → payments (pool_db c) !! pid = Some p → p_status p = PaySUCCEEDED →
  match p_provider p with
  | STRIPE => ∃ i eid row, p_providerIntentId p = Some i ∧
      paymentEvents (pool_db c) !! eid = Some row ∧ is_Some (pe_processedAt row) ∧
      interpret (pe_payload row) =
        Ok (GwSUCCEEDED (JStr i) (JNum (p_amountMinor p)) (p_currency p))
  | CASH_DRAWER => ∃ t, p_cashTenderedMinor p = Some t ∧ p_amountMinor p ≤ t
  end.
Proof. intros [[_ _ _ _ _ HE] _]%reachable_inv Hp Hs. by apply (ev_captured _ _ HE _ _ Hp). Qed.

(** C5. The audit trail is the order's life: its rows start with its birth as a
    draft or awaiting payment, each later row leaves the status the previous one
    entered along a legal move, the last one is where the order stands; there
    are at most seven, and exactly one of them enters PAID if money was taken
    and none otherwise. *)
Theorem audit_trail c oid o :
  reachable c → orders (pool_db c) !! oid = Some o →
  let rows := historyOf (orderStatusHistory (pool_db c)) oid in
  story rows (o_status o) ∧ (1 ≤ length rows ≤ 7)%nat ∧
  length (paidRows rows) =
    if moneyTaken (o_status o) then 1%nat else 0%nat.
Proof.
  intros [[_ HT _ _ _ _] _]%reachable_inv Ho rows.
  assert (story rows (o_status o)) as Hs by by eapply trail_story.
  pose proof (story_length _ _ Hs). split_and!; [done| |lia|by apply story_paid].
  inversion Hs; [simpl; lia|rewrite length_app; simpl; lia].
Qed.

(** C6. Queue numbers: drafts have none, an order that left the draft stage
    otherwise than by cancellation has one, no two orders of a business day
    share one, and the numbers called on a day are exactly A-001 up to the
    day's counter, with no gap. *)
Theorem queue_numbers c oid o :
  reachable c → orders (pool_db c) !! oid = Some o →
  (o_status o = DRAFT → o_orderNumber o = None) ∧
  (o_status o ∉ [DRAFT; CANCELLED] → is_Some (o_orderNumber o)) ∧
  (∀ oid' o', orders (pool_db c) !! oid' = Some o' → o_businessDay o' = o_businessDay o →
    is_Some (o_orderNumber o) → o_orderNumber o' = o_orderNumber o → oid' = oid) ∧
  (∀ n, (∃ oid' o', orders (pool_db c) !! oid' = Some o' ∧
          o_businessDay o' = o_businessDay o ∧ o_orderNumber o' = Some n) ↔
        (∃ k, n = formatOrderNumber k ∧ 1 ≤ k ≤ counterOf (pool_db c) (o_businessDay o))).
Proof.
  intros [[_ _ HQ _ _ _] _]%reachable_inv Ho. split_and!.
  - by eapply queue_draft.
  - by eapply queue_called.
  - intros oid' o' Ho' Hd [n Hn] Heq. rewrite Hn in Heq. by eapply (queue_unique _ _ HQ).
  - intros n. split.
    + intros (oid' & o' & Ho' & Hd & Hn).
      destruct (queue_range _ _ HQ _ _ _ Ho' Hn) as (k & -> & Hk). rewrite Hd in Hk. eauto.
    + intros (k & -> & Hk). by apply (queue_gapless _ _ HQ).
Qed.

(** C7. At most one payment of an order is in flight, an intent belongs to one
    payment, a gateway event is stored once however often it is delivered, and
    an order has a payment deadline exactly while it awaits payment. *)
Theorem one_live_payment c :
  reachable c →
  (∀ pid p pid' p', payments (pool_db c) !! pid = Some p → payments (pool_db c) !! pid' = Some p' →
    isLive p = true → isLive p' = true → p_orderId p = p_orderId p' → pid = pid') ∧
  (∀ pid p pid' p' i, payments (pool_db c) !! pid = Some p → payments (pool_db c) !! pid' = Some p' →
    p_providerIntentId p = Some i → p_providerIntentId p' = Some i → pid = pid') ∧
  (∀ e row e' row', paymentEvents (pool_db c) !! e = Some row →
    paymentEvents (pool_db c) !! e' = Some row' →
    pe_providerEventId row = pe_providerEventId row' → e = e') ∧
  (∀ oid o, orders (pool_db c) !! oid = Some o →
    is_Some (o_expiresAt o) ↔ o_status o = PENDING_PAYMENT).
Proof.
  intros [[HM _ _ HW _ HE] _]%reachable_inv.
  split_and!; [apply HM|apply HM|apply HE|apply HW].
Qed.

(** C8. The bill adds up: an order's total is the sum of its stored lines, each
    a non-negative unit price times a quantity between 1 and 50, and no line
    belongs to an order that does not exist. *)
Theorem bill_adds_up c oid :
  reachable c →
  match orders (pool_db c) !! oid with
  | Some o => o_totalMinor o = sumZ oi_lineTotalMinor (itemsOf (orderItems (pool_db c)) oid) ∧
      o_subtotalMinor o = o_totalMinor o ∧
      Forall line_ok (itemsOf (orderItems (pool_db c)) oid)
  | None => itemsOf (orderItems (pool_db c)) oid = []
  end.
Proof.
  intros [[_ _ _ _ [H1 H2 H3] _] _]%reachable_inv.
  destruct (orders (pool_db c) !! oid) as [o|] eqn:Ho; [|by apply H2].
  destruct (H1 _ _ Ho). split_and!; [done..|]. unfold itemsOf. apply Forall_fmap.
  apply Forall_forall. intros e [_ He]%list_elem_of_filter.
  by eapply (proj1 (Forall_forall _ _) H3) in He.
Qed.

(** C9. A key never answers half: every idempotency key another request can see
    carries a complete 201 response, the order or payment it describes exists
    with that amount, and no client secret is ever at rest in it. *)
Theorem stored_responses_complete c key row :
  reachable c → idempotencyKeys (pool_db c) !! key = Some row →
  ik_responseStatus row = Some 201 ∧
  ((∃ v o, ik_responseBody row = Some (OrderBody v) ∧
      orders (pool_db c) !! v_id v = Some o ∧ v_totalMinor v = o_totalMinor o) ∨
   (∃ v p, ik_responseBody row = Some (PaymentBody v) ∧ pv_clientSecret v = None ∧
      payments (pool_db c) !! pv_id v = Some p ∧ pv_amountMinor v = p_amountMinor p)).
Proof.
  intros [_ HR]%reachable_inv Hk. destruct (HR _ _ Hk) as [Hs Hb]. split; [done|].
  destruct (ik_responseBody row) as [[v|v]|]; [left|right|done].
  - destruct Hb as (o & ?). by exists v, o.
  - destruct Hb as (? & p & ?). by exists v, p.
Qed.

(** Nothing is rewritten by a request or job of the order pipeline (retention's are
    [Retention.v]'s): as the system runs on, an order keeps its price,
    day, channel and owner, moves only along legal transitions and keeps the
    number it was called with; a payment keeps its order, amount, currency and
    intent and stays captured once captured; refunds, audit rows and order
    lines are only added, an event keeps its payload and stays processed, and a
    stored response never changes. *)
Theorem nothing_rewritten c c' :
  reachable c → pool_steps (request config tzOffset sha256) c c' →
  let db := pool_db c in let db' := pool_db c' in
  (∀ oid o, orders db !! oid = Some o → ∃ o', orders db' !! oid = Some o' ∧
    order_frozen o' = order_frozen o ∧ rtc legal_step (o_status o) (o_status o') ∧
    (∀ n, o_orderNumber o = Some n → o_orderNumber o' = Some n)) ∧
  (∀ pid p, payments db !! pid = Some p → ∃ p', payments db' !! pid = Some p' ∧
    payment_frozen p' = payment_frozen p ∧
    (p_status p = PaySUCCEEDED → p_status p' = PaySUCCEEDED)) ∧
  (∀ eid row, paymentEvents db !! eid = Some row → ∃ row', paymentEvents db' !! eid = Some row' ∧
    pe_payload row' = pe_payload row ∧
    (∀ t, pe_processedAt row = Some t → pe_processedAt row' = Some t)) ∧
  refunds db ⊆ refunds db' ∧
  orderStatusHistory db `prefix_of` orderStatusHistory db' ∧
  orderItems db `prefix_of` orderItems db' ∧
  idempotencyKeys db ⊆ idempotencyKeys db'.
Proof.
  intros Hr Hs. destruct (reachable_ev _ _ _ _ _ Hr Hs) as [[HO HP HR HH HI _ _ HE] HK].
  split_and!; try done.
  - intros oid o Ho. destruct (HO _ _ Ho) as (o' & ? & [Hf] & ? & ?). by exists o'.
  - intros pid p Hp. destruct (HP _ _ Hp) as (p' & ? & [Hf] & ? & ?). by exists p'.
  - intros eid row He. destruct (HE _ _ He) as (row' & ? & _ & ? & ?). by exists row'.
Qed.
End guarantees.

(** ** The guarantees at the shop of the scenario *)

Lemma paid_iff_captured_witness :
  orders (pool_db Shop.closing) !! "o2" = Some Shop.paid_o2 ∧
  ∃ pid p, payments (pool_db Shop.closing) !! pid = Some p ∧ p_orderId p = "o2" ∧
    p_status p = PaySUCCEEDED.
Proof.
  split; [exact Shop.find_o2|].
  apply (paid_iff_captured _ _ _ _ "o2" _ Shop.closing_reachable Shop.find_o2). reflexivity.
Defined.


Lemma captured_has_evidence_witness :
  ∃ i eid row, p_providerIntentId Shop.card_p2 = Some i ∧
    paymentEvents (pool_db Shop.closing) !! eid = Some row ∧ is_Some (pe_processedAt row) ∧
    toOutcome (pe_payload row) = Ok (GwSUCCEEDED (JStr i) (JNum 11500) "THB").
Proof.
  exact (captured_has_evidence _ _ _ _ "p2" _ Shop.closing_reachable Shop.find_p2 eq_refl).
Defined.

Lemma audit_trail_witness :
  story (historyOf (orderStatusHistory (pool_db Shop.closing)) "o2") IN_PREPARATION ∧
  length (paidRows (historyOf (orderStatusHistory (pool_db Shop.closing)) "o2")) = 1%nat.
Proof.
  destruct (audit_trail _ _ _ _ "o2" _ Shop.closing_reachable Shop.find_o2) as (Hs & _ & Hp).
  exact (conj Hs Hp).
Defined.

Lemma queue_numbers_witness :
  is_Some (o_orderNumber Shop.paid_o2) ∧
  (∃ k, "A-002" = formatOrderNumber k ∧ 1 ≤ k ≤ counterOf (pool_db Shop.closing) "2025-07-23").
Proof.
  destruct (queue_numbers _ _ _ _ "o2" _ Shop.closing_reachable Shop.find_o2) as (_ & Hs & _ & Hn).
  split.
  - apply Hs. by apply (bool_decide_eq_false_1 _).
  - apply Hn. exists "o2", Shop.paid_o2. split; [exact Shop.find_o2|done].
Defined.

Lemma one_live_payment_witness :
  is_Some (o_expiresAt Shop.paid_o2) ↔ o_status Shop.paid_o2 = PENDING_PAYMENT.
Proof.
  exact (proj2 (proj2 (proj2 (one_live_payment _ _ _ _ Shop.closing_reachable)))
    "o2" Shop.paid_o2 Shop.find_o2).
Defined.

Lemma bill_adds_up_witness :
  o_totalMinor Shop.paid_o2 =
  sumZ oi_lineTotalMinor (itemsOf (orderItems (pool_db Shop.closing)) "o2").
Proof.
  pose proof (bill_adds_up _ _ _ _ "o2" Shop.closing_reachable) as H.
  rewrite Shop.find_o2 in H. apply H.
Defined.

Lemma stored_responses_complete_witness :
  ∃ row, idempotencyKeys (pool_db Shop.closing) !! "pay-o2" = Some row ∧
    ik_responseStatus row = Some 201.
Proof.
  eexists. split; [vm_compute; reflexivity|].
  eapply (stored_responses_complete _ _ _ _ "pay-o2" _ Shop.closing_reachable).
  vm_compute; reflexivity.
Defined.

Lemma nothing_rewritten_witness :
  o_status Shop.waiting_o2 = PENDING_PAYMENT ∧
  ∃ o', orders (pool_db Shop.closing) !! "o2" = Some o' ∧
    order_frozen o' = order_frozen Shop.waiting_o2 ∧
    rtc legal_step PENDING_PAYMENT (o_status o').
Proof.
  split; [reflexivity|].
  destruct (nothing_rewritten _ _ _ Shop.midday Shop.closing Shop.midday_reachable
    Shop.midday_closing) as [HO _].
  destruct (HO "o2" _ Shop.find_waiting_o2) as (o' & Ho' & Hf & Hr & _).
  exists o'. exact (conj Ho' (conj Hf Hr)).
Defined.
