(* ===== verification/Replay.v ===== *)
(** * Replay: a retried request answers the same and does nothing twice

    The idempotency contract of [OrdersService.create] and
    [CreatePaymentService.create], proved of the handlers run to completion. *)

From S2P Require Import Prelude Text Schema Errors Program Pricing OrderState Transition.
From S2P Require Import BusinessDay Idempotency CreateOrder OrderDoors CreatePayment Books.
From S2P Require Import Fingerprint Invariants Handlers Scenario.

(** ** Running in sequence *)

Lemma run_after {A B} gw (p : prog A) (k : result AppError A → prog B) db :
  run gw (after p k) db =
  match run gw p db with
  | (db1, log1, r) =>
      match run gw (k r) db1 with (db2, log2, r2) => (db2, log1 ++ log2, r2) end
  end.
Proof.
  revert db. induction p as [r|X t f IH|call f IH|e p IH]; intros db; simpl; auto.
  - by destruct (run gw (k r) db) as [[??]?].
  - rewrite IH. destruct (run gw p db) as [[db1 log1] r].
    by destruct (run gw (k r) db1) as [[db2 log2] r2].
Qed.

(** The events of a committed transaction, published in one go if there are any. *)
Definition published (pending : list DomainEvent) : list Effect :=
  match pending with [] => [] | _ => [Published pending] end.

Lemma run_afterCommit {A} gw (work : txM A) db :
  run gw (afterCommit_run work) db =
  match work (mkTx db []) with
  | Ok (a, s) => (tx_db s, published (tx_pending s), Ok a)
  | Err e => (db, [], Err e)
  end.
Proof.
  unfold afterCommit_run, inTransaction, transaction. simpl.
  destruct (work (mkTx db [])) as [[a s]|e]; simpl; [|done]. by destruct (tx_pending s).
Qed.

(** ** Keys *)

(** A transaction under a key commits only if the key was free, and leaves its
    response behind. *)
Lemma keyed_stored {A} (work : txM A) (body : A → ResponseBody) key hash expiresAt s a s' :
  (∀ s1 x s2, work s1 = Ok (x, s2) → idempotencyKeys (tx_db s2) = idempotencyKeys (tx_db s1)) →
  (_ ← reserveIfKeyed (Some (key, hash)) expiresAt; x ← work;
   _ ← completeIfKeyed (Some (key, hash)) (body x); mret x) s = Ok (a, s') →
  idempotencyKeys (tx_db s) !! key = None ∧
  idempotencyKeys (tx_db s') !! key =
    Some {| ik_requestHash := hash; ik_responseStatus := Some 201;
            ik_responseBody := Some (body a); ik_expiresAt := expiresAt |}.
Proof.
  intros Hw H.
  apply txM_bind_Ok in H as (u & s1 & H1 & H).
  apply txM_bind_Ok in H as (x & s2 & H2 & H).
  apply txM_bind_Ok in H as (u3 & s3 & H3 & [-> ->]%mret_Ok).
  cbn [reserveIfKeyed completeIfKeyed] in *. unfold reserveKey in H1. unfold completeKey in H3.
  tx_inv. split; [done|]. apply Hw in H2. simpl in *.
  by rewrite lookup_alter_eq, H2, lookup_insert_eq.
Qed.

Lemma keyed_taken {A} (work : txM A) key hash expiresAt s row :
  idempotencyKeys (tx_db s) !! key = Some row →
  (reserveIfKeyed (Some (key, hash)) expiresAt ≫= fun _ => work) s = Err KeyAlreadyReserved.
Proof. intros Hk. simpl. unfold reserveKey. tx_simpl. by rewrite Hk. Qed.

Lemma replayKey_stored db key row body :
  idempotencyKeys db !! key = Some row → ik_responseBody row = Some body →
  replayKey db key (ik_requestHash row) = Ok body.
Proof. intros Hk Hb. unfold replayKey. by rewrite Hk, bool_decide_true, Hb. Qed.

(** ** Orders *)

Section orders.
Context (config : Config) (tzOffset : string → Z → Z) (sha256 : string → string).

Lemma build_keys principal input now ids s v s' :
  build config tzOffset principal input now ids s = Ok (v, s') →
  idempotencyKeys (tx_db s') = idempotencyKeys (tx_db s).
Proof.
  unfold build. intros H.
  apply txM_bind_Ok in H as (channel & s1 & H1 & H).
  assert (s1 = s) as ->.
  { unfold resolveChannel in H1. destruct principal; tx_inv; done. }
  apply txM_bind_Ok in H as (catalog & s2 & [-> ->]%reads_Ok & H).
  assert (∀ priced, persist config tzOffset principal channel input priced now ids s = Ok (v, s') →
    idempotencyKeys (tx_db s') = idempotencyKeys (tx_db s)) as Hp.
  { clear H. intros priced H. unfold persist in H.
    apply txM_bind_Ok in H as (number & s2 & H2 & H).
    apply txM_bind_Ok in H as (order & s3 & (-> & _ & ->)%insertOrder_Ok & H).
    apply txM_bind_Ok in H as (? & s4 & (_ & ->)%insertOrderItems_Ok & H).
    apply txM_bind_Ok in H as (? & s5 & ->%insertOrderItemOptions_Ok & H).
    apply txM_bind_Ok in H as (? & s6 & [_ ->]%writes_Ok & [-> ->]%mret_Ok). simpl.
    destruct (isDraft input); [by apply mret_Ok in H2 as [_ ->]|].
    apply txM_bind_Ok in H2 as (n & s2' & [_ ->]%nextOrderNumber_Ok & [_ ->]%mret_Ok). done. }
  destruct (priceOrder _ _ _) as [priced|e]; [|done]. tx_inv; by eapply Hp.
Qed.

(** A key that has answered is replayed, or refused, without touching anything. *)
Lemma createOrder_taken gw principal input key now ids db row :
  idempotencyKeys db !! key = Some row →
  run gw (createOrder config tzOffset sha256 principal input (Some key) now ids) db =
  (db, [], match replayKey db key (hashRequest sha256 (scopeOf principal) (inputObject input)) with
           | Ok order => Ok (order, true)
           | Err e => Err e
           end).
Proof.
  intros Hk. unfold createOrder, inTransaction, transaction. simpl.
  unfold createWork. erewrite keyed_taken by done. simpl.
  by destruct (replayKey _ _ _).
Qed.

(** What a fresh keyed order leaves behind. *)
Lemma createOrder_stored gw principal input key now ids db db' log view :
  run gw (createOrder config tzOffset sha256 principal input (Some key) now ids) db =
    (db', log, Ok (view, false)) →
  idempotencyKeys db' !! key = Some
    {| ik_requestHash := hashRequest sha256 (scopeOf principal) (inputObject input);
       ik_responseStatus := Some 201; ik_responseBody := Some view;
       ik_expiresAt := keyExpiry now |}.
Proof.
  unfold createOrder, inTransaction, transaction. simpl.
  destruct (createWork _ _ _ _ _ _ _ _) as [[v s]|e] eqn:Hw; simpl; intros H.
  2:{ destruct (isKeyAlreadyReserved e); [|done]. simpl in H. by destruct (replayKey _ _ _). }
  simplify_eq. apply (keyed_stored _ OrderBody) in Hw as [_ Hk]; [done|].
  intros. by eapply build_keys.
Qed.

(** A retried order is the same order: once a keyed request has created an
    order, presenting the key again with the same request, while the key is stored and
    whatever else has been committed since, answers the very same response,
    flagged as a replay, and writes nothing, emits nothing, calls no gateway. *)
Theorem create_replay gw principal input key now ids db db' log view :
  run gw (createOrder config tzOffset sha256 principal input (Some key) now ids) db =
    (db', log, Ok (view, false)) →
  ∀ gw' later now' ids', idempotencyKeys db' ⊆ idempotencyKeys later →
  run gw' (createOrder config tzOffset sha256 principal input (Some key) now' ids') later =
    (later, [], Ok (view, true)).
Proof.
  intros Hk%createOrder_stored gw' later now' ids' Hlater.
  eapply lookup_weaken in Hk; [|exact Hlater]. erewrite createOrder_taken by exact Hk.
  pose proof (replayKey_stored _ _ _ _ Hk eq_refl) as Hr. simpl in Hr. by rewrite Hr.
Qed.

(** A key is bound to its request: once a keyed request has created an order,
    the key presented by another caller, or with a basket that differs in any
    field, is refused with IDEMPOTENCY_CONFLICT while the key is stored, and nothing is
    written; unless SHA-256 collides on these two very texts. *)
Theorem create_conflict gw principal input key now ids db db' log view :
  run gw (createOrder config tzOffset sha256 principal input (Some key) now ids) db =
    (db', log, Ok (view, false)) →
  ∀ gw' later principal' input' now' ids', idempotencyKeys db' ⊆ idempotencyKeys later →
  scopeOf principal ≠ scopeOf principal' ∨ input ≠ input' →
  (sha256 (hashInput (scopeOf principal) (inputObject input)) =
     sha256 (hashInput (scopeOf principal') (inputObject input')) →
   hashInput (scopeOf principal) (inputObject input) =
     hashInput (scopeOf principal') (inputObject input')) →
  run gw' (createOrder config tzOffset sha256 principal' input' (Some key) now' ids') later =
    (later, [], Err IdempotencyConflictError).
Proof.
  intros Hk%createOrder_stored gw' later principal' input' now' ids' Hlater Hdiff Hsha.
  eapply lookup_weaken in Hk; [|exact Hlater]. erewrite createOrder_taken by exact Hk.
  unfold replayKey. rewrite Hk. simpl. case_bool_decide as Heq; [|done]. exfalso.
  apply Hsha, order_text_inj in Heq as [? ?]. naive_solver.
Qed.

(** A refused order leaves no trace: whenever creation answers with an
    error, no row of any table has changed, the key included, and nothing has
    been announced; the caller may fix the basket and retry under the same key. *)
Theorem create_refusal_clean gw principal input key now ids db db' log e :
  run gw (createOrder config tzOffset sha256 principal input key now ids) db =
    (db', log, Err e) →
  db' = db ∧ log = [].
Proof.
  unfold createOrder, inTransaction, transaction. simpl.
  destruct (createWork _ _ _ _ _ _ _ _) as [[v s]|e']; simpl; [done|].
  destruct (isKeyAlreadyReserved e'), key; simpl; try by intros; simplify_eq.
  destruct (replayKey _ _ _); simpl; intros; by simplify_eq.
Qed.
End orders.

(** ** Payments *)

Section payments.
Context (sha256 : string → string).

(** The work of either rail opens exactly one payment and leaves the keys alone. *)
Lemma cashWork_view userId pid order tendered key now s v s' :
  cashWork userId pid order tendered key now s = Ok (v, s') →
  idempotencyKeys (tx_db s') = idempotencyKeys (tx_db s) ∧
  pv_provider v = CASH_DRAWER ∧ redacted v = v.
Proof.
  unfold cashWork. intros H.
  apply txM_bind_Ok in H as (? & s1 & (_ & -> & _)%insertPayment_Ok & H).
  apply txM_bind_Ok in H as (? & s2 & (o & _ & _ & -> & ->)%transitionOrder_Ok & H).
  tx_inv. done.
Qed.

Lemma intentWork_view pid order intent key now s v s' :
  intentWork pid order intent key now s = Ok (v, s') →
  idempotencyKeys (tx_db s') = idempotencyKeys (tx_db s) ∧
  pv_provider v = STRIPE ∧ pv_status v = PayPENDING ∧
  paymentIntent (tx_db s') (pv_id v) = Some (ci_intentId intent).
Proof.
  unfold intentWork. intros H.
  apply txM_bind_Ok in H as (? & s1 & (-> & -> & _)%insertPayment_Ok & [-> ->]%mret_Ok).
  split_and!; [done..|]. unfold paymentIntent. simpl. by rewrite lookup_insert_eq.
Qed.

(** A fresh answer of [write] is its transaction's. *)
Lemma run_write gw keyed oid now work db db' log body :
  run gw (write keyed oid now work) db = (db', log, Ok (body, false)) →
  ∃ v s, writeWork keyed now work (mkTx db []) = Ok (v, s) ∧ body = PaymentBody v ∧ db' = tx_db s.
Proof.
  unfold write. rewrite run_after, run_afterCommit.
  destruct (writeWork _ _ _ _) as [[v s]|e]; simpl; [intros; simplify_eq; eauto|].
  destruct (isUniqueViolation e); simpl; [done|].
  destruct (isKeyAlreadyReserved e), keyed as [[k h]|]; simpl; try done.
  destruct (replayKey _ _ _); simpl; [|done]. unfold mbind, prog_bind. rewrite run_after.
  destruct (run gw (rehydrate _) db) as [[db1 log1] [b|]]; simpl; intros; by simplify_eq.
Qed.

(** A fresh answer of either rail is that of the one write it makes. *)
Lemma run_takeCash gw principal order input keyed pid now db db' log body :
  run gw (takeCash principal order input keyed pid now) db = (db', log, Ok (body, false)) →
  ∃ userId tendered log', run gw (write keyed (po_id order) now
    (cashWork userId pid order tendered (fst <$> keyed) now)) db = (db', log', Ok (body, false)).
Proof.
  unfold takeCash. destruct principal as [u r|]; [|done].
  destruct (cp_cashTenderedMinor input) as [t|]; [|done].
  destruct (t <? _); [done|]. rewrite run_after.
  destruct (run gw (write _ _ _ _) db) as [[db1 log1] [[b [|]]|e]] eqn:Hw; simpl;
    intros; simplify_eq. by exists u, t, log1.
Qed.

Lemma run_openGateway gw order keyed pid now db db' log body :
  run gw (openGatewayPayment order keyed pid now) db = (db', log, Ok (body, false)) →
  ∃ intent, run gw (write keyed (po_id order) now
    (intentWork pid order intent (fst <$> keyed) now)) db = (db', log, Ok (body, false)).
Proof.
  unfold openGatewayPayment. cbn [run].
  destruct (gw (createIntent _ _ _ _)) as [intent|e]; [eauto|done].
Qed.

(** What a key answers with again: the stored view, with the secret asked for
    afresh if the payment went through the gateway. *)
Lemma run_rehydrate gw v db :
  run gw (rehydrate (PaymentBody v)) db =
  match (if bool_decide (pv_provider v = STRIPE ∧ pv_status v = PayPENDING)
         then paymentIntent db (pv_id v) else None) with
  | None => (db, [], Ok (PaymentBody v))
  | Some i => (db, [], match gw (clientSecretFor i) with
                       | Ok secret => Ok (PaymentBody (with_secret secret v))
                       | Err e => Err e
                       end)
  end.
Proof.
  unfold rehydrate. repeat case_bool_decide; simpl; try naive_solver.
  destruct (paymentIntent db (pv_id v)) as [i|]; simpl; [|done].
  by destruct (gw (clientSecretFor i)).
Qed.

Lemma createPayment_answered gw principal oid input key pid now db row v :
  idempotencyKeys db !! key = Some row → ik_responseBody row = Some (PaymentBody v) →
  ik_requestHash row = hashRequest sha256 (paymentScope principal oid) (paymentObject input) →
  run gw (createPayment sha256 principal oid input (Some key) pid now) db =
  match run gw (rehydrate (PaymentBody v)) db with
  | (db', log, Ok b) => (db', log ++ [], Ok (b, true))
  | (db', log, Err e) => (db', log ++ [], Err e)
  end.
Proof.
  intros Hk Hb Hh. unfold createPayment, completedResponseFor. simpl. rewrite Hk. simpl.
  rewrite Hb. simpl. rewrite bool_decide_true by done. simpl.
  unfold mbind, prog_bind. rewrite run_after.
  by destruct (run gw (rehydrate _) db) as [[db1 log1] [b|]].
Qed.

(** What a fresh keyed payment leaves behind. *)
Lemma createPayment_stored gw principal oid input key pid now db db' log view :
  run gw (createPayment sha256 principal oid input (Some key) pid now) db =
    (db', log, Ok (view, false)) →
  ∃ v row, view = PaymentBody v ∧ idempotencyKeys db' !! key = Some row ∧
    ik_responseBody row = Some (PaymentBody (redacted v)) ∧
    ik_requestHash row = hashRequest sha256 (paymentScope principal oid) (paymentObject input) ∧
    ((pv_provider v = CASH_DRAWER ∧ redacted v = v) ∨
     (pv_provider v = STRIPE ∧ pv_status v = PayPENDING ∧
      ∃ i, paymentIntent db' (pv_id v) = Some i)).
Proof.
  unfold createPayment. simpl. intros H.
  destruct (completedResponseFor db key) as [[h b]|].
  { case_bool_decide; simpl in H; [|done]. unfold mbind, prog_bind in H. rewrite run_after in H.
    destruct (run gw (rehydrate b) db) as [[db1 log1] [b1|]]; simpl in H; simplify_eq. }
  unfold payFor, loadPayableOrder, Read in H. cbn [run fst snd] in H.
  destruct (findOrder db oid) as [o|]; [|done]. destruct (ownOrder principal o); [|done].
  cbn [negb] in H. case_bool_decide; [done|]. case_bool_decide; [|done]. cbn [negb run fst snd] in H.
  destruct (livePayment db oid) as [[q i]|]; [done|]. case_bool_decide as Hcash.
  - apply run_takeCash in H as (u & t & log' & (v & s & Hw & -> & ->)%run_write).
    pose proof Hw as Hw2. apply (keyed_stored _ (fun v => PaymentBody (redacted v))) in Hw as [_ Hk];
      [|intros s1 x s2 Hx; by apply cashWork_view in Hx as [? _]].
    unfold writeWork in Hw2.
    apply txM_bind_Ok in Hw2 as (? & s1 & _ & Hw2).
    apply txM_bind_Ok in Hw2 as (? & s2 & Hc%cashWork_view & Hw2).
    apply txM_bind_Ok in Hw2 as (? & s3 & _ & [-> ->]%mret_Ok).
    eexists _, _. split_and!; [done|exact Hk|done|done|]. left. apply Hc.
  - apply run_openGateway in H as (intent & (v & s & Hw & -> & ->)%run_write).
    pose proof Hw as Hw2. apply (keyed_stored _ (fun v => PaymentBody (redacted v))) in Hw as [_ Hk];
      [|intros s1 x s2 Hx; by apply intentWork_view in Hx as [? _]].
    unfold writeWork in Hw2.
    apply txM_bind_Ok in Hw2 as (? & s1 & _ & Hw2).
    apply txM_bind_Ok in Hw2 as (? & s2 & Hc%intentWork_view & Hw2).
    apply txM_bind_Ok in Hw2 as (? & s3 & [_ ->]%writes_Ok & [-> ->]%mret_Ok).
    eexists _, _. split_and!; [done|exact Hk|done|done|]. right.
    destruct Hc as (_ & ? & ? & Hi). split_and!; [done..|]. eexists. exact Hi.
Qed.

(** A retried payment is the same payment: once a keyed request has opened
    one, presenting the key again with the same request, while the key is stored and in
    whatever status order and payment are by then, charges nothing and writes
    nothing. Cash answers the identical response; a gateway payment answers the
    stored one with its client secret fetched afresh by intent, so the replay is
    the original whenever the gateway returns the same secret. *)
Theorem payment_replay gw principal oid input key pid now db db' log view :
  run gw (createPayment sha256 principal oid input (Some key) pid now) db =
    (db', log, Ok (view, false)) →
  ∀ gw' later pid' now',
  idempotencyKeys db' ⊆ idempotencyKeys later → payments_ev (payments db') (payments later) →
  let again :=
    run gw' (createPayment sha256 principal oid input (Some key) pid' now') later in
  ∃ v, view = PaymentBody v ∧
  ((pv_provider v = CASH_DRAWER ∧ again = (later, [], Ok (PaymentBody v, true))) ∨
   (pv_provider v = STRIPE ∧ ∃ i, paymentIntent db' (pv_id v) = Some i ∧
     again = (later, [], match gw' (clientSecretFor i) with
                         | Ok secret => Ok (PaymentBody (with_secret secret v), true)
                         | Err e => Err e
                         end))).
Proof.
  intros (v & row & -> & Hk & Hb & Hh & Hcase)%createPayment_stored gw' later pid' now' HK HP.
  exists v. split; [done|].
  erewrite createPayment_answered; [|by eapply lookup_weaken|exact Hb|exact Hh].
  rewrite run_rehydrate. destruct Hcase as [[Hprov Hred]|(Hprov & Hst & i & Hi)].
  - left. split; [done|]. rewrite bool_decide_false, Hred; [done|].
    simpl. rewrite Hprov. by intros [].
  - right. split; [done|]. exists i. split; [done|].
    rewrite bool_decide_true by (by split). simpl.
    assert (paymentIntent later (pv_id v) = Some i) as ->.
    { unfold paymentIntent in *. apply bind_Some in Hi as (p & Hp & Hpi).
      destruct (HP _ _ Hp) as (p' & -> & Hs & _). simpl. by rewrite <- (same_payment_intent _ _ Hs). }
    by destruct (gw' (clientSecretFor i)).
Qed.
End payments.

(** ** Replays at the shop of the scenario *)

Module Retry.
Import Shop.

Definition create (input : CreateOrderInput) : prog (ResponseBody * bool) :=
  createOrder config tzOffset sha256 cashier input (Some "create-o1") noon (ids "o1").

(** The first answer, and the database it leaves. *)
Definition first : Database * list Effect * result AppError (ResponseBody * bool) :=
  Eval vm_compute in run gw (create (basket COUNTER 2)) morning.

Lemma first_run : run gw (create (basket COUNTER 2)) morning = first.
Proof. vm_compute. reflexivity. Qed.

Definition answer : ResponseBody :=
  match first.2 with Ok (body, _) => body | Err _ => PaymentBody {|
    pv_id := ""; pv_status := PayFAILED; pv_method := None; pv_amountMinor := 0;
    pv_currency := ""; pv_provider := STRIPE; pv_clientSecret := None |} end.

Definition pay : prog (ResponseBody * bool) :=
  createPayment sha256 cashier "o1" byGateway (Some "pay-o1") "p1" noon.

Definition paid : Database * list Effect * result AppError (ResponseBody * bool) :=
  Eval vm_compute in run gw pay first.1.1.

Lemma paid_run : run gw pay first.1.1 = paid.
Proof. vm_compute. reflexivity. Qed.
End Retry.

Lemma create_replay_witness :
  run Shop.gw (Retry.create (Shop.basket COUNTER 2)) Retry.first.1.1 =
    (Retry.first.1.1, [], Ok (Retry.answer, true)).
Proof.
  unfold Retry.create.
  refine (create_replay Shop.config Shop.tzOffset Shop.sha256 Shop.gw Shop.cashier
    (Shop.basket COUNTER 2) "create-o1" Shop.noon (Shop.ids "o1") Shop.morning
    Retry.first.1.1 Retry.first.1.2 Retry.answer Retry.first_run _ _ _ _ _).
  reflexivity.
Defined.

Lemma create_conflict_witness :
  run Shop.gw (Retry.create (Shop.basket COUNTER 9)) Retry.first.1.1 =
    (Retry.first.1.1, [], Err IdempotencyConflictError).
Proof.
  unfold Retry.create.
  refine (create_conflict Shop.config Shop.tzOffset Shop.sha256 Shop.gw Shop.cashier
    (Shop.basket COUNTER 2) "create-o1" Shop.noon (Shop.ids "o1") Shop.morning
    Retry.first.1.1 Retry.first.1.2 Retry.answer Retry.first_run
    Shop.gw Retry.first.1.1 Shop.cashier (Shop.basket COUNTER 9) Shop.noon (Shop.ids "o1") _ _ _).
  - reflexivity.
  - right. discriminate.
  - exact (fun H => H).
Defined.

Lemma create_refusal_clean_witness :
  (run Shop.gw (createOrder Shop.config Shop.tzOffset Shop.sha256 Shop.kiosk
    (Shop.basket COUNTER 1) None Shop.noon (Shop.ids "o1")) Shop.morning).1.1 = Shop.morning.
Proof.
  apply (create_refusal_clean Shop.config Shop.tzOffset Shop.sha256 Shop.gw Shop.kiosk
    (Shop.basket COUNTER 1) None Shop.noon (Shop.ids "o1") Shop.morning _ []
    (OrderChannelMismatchError COUNTER KIOSK)).
  vm_compute. reflexivity.
Defined.

Lemma payment_replay_witness :
  ∃ v, match Retry.paid.2 with Ok (body, _) => body = PaymentBody v | Err _ => False end ∧
    pv_provider v = STRIPE.
Proof.
  destruct (payment_replay Shop.sha256 Shop.gw Shop.cashier "o1" Shop.byGateway "pay-o1"
    "p1" Shop.noon Retry.first.1.1 Retry.paid.1.1 Retry.paid.1.2
    (match Retry.paid.2 with Ok (body, _) => body | Err _ => Retry.answer end)
    Retry.paid_run Shop.gw Retry.paid.1.1 "p9" Shop.noon)
    as (v & Hv & [[Hp _]|[Hp _]]).
  - reflexivity.
  - reflexivity.
  - exfalso. injection Hv as <-. discriminate Hp.
  - exists v. exact (conj Hv Hp).
Defined.
