(* ===== verification/DayBooks.v ===== *)
(** * DayBooks: a day's totals agree with the books

    In every state the system reaches, the figures of [Rollup.liveRow] are
    consistent with one another and with the orders: revenue is what the settled
    orders cost, by method and by item, and refunds never exceed it. *)

From S2P Require Import Prelude Text BusinessDay Fingerprint JsonText Cursor Ordering Schema Errors Program OrderState.
From S2P Require Import Gateway OrdersQueryDto Refunds Books Invariants System Rollup Scenario.
From Stdlib Require Import Ascii.

(** ** The text order of day labels is calendar order

    [YYYY-MM-DD] labels are compared as strings ([daily-rollup.service.ts],
    [reports.service.ts]) and as dates in SQL. For years of four digits the two
    agree. *)

Lemma digits_acc_bound s : ∀ acc v, digits_acc s acc = Some v →
  (acc * 10 ^ N.of_nat (String.length s) <= v < (acc + 1) * 10 ^ N.of_nat (String.length s))%N.
Proof.
  induction s as [|c s IH]; intros acc v H; cbn [digits_acc String.length] in *.
  - injection H as <-. cbn. lia.
  - destruct (digit_value c) as [d|] eqn:Ed; [|done]. cbn in H. apply IH in H.
    assert (d < 10)%N.
    { unfold digit_value in Ed. destruct (_ && _)%bool eqn:E; [|done]. injection Ed as <-.
      apply andb_true_iff in E as [?%N.leb_le ?%N.leb_le]. lia. }
    rewrite Nat2N.inj_succ, N.pow_succ_r'. nia.
Qed.

(** Digit strings of one length compare as the numbers they write. *)
Lemma digits_compare s : ∀ t acc v w r r',
  String.length s = String.length t → digits_acc s acc = Some v → digits_acc t acc = Some w →
  String.compare (s +:+ r) (t +:+ r')
  = match N.compare v w with Eq => String.compare r r' | c => c end.
Proof.
  induction s as [|c s IH]; intros [|d t] acc v w r r' Hl Hv Hw; try done.
  - cbn in Hv, Hw. simplify_eq. by rewrite N.compare_refl.
  - change (String ?c ?s +:+ ?r) with (String c (s +:+ r)). rewrite string_compare_cons.
    cbn [digits_acc] in *. injection Hl as Hl.
    destruct (digit_value c) as [x|] eqn:Ex; [|done]. destruct (digit_value d) as [y|] eqn:Ey; [|done].
    cbn [mbind option_bind] in *.
    assert (N_of_ascii c = x + 48 ∧ N_of_ascii d = y + 48)%N as [-> ->].
    { unfold digit_value in *. destruct (_ && _)%bool eqn:E1; [|done].
      destruct ((48 <=? N_of_ascii d) && _)%N%bool eqn:E2; [|done].
      apply andb_true_iff in E1 as [?%N.leb_le _], E2 as [?%N.leb_le _]. simplify_eq. lia. }
    destruct (N.compare_spec (x + 48) (y + 48)) as [E|E|E].
    + assert (x = y) as <- by lia. by apply (IH t (10 * acc + x)%N).
    + apply digits_acc_bound in Hv, Hw. rewrite Hl in Hv.
      assert (v < w)%N as L by nia. by apply N.compare_lt_iff in L as ->.
    + apply digits_acc_bound in Hv, Hw. rewrite Hl in Hv.
      assert (w < v)%N as L by nia. by apply N.compare_gt_iff in L as ->.
Qed.

Lemma padStart_compare w (m n : Z) r r' :
  (0 < w)%nat → 0 ≤ m < 10 ^ Z.of_nat w → 0 ≤ n < 10 ^ Z.of_nat w →
  String.compare (padStart w (pretty m) +:+ r) (padStart w (pretty n) +:+ r')
  = match m ?= n with Eq => String.compare r r' | c => c end.
Proof.
  intros Hw Hm Hn. pose proof (js_Number_padStart w m ltac:(lia)) as Em.
  pose proof (js_Number_padStart w n ltac:(lia)) as En. unfold js_Number in *.
  destruct (digits_acc (padStart w (pretty m)) 0) as [v|] eqn:Ev; [|done].
  destruct (digits_acc (padStart w (pretty n)) 0) as [u|] eqn:Eu; [|done].
  rewrite (digits_compare _ _ 0 v u) by (done || rewrite !padStart_length; done).
  cbn in Em, En. injection Em as <-. injection En as <-. by rewrite N2Z.inj_compare.
Qed.

Lemma pretty_year y : 1000 ≤ y ≤ 9999 → pretty y = padStart 4 (pretty y).
Proof.
  intros Hy. unfold padStart. assert (String.length (pretty y) = 4%nat) as ->; [|done].
  pose proof (js_Number_pretty y ltac:(lia)) as E. unfold js_Number in E.
  destruct (digits_acc (pretty y) 0) as [v|] eqn:Ev; [|done]. cbn in E.
  assert (Z.of_N v = y) as Hv by congruence. apply digits_acc_bound in Ev.
  assert (String.length (pretty y) <= 4)%nat as Hle.
  { pose proof (padStart_length 4 y ltac:(lia) ltac:(cbn; lia)) as Hp. unfold padStart in Hp.
    rewrite string_length_app in Hp. lia. }
  destruct (String.length (pretty y)) as [|[|[|[|[|k]]]]]; cbn in Ev; lia.
Qed.

Lemma formatDate_compare y m d y' m' d' :
  1000 ≤ y ≤ 9999 → 1000 ≤ y' ≤ 9999 → validDate y m d → validDate y' m' d' →
  String.compare (formatDate y m d) (formatDate y' m' d')
  = match y ?= y' with Eq => match m ?= m' with Eq => d ?= d' | c => c end | c => c end.
Proof.
  intros Hy Hy' [Hm Hd] [Hm' Hd']. pose proof (monthLength_le y m). pose proof (monthLength_le y' m').
  unfold formatDate. rewrite (pretty_year y), (pretty_year y') by done.
  rewrite padStart_compare by (cbn; lia). destruct (y ?= y'); [|done..].
  rewrite string_compare_cons, N.compare_refl. rewrite padStart_compare by (cbn; lia).
  destruct (m ?= m'); [|done..]. rewrite string_compare_cons, N.compare_refl.
  rewrite <-(string_app_nil (padStart 2 (pretty d))), <-(string_app_nil (padStart 2 (pretty d'))).
  rewrite padStart_compare by (cbn; lia). by destruct (d ?= d').
Qed.

Lemma makeDay_compare y m d y' m' d' :
  validDate y m d → validDate y' m' d' →
  match y ?= y' with Eq => match m ?= m' with Eq => d ?= d' | c => c end | c => c end
  = (makeDay y m d ?= makeDay y' m' d').
Proof.
  intros Hv Hv'. unfold makeDay.
  destruct (daysBeforeMonth_bounds y m d Hv) as [Hb Hlt].
  destruct (daysBeforeMonth_bounds y' m' d' Hv') as [Hb' Hlt'].
  destruct Hv as [Hm Hd], Hv' as [Hm' Hd'].
  destruct (Z.compare_spec y y') as [<-|Hy|Hy].
  - destruct (Z.compare_spec m m') as [<-|Hc|Hc].
    + destruct (Z.compare_spec d d'); symmetry;
        [apply Z.compare_eq_iff|apply Z.compare_lt_iff|apply Z.compare_gt_iff]; lia.
    + specialize (Hlt m' ltac:(lia)). symmetry. apply Z.compare_lt_iff. lia.
    + specialize (Hlt' m ltac:(lia)). symmetry. apply Z.compare_gt_iff. lia.
  - pose proof (dayFromYear_lt y y' Hy). symmetry. apply Z.compare_lt_iff. lia.
  - pose proof (dayFromYear_lt y' y Hy). symmetry. apply Z.compare_gt_iff. lia.
Qed.

(** The days whose year has four digits, from 1000-01-01 to 9999-12-31. *)
Definition commonDay (n : Z) : Prop := dayFromYear 1000 ≤ n < dayFromYear 10000.

Lemma commonDay_first n : commonDay n → firstDay ≤ n.
Proof. unfold commonDay. intros [H _]. etrans; [|exact H]. vm_compute. discriminate. Qed.

Lemma commonDay_year n y m d : commonDay n → civilFromDays n = (y, m, d) → 1000 ≤ y ≤ 9999.
Proof.
  intros [H1 H2] [<- Hv]%civil_spec. destruct (daysBeforeMonth_bounds y m d Hv) as [Hb _].
  unfold makeDay in *. split.
  - destruct (Z.lt_ge_cases y 1000) as [Hy|]; [|done]. pose proof (dayFromYear_lt y 1000 Hy). lia.
  - destruct (Z.lt_ge_cases 9999 y) as [Hy|]; [|done].
    destruct (Z.eq_dec y 10000) as [->|Hne]; [lia|].
    pose proof (dayFromYear_lt 10000 y ltac:(lia)). destruct (isLeap 10000); lia.
Qed.

Lemma dayLabel_date n : dayLabel n = let '(y, m, d) := civilFromDays n in formatDate y m d.
Proof.
  unfold dayLabel, formatUtcDate. rewrite <-(Z.add_0_r (n * MILLIS_PER_DAY)).
  by rewrite utcDate_within.
Qed.

(** String order is calendar order. *)
Lemma dayLabel_compare a b :
  commonDay a → commonDay b → String.compare (dayLabel a) (dayLabel b) = (a ?= b).
Proof.
  intros Ha Hb. rewrite !dayLabel_date.
  destruct (civilFromDays a) as [[y m] d] eqn:Ea. destruct (civilFromDays b) as [[y' m'] d'] eqn:Eb.
  pose proof (commonDay_year _ _ _ _ Ha Ea). pose proof (commonDay_year _ _ _ _ Hb Eb).
  apply civil_spec in Ea as [<- Hv], Eb as [<- Hv'].
  by rewrite formatDate_compare, makeDay_compare.
Qed.

Lemma dayLabel_le a b : commonDay a → commonDay b → textLe (dayLabel a) (dayLabel b) ↔ a ≤ b.
Proof. intros Ha Hb. unfold textLe. rewrite dayLabel_compare by done. done. Qed.

Lemma dayLabel_lt a b : commonDay a → commonDay b → textLt (dayLabel a) (dayLabel b) ↔ a < b.
Proof. intros Ha Hb. unfold textLt. rewrite dayLabel_compare by done. done. Qed.

(** ** Buckets *)

Lemma sum_map_bucket (b : gmap string Z) k v :
  sum_map id (<[k := default 0 (b !! k) + v]> b) = sum_map id b + v.
Proof.
  destruct (b !! k) as [x|] eqn:E; cbn.
  - rewrite <-insert_delete_eq, sum_map_insert by apply lookup_delete_eq.
    rewrite <-(insert_delete_id b k x E) at 2. rewrite sum_map_insert by apply lookup_delete_eq.
    unfold id. lia.
  - rewrite sum_map_insert by done. unfold id. lia.
Qed.

Lemma buckets_sum l : ∀ b, sum_map id (foldl addToBucket b l) = sum_map id b + sumZ snd l.
Proof.
  induction l as [|e l IH]; intros b; cbn [foldl]; [unfold sumZ; cbn; lia|].
  rewrite IH. unfold addToBucket at 1. rewrite sum_map_bucket, sumZ_cons. lia.
Qed.

Lemma mapGet_groups {A} (key : A → OrderStatus) (l : list A) s :
  default 0 (mapGet (map (fun '(k, g) => (k, Z.of_nat (length g))) (groupBy key l)) s)
  = Z.of_nat (length (filter (fun x => key x = s) l)).
Proof.
  unfold groupBy. destruct (dedupe_spec (map key l) []) as [Hn Hin].
  assert (∀ ks, NoDup ks → mapGet (map (fun '(k, g) => (k, Z.of_nat (length g)))
      (map (fun k => (k, filter (fun x => key x = k) l)) ks)) s
    = if bool_decide (s ∈ ks) then Some (Z.of_nat (length (filter (fun x => key x = s) l))) else None) as Hg.
  { intros ks Hks. induction Hks as [|k ks Hk Hks IH]; [done|]. cbn [map mapGet]. rewrite IH.
    destruct (decide (s ∈ ks)) as [Hs|Hs].
    - rewrite bool_decide_eq_true_2 by done. by rewrite bool_decide_eq_true_2 by set_solver.
    - rewrite (bool_decide_eq_false_2 (s ∈ ks)) by done. destruct (decide (k = s)) as [->|Hne].
      + by rewrite !bool_decide_eq_true_2 by set_solver.
      + rewrite bool_decide_eq_false_2 by done. by rewrite bool_decide_eq_false_2 by set_solver. }
  rewrite Hg by done. case_bool_decide as Hs; [done|]. cbn.
  rewrite filter_none; [done|]. intros x Hx <-. apply Hs, Hin. split; [|apply not_elem_of_nil].
  apply list_elem_of_fmap. eauto.
Qed.

Lemma NoDup_filter_keys {A} (P : string * A → Prop) `{∀ e, Decision (P e)} (m : gmap string A) :
  NoDup (filter P (map_to_list m)).*1.
Proof.
  eapply sublist_NoDup; [apply (NoDup_fst_map_to_list m)|]. apply fmap_sublist, sublist_filter.
Qed.

(** ** The rows of a day *)

Section books.
Context (db : Database) (HM : money_ok (orders db) (payments db) (refunds db)).
Context (HI : items_ok (orders db) (orderItems db)) (day : string).

Lemma settled_spec oid :
  settled db oid = true ↔ ∃ pid p, succeeded_for (payments db) oid pid p.
Proof.
  unfold settled, succeeded_for. rewrite existsb_exists. split.
  - intros ([pid p] & Hin & [? ?]%bool_decide_eq_true). exists pid, p.
    by apply list_elem_of_In, elem_of_map_to_list in Hin.
  - intros (pid & p & Hp & ? & ?). exists (pid, p). split.
    + by apply list_elem_of_In, elem_of_map_to_list.
    + by apply bool_decide_eq_true.
Qed.

Lemma elem_of_settledOrders oid o :
  (oid, o) ∈ settledOrders db day ↔
  orders db !! oid = Some o ∧ o_businessDay o = day ∧ moneyTaken (o_status o) = true.
Proof.
  unfold settledOrders, dayOrders. rewrite !list_elem_of_filter, elem_of_map_to_list. cbn.
  rewrite settled_spec. split.
  - intros ((pid & p & HS) & Hd & Ho). split_and!; [done|done|]. by eapply (pay_taken _ _ _ HM).
  - intros (Ho & Hd & Hm). split_and!; [|done|done]. by eapply (pay_exists _ _ _ HM).
Qed.

Lemma NoDup_settled_ids : NoDup (settledOrders db day).*1.
Proof.
  unfold settledOrders, dayOrders. rewrite list_filter_filter.
  apply (NoDup_filter_keys _ _).
Qed.

Lemma elem_of_dayPayments pid p :
  (pid, p) ∈ dayPayments db day ↔
  payments db !! pid = Some p ∧ onDay db day (p_orderId p) = true ∧ p_status p = PaySUCCEEDED.
Proof. unfold dayPayments. rewrite list_elem_of_filter, elem_of_map_to_list. cbn. tauto. Qed.

Lemma onDay_spec oid : onDay db day oid = true ↔ ∃ o, orders db !! oid = Some o ∧ o_businessDay o = day.
Proof.
  unfold onDay. destruct (orders db !! oid) as [o|]; [|naive_solver].
  rewrite bool_decide_eq_true. naive_solver.
Qed.

(** Captured payments and settled orders of a day correspond one to one. *)
Lemma payments_orders : (p_orderId ∘ snd) <$> dayPayments db day ≡ₚ (settledOrders db day).*1.
Proof.
  apply NoDup_Permutation.
  - apply NoDup_fmap_2_strong; [|unfold dayPayments; apply NoDup_filter, NoDup_map_to_list].
    intros [pid p] [pid' p'] (Hp & _ & Hs)%elem_of_dayPayments (Hp' & _ & Hs')%elem_of_dayPayments E.
    cbn in E. pose proof (pay_once _ _ _ HM (p_orderId p) pid p pid' p' ltac:(by split)
      ltac:(by split_and!)). by simplify_eq.
  - apply NoDup_settled_ids.
  - intros oid. rewrite !list_elem_of_fmap. split.
    + intros ([pid p] & -> & (Hp & (o & Ho & Hd)%onDay_spec & Hs)%elem_of_dayPayments).
      exists (p_orderId p, o). split; [done|]. apply elem_of_settledOrders. split_and!; [done|done|].
      by eapply (pay_taken _ _ _ HM _ _ pid p).
    + intros ([id o] & -> & (Ho & Hd & Hm)%elem_of_settledOrders).
      destruct (pay_exists _ _ _ HM _ _ Ho Hm) as (pid & p & Hp & Hoid & Hs).
      exists (pid, p). split; [done|]. apply elem_of_dayPayments. split_and!; [done| |done].
      rewrite Hoid. apply onDay_spec. eauto.
Qed.

Definition totalOf (oid : string) : Z :=
  match orders db !! oid with Some o => o_totalMinor o | None => 0 end.

(** What the day's payments captured is what its settled orders cost. *)
Lemma revenue_is_orders :
  sumZ (fun e => p_amountMinor e.2) (dayPayments db day)
  = sumZ (fun e => o_totalMinor e.2) (settledOrders db day).
Proof.
  transitivity (sumZ totalOf (settledOrders db day).*1).
  - rewrite <-(sumZ_permutation _ _ _ payments_orders), sumZ_fmap. apply sumZ_ext, Forall_forall.
    intros [pid p] (Hp & _ & _)%elem_of_dayPayments. cbn.
    destruct (pay_order _ _ _ HM _ _ Hp) as (o & Ho & -> & _). unfold totalOf. by rewrite Ho.
  - rewrite sumZ_fmap. apply sumZ_ext, Forall_forall.
    intros [oid o] (Ho & _)%elem_of_settledOrders. unfold totalOf. cbn. by rewrite Ho.
Qed.

(** The lines sold on the day add up to what its settled orders cost. *)
Lemma items_are_orders :
  sumZ oi_lineTotalMinor (dayItems db day)
  = sumZ (fun e => o_totalMinor e.2) (settledOrders db day).
Proof.
  unfold dayItems. rewrite sumZ_fmap.
  rewrite <-(sumZ_partition (fun e : string * OrderItemRow => oi_orderId e.2) _ (settledOrders db day).*1);
    [|apply NoDup_settled_ids|].
  - rewrite sumZ_fmap. apply sumZ_ext, Forall_forall. intros [oid o] Ho. cbn.
    pose proof Ho as (Hoid & Hd & Hm)%elem_of_settledOrders.
    rewrite (proj1 (items_total _ _ HI _ _ Hoid)). unfold itemsOf. rewrite sumZ_fmap.
    rewrite list_filter_filter. f_equal. apply list_filter_iff. intros e. split; [tauto|].
    intros He. split; [done|]. rewrite He. split.
    + apply onDay_spec. eauto.
    + apply settled_spec. by eapply (pay_exists _ _ _ HM).
  - intros e [[(o & Ho & Hd)%onDay_spec Hs] _]%list_elem_of_filter. apply list_elem_of_fmap.
    exists (oi_orderId e.2, o). split; [done|]. apply elem_of_settledOrders. split_and!; [done|done|].
    apply settled_spec in Hs as (pid & p & HS). by eapply (pay_taken _ _ _ HM).
Qed.

(** The refunds of a payment, as the list the day's query reads. *)
Lemma refunded_list pid :
  refunded (refunds db) pid
  = sumZ (fun e => r_amountMinor e.2) (filter (fun e => r_paymentId e.2 = pid) (map_to_list (refunds db))).
Proof.
  unfold refunded. clear HM. induction (refunds db) as [|k r R Hk IH] using map_ind.
  - by rewrite sum_map_empty, map_to_list_empty.
  - rewrite sum_map_insert by done.
    rewrite (sumZ_permutation _ _ (filter (fun e => r_paymentId e.2 = pid) ((k, r) :: map_to_list R)))
      by by rewrite map_to_list_insert.
    rewrite filter_cons. unfold refundOf at 1. case_decide as E; cbn in E.
    + rewrite bool_decide_eq_true_2 by done. rewrite sumZ_cons, IH. done.
    + rewrite bool_decide_eq_false_2 by done. rewrite IH. lia.
Qed.

Lemma sumZ_filter_le {A} (f : A → Z) (P Q : A → Prop) `{∀ x, Decision (P x)} `{∀ x, Decision (Q x)}
    (l : list A) :
  (∀ x, x ∈ l → 0 ≤ f x) → (∀ x, P x → Q x) → sumZ f (filter P l) ≤ sumZ f (filter Q l).
Proof.
  intros Hf HPQ. induction l as [|x l IH]; [done|]. rewrite !filter_cons.
  pose proof (Hf x (list_elem_of_here _ _)).
  specialize (IH (fun y Hy => Hf y (list_elem_of_further _ _ _ Hy))).
  repeat case_decide; rewrite ?sumZ_cons; try lia. naive_solver.
Qed.

(** No more went back on the day than came in. *)
Lemma refunds_bounded :
  0 ≤ sumZ (fun e => r_amountMinor e.2) (dayRefunds db day)
    ≤ sumZ (fun e => p_amountMinor e.2) (dayPayments db day).
Proof.
  assert (∀ e, e ∈ map_to_list (refunds db) → 0 ≤ r_amountMinor e.2) as Hpos.
  { intros [rid r] Hr%elem_of_map_to_list. destruct (pay_refund _ _ _ HM _ _ Hr). cbn. lia. }
  split.
  - apply sumZ_nonneg, Forall_forall. intros e [_ He]%list_elem_of_filter. auto.
  - rewrite <-(sumZ_partition (fun e : string * RefundRow => r_paymentId e.2) _ (dayPayments db day).*1).
    + rewrite sumZ_fmap. apply sumZ_le. intros [pid p] (Hp & _ & _)%elem_of_dayPayments. cbn.
      etrans; [|exact (pay_bound _ _ _ HM pid p Hp)]. rewrite refunded_list. unfold dayRefunds.
      rewrite list_filter_filter. apply sumZ_filter_le; [exact Hpos|tauto].
    + apply (NoDup_filter_keys _ _).
    + intros [rid r] ([Hd _] & Hr%elem_of_map_to_list)%list_elem_of_filter. cbn in *.
      destruct (pay_refund _ _ _ HM _ _ Hr) as (_ & p & Hp & Hs). unfold paymentOnDay in Hd.
      rewrite Hp in Hd. apply list_elem_of_fmap. exists (r_paymentId r, p). split; [done|].
      by apply elem_of_dayPayments.
Qed.

Context (localeCompare : string → string → Z).

Lemma liveRow_revenue :
  rw_revenueMinor (liveRow localeCompare db day) = sumZ (fun e => p_amountMinor e.2) (dayPayments db day).
Proof.
  unfold liveRow, buildRollupRow. cbn [rw_revenueMinor]. rewrite buckets_sum, sum_map_empty. cbn [rp_revenueByMethod aggregateDay].
  rewrite <-(sumZ_groupBy (fun e : string * PaymentRow => p_method e.2)).
  change (map ?f ?l) with (f <$> l). rewrite sumZ_fmap, Z.add_0_l. apply sumZ_ext, Forall_forall.
  by intros [] _.
Qed.

Lemma liveRow_items :
  sumZ it_revenueMinor (rw_topItems (liveRow localeCompare db day)) = sumZ oi_lineTotalMinor (dayItems db day).
Proof.
  unfold liveRow, buildRollupRow. cbn [rw_topItems].
  rewrite (sumZ_permutation _ _ _ (sortWith_Permutation _ _)). cbn [rp_items aggregateDay].
  rewrite <-(sumZ_groupBy (fun i => (oi_menuItemId i, oi_nameSnapshot i))).
  change (map ?f ?l) with (f <$> l). rewrite sumZ_fmap. apply sumZ_ext, Forall_forall.
  by intros [[] ] _.
Qed.
End books.
