(* ===== verification/Reporting.v ===== *)
(** * Reporting: what the reports show

    The theorems about [Rollup] and [Reports]: a day's figures agree with the books,
    a range is served from the right source day by day, hours add up to days, the
    leaderboard conserves what was sold, the nightly job finalizes every day it has to
    and no other, and the Z-report says why it has no gateway comparison. *)

From S2P Require Import Prelude Text Schema Errors Program OrderState BusinessDay Ordering Gateway.
From S2P Require Import OrdersQueryDto Refunds Books Invariants System Scenario Rollup Reports.
From S2P Require Import DayBooks Replay.

(** ** A day *)

Section day.
Context `{port : PaymentPort}.
Context (config : Config) (tzOffset : string → Z → Z) (sha256 : string → string).
Context (localeCompare : string → string → Z).

(** C35. A day's row is consistent, whatever the system was doing when it was read: its
    revenue is what the orders that count as paid cost, it is the sum of its buckets by
    method and of the items sold, refunds are within it, VAT and the settled count are
    over the same orders, and each status column counts that status. *)
Theorem day_reconciles c day :
  reachable config tzOffset sha256 c →
  let db := pool_db c in
  let row := liveRow localeCompare db day in
  let paid := filter (fun e => moneyTaken (o_status e.2) = true) (dayOrders db day) in
  let counted s := Z.of_nat (length (filter (fun e => o_status e.2 = s) (dayOrders db day))) in
  rw_revenueMinor row = sumZ (fun e => o_totalMinor e.2) paid ∧
  rw_revenueMinor row = sum_map id (rw_revenueByMethod row) ∧
  rw_revenueMinor row = sumZ it_revenueMinor (rw_topItems row) ∧
  0 ≤ rw_refundsMinor row ≤ rw_revenueMinor row ∧
  rw_vatMinor row = sumZ (fun e => o_vatMinor e.2) paid ∧
  rw_ordersSettled row = Z.of_nat (length paid) ∧
  rw_ordersCompleted row = counted COMPLETED ∧ rw_ordersRefunded row = counted REFUNDED ∧
  rw_ordersCancelled row = counted CANCELLED ∧ rw_ordersExpired row = counted EXPIRED.
Proof.
  intros [[HM _ _ _ HI _] _]%reachable_inv. cbv zeta. set (db := pool_db c) in *.
  assert (settledOrders db day
    = filter (fun e => moneyTaken (o_status e.2) = true) (dayOrders db day)) as Hpaid.
  { unfold settledOrders, dayOrders. rewrite !list_filter_filter. apply filter_iff_in.
    intros [oid o] Ho%elem_of_map_to_list. cbn. split; intros [H1 H2]; (split; [|done]).
    - apply settled_spec in H1 as (pid & p & HS). by eapply (pay_taken _ _ _ HM).
    - apply settled_spec. by eapply (pay_exists _ _ _ HM). }
  rewrite <-Hpaid. rewrite liveRow_revenue, (revenue_is_orders db HM day).
  split_and!; try done.
  - rewrite <-revenue_is_orders, <-(liveRow_revenue db day localeCompare) by done. done.
  - by rewrite liveRow_items, items_are_orders.
  - apply refunds_bounded. done.
  - rewrite <-revenue_is_orders by done. by apply refunds_bounded.
  - unfold liveRow, buildRollupRow. cbn [rw_ordersCompleted rp_statusCounts aggregateDay].
    apply mapGet_groups.
  - apply (mapGet_groups (fun e : string * OrderRow => o_status e.2)).
  - apply (mapGet_groups (fun e : string * OrderRow => o_status e.2)).
  - apply (mapGet_groups (fun e : string * OrderRow => o_status e.2)).
Qed.
End day.

(** ** A range of days *)

Section range.
Context (localeCompare : string → string → Z) (config : Config) (tzOffset : string → Z → Z).

(** Where a day's totals come from: its finalized rollup, or the live tables. *)
Definition totalsFor (db : Database) (rollups : Rollups) (day : string) : RollupRow :=
  match rollups !! day with
  | Some {| sr_row := row; sr_finalizedAt := Some _ |} => row
  | _ => liveRow localeCompare db day
  end.

Definition unrolled (rollups : Rollups) (days : list string) : list string :=
  filter (fun day => finalized rollups day = false) days.

Lemma storedRows_lookup rollups from to day :
  textLe from day → textLe day to →
  storedRows rollups from to !! day
  = match rollups !! day with
    | Some {| sr_row := row; sr_finalizedAt := Some _ |} => Some row
    | _ => None
    end.
Proof.
  intros H1 H2. unfold storedRows. rewrite lookup_omap, map_lookup_filter.
  destruct (rollups !! day) as [[row [t|]]|]; cbn; [| |done].
  - rewrite option_guard_True by done. done.
  - rewrite option_guard_True by done. done.
Qed.

Lemma liveInserts db (missing : list string) : ∀ (m : gmap string RollupRow) day,
  foldl (fun totals day => <[day := liveRow localeCompare db day]> totals) m missing !! day
  = if bool_decide (day ∈ missing) then Some (liveRow localeCompare db day) else m !! day.
Proof.
  induction missing as [|d missing IH]; intros m day; [done|]. cbn [foldl]. rewrite IH.
  destruct (decide (day ∈ missing)) as [Hin|Hin].
  - rewrite !bool_decide_eq_true_2; [done| |done]. by apply list_elem_of_further.
  - rewrite (bool_decide_eq_false_2 (day ∈ missing)) by done.
    destruct (decide (day = d)) as [->|Hne].
    + rewrite bool_decide_eq_true_2 by apply list_elem_of_here. apply lookup_insert_eq.
    + rewrite bool_decide_eq_false_2 by by intros [?|?]%elem_of_cons.
      by apply lookup_insert_ne.
Qed.

(** Every requested day gets its row, unless too many would have to be computed. *)
Lemma dayTotals_spec days db rollups :
  (∀ day, day ∈ days → textLe (default "" (head days)) day ∧ textLe day (List.last days "")) →
  if (MAX_LIVE_DAYS <? length (unrolled rollups days))%nat
  then dayTotals localeCompare days db rollups
       = Err (staleRollups (length (unrolled rollups days)) (length days))
  else ∃ totals, dayTotals localeCompare days db rollups = Ok totals ∧
    ∀ day, day ∈ days → totals !! day = Some (totalsFor db rollups day).
Proof.
  intros Hdays. destruct days as [|from days']; [by exists ∅; split; [|intros ? ?%elem_of_nil]|].
  set (days := from :: days') in *. cbn [head default days] in Hdays.
  set (stored := storedRows rollups from (List.last days "")).
  assert (dayTotals localeCompare days db rollups =
    let missing := filter (fun day => stored !! day = None) days in
    if (MAX_LIVE_DAYS <? length missing)%nat then Err (staleRollups (length missing) (length days))
    else Ok (foldl (fun totals day => <[day := liveRow localeCompare db day]> totals) stored missing))
    as -> by done. cbv zeta.
  assert (∀ day, day ∈ days → stored !! day = None ↔ finalized rollups day = false) as Hst.
  { intros day Hd. destruct (Hdays day Hd) as [H1 H2]. unfold stored.
    rewrite storedRows_lookup by done. unfold finalized.
    by destruct (rollups !! day) as [[row [t|]]|]. }
  assert (filter (fun day => stored !! day = None) days = unrolled rollups days) as Hm.
  { by apply filter_iff_in. }
  rewrite Hm. destruct (MAX_LIVE_DAYS <? length (unrolled rollups days))%nat; [done|].
  eexists. split; [done|]. intros day Hd. rewrite liveInserts. destruct (Hdays day Hd) as [H1 H2].
  unfold unrolled, totalsFor. case_bool_decide as Hin.
  - apply list_elem_of_filter in Hin as [Hf _]. unfold finalized in Hf.
    by destruct (rollups !! day) as [[row [t|]]|].
  - unfold stored. rewrite storedRows_lookup by done.
    assert (finalized rollups day ≠ false) as Hf.
    { intros Hf. apply Hin, list_elem_of_filter. done. }
    unfold finalized in Hf. by destruct (rollups !! day) as [[row [t|]]|].
Qed.

Lemma mapResult_Ok {A B} (f : A → result AppError B) (g : A → B) l :
  (∀ x, x ∈ l → f x = Ok (g x)) → mapResult f l = Ok (g <$> l).
Proof.
  induction l as [|x l IH]; intros H; [done|]. cbn [mapResult].
  rewrite H by apply list_elem_of_here. cbn.
  by rewrite IH by (intros y Hy; by apply H, list_elem_of_further).
Qed.

(** The labels of a range. *)
Definition labels (a b : Z) : list string := dayLabel <$> seqZ a (b - a + 1).

Lemma labels_bounds a b : commonDay a → commonDay b → a ≤ b →
  ∀ day, day ∈ labels a b →
    textLe (default "" (head (labels a b))) day ∧ textLe day (List.last (labels a b) "").
Proof.
  intros Ha Hb Hab day (n & -> & Hn%elem_of_seqZ)%list_elem_of_fmap.
  assert (commonDay n) as Hc by (unfold commonDay in *; lia).
  assert (labels a b = dayLabel a :: (dayLabel <$> seqZ (Z.succ a) (Z.pred (b - a + 1)))) as ->.
  { unfold labels. by rewrite seqZ_cons by lia. }
  assert (List.last (labels a b) "" = dayLabel b) as Hlast.
  { unfold labels. replace (b - a + 1) with ((b - a) + 1) by lia.
    rewrite seqZ_app, (seqZ_cons (a + (b - a))), (seqZ_nil _ (Z.pred 1)) by lia.
    rewrite fmap_app. cbn [fmap list_fmap]. rewrite List.last_last. f_equal. lia. }
  unfold labels in Hlast. rewrite seqZ_cons in Hlast by lia. rewrite fmap_cons in Hlast. rewrite Hlast.
  cbn. split; apply dayLabel_le; try done; lia.
Qed.

Lemma eachBusinessDay_labels a b : commonDay a → commonDay b →
  eachBusinessDay (dayLabel a) (dayLabel b) = labels a b.
Proof.
  intros Ha Hb. by apply (eachBusinessDay_days a b (commonDay_first a Ha) (commonDay_first b Hb)).
Qed.

(** Sales by day: the range may not end after the day still trading; each day of it, in
    order, is served from its finalized rollup if it has one and computed otherwise;
    past 31 days to compute the request is refused; and the report is provisional
    exactly when the range includes the day still trading. *)
Theorem sales_by_day now a b db rollups :
  commonDay a → commonDay b → a ≤ b →
  let current := businessDayAt config tzOffset now in
  let days := labels a b in
  let missing := unrolled rollups days in
  salesReport localeCompare config tzOffset now (dayLabel a) (dayLabel b) by_day db rollups =
  if decide (textLt current (dayLabel b)) then Err (UnprocessableRangeError "to" current)
  else if (MAX_LIVE_DAYS <? length missing)%nat then Err (staleRollups (length missing) (length days))
  else Ok {| sp_from := dayLabel a; sp_to := dayLabel b; sp_groupBy := by_day;
             sp_provisional := bool_decide (current ∈ days);
             sp_buckets := (fun day => salesBucket day (totalsFor db rollups day)) <$> days |}.
Proof.
  intros Ha Hb Hab. cbv zeta. unfold salesReport, refuseIfAfterCurrent, currentBusinessDay.
  destruct (decide (textLt (businessDayAt config tzOffset now) (dayLabel b))) as [Hc|Hc];
    [by rewrite (bool_decide_eq_true_2 (textLt _ _))|]. rewrite (bool_decide_eq_false_2 (textLt _ _)) by done. cbn [mbind result_bind].
  rewrite eachBusinessDay_labels by done.
  pose proof (dayTotals_spec (labels a b) db rollups (labels_bounds a b Ha Hb Hab)) as Ht.
  destruct (MAX_LIVE_DAYS <? _)%nat; [by rewrite Ht|]. destruct Ht as (totals & -> & Htot).
  cbn [mbind result_bind].
  rewrite (mapResult_Ok _ (fun day => salesBucket day (totalsFor db rollups day))); [done|].
  intros day Hd. unfold rowFor. by rewrite Htot.
Qed.

(** ** By the hour *)

Lemma sumZ_hourly db from to :
  sumZ sb_revenueMinor (hourlyBuckets config tzOffset db from to)
    = sumZ (fun e => o_totalMinor e.2) (rangeOrders db from to) ∧
  sumZ sb_ordersSettled (hourlyBuckets config tzOffset db from to)
    = Z.of_nat (length (rangeOrders db from to)).
Proof.
  unfold hourlyBuckets. change (map ?f ?l) with (f <$> l). rewrite !sumZ_fmap.
  rewrite !(sumZ_permutation _ _ _ (merge_sort_Permutation _ _)). split.
  - rewrite <-(sumZ_groupBy (fun e => bucketOf config tzOffset e.2)). apply sumZ_ext, Forall_forall.
    by intros [] _.
  - rewrite length_sumZ, <-(sumZ_groupBy (fun e => bucketOf config tzOffset e.2)).
    apply sumZ_ext, Forall_forall. intros [k g] _. cbn. apply length_sumZ.
Qed.
End range.

Section hours.
Context `{port : PaymentPort}.
Context (config : Config) (tzOffset : string → Z → Z) (sha256 : string → string).
Context (localeCompare : string → string → Z).

Lemma rangeOrders_days db a b :
  (∀ oid o, orders db !! oid = Some o → ∃ n, commonDay n ∧ o_businessDay o = dayLabel n) →
  commonDay a → commonDay b →
  ∀ f : string * OrderRow → Z,
  sumZ f (rangeOrders db (dayLabel a) (dayLabel b))
  = sumZ (fun day => sumZ f (settledOrders db day)) (labels a b).
Proof.
  intros Hdays Ha Hb f.
  rewrite <-(sumZ_partition (fun e => o_businessDay e.2) f (labels a b)).
  - apply sumZ_ext, Forall_forall. intros day (n & -> & Hn%elem_of_seqZ)%list_elem_of_fmap.
    assert (commonDay n) as Hc by (unfold commonDay in *; lia).
    f_equal. unfold rangeOrders, settledOrders, dayOrders. rewrite !list_filter_filter.
    apply list_filter_iff. intros e. split; [tauto|]. intros [Hs Hd]. rewrite Hd.
    split_and!; [done| | |done]; apply dayLabel_le; try done; lia.
  - unfold labels. apply NoDup_fmap_2_strong; [|apply NoDup_seqZ].
    intros x y Hx%elem_of_seqZ Hy%elem_of_seqZ.
    apply dayLabel_inj; (apply commonDay_first; unfold commonDay in *; lia).
  - intros [oid o] ((H1 & H2 & _) & Ho%elem_of_map_to_list)%list_elem_of_filter. cbn in *.
    destruct (Hdays _ _ Ho) as (n & Hn & E). rewrite E in *.
    apply dayLabel_le in H1, H2; try done. apply list_elem_of_fmap. exists n. split; [done|].
    apply elem_of_seqZ. lia.
Qed.

(** The hourly buckets of a range add up to its days: the same revenue and the same
    number of settled orders as the daily rows, computed a different way. *)
Theorem hours_add_up c a b :
  reachable config tzOffset sha256 c → commonDay a → commonDay b →
  let db := pool_db c in
  (∀ oid o, orders db !! oid = Some o → ∃ n, commonDay n ∧ o_businessDay o = dayLabel n) →
  let buckets := hourlyBuckets config tzOffset db (dayLabel a) (dayLabel b) in
  sumZ sb_revenueMinor buckets
    = sumZ (fun day => rw_revenueMinor (liveRow localeCompare db day)) (labels a b) ∧
  sumZ sb_ordersSettled buckets
    = sumZ (fun day => rw_ordersSettled (liveRow localeCompare db day)) (labels a b).
Proof.
  intros [[HM _ _ _ _ _] _]%reachable_inv Ha Hb db Hdays buckets. subst buckets.
  destruct (sumZ_hourly config tzOffset db (dayLabel a) (dayLabel b)) as [-> ->].
  rewrite length_sumZ, !rangeOrders_days by done. split.
  - apply sumZ_ext, Forall_forall. intros day _. rewrite liveRow_revenue. symmetry.
    by apply revenue_is_orders.
  - apply sumZ_ext, Forall_forall. intros day _. symmetry. apply length_sumZ.
Qed.
End hours.

(** ** The nightly job *)

Section nightly.
Context (localeCompare : string → string → Z) (config : Config) (tzOffset : string → Z → Z).
Context (now : Z) (attempt : string → result AppError Database).

(** The row a run leaves for a day it was asked to roll. *)
Definition rolledRow (day : string) : option StoredRollup :=
  match attempt day with
  | Ok db =>
      if decide (textLt day (businessDayAt config tzOffset now))
      then Some {| sr_row := liveRow localeCompare db day; sr_finalizedAt := Some now |} else None
  | Err _ => None
  end.

Lemma rollOne_spec summary rollups day :
  (rollOne localeCompare config tzOffset now attempt (summary, rollups) day).2
  = match rolledRow day with Some s => <[day := s]> rollups | None => rollups end ∧
  let summary' := (rollOne localeCompare config tzOffset now attempt (summary, rollups) day).1 in
  rs_rolled summary' + rs_failed summary' = rs_rolled summary + rs_failed summary + 1 ∧
  rs_failed summary' = rs_failed summary + match rolledRow day with Some _ => 0 | None => 1 end.
Proof.
  unfold rollOne, rolledRow, rollDay. destruct (attempt day) as [db|e]; cbn [mbind result_bind].
  - destruct (decide (textLt day (businessDayAt config tzOffset now))) as [H|H].
    + rewrite bool_decide_eq_false_2 by by apply textLt_not_le in H. cbn. split; [done|]. lia.
    + rewrite bool_decide_eq_true_2; [cbn; split; [done|]; lia|].
      destruct (decide (textLe (businessDayAt config tzOffset now) day)) as [|Hn]; [done|].
      exfalso. by apply H, textLt_not_le.
  - cbn. split; [done|]. lia.
Qed.

Lemma rollDays_fold days : ∀ summary rollups, NoDup days →
  let out := foldl (rollOne localeCompare config tzOffset now attempt) (summary, rollups) days in
  (∀ day, out.2 !! day = match (if decide (day ∈ days) then rolledRow day else None) with
                         | Some s => Some s | None => rollups !! day end) ∧
  rs_rolled out.1 + rs_failed out.1 = rs_rolled summary + rs_failed summary + Z.of_nat (length days) ∧
  rs_failed out.1 = rs_failed summary + Z.of_nat (length (filter (fun day => rolledRow day = None) days)).
Proof.
  induction days as [|d days IH]; intros summary rollups Hn; [cbn; split; [done|lia]|].
  apply NoDup_cons in Hn as [Hd Hn]. cbn [foldl].
  destruct (rollOne_spec summary rollups d) as (H1 & H2 & H3).
  destruct (rollOne _ _ _ _ _ (summary, rollups) d) as [summary' rollups']. cbn in H1, H2, H3.
  destruct (IH summary' rollups' Hn) as (I1 & I2 & I3). split_and!.
  - intros day. rewrite I1, H1. destruct (decide (day = d)) as [->|Hne].
    + rewrite decide_False by done. rewrite decide_True by apply list_elem_of_here.
      destruct (rolledRow d); [apply lookup_insert_eq|done].
    + assert (day ∈ d :: days ↔ day ∈ days) as Hiff by (rewrite elem_of_cons; naive_solver).
      rewrite (decide_ext (day ∈ d :: days) (day ∈ days) _ _ Hiff).
      assert (match rolledRow d with Some s => <[d := s]> rollups | None => rollups end !! day
        = rollups !! day) as ->; [|done].
      destruct (rolledRow d); [by apply lookup_insert_ne|done].
  - rewrite I2, H2. cbn. lia.
  - rewrite I3, H3, filter_cons. destruct (rolledRow d); case_decide; cbn; try done; lia.
Qed.

Lemma NoDup_nightly target db rollups : NoDup (target :: daysNeedingRoll target db rollups).
Proof.
  constructor.
  - unfold daysNeedingRoll. rewrite merge_sort_Permutation. intros [(_ & H & _) _]%list_elem_of_filter.
    by eapply textLt_irrefl.
  - unfold daysNeedingRoll. rewrite merge_sort_Permutation. apply NoDup_filter, dedupe_spec.
Qed.

Lemma elem_of_daysNeedingRoll target db rollups day :
  day ∈ daysNeedingRoll target db rollups ↔
  needsRoll target rollups day ∧ ∃ oid o, orders db !! oid = Some o ∧ o_businessDay o = day.
Proof.
  unfold daysNeedingRoll. rewrite merge_sort_Permutation, list_elem_of_filter.
  rewrite (proj2 (dedupe_spec _ [])), list_elem_of_fmap. split.
  - intros [Hn [([oid o] & -> & Ho%elem_of_map_to_list) _]]. split; [done|]. by exists oid, o.
  - intros [Hn (oid & o & Ho & <-)]. split; [done|]. split; [|apply not_elem_of_nil].
    exists (oid, o). split; [done|]. by apply elem_of_map_to_list.
Qed.

(** One night: the day that closed and every day behind it that needs it are rolled
    afresh, each from what its own read saw and each once; a day whose attempt fails, or
    that is not due, keeps the row it had; no row is ever written for a day that has not
    closed; and the summary counts them all. *)
Theorem nightly_run db rollups :
  let target := businessDayAt config tzOffset (now - 24 * 60 * 60 * 1000) in
  let current := businessDayAt config tzOffset now in
  let due := target :: daysNeedingRoll target db rollups in
  let '(summary, rollups') := rollUpYesterday localeCompare config tzOffset now db attempt rollups in
  (∀ day, rollups' !! day =
    match (if decide (day ∈ due ∧ textLt day current) then attempt day else Err KeyAlreadyReserved) with
    | Ok seen => Some {| sr_row := liveRow localeCompare seen day; sr_finalizedAt := Some now |}
    | Err _ => rollups !! day
    end) ∧
  (∀ day, day ∈ due ↔ day = target ∨
    (needsRoll target rollups day ∧ ∃ oid o, orders db !! oid = Some o ∧ o_businessDay o = day)) ∧
  rs_rolled summary + rs_failed summary = Z.of_nat (length due).
Proof.
  cbv zeta. unfold rollUpYesterday, rollDays. cbv zeta.
  set (target := businessDayAt config tzOffset (now - 24 * 60 * 60 * 1000)).
  destruct (rollDays_fold (target :: daysNeedingRoll target db rollups) {| rs_rolled := 0; rs_failed := 0 |}
    rollups (NoDup_nightly _ _ _)) as (H1 & H2 & _).
  destruct (foldl _ _ _) as [summary rollups']. cbn in H2. cbn [fst snd] in H1. split_and!.
  - intros day. rewrite H1. unfold rolledRow.
    destruct (decide (day ∈ _)) as [Hin|Hin].
    + destruct (decide (textLt day (businessDayAt config tzOffset now))) as [Hlt|Hlt].
      * rewrite decide_True by done. by destruct (attempt day).
      * rewrite decide_False by by intros [_ ?]. by destruct (attempt day).
    + rewrite decide_False by by intros [? _]. done.
  - intros day. rewrite elem_of_cons, elem_of_daysNeedingRoll. done.
  - rewrite H2. cbn. lia.
Qed.

(** C37. The catch-up: on the first night every attempt goes through, each of the last
    thirty days that traded ends with a finalized row, however many nights had failed. *)
Theorem nightly_catches_up db rollups day oid o :
  let target := businessDayAt config tzOffset (now - 24 * 60 * 60 * 1000) in
  textLt target (businessDayAt config tzOffset now) →
  (∀ d, is_ok (attempt d) = true) →
  orders db !! oid = Some o → o_businessDay o = day →
  textLe (minusDays target CATCH_UP_DAYS) day → textLe day target →
  finalized (rollUpYesterday localeCompare config tzOffset now db attempt rollups).2 day = true.
Proof.
  cbv zeta. intros Hclosed Hok Ho Hday Hfrom Hto. unfold rollUpYesterday, rollDays. cbv zeta.
  set (target := businessDayAt config tzOffset (now - 24 * 60 * 60 * 1000)) in *.
  destruct (rollDays_fold (target :: daysNeedingRoll target db rollups) {| rs_rolled := 0; rs_failed := 0 |}
    rollups (NoDup_nightly _ _ _)) as (H1 & _).
  destruct (foldl _ _ _) as [summary rollups']. cbn [fst snd] in *. unfold finalized. rewrite H1.
  assert (textLt day (businessDayAt config tzOffset now)) as Hlt.
  { apply textLe_lt in Hto as [->|Hto]; [done|]. by etrans. }
  case_decide as Hin.
  - unfold rolledRow. specialize (Hok day). destruct (attempt day); [|done].
    by rewrite decide_True.
  - rewrite elem_of_cons, elem_of_daysNeedingRoll in Hin.
    destruct (finalized rollups day) eqn:Hf; [done|]. exfalso. apply Hin.
    apply textLe_lt in Hto as [->|Hto]; [by left|]. right. split; [|by exists oid, o].
    split_and!; [done|done|]. by right.
Qed.

End nightly.

Section reroll.
Context (localeCompare : string → string → Z) (config : Config) (tzOffset : string → Z → Z) (now : Z).

(** Nothing moved exactly when the two lists of fields are the same. *)
Lemma moved_nil (l : list (string * Z)) : ∀ l' : list (string * Z), l.*1 = l'.*1 →
  filter (fun e : string * Z * Z => e.1.2 ≠ e.2) (zip_with (fun p n => (p.1, p.2, n.2)) l l') = [] ↔ l = l'.
Proof.
  induction l as [|[k v] l IH]; intros [|[k' v'] l'] H; try done. cbn in H. injection H as -> H.
  cbn [zip_with fst snd]. rewrite filter_cons. cbn [fst snd]. case_decide as Hd.
  - split; [done|]. intros [= ? ?]. done.
  - subst v'. rewrite IH by done. naive_solver.
Qed.

(** Rolling a day again over the same data writes the same row and reports no
    correction; over other data it reports exactly the figures that moved. *)
Theorem reroll_reports db db' later day rollups :
  textLt day (businessDayAt config tzOffset now) → textLt day (businessDayAt config tzOffset later) →
  let row := liveRow localeCompare db day in
  let row' := liveRow localeCompare db' day in
  ∃ rollups1 rollups2 correction,
    (∃ c, rollDay localeCompare config tzOffset now day db rollups = Ok (row, c, rollups1)) ∧
    rollDay localeCompare config tzOffset later day db' rollups1 = Ok (row', correction, rollups2) ∧
    rollups2 = <[day := {| sr_row := row'; sr_finalizedAt := Some later |}]> rollups ∧
    (correction = None ↔ comparedFields row = comparedFields row') ∧
    (∀ moved, correction = Some moved → ∀ field p n, (field, p, n) ∈ moved ↔
      p ≠ n ∧ (field, p, n) ∈ zip_with (fun p n => (p.1, p.2, n.2)) (comparedFields row) (comparedFields row')).
Proof.
  cbv zeta. intros H1 H2. unfold rollDay.
  rewrite !bool_decide_eq_false_2 by by apply textLt_not_le. eexists _, _, _.
  split; [by eexists|]. split; [done|]. rewrite lookup_insert_eq. split; [apply insert_insert_eq|].
  set (row := liveRow localeCompare db day). set (row' := liveRow localeCompare db' day).
  clearbody row row'. unfold describeCorrection. split.
  - rewrite <-(moved_nil (comparedFields row) (comparedFields row')) by done.
    by destruct (filter _ _).
  - intros moved. destruct (filter _ _) as [|m l] eqn:E; [done|]. intros [= <-] field p n.
    rewrite <-E, list_elem_of_filter. done.
Qed.
End reroll.

(** ** Top items *)

Section topitems.
Context (localeCompare : string → string → Z).

Definition runId (r : Running) : string := it_menuItemId (ru_item r).

(** The sales of a list of days, one entry after another. *)
Definition entriesOf (days : list (string * list RollupItem)) : list (string * RollupItem) :=
  concat (map (fun d => pair d.1 <$> d.2) days).

Definition soldAs (id : string) (entries : list (string * RollupItem)) : list (string * RollupItem) :=
  filter (fun e => it_menuItemId e.2 = id) entries.

Lemma foldl_entries days : ∀ totals,
  foldl mergeDay totals days = foldl (fun acc e => mergeItem e.1 acc e.2) totals (entriesOf days).
Proof.
  induction days as [|[d l] days IH]; intros totals; [done|]. cbn [foldl entriesOf map concat].
  rewrite foldl_app, IH. f_equal. unfold mergeDay. cbn [fst snd].
  revert totals. induction l as [|i l IHl]; intros totals; [done|]. cbn. apply IHl.
Qed.

Lemma mergeItem_ids d item totals :
  runId <$> mergeItem d totals item
  = if decide (it_menuItemId item ∈ runId <$> totals) then runId <$> totals
    else (runId <$> totals) ++ [it_menuItemId item].
Proof.
  induction totals as [|r totals IH]; [done|]. cbn [mergeItem]. case_bool_decide as E.
  - rewrite decide_True; [done|]. rewrite fmap_cons. apply elem_of_cons. left. done.
  - rewrite !fmap_cons, IH. destruct (decide (it_menuItemId item ∈ runId <$> totals)) as [Hi|Hi].
    + rewrite decide_True; [done|]. by apply list_elem_of_further.
    + rewrite decide_False; [done|]. intros [He|?]%elem_of_cons; [|done]. by apply E.
Qed.

Lemma elem_of_mergeItem d item totals r' : NoDup (runId <$> totals) →
  r' ∈ mergeItem d totals item →
  (r' ∈ totals ∧ runId r' ≠ it_menuItemId item) ∨
  (∃ r, r ∈ totals ∧ runId r = it_menuItemId item ∧ r' = addItem d item r) ∨
  (it_menuItemId item ∉ runId <$> totals ∧ r' = {| ru_item := item; ru_nameFrom := d |}).
Proof.
  induction totals as [|r totals IH]; intros Hn Hr; cbn [mergeItem] in Hr.
  - apply list_elem_of_singleton in Hr. right; right. split; [apply not_elem_of_nil|done].
  - rewrite fmap_cons in Hn. apply NoDup_cons in Hn as [Hr0 Hn]. case_bool_decide as E.
    + apply elem_of_cons in Hr as [->|Hr].
      * right; left. exists r. split; [apply list_elem_of_here|done].
      * left. split; [by apply list_elem_of_further|]. intros He. apply Hr0. apply list_elem_of_fmap.
        exists r'. split; [|done]. unfold runId in *. congruence.
    + apply elem_of_cons in Hr as [->|Hr]; [left; split; [apply list_elem_of_here|done]|].
      destruct (IH Hn Hr) as [[H1 H2]|[(r1 & H1 & H2 & H3)|[H1 H2]]].
      * left. split; [by apply list_elem_of_further|done].
      * right; left. exists r1. split; [by apply list_elem_of_further|done].
      * right; right. split; [|done]. rewrite fmap_cons. intros [He|?]%elem_of_cons; [|done]. by apply E.
Qed.

(** What the running totals are after some entries. *)
Record tallied (entries : list (string * RollupItem)) (totals : list Running) : Prop := {
  tl_nodup : NoDup (runId <$> totals);
  tl_ids : ∀ e, e ∈ entries → it_menuItemId e.2 ∈ runId <$> totals;
  tl_sold : ∀ r, r ∈ totals → soldAs (runId r) entries ≠ [];
  tl_sums : ∀ r, r ∈ totals →
    it_quantity (ru_item r) = sumZ (fun e => it_quantity e.2) (soldAs (runId r) entries) ∧
    it_revenueMinor (ru_item r) = sumZ (fun e => it_revenueMinor e.2) (soldAs (runId r) entries) ∧
    (StronglySorted (fun a b => textLe a.1 b.1) entries →
     ∃ e, last (soldAs (runId r) entries) = Some e ∧ it_name (ru_item r) = it_name e.2 ∧
       ru_nameFrom r = e.1) }.

Lemma soldAs_snoc id entries e :
  soldAs id (entries ++ [e]) = soldAs id entries ++ (if decide (it_menuItemId e.2 = id) then [e] else []).
Proof. unfold soldAs. rewrite filter_app, filter_cons. by destruct (decide _). Qed.

Lemma tallied_snoc entries totals e :
  tallied entries totals → tallied (entries ++ [e]) (mergeItem e.1 totals e.2).
Proof.
  intros [Hn Hids Hsold Hsums]. split.
  - rewrite mergeItem_ids. case_decide; [done|]. apply NoDup_app. split_and!; [done| |apply NoDup_singleton].
    intros x Hx ->%list_elem_of_singleton. done.
  - intros e' [He'|He']%elem_of_app; rewrite mergeItem_ids.
    + case_decide; [by apply Hids|]. apply elem_of_app. left. by apply Hids.
    + apply list_elem_of_singleton in He' as ->. case_decide; [done|]. apply elem_of_app. right.
      apply list_elem_of_here.
  - intros r' [[Hr Hne]|[(r & Hr & Hid & ->)|[Hnew ->]]]%elem_of_mergeItem; [..|done];
      rewrite soldAs_snoc.
    + rewrite decide_False, app_nil_r by congruence. auto.
    + rewrite decide_True by done. by destruct (soldAs _ _).
    + rewrite decide_True by done. by destruct (soldAs _ _).
  - intros r' [[Hr Hne]|[(r & Hr & Hid & ->)|[Hnew ->]]]%elem_of_mergeItem; [..|done].
    + rewrite soldAs_snoc, decide_False, app_nil_r by congruence. destruct (Hsums r' Hr) as (H1 & H2 & H3).
      split_and!; [done|done|]. intros Hs. apply H3. by apply StronglySorted_app in Hs as (_ & ? & _).
    + assert (runId (addItem e.1 e.2 r) = runId r) as -> by done.
      rewrite soldAs_snoc, decide_True by done. rewrite !sumZ_app.
      destruct (Hsums r Hr) as (H1 & H2 & H3). cbn [addItem ru_item it_quantity it_revenueMinor].
      split_and!; [rewrite H1; unfold sumZ; cbn; lia|rewrite H2; unfold sumZ; cbn; lia|].
      intros Hs. exists e. rewrite last_snoc. split; [done|].
      apply StronglySorted_app in Hs as (Hle & Hs & _).
      destruct (H3 Hs) as (e0 & He0 & _ & Hfrom).
      assert (textLe (ru_nameFrom r) e.1) as Hren.
      { rewrite Hfrom. apply Hle; [|apply list_elem_of_here].
        apply last_Some in He0 as [l Hl].
        assert (e0 ∈ soldAs (runId r) entries) as Hin by (rewrite Hl; apply elem_of_app; right; apply list_elem_of_here).
        by apply list_elem_of_filter in Hin as [_ ?]. }
      cbn. by rewrite bool_decide_eq_true_2.
    + change (runId {| ru_item := e.2; ru_nameFrom := e.1 |}) with (it_menuItemId e.2).
      rewrite soldAs_snoc, decide_True by done.
      assert (soldAs (it_menuItemId e.2) entries = []) as ->.
      { apply filter_none. intros e' He' Hid. apply Hnew. rewrite <-Hid. by apply Hids. }
      cbn. unfold sumZ. cbn. split_and!; [lia|lia|]. intros _. by exists e.
Qed.

Lemma tallied_all days : tallied (entriesOf days) (foldl mergeDay [] days).
Proof.
  rewrite foldl_entries. induction (entriesOf days) as [|e entries IH] using rev_ind.
  - split; [constructor|by intros ? ?%elem_of_nil..].
  - rewrite foldl_snoc. by apply tallied_snoc.
Qed.

#[export] Instance compareItems_orders `{!Comparison localeCompare} :
  Comparison (compareItems localeCompare).
Proof.
  split.
  - intros x y. unfold compareItems. pose proof (cmp_flip (it_name x) (it_name y)).
    destruct (Z.eqb_spec (it_quantity y - it_quantity x) 0);
      destruct (Z.eqb_spec (it_quantity x - it_quantity y) 0); lia.
  - intros x y z. unfold compareItems. pose proof (cmp_trans (it_name x) (it_name y) (it_name z)).
    destruct (Z.eqb_spec (it_quantity y - it_quantity x) 0);
      destruct (Z.eqb_spec (it_quantity z - it_quantity y) 0);
      destruct (Z.eqb_spec (it_quantity z - it_quantity x) 0); lia.
Qed.

(** The leaderboard of a range conserves what was sold: an item is listed once, under
    its id whatever it was called, with the quantity and the revenue of every entry of it
    in the range; every item sold is ranked, by quantity and then by name; its name is
    the one on its last entry; and the limit cuts the ranking and nothing else. *)
Theorem leaderboard_conserves days limit :
  Comparison localeCompare →
  let entries := entriesOf days in
  let ranking := mergedItems localeCompare days in
  mergeTopItems localeCompare days limit = take limit ranking ∧
  NoDup (it_menuItemId <$> ranking) ∧
  (∀ id, id ∈ it_menuItemId <$> ranking ↔ soldAs id entries ≠ []) ∧
  (∀ item, item ∈ ranking →
    it_quantity item = sumZ (fun e => it_quantity e.2) (soldAs (it_menuItemId item) entries) ∧
    it_revenueMinor item = sumZ (fun e => it_revenueMinor e.2) (soldAs (it_menuItemId item) entries) ∧
    (StronglySorted (fun a b => textLe a.1 b.1) entries →
      ∃ e, last (soldAs (it_menuItemId item) entries) = Some e ∧ it_name item = it_name e.2)) ∧
  StronglySorted (fun a b => compareItems localeCompare a b ≤ 0) ranking ∧
  sumZ it_revenueMinor ranking = sumZ (fun e => it_revenueMinor e.2) entries.
Proof.
  intros Hcmp. cbv zeta. unfold mergeTopItems, mergedItems.
  destruct (tallied_all days) as [Hn Hids Hsold Hsums]. set (totals := foldl mergeDay [] days) in *.
  assert (it_menuItemId <$> (ru_item <$> totals) = runId <$> totals) as Hid.
  { by rewrite <-list_fmap_compose. }
  assert (it_menuItemId <$> sortWith (compareItems localeCompare) (ru_item <$> totals) ≡ₚ runId <$> totals) as Hp.
  { by rewrite sortWith_Permutation, Hid. }
  split_and!; [done|by rewrite Hp| | |by apply sortWith_sorted; apply _|].
  - intros id. rewrite Hp. split.
    + intros (r & -> & Hr)%list_elem_of_fmap. by apply Hsold.
    + intros Hne. destruct (soldAs id (entriesOf days)) as [|e l] eqn:E; [done|].
      assert (e ∈ soldAs id (entriesOf days)) as He by (rewrite E; apply list_elem_of_here).
      apply list_elem_of_filter in He as [<- He]. by apply Hids.
  - intros item Hi. rewrite sortWith_Permutation in Hi. apply list_elem_of_fmap in Hi as (r & -> & Hr).
    destruct (Hsums r Hr) as (H1 & H2 & H3). split_and!; [done|done|]. intros Hs.
    destruct (H3 Hs) as (e & ? & ? & _). eauto.
  - rewrite (sumZ_permutation _ _ _ (sortWith_Permutation _ _)), sumZ_fmap.
    rewrite <-(sumZ_partition (fun e : string * RollupItem => it_menuItemId e.2)
      (fun e => it_revenueMinor e.2) (runId <$> totals)); [|done|done].
    rewrite sumZ_fmap. apply sumZ_ext, Forall_forall. intros r Hr. by apply Hsums.
Qed.
End topitems.

(** ** The Z-report *)

Section zreport.
Context (localeCompare : string → string → Z) (config : Config) (tzOffset : string → Z → Z).

(** Reconciling reads and asks, and writes nothing. *)
Lemma reconcile_reads gw day db : ∃ r, run gw (reconcile day) db = (db, [], r).
Proof.
  unfold reconcile, Read. cbn [run fst snd]. destruct (gw (capturedTotalFor _)); cbn; by eexists.
Qed.

Lemma oneDay_spec day db rollups :
  oneDay localeCompare day rollups db = Ok (totalsFor localeCompare db rollups day).
Proof.
  unfold oneDay.
  assert (∀ d, d ∈ [day] → textLe (default "" (head [day])) d ∧ textLe d (List.last [day] "")) as Hb.
  { intros d ->%list_elem_of_singleton. cbn. by split; apply textLe_lt; left. }
  pose proof (dayTotals_spec localeCompare [day] db rollups Hb) as H.
  assert (length (unrolled rollups [day]) <= 1)%nat as Hl.
  { unfold unrolled. etrans; [apply length_filter|]. done. }
  destruct (Nat.ltb_spec MAX_LIVE_DAYS (length (unrolled rollups [day]))) as [Hlt|_].
  { unfold MAX_LIVE_DAYS in Hlt. lia. }
  destruct H as (totals & -> & Ht). cbn. unfold rowFor. by rewrite (Ht day (list_elem_of_here _ _)).
Qed.

(** The Z-report of a day that has not come is refused. Otherwise it is always served,
    with the day's figures, and changes nothing; it carries a gateway comparison, or one
    reason why it does not: the day is still trading, the gateway did not answer in time,
    or our own scoping query failed. The comparison lists only events of this day's
    orders, out of those nobody has acted on. *)
Theorem z_report gw now day rollups late scopingFails db :
  let current := businessDayAt config tzOffset now in
  let answer := run gw (zReport localeCompare config tzOffset now day rollups late scopingFails) db in
  if decide (textLt current day) then answer = (db, [], Err (UnprocessableRangeError "businessDay" current))
  else ∃ z, answer = (db, [], Ok z) ∧
    z = zReportOf day (bool_decide (day = current)) (totalsFor localeCompare db rollups day)
          (z_reconciliation z) (z_reconciliationUnavailable z) ∧
    (z_reconciliationUnavailable z = Some DAY_STILL_TRADING ↔ day = current) ∧
    (is_Some (z_reconciliation z) ↔ z_reconciliationUnavailable z = None) ∧
    (z_reconciliationUnavailable z = Some GATEWAY_UNREACHABLE ↔
      day ≠ current ∧ (late = true ∨ is_ok (run gw (reconcile day) db).2 = false)) ∧
    (∀ report, z_reconciliation z = Some report → ∀ e, e ∈ rr_unmatchedEvents report →
      ∃ key row pid, paymentEvents db !! key = Some row ∧ pe_providerEventId row = e ∧
        pe_paymentId row = Some pid ∧ paymentOnDay db day pid = true).
Proof.
  cbv zeta. unfold zReport, refuseIfAfterCurrent, currentBusinessDay.
  set (current := businessDayAt config tzOffset now).
  destruct (decide (textLt current day)) as [Hc|Hc].
  { by rewrite (bool_decide_eq_true_2 (textLt _ _)). }
  rewrite (bool_decide_eq_false_2 (textLt _ _)) by done. unfold Read. cbn [run fst snd].
  rewrite oneDay_spec. set (row := totalsFor _ _ _ _).
  destruct (decide (day = current)) as [Hd|Hd].
  { rewrite (bool_decide_eq_true_2 (day = current)) by done. eexists. split; [done|].
    cbn. split_and!; try done; naive_solver. }
  rewrite (bool_decide_eq_false_2 (day = current)) by done. rewrite run_after.
  destruct (reconcile_reads gw day db) as [r Hr]. rewrite Hr. unfold reconcileWithDeadline.
  destruct late.
  { cbn. eexists. split; [done|]. cbn. split_and!; try done; naive_solver. }
  rewrite Hr. destruct r as [report|e].
  - destruct scopingFails; cbn; (eexists; split; [done|]); cbn; split_and!; try done; try naive_solver.
    intros report' [= <-] e. cbn. unfold unmatchedEventsForDay.
    intros ([key ev] & -> & ([Hin Hp] & Hev%elem_of_map_to_list)%list_elem_of_filter)%list_elem_of_fmap.
    cbn in *. destruct (pe_paymentId ev) as [pid|] eqn:E; [|done]. by exists key, ev, pid.
  - cbn. eexists. split; [done|]. cbn. split_and!; try done; naive_solver.
Qed.
End zreport.

(** ** At the shop of the scenario *)

(** A collation: the order of code units. *)
Definition codeUnits (s t : string) : Z :=
  match String.compare s t with Lt => -1 | Eq => 0 | Gt => 1 end.

#[export] Instance codeUnits_orders : Comparison codeUnits.
Proof.
  assert (∀ s t, codeUnits s t ≤ 0 ↔ textLe s t) as H.
  { intros s t. unfold codeUnits, textLe. destruct (String.compare s t); split; try lia; try done. }
  split.
  - intros s t Hst. apply H. destruct (textLe_total s t) as [Hle|Hle]; [|done].
    apply H in Hle. lia.
  - intros s t u H1%H H2%H. apply H. by etrans.
Qed.

(** 2025-07-23, the scenario's day. *)
Definition shopDay : Z := 20292.

Lemma shopDay_label : dayLabel shopDay = "2025-07-23".
Proof. reflexivity. Qed.

Lemma commonDay_shop n : Z.abs n ≤ 100 → commonDay (shopDay + n).
Proof. unfold commonDay, shopDay. change (dayFromYear 1000) with (-354285). change (dayFromYear 10000) with 2932897. lia. Qed.

Lemma day_reconciles_witness :
  let row := liveRow codeUnits (pool_db Shop.closing) "2025-07-23" in
  rw_revenueMinor row = 34500 ∧ rw_refundsMinor row = 23000 ∧
  0 ≤ rw_refundsMinor row ≤ rw_revenueMinor row ∧
  rw_revenueMinor row = sumZ it_revenueMinor (rw_topItems row).
Proof.
  destruct (day_reconciles (port := stripePort) Shop.config Shop.tzOffset Shop.sha256 codeUnits
    Shop.closing "2025-07-23" Shop.closing_reachable) as (_ & _ & Hi & Hb & _).
  split; [vm_compute; reflexivity|]. split; [vm_compute; reflexivity|]. exact (conj Hb Hi).
Defined.

Lemma sales_by_day_witness :
  ∃ report, salesReport codeUnits Shop.config Shop.tzOffset Shop.noon
      (dayLabel (shopDay + -2)) (dayLabel (shopDay + 0)) by_day (pool_db Shop.closing) ∅ = Ok report ∧
    sb_revenueMinor <$> sp_buckets report = [0; 0; 34500] ∧ sp_provisional report = true.
Proof.
  eexists. rewrite (sales_by_day codeUnits Shop.config Shop.tzOffset Shop.noon (shopDay + -2) (shopDay + 0)
    (pool_db Shop.closing) ∅ (commonDay_shop (-2) ltac:(lia)) (commonDay_shop 0 ltac:(lia)) ltac:(lia)).
  split; [vm_compute; reflexivity|]. split; vm_compute; reflexivity.
Defined.

Lemma hours_add_up_witness :
  sumZ sb_revenueMinor (hourlyBuckets Shop.config Shop.tzOffset (pool_db Shop.closing)
    (dayLabel (shopDay + 0)) (dayLabel (shopDay + 0))) = 34500.
Proof.
  destruct (hours_add_up (port := stripePort) Shop.config Shop.tzOffset Shop.sha256 codeUnits
    Shop.closing (shopDay + 0) (shopDay + 0) Shop.closing_reachable
    (commonDay_shop 0 ltac:(lia)) (commonDay_shop 0 ltac:(lia))) as [-> _].
  - intros oid o Ho. exists (shopDay + 0). split; [exact (commonDay_shop 0 ltac:(lia))|].
    assert (map_Forall (fun _ o => o_businessDay o = "2025-07-23") (orders (pool_db Shop.closing))) as Hall.
    { apply (bool_decide_eq_true_1 _). vm_compute. reflexivity. }
    exact (Hall oid o Ho).
  - vm_compute. reflexivity.
Defined.

(** The next night, after nights that wrote nothing. *)
Definition night : Z := Shop.noon + 38 * 3600000.

Lemma nightly_catches_up_witness :
  finalized (rollUpYesterday codeUnits Shop.config Shop.tzOffset night (pool_db Shop.closing)
    (fun _ => Ok (pool_db Shop.closing)) ∅).2 "2025-07-23" = true.
Proof.
  refine (nightly_catches_up codeUnits Shop.config Shop.tzOffset night (fun _ => Ok (pool_db Shop.closing))
    (pool_db Shop.closing) ∅ "2025-07-23" "o2" Shop.paid_o2 _ _ Shop.find_o2 _ _ _).
  - vm_compute. reflexivity.
  - intros d. reflexivity.
  - reflexivity.
  - vm_compute. discriminate.
  - vm_compute. discriminate.
Defined.

Lemma reroll_reports_witness :
  ∃ rollups1 rollups2 correction,
    (∃ c, rollDay codeUnits Shop.config Shop.tzOffset night "2025-07-23" (pool_db Shop.midday) ∅
      = Ok (liveRow codeUnits (pool_db Shop.midday) "2025-07-23", c, rollups1)) ∧
    rollDay codeUnits Shop.config Shop.tzOffset night "2025-07-23" (pool_db Shop.closing) rollups1
      = Ok (liveRow codeUnits (pool_db Shop.closing) "2025-07-23", correction, rollups2).
Proof.
  destruct (reroll_reports codeUnits Shop.config Shop.tzOffset night (pool_db Shop.midday)
    (pool_db Shop.closing) night "2025-07-23" ∅) as (r1 & r2 & c & H1 & H2 & _).
  - vm_compute. reflexivity.
  - vm_compute. reflexivity.
  - exists r1, r2, c. exact (conj H1 H2).
Defined.

Lemma leaderboard_conserves_witness :
  let latte q := {| it_menuItemId := "m1"; it_name := "Latte"; it_quantity := q; it_revenueMinor := 100 * q |} in
  let flat q := {| it_menuItemId := "m1"; it_name := "Flat white"; it_quantity := q; it_revenueMinor := 100 * q |} in
  let days := [("2025-07-22", [latte 3]); ("2025-07-23", [flat 2])] in
  NoDup (it_menuItemId <$> mergedItems codeUnits days) ∧
  mergeTopItems codeUnits days 10 =
    [{| it_menuItemId := "m1"; it_name := "Flat white"; it_quantity := 5; it_revenueMinor := 500 |}].
Proof.
  intros latte flat days.
  destruct (leaderboard_conserves codeUnits days 10 codeUnits_orders) as (_ & Hn & _).
  split; [exact Hn|]. vm_compute. reflexivity.
Defined.
