(* ===== verification/Settlement.v ===== *)
(** * Settlement: what a gateway event does to the books

    The decision table of [decide-payment-outcome.ts] and the processor run to
    completion: what a capture writes and announces, and that no event is acted
    on twice. *)

From S2P Require Import Prelude Text Schema Errors Program OrderState Transition OrderDoors.
From S2P Require Import Gateway Webhooks CreatePayment Refunds Books Invariants Handlers System.
From S2P Require Import Scenario Replay.

(** ** The decision *)

(** The processor pays an order on one condition only: the event reports a
    capture, the intent is one we hold a payment for, the amount and currency are
    exactly that payment's, and the payment's order is awaiting payment. *)
Theorem decide_paid_iff outcome payment order pid oid :
  decidePaymentOutcome outcome payment order = MARK_PAID pid oid ↔
  ∃ i r, outcome = GwSUCCEEDED i (JNum (pr_amountMinor r)) (pr_currency r) ∧
    payment = Some r ∧ pr_id r = pid ∧
    order = Some {| or_id := oid; or_status := PENDING_PAYMENT |}.
Proof.
  split.
  - intros (i & r & [id st] & ? & ? & ? & ? & ? & ?)%decide_paid. simpl in *. subst. eauto 10.
  - intros (i & r & -> & -> & <- & ->). unfold decidePaymentOutcome, decideSuccess.
    rewrite Z.eqb_refl, bool_decide_true by done. done.
Qed.

(** No later event touches a captured payment: whatever arrives after it, in
    any order, the decision is never to change its status, and an event that
    contradicts it (or does not match our rows) is refused, so that it stays in
    the inbox for reconciliation to report. *)
Theorem captured_payment_final outcome r order :
  pr_status r = PaySUCCEEDED →
  (∀ pid st, decidePaymentOutcome outcome (Some r) order ≠ MARK_PAYMENT pid st) ∧
  (∀ i reason, outcome = GwFAILED i reason ∨ outcome = GwCANCELLED i →
    decidePaymentOutcome outcome (Some r) order = REFUSE ContradictsSettled).
Proof.
  intros Hs. split.
  - intros pid st. unfold decidePaymentOutcome, decideSuccess. rewrite Hs.
    repeat (case_match; try done).
  - intros i reason [-> | ->]; unfold decidePaymentOutcome; by rewrite Hs.
Qed.

(** ** One run of the processor *)

Section processor.
Context `{port : PaymentPort}.

(** Our side of an outcome, in one database. *)
Definition paymentFor (db : Database) (outcome : GatewayOutcome) : option PaymentRecord :=
  j ← outcomeIntent outcome; paymentByIntent db j.
Definition orderFor (db : Database) (outcome : GatewayOutcome) : option OrderRecord :=
  p ← paymentFor db outcome; orderRecord db (pr_orderId p).
Definition decisionFor (db : Database) (outcome : GatewayOutcome) : PaymentDecision :=
  decidePaymentOutcome outcome (paymentFor db outcome) (orderFor db outcome).

Lemma run_load {R} gw outcome (k : option PaymentRecord → option OrderRecord → prog R) db :
  run gw (load outcome k) db = run gw (k (paymentFor db outcome) (orderFor db outcome)) db.
Proof.
  unfold load, orderFor, paymentFor. destruct (outcomeIntent outcome) as [j|]; [|done]. simpl.
  by destruct (paymentByIntent db j) as [r|].
Qed.

(** Stamping never fails, and a stamped event is nobody's work any more. *)
Lemma markProcessed_total eid paymentId now s :
  ∃ b s', markProcessed eid paymentId now s = Ok (b, s') ∧ tx_pending s' = tx_pending s ∧
    pendingPayload (tx_db s') eid = None.
Proof.
  unfold markProcessed, pendingPayload. tx_simpl. unfold id.
  destruct (paymentEvents (tx_db s) !! eid) as [row|] eqn:E.
  - destruct (pe_processedAt row) eqn:Hp.
    + eexists _, _. split_and!; [done..|]. by rewrite E; simpl; rewrite Hp.
    + eexists _, _. split_and!; [done..|]. simpl. by rewrite lookup_insert_eq.
  - eexists _, _. split_and!; [done..|]. by rewrite E.
Qed.

Lemma markPaymentWork_total eid pid st now s :
  ∃ b s', markPaymentWork eid pid st now s = Ok (b, s') ∧ pendingPayload (tx_db s') eid = None.
Proof.
  unfold markPaymentWork. unfold mbind, txM_bind.
  assert (∃ a s1, setUnsettledPayment pid st s = Ok (a, s1)) as (a & s1 & ->).
  { unfold setUnsettledPayment. tx_simpl. unfold id.
    destruct (payments (tx_db s) !! pid); [case_bool_decide|]; eauto. }
  destruct (markProcessed_total eid (Some pid) now s1) as (b & s2 & -> & _ & Hp).
  destruct a as [oid|]; [|tx_simpl; eauto]. case_bool_decide; [|tx_simpl; eauto].
  tx_simpl. destruct (orders (tx_db s2) !! oid); simpl; eauto.
Qed.

(** The database and the announcements of a capture. *)
Definition settle (eid pid oid : string) (method : option PaymentMethod) (now : Z)
    (o : OrderRow) (db : Database) : TxState :=
  let db1 := moveOrder oid PENDING_PAYMENT PAID o systemActor None db in
  let db2 := with_payments (alter (succeeded method) pid (payments db1)) db1 in
  match markProcessed eid (Some pid) now (mkTx db2 []) with
  | Ok (_, s) => mkTx (tx_db s) [order_paid oid (o_kioskDeviceId o);
                                  payment_succeeded oid (o_kioskDeviceId o) pid]
  | Err _ => mkTx db []
  end.

Lemma markPaidWork_settles eid pid oid method now o db :
  orders db !! oid = Some o → o_status o = PENDING_PAYMENT →
  markPaidWork eid pid oid method now (mkTx db []) = Ok (tt, settle eid pid oid method now o db) ∧
  pendingPayload (tx_db (settle eid pid oid method now o db)) eid = None.
Proof.
  intros Ho Hst. unfold markPaidWork, settle. unfold mbind, txM_bind.
  rewrite transitionOrder_eq. cbn [tx_db tx_pending]. rewrite Ho, bool_decide_true by done.
  unfold writes. cbn [tx_db tx_pending].
  destruct (markProcessed_total eid (Some pid) now
    (mkTx (with_payments (alter (succeeded method) pid
      (payments (moveOrder oid PENDING_PAYMENT PAID o systemActor None db)))
      (moveOrder oid PENDING_PAYMENT PAID o systemActor None db)) [])) as (b & s & -> & Hpend & Hp).
  unfold emit. simpl in *. by rewrite Hpend.
Qed.

Lemma settle_pending eid pid oid method now o db :
  tx_pending (settle eid pid oid method now o db) =
  [order_paid oid (o_kioskDeviceId o); payment_succeeded oid (o_kioskDeviceId o) pid].
Proof.
  unfold settle. cbv zeta. edestruct (markProcessed_total eid (Some pid) now) as (b & s & -> & _).
  done.
Qed.

(** The whole of [processEvent], as one function of the database. *)
Lemma run_process gw eid now db :
  run gw (processEvent eid now) db =
  match pendingPayload db eid with
  | None => (db, [], Ok false)
  | Some payload =>
      match interpret payload with
      | Err e => (db, if isLostRace e then [] else [WebhookProcessingFailure], Ok false)
      | Ok outcome =>
          match decisionFor db outcome with
          | REFUSE _ => (db, [], Ok false)
          | SKIP _ =>
              match markProcessed eid (pr_id <$> paymentFor db outcome) now (mkTx db []) with
              | Ok (_, s) => (tx_db s, [], Ok false)
              | Err _ => (db, [], Ok false)
              end
          | MARK_PAYMENT pid st =>
              match markPaymentWork eid pid st now (mkTx db []) with
              | Ok (landed, s) => (tx_db s, published (tx_pending s) ++
                  (if landed then [PaymentsMetric STRIPE st] else []), Ok true)
              | Err _ => (db, [], Ok false)
              end
          | MARK_PAID pid oid =>
              let method := match intentOf db pid with
                            | None => None
                            | Some i => gw (resolveMethod i) end in
              match orders db !! oid with
              | Some o => let s := settle eid pid oid method now o db in
                  (tx_db s, [Published (tx_pending s); PaymentsMetric STRIPE PaySUCCEEDED], Ok true)
              | None => (db, [], Ok false)
              end
          end
      end
  end.
Proof.
  unfold processEvent. rewrite run_after. unfold Webhooks.apply, Read. cbn [run fst snd].
  destruct (pendingPayload db eid) as [payload|]; [|done].
  destruct (interpret payload) as [outcome|e]; [|by simpl; destruct (isLostRace e)].
  rewrite run_load. fold (decisionFor db outcome).
  destruct (decisionFor db outcome) as [pid oid|pid st|why|why] eqn:Hd; [..|done].
  - unfold decisionFor in Hd. apply decide_paid in Hd as (i & r & o & _ & Hr & _ & Ho & <- & Hst).
    unfold orderFor in Ho. rewrite Hr in Ho. simpl in Ho. unfold orderRecord in Ho.
    apply fmap_Some in Ho as (row & Hrow & ->). cbn [or_id or_status] in *. rewrite Hrow.
    unfold markPaid, Read. cbv zeta. cbn [run fst snd].
    destruct (intentOf db pid) as [id|]; cbn [run]; unfold mbind, prog_bind;
      rewrite run_after, run_afterCommit;
      rewrite (proj1 (markPaidWork_settles _ _ _ _ _ _ _ Hrow Hst)), settle_pending; done.
  - unfold mbind, prog_bind. rewrite run_after, run_afterCommit.
    destruct (markPaymentWork_total eid pid st now (mkTx db [])) as (b & s & -> & _).
    destruct b; simpl; by rewrite ?app_nil_r.
  - unfold db_transaction, inTransaction, transaction. unfold mbind, prog_bind. simpl.
    destruct (markProcessed_total eid (pr_id <$> paymentFor db outcome) now (mkTx db []))
      as (b & s & -> & _). done.
Qed.

(** Processing is idempotent and never throws: whatever a first pass over an
    event did, a second pass, at any time and against any gateway, changes
    nothing, publishes nothing and reports that it applied nothing. *)
Theorem process_twice gw gw' eid now now' db :
  let first := run gw (processEvent eid now) db in
  let second := run gw' (processEvent eid now') first.1.1 in
  is_ok first.2 = true ∧ second.1.1 = first.1.1 ∧ second.2 = Ok false ∧
  (∀ events, Published events ∉ second.1.2).
Proof.
  cbv zeta. rewrite (run_process gw eid now db).
  assert (∀ db', pendingPayload db' eid = None →
    run gw' (processEvent eid now') db' = (db', [], Ok false)) as Hdone.
  { intros db' Hp. rewrite run_process. by rewrite Hp. }
  assert (∀ events, Published events ∉ ([] : list Effect)) as Hnil by set_solver.
  destruct (pendingPayload db eid) as [payload|] eqn:Hp; [|by cbn [fst snd is_ok]; rewrite Hdone].
  destruct (interpret payload) as [outcome|e] eqn:Hi.
  2:{ cbn [fst snd is_ok]. rewrite run_process, Hp, Hi. split_and!; [done..|]. destruct (isLostRace e); set_solver. }
  destruct (decisionFor db outcome) as [pid oid|pid st|why|why] eqn:Hd.
  - pose proof Hd as Hd2. unfold decisionFor in Hd2.
    apply decide_paid in Hd2 as (i & r & o & _ & Hr & _ & Ho & <- & Hst).
    unfold orderFor in Ho. rewrite Hr in Ho. apply fmap_Some in Ho as (row & Hrow & ->).
    cbn [or_id or_status] in *. rewrite Hrow. cbn [fst snd is_ok].
    rewrite Hdone; [done|]. by apply markPaidWork_settles.
  - destruct (markPaymentWork_total eid pid st now (mkTx db [])) as (b & s & -> & Hs).
    cbn [fst snd is_ok]. by rewrite Hdone.
  - destruct (markProcessed_total eid (pr_id <$> paymentFor db outcome) now (mkTx db []))
      as (b & s & -> & _ & Hs). cbn [fst snd is_ok]. by rewrite Hdone.
  - cbn [fst snd is_ok]. rewrite run_process, Hp, Hi, Hd. done.
Qed.

(** C17. A matching capture settles everything at once: if an unprocessed event
    reports the capture of a payment we hold, for its amount and currency, and
    its order awaits payment, one pass moves the order to PAID, the payment to
    SUCCEEDED with whatever method the gateway names, stamps the event with the
    payment, appends one audit row, and only then announces the order as paid
    and the payment as succeeded. *)
Theorem capture_settles gw eid now db row i pid p o :
  Inv db →
  paymentEvents db !! eid = Some row → pe_processedAt row = None →
  payments db !! pid = Some p → p_providerIntentId p = Some i →
  interpret (pe_payload row) =
    Ok (GwSUCCEEDED (JStr i) (JNum (p_amountMinor p)) (p_currency p)) →
  orders db !! p_orderId p = Some o → o_status o = PENDING_PAYMENT →
  ∃ db', run gw (processEvent eid now) db =
    (db', [Published [order_paid (p_orderId p) (o_kioskDeviceId o);
                      payment_succeeded (p_orderId p) (o_kioskDeviceId o) pid];
           PaymentsMetric STRIPE PaySUCCEEDED], Ok true) ∧
  orders db' = <[p_orderId p := moved PENDING_PAYMENT PAID o]> (orders db) ∧
  payments db' = <[pid := succeeded (gw (resolveMethod i)) p]> (payments db) ∧
  (∃ row', paymentEvents db' !! eid = Some row' ∧ pe_processedAt row' = Some now ∧
    pe_paymentId row' = Some pid) ∧
  length (orderStatusHistory db') = S (length (orderStatusHistory db)).
Proof.
  intros [[HM _ _ _ _ _] _] Hrow Hunp Hp Hpi Hint Ho Hst.
  assert (pendingPayload db eid = Some (pe_payload row)) as Hpend.
  { unfold pendingPayload. rewrite Hrow. simpl. by rewrite Hunp. }
  set (outcome := GwSUCCEEDED _ _ _) in Hint.
  assert (paymentFor db outcome = Some {| pr_id := pid; pr_orderId := p_orderId p;
    pr_amountMinor := p_amountMinor p; pr_currency := p_currency p; pr_status := p_status p |}) as Hpf.
  { unfold paymentFor. simpl. unfold paymentByIntent.
    destruct (head _) as [[q r]|] eqn:Hh.
    - apply head_Some_elem_of, list_elem_of_filter in Hh as [Hr Hin%elem_of_map_to_list].
      simpl in Hr. pose proof (pay_intent _ _ _ HM _ _ _ _ _ Hp Hin Hpi Hr) as <-. by simplify_eq.
    - apply head_None in Hh. exfalso.
      assert ((pid, p) ∈ filter (fun e => p_providerIntentId e.2 = Some i) (map_to_list (payments db)))
        as Hin by (apply list_elem_of_filter; split; [done|by apply elem_of_map_to_list]).
      rewrite Hh in Hin. by apply elem_of_nil in Hin. }
  assert (decisionFor db outcome = MARK_PAID pid (p_orderId p)) as Hd.
  { unfold decisionFor, orderFor. rewrite Hpf. simpl. unfold orderRecord. rewrite Ho. simpl.
    unfold decideSuccess. simpl. by rewrite Z.eqb_refl, bool_decide_true, Hst by done. }
  assert (intentOf db pid = Some i) as Hio by (unfold intentOf; by rewrite Hp).
  eexists. rewrite run_process, Hpend, Hint, Hd, Hio, Ho. cbv zeta. rewrite settle_pending.
  split; [done|]. unfold settle, markProcessed. tx_simpl. unfold id. rewrite Hrow, Hunp. simpl.
  rewrite (alter_is_insert _ _ _ p) by done. split_and!; [done..| |].
  - eexists. by rewrite lookup_insert_eq.
  - rewrite length_app. simpl. lia.
Qed.
End processor.

(** ** The inbox *)

(** Verification accepts exactly what some configured secret signed, whichever
    it is: a rotated secret still verifies, and an event no secret signed is
    refused as WEBHOOK_SIGNATURE_INVALID before anything of it is read. *)
Theorem verify_any_secret stripe secrets rawBody signature :
  (is_ok (verify stripe secrets rawBody signature) = true ↔
    ∃ secret, secret ∈ secrets ∧ is_ok (constructEvent stripe rawBody signature secret) = true) ∧
  (is_ok (verify stripe secrets rawBody signature) = false →
    verify stripe secrets rawBody signature = Err WebhookSignatureInvalidError).
Proof.
  unfold verify. induction secrets as [|secret secrets IH]; simpl.
  - split; [|done]. split; [done|]. by intros (? & ?%elem_of_nil & _).
  - destruct (constructEvent stripe rawBody signature secret) as [ev|e] eqn:E.
    + split; [|done]. split; [|done]. intros _. exists secret. rewrite E. split; [left|done].
    + destruct IH as [IH1 IH2]. split; [|done]. rewrite IH1. setoid_rewrite elem_of_cons.
      split; [naive_solver|]. intros (s & [->|Hs] & Hok); [by rewrite E in Hok|eauto].
Qed.

(** A webhook is stored once and acknowledged every time: an authentic
    delivery whose event id is new is inserted unprocessed and the processor is
    kicked; a redelivery of the same event id writes nothing and kicks nobody. *)
Theorem receive_dedupes stripe secrets rawBody signature event outcome rowId now db gw :
  parseWebhook stripe secrets rawBody signature = Ok (event, outcome) →
  paymentEvents db !! rowId = None →
  let known := map_Exists (fun _ row => pe_providerEventId row = ge_eventId event)
                 (paymentEvents db) in
  (known → run gw (receive stripe secrets (Some rawBody) (Some signature) rowId now) db =
    (db, [], Ok tt)) ∧
  (¬ known → ∃ db', run gw (receive stripe secrets (Some rawBody) (Some signature) rowId now) db =
    (db', [KickProcessor rowId], Ok tt) ∧ pendingPayload db' rowId = Some (ge_payload event) ∧
    ∀ eid', eid' ≠ rowId → paymentEvents db' !! eid' = paymentEvents db !! eid').
Proof.
  intros Hparse Hnew known. unfold receive. rewrite Hparse. simpl. unfold recordEvent. split.
  - intros Hk. by rewrite bool_decide_true.
  - intros Hk. rewrite !bool_decide_false; [|rewrite Hnew; by intros []|done]. simpl.
    eexists. split_and!; [done| |].
    + unfold pendingPayload. simpl. by rewrite lookup_insert_eq.
    + intros eid' Hne. simpl. by rewrite lookup_insert_ne.
Qed.

(** ** Instances *)

Lemma captured_payment_final_witness :
  decidePaymentOutcome (GwCANCELLED (JStr "pi_1"))
    (Some {| pr_id := "p1"; pr_orderId := "o1"; pr_amountMinor := 100; pr_currency := "THB";
             pr_status := PaySUCCEEDED |}) None = REFUSE ContradictsSettled.
Proof.
  refine (proj2 (captured_payment_final _ _ _ _) (JStr "pi_1") JNull (or_intror eq_refl)).
  reflexivity.
Defined.

(** The shop with the webhook stored and not yet processed. *)
Definition delivered : Pool := foldl (serve Shop.gw) (idle Shop.morning) (take 5 Shop.day).

Lemma delivered_inv : Inv (H := stripePort) (pool_db delivered).
Proof.
  apply (reachable_inv Shop.config Shop.tzOffset Shop.sha256). exists Shop.morning.
  split; [by split_and!|]. apply serve_steps. repeat constructor.
Qed.

Definition pending_p2 : PaymentRow :=
  Eval vm_compute in default Shop.blankPayment (payments (pool_db delivered) !! "p2").

Definition stored_e1 : PaymentEventRow := {|
  pe_providerEventId := "evt_1"; pe_eventType := "payment_intent.succeeded"; pe_paymentId := None;
  pe_payload := Shop.succeededPayload; pe_receivedAt := Shop.noon; pe_processedAt := None; pe_payloadTrimmedAt := None |}.

Lemma capture_settles_witness :
  ∃ db', run Shop.gw (processEvent (port := stripePort) "e1" Shop.noon) (pool_db delivered) =
    (db', [Published [order_paid "o2" (Some "k1"); payment_succeeded "o2" (Some "k1") "p2"];
           PaymentsMetric STRIPE PaySUCCEEDED], Ok true) ∧
    payments db' = <["p2" := succeeded (Some PROMPTPAY) pending_p2]> (payments (pool_db delivered)).
Proof.
  edestruct (capture_settles (port := stripePort) Shop.gw "e1" Shop.noon (pool_db delivered)
    stored_e1 "pi_2" "p2" pending_p2 Shop.waiting_o2 delivered_inv) as (db' & Hrun & _ & Hp & _).
  - vm_compute. reflexivity.
  - reflexivity.
  - vm_compute. reflexivity.
  - reflexivity.
  - vm_compute. reflexivity.
  - vm_compute. reflexivity.
  - reflexivity.
  - exists db'. exact (conj Hrun Hp).
Defined.

Lemma receive_dedupes_witness :
  run Shop.gw (receive Shop.stripe ["whsec"] (Some "body") (Some "whsec") "e2" Shop.noon)
    (pool_db delivered) = (pool_db delivered, [], Ok tt).
Proof.
  eapply (receive_dedupes Shop.stripe ["whsec"] "body" "whsec").
  - vm_compute. reflexivity.
  - vm_compute. reflexivity.
  - apply (bool_decide_unpack _). vm_compute. exact I.
Defined.
