(* ===== verification/Doors.v ===== *)
(** * Doors: what each way of moving an order does, branch by branch

    The KDS route, checkout, cancellation, expiry, refunds and reconciliation,
    run to completion on an arbitrary database. *)

From S2P Require Import Prelude Text Schema Errors Program OrderState Transition BusinessDay.
From S2P Require Import CreateOrder OrderDoors Gateway CreatePayment Refunds Books Invariants.
From S2P Require Import Handlers System Scenario Replay.

(** The KDS route, in full: an unknown order is a 404, a move the kitchen may
    not make is a 409 naming where the order stands, and any other moves the
    order, appends its audit row under the caller's name and, once committed,
    announces it (as ready when it is); a refused move writes and says nothing. *)
Theorem transition_outcome gw principal oid to db :
  run gw (transition principal oid to) db =
  match orders db !! oid with
  | None => (db, [], Err (ResourceNotFoundError "order" oid))
  | Some o =>
      if isStaffTransition (o_status o) to then
        (moveOrder oid (o_status o) to o (actorOf principal) None db,
         [Published [if bool_decide (to = READY) then order_ready oid (o_kioskDeviceId o)
                     else order_updated oid (o_kioskDeviceId o)]],
         Ok (oid, moved (o_status o) to o))
      else (db, [], Err (OrderInvalidTransitionError (o_status o) to))
  end.
Proof.
  unfold transition, Read. cbn [run fst snd]. unfold statusOf.
  destruct (orders db !! oid) as [o|] eqn:Ho; [|done]. cbn [fmap option_fmap option_map].
  destruct (isStaffTransition (o_status o) to); [|done].
  cbn [negb]. rewrite run_afterCommit. unfold statusWork, mbind, txM_bind.
  rewrite transitionOrder_eq. cbn [tx_db]. rewrite Ho, bool_decide_true by done. done.
Qed.

(** ** Checkout *)

(** The next number of a day is never taken. *)
Lemma number_free db row :
  queue_ok (orders db) (orderNumberCounters db) →
  o_orderNumber row = Some (formatOrderNumber (counterOf db (o_businessDay row) + 1)) →
  ∀ oid o, orders db !! oid = Some o → o_businessDay o = o_businessDay row →
    o_orderNumber o ≠ o_orderNumber row.
Proof.
  intros HQ Hn oid o Ho Hd Heq. rewrite Hn in Heq.
  destruct (queue_range _ _ HQ _ _ _ Ho Heq) as (k & Hk & Hr).
  pose proof (queue_nonneg _ _ HQ (o_businessDay row)). rewrite Hd in Hr.
  unfold counterOf, counter in *. apply formatOrderNumber_inj in Hk; lia.
Qed.

(** A parked draft always checks out: it gets the next number of its own
    business day, a full payment window from now, and never a unique-violation
    500, because the number after the counter is free in every reachable
    database. *)
Theorem checkout_draft `{PaymentPort} gw config principal oid now db o :
  Inv db → orders db !! oid = Some o → o_status o = DRAFT →
  let n := counterOf db (o_businessDay o) + 1 in
  let row := queued (formatOrderNumber n) (now + ORDER_EXPIRY_SECONDS config * 1000)
               (moved DRAFT PENDING_PAYMENT o) in
  ∃ db', run gw (checkout config principal oid now) db = (db', [], Ok (oid, row)) ∧
    orders db' = <[oid := row]> (orders db) ∧
    orderNumberCounters db' = <[o_businessDay o := n]> (orderNumberCounters db).
Proof.
  intros HI Ho Hst n row. unfold checkout, Read. cbn [run fst snd]. unfold statusAndDay.
  rewrite Ho. cbn [fmap option_fmap option_map]. rewrite bool_decide_true by done. cbn [negb].
  unfold db_transaction, inTransaction, transaction. cbn [run].
  unfold checkoutWork, mbind, txM_bind. rewrite transitionOrder_eq. cbn [tx_db tx_pending].
  rewrite Ho, bool_decide_true by done. rewrite nextOrderNumber_eq. cbv zeta.
  unfold reads. cbn [tx_db tx_pending]. unfold id.
  change (counterOf (moveOrder oid DRAFT PENDING_PAYMENT o (actorOf principal) None db)
    (o_businessDay o) + 1) with n. fold row.
  set (db2 := with_orderNumberCounters _ _).
  assert (numberTaken db2 row = false) as ->.
  { unfold numberTaken. cbn [o_orderNumber row queued]. apply bool_decide_eq_false.
    intros (oid' & o' & Ho' & Hd & Hn). subst db2. simpl in Ho'.
    apply lookup_insert_Some in Ho' as [[<- <-]|[Hne Ho']].
    - simpl in Hn. destruct HI as [[_ _ HQ _ _ _] _].
      by rewrite (queue_draft _ _ HQ _ _ Ho Hst) in Hn.
    - by eapply (number_free db row (inv_queue _ (inv_core _ HI))). }
  eexists. split; [done|]. simpl. by rewrite insert_insert_eq.
Qed.

(** ** Cancellation *)

Lemma setUnsettled_run pid st s p :
  payments (tx_db s) !! pid = Some p → p_status p ≠ PaySUCCEEDED →
  setUnsettledPayment pid st s =
    Ok (Some (p_orderId p),
        mkTx (with_payments (<[pid := with_status st p]> (payments (tx_db s))) (tx_db s))
          (tx_pending s)).
Proof.
  intros Hp Hs. unfold setUnsettledPayment. tx_simpl. unfold id.
  by rewrite Hp, bool_decide_false.
Qed.

Lemma livePayment_is db oid pid i :
  livePayment db oid = Some (pid, i) →
  ∃ p, payments db !! pid = Some p ∧ p_orderId p = oid ∧ isLive p = true ∧ p_providerIntentId p = i.
Proof.
  unfold livePayment. intros H. apply fmap_Some in H as ([q p] & Hq & [= -> ->]).
  apply head_Some_elem_of, list_elem_of_filter in Hq as [[Ho Hl] Hin%elem_of_map_to_list]. eauto.
Qed.

(** The move itself, once the gateway has let go: order and payment in one transaction. *)
Lemma cancelMove_run gw principal oid reason db o pid i :
  orders db !! oid = Some o → livePayment db oid = Some (pid, i) →
  run gw (cancelMove principal oid (o_status o) reason (Some (pid, i))) db =
    (with_payments (alter (with_status PayCANCELLED) pid (payments db))
       (moveOrder oid (o_status o) CANCELLED o (actorOf principal) reason db),
     [Published [order_updated oid (o_kioskDeviceId o)]; PaymentsMetric STRIPE PayCANCELLED],
     Ok (oid, moved (o_status o) CANCELLED o)).
Proof.
  intros Ho Hlive. destruct (livePayment_is _ _ _ _ Hlive) as (p & Hp & _ & Hl%live_not_succeeded & _).
  unfold cancelMove. unfold mbind at 1, prog_bind. rewrite run_after, run_afterCommit.
  unfold cancelWork, mbind, txM_bind. rewrite transitionOrder_eq. cbn [tx_db tx_pending].
  rewrite Ho, bool_decide_true by done. erewrite setUnsettled_run by done.
  rewrite (alter_is_insert _ _ _ p) by done. done.
Qed.

(** C18. Cancellation asks the gateway first and believes it: with an intent in
    flight, an unreachable gateway is a 503 and an intent that already succeeded
    a 409 ORDER_ALREADY_PAID, both leaving every table as it was; only a
    cancelled intent lets the order move to CANCELLED, and then its payment is
    CANCELLED in the same transaction and the order announced after it. *)
Theorem cancel_asks_gateway gw principal oid reason db o pid i :
  orders db !! oid = Some o → ownOrder principal o = true → o_status o ∈ CANCELLABLE →
  livePayment db oid = Some (pid, Some i) →
  run gw (cancel principal oid reason) db =
  match gw (cancelIntent i) with
  | Err _ => (db, [], Err cancelUnavailable)
  | Ok ALREADY_SUCCEEDED => (db, [], Err OrderAlreadyPaidError)
  | Ok IntentCANCELLED =>
      (with_payments (alter (with_status PayCANCELLED) pid (payments db))
         (moveOrder oid (o_status o) CANCELLED o (actorOf principal) reason db),
       [Published [order_updated oid (o_kioskDeviceId o)]; PaymentsMetric STRIPE PayCANCELLED],
       Ok (oid, moved (o_status o) CANCELLED o))
  end.
Proof.
  intros Ho Hown Hst Hlive. unfold cancel, Read. cbn [run fst snd]. unfold ownStatus.
  rewrite Ho. cbn [mbind option_bind]. rewrite Hown, bool_decide_true by done. cbn [negb run fst snd].
  rewrite Hlive. cbn [run]. destruct (gw (cancelIntent i)) as [[|]|e]; [|done..]. by apply cancelMove_run.
Qed.

(** ** Expiry *)

(** What one overdue order becomes when the gateway lets go of its intent. *)
Definition expired (oid : string) (o : OrderRow) (db : Database) : Database :=
  let db1 := moveOrder oid PENDING_PAYMENT EXPIRED o systemActor None db in
  match livePayment db oid with
  | None => db1
  | Some (pid, _) => with_payments (alter (with_status PayCANCELLED) pid (payments db1)) db1
  end.

Lemma run_expireMove gw oid o live db :
  orders db !! oid = Some o → o_status o = PENDING_PAYMENT → livePayment db oid = live →
  (run gw (expireMove oid live) db).1.1 = expired oid o db ∧
  (run gw (expireMove oid live) db).2 = Ok true.
Proof.
  intros Ho Hst Hlive. unfold expireMove, inTransaction, transaction, expired. rewrite Hlive. cbn [run].
  unfold expireWork, mbind, txM_bind. rewrite transitionOrder_eq. cbn [tx_db tx_pending].
  rewrite Ho, bool_decide_true by done. by destruct live as [[pid i]|].
Qed.

(** Expiry of one order: an intent the gateway reports as captured, or cannot
    be asked about, leaves the order and its payment alone for the webhook or the
    next tick; otherwise the order is EXPIRED and its live payment CANCELLED
    together. An order that is no longer awaiting payment is never touched. *)
Theorem expire_one gw oid db o :
  orders db !! oid = Some o →
  let result := run gw (expireOne oid) db in
  (o_status o ≠ PENDING_PAYMENT → result.1.1 = db ∧ result.2 = Ok false) ∧
  (o_status o = PENDING_PAYMENT →
    match livePayment db oid with
    | Some (_, Some i) =>
        match gw (cancelIntent i) with
        | Ok IntentCANCELLED => result.1.1 = expired oid o db ∧ result.2 = Ok true
        | _ => result = (db, [], Ok false)
        end
    | _ => result.1.1 = expired oid o db ∧ result.2 = Ok true
    end).
Proof.
  intros Ho result. subst result. unfold expireOne, Read. cbn [run fst snd]. split.
  - intros Hst.
    assert (∀ live, (run gw (expireMove oid live) db).1.1 = db ∧
      (run gw (expireMove oid live) db).2 = Ok false) as Hmove.
    { intros live. unfold expireMove, inTransaction, transaction. cbn [run].
      unfold expireWork, mbind, txM_bind. rewrite transitionOrder_eq. cbn [tx_db].
      by rewrite Ho, bool_decide_false. }
    destruct (livePayment db oid) as [[pid [i|]]|]; try apply Hmove. cbn [run].
    destruct (gw (cancelIntent i)) as [[|]|]; try done; apply Hmove.
  - intros Hst. destruct (livePayment db oid) as [[pid [i|]]|] eqn:Hl;
      try by apply run_expireMove. cbn [run].
    destruct (gw (cancelIntent i)) as [[|]|]; try done; by apply run_expireMove.
Qed.

Lemma expired_orders oid o db :
  orders (expired oid o db) = <[oid := moved PENDING_PAYMENT EXPIRED o]> (orders db).
Proof. unfold expired. by destruct (livePayment db oid) as [[pid i]|]. Qed.

(** The loop of a tick, against a gateway that lets every intent go. *)
Lemma run_expireEach (gw : Gateway) ids : ∀ db n,
  (∀ i, gw (cancelIntent i) = Ok IntentCANCELLED) → NoDup ids →
  (∀ oid, oid ∈ ids → ∃ o, orders db !! oid = Some o ∧ o_status o = PENDING_PAYMENT) →
  let result := run gw (expireEach ids n) db in
  result.2 = Ok (n + Z.of_nat (length ids)) ∧
  (∀ oid, oid ∈ ids → o_status <$> orders result.1.1 !! oid = Some EXPIRED) ∧
  (∀ oid, oid ∉ ids → orders result.1.1 !! oid = orders db !! oid).
Proof.
  induction ids as [|id ids IH]; intros db n Hgw Hnd Hpend; cbn zeta.
  { simpl. split_and!; [f_equal; lia| |done]. by intros oid ?%elem_of_nil. }
  apply NoDup_cons in Hnd as [Hni Hnd].
  destruct (Hpend id) as (o & Ho & Hst); [left|].
  assert ((run gw (expireOne id) db).1.1 = expired id o db ∧
          (run gw (expireOne id) db).2 = Ok true) as [Hdb Hres].
  { unfold expireOne, Read. cbn [run fst snd].
    destruct (livePayment db id) as [[pid [i|]]|] eqn:Hl; try by apply run_expireMove. cbn [run].
    rewrite Hgw. by apply run_expireMove. }
  unfold expireEach; fold expireEach. unfold mbind, prog_bind. rewrite run_after.
  destruct (run gw (expireOne id) db) as [[db1 log1] r]. simpl in Hdb, Hres. subst.
  specialize (IH (expired id o db) (n + 1) Hgw Hnd).
  destruct (run gw (expireEach ids (n + 1)) (expired id o db)) as [[db2 log2] r2].
  cbn [fst snd] in *. destruct IH as (IH1 & IH2 & IH3).
  { intros oid Hin. rewrite expired_orders.
    rewrite lookup_insert_ne by (by intros <-). apply Hpend. by right. }
  split_and!.
  - rewrite IH1. f_equal. simpl. lia.
  - intros oid [->|Hin]%elem_of_cons; [|by apply IH2].
    rewrite IH3, expired_orders, lookup_insert_eq by done. done.
  - intros oid [Hne Hnin]%not_elem_of_cons.
    by rewrite IH3, expired_orders, lookup_insert_ne by done.
Qed.

(** A tick expires exactly what is overdue: when the gateway lets every intent
    go, each order the tick selected ends EXPIRED, the count it reports is their
    number, every other order is untouched, and it selects at most 200, only
    orders awaiting payment whose deadline has passed. *)
Theorem expire_tick (gw : Gateway) now db :
  (∀ i, gw (cancelIntent i) = Ok IntentCANCELLED) →
  let due := overdue now db in
  let result := run gw (expireOverdue now) db in
  result.2 = Ok (Z.of_nat (length due)) ∧ (length due ≤ 200)%nat ∧
  (∀ oid, oid ∈ due → (∃ o t, orders db !! oid = Some o ∧ o_status o = PENDING_PAYMENT ∧
    o_expiresAt o = Some t ∧ t < now) ∧ o_status <$> orders result.1.1 !! oid = Some EXPIRED) ∧
  (∀ oid, oid ∉ due → orders result.1.1 !! oid = orders db !! oid).
Proof.
  intros Hgw due result.
  assert (∀ oid, oid ∈ due → ∃ o t, orders db !! oid = Some o ∧ o_status o = PENDING_PAYMENT ∧
    o_expiresAt o = Some t ∧ t < now) as Hdue.
  { intros oid Hin. unfold due, overdue in Hin.
    apply (subseteq_take MAX_PER_TICK) in Hin.
    apply list_elem_of_fmap in Hin as ([oid' o] & -> & [[Hst Ht] Hin%elem_of_map_to_list]%list_elem_of_filter).
    simpl in *. destruct (o_expiresAt o) as [t|] eqn:E; [|done]. exists o, t. split_and!; [done..|lia]. }
  assert (NoDup due) as Hnd.
  { eapply sublist_NoDup; [|apply sublist_take].
    eapply sublist_NoDup; [apply (NoDup_fst_map_to_list (orders db))|].
    apply fmap_sublist, sublist_filter. }
  destruct (run_expireEach gw due db 0 Hgw Hnd) as (H1 & H2 & H3).
  { intros oid (o & t & ? & ? & _)%Hdue. eauto. }
  split_and!; [by rewrite Z.add_0_l in H1| |by eauto|done].
  unfold due, overdue. rewrite length_take. unfold MAX_PER_TICK. lia.
Qed.

(** ** Refunds *)

Section refunds.
Context `{port : PaymentPort} (config : Config) (tzOffset : string → Z → Z).

(** A same-day refund of a captured payment, in full: asking for more than is
    left is a 422 that names what is left and writes nothing; otherwise exactly
    one refund row is added, and the order moves to REFUNDED, and is announced,
    exactly when this refund takes the last of the captured amount. A partial
    refund leaves the order where it was and says nothing. *)
Theorem refund_outcome gw userId rid pid input now db p o :
  Inv db → payments db !! pid = Some p → p_status p = PaySUCCEEDED →
  orders db !! p_orderId p = Some o → o_businessDay o = businessDayAt config tzOffset now →
  refunds db !! rid = None → 0 < cr_amountMinor input → int4 (cr_amountMinor input) = true →
  let left := p_amountMinor p - refundedTotal db pid in
  let db1 := with_refunds (<[rid := refundRow userId pid input]> (refunds db)) db in
  let view full := {| rv_id := rid; rv_paymentId := pid; rv_amountMinor := cr_amountMinor input;
                      rv_reason := cr_reason input; rv_status := RefSUCCEEDED;
                      rv_fullyRefunded := full |} in
  run gw (refund config tzOffset userId rid pid input now) db =
  if left <? cr_amountMinor input then
    (db, [], Err (RefundExceedsRemainingError (cr_amountMinor input) left))
  else if left =? cr_amountMinor input then
    (moveOrder (p_orderId p) (o_status o) REFUNDED o
       {| ta_actorType := USER; ta_actorId := Some userId |} (Some (cr_reason input)) db1,
     [Published [order_updated (p_orderId p) (o_kioskDeviceId o)]], Ok (view true))
  else (db1, [], Ok (view false)).
Proof.
  intros HI Hp Hs Ho Hd Hr Hpos H4 left db1 view. unfold refund, Read. cbn [run fst snd].
  unfold findPayment. rewrite Hp, bool_decide_true by done. cbn [negb run fst snd].
  unfold findOrder. rewrite Ho, bool_decide_true by done. cbn [negb]. rewrite run_afterCommit.
  unfold refundWork, mbind, txM_bind, reads. cbn [tx_db]. fold left.
  destruct (left <? cr_amountMinor input) eqn:Hlt; [done|].
  unfold insertRefund, mbind, txM_bind, reads. cbn [tx_db]. unfold id.
  cbn [r_amountMinor refundRow r_paymentId]. rewrite H4. cbn [negb].
  destruct (cr_amountMinor input <=? 0) eqn:H0; [lia|].
  rewrite bool_decide_false by (rewrite Hr; by intros []).
  rewrite bool_decide_false by (rewrite Hp; done).
  unfold writes. cbn [tx_db tx_pending].
  destruct (left =? cr_amountMinor input) eqn:Hfull.
  - replace (refundedTotal db pid + cr_amountMinor input =? p_amountMinor p) with true by lia.
    unfold when, mbind, txM_bind. rewrite transitionOrder_eq. cbn [tx_db orders with_refunds].
    rewrite Ho, bool_decide_true by done. done.
  - replace (refundedTotal db pid + cr_amountMinor input =? p_amountMinor p) with false by lia.
    done.
Qed.

(** What cannot be refunded is refused before anything is locked or written:
    an unknown payment is a 404, an uncaptured one a 409, and so is a captured
    one whose order belongs to another business day. *)
Theorem refund_refused gw userId rid pid input now db :
  Inv db →
  match payments db !! pid with
  | None => run gw (refund config tzOffset userId rid pid input now) db =
              (db, [], Err (ResourceNotFoundError "payment" pid))
  | Some p => ∃ o, orders db !! p_orderId p = Some o ∧
      (p_status p ≠ PaySUCCEEDED ∨ o_businessDay o ≠ businessDayAt config tzOffset now →
        ∃ why, run gw (refund config tzOffset userId rid pid input now) db =
          (db, [], Err (PaymentNotRefundableError why)))
  end.
Proof.
  intros [[HM _ _ _ _ _] _]. unfold refund, Read. cbn [run fst snd]. unfold findPayment.
  destruct (payments db !! pid) as [p|] eqn:Hp; [|done].
  destruct (pay_order _ _ _ HM _ _ Hp) as (o & Ho & _). exists o. split; [done|]. intros Hor.
  case_bool_decide as Hs; cbn [negb]; [|by eexists]. cbn [run fst snd]. unfold findOrder.
  rewrite Ho. rewrite bool_decide_false by naive_solver. by eexists.
Qed.
End refunds.

(** ** Reconciliation *)

Section reconciliation.
Context (config : Config) (tzOffset : string → Z → Z) (stripe : StripeClient).

(** What Stripe says it captured for an intent, when it answers. *)
Definition capturedOf (id : string) : option Z :=
  match pi_retrieve stripe id with
  | Ok intent => Some (if bool_decide (si_status intent = "succeeded")
                       then si_amountReceived intent else 0)
  | Err _ => None
  end.

Definition unsettledAt (id : string) : bool :=
  match pi_retrieve stripe id with
  | Ok intent => negb (bool_decide (si_status intent = "succeeded"))
  | Err _ => false
  end.

Lemma capturedLoop_spec ids : ∀ acc,
  match mapM capturedOf ids with
  | Some amounts => capturedLoop stripe ids acc =
      Ok {| ct_totalMinor := ct_totalMinor acc + sumZ id amounts;
            ct_notCaptured := ct_notCaptured acc ++ List.filter unsettledAt ids |}
  | None => ∃ status, capturedLoop stripe ids acc = Err (GatewayFault status "retrieve")
  end.
Proof.
  induction ids as [|i ids IH]; intros [total missing]; simpl.
  - unfold sumZ. simpl. by rewrite Z.add_0_r, app_nil_r.
  - assert (capturedOf i = match pi_retrieve stripe i with
      | Ok intent => Some (if bool_decide (si_status intent = "succeeded")
                           then si_amountReceived intent else 0)
      | Err _ => None end) as -> by done.
    assert (unsettledAt i = match pi_retrieve stripe i with
      | Ok intent => negb (bool_decide (si_status intent = "succeeded"))
      | Err _ => false end) as -> by done.
    destruct (pi_retrieve stripe i) as [intent|e]; [|by eexists].
    match goal with |- context [capturedLoop stripe ids ?acc] => specialize (IH acc) end.
    cbn. destruct (mapM capturedOf ids) as [amounts|]; [|done]. rewrite IH. cbn.
    case_bool_decide; simpl; do 2 f_equal; unfold sumZ, id; simpl; try lia; try done.
    by rewrite <- app_assoc.
Qed.

(** The reconciliation delta is the real one: when Stripe answers for every
    intent of the day's captured gateway payments, the report's delta is what
    Stripe holds as captured for them minus what the books record, and the
    intents Stripe does not hold as captured are listed; when any intent cannot
    be read the run reports failure and no delta at all. Nothing is written. *)
Theorem reconcile_delta now db :
  let day := businessDayAt config tzOffset (now - 24 * 60 * 60 * 1000) in
  let recorded := recordedOn db day in
  let intents := omap fst recorded in
  run (stripeGateway stripe) (reconcileYesterday config tzOffset now) db =
  match mapM capturedOf intents with
  | Some amounts =>
      let delta := sumZ id amounts - sumZ snd recorded in
      (db, [ReconciliationRun (Some delta)],
       Ok (Some {| rr_businessDay := day; rr_gatewayCapturedMinor := sumZ id amounts;
                   rr_dbRecordedMinor := sumZ snd recorded; rr_deltaMinor := delta;
                   rr_unmatchedEvents := unmatched db;
                   rr_notCaptured := List.filter unsettledAt intents |}))
  | None => (db, [ReconciliationRun None], Ok None)
  end.
Proof.
  intros day recorded intents. unfold reconcileYesterday. rewrite run_after.
  unfold reconcile, Read. cbn [run fst snd]. cbn [stripeGateway]. unfold stripe_capturedTotalFor.
  fold day. fold recorded. fold intents.
  pose proof (capturedLoop_spec intents {| ct_totalMinor := 0; ct_notCaptured := [] |}) as Hloop.
  destruct (mapM capturedOf intents) as [amounts|]; [|by destruct Hloop as [? ->]]. rewrite Hloop. simpl.
  rewrite foldl_sumZ. unfold id. rewrite !Z.add_0_l. done.
Qed.
End reconciliation.

(** ** Instances at the shop of the scenario *)

Definition midday_db : Database := pool_db Shop.midday.

Lemma midday_inv : Inv (H := stripePort) midday_db.
Proof. exact (reachable_inv _ _ _ _ Shop.midday_reachable). Qed.

Lemma closing_inv : Inv (H := stripePort) (pool_db Shop.closing).
Proof. exact (reachable_inv _ _ _ _ Shop.closing_reachable). Qed.

Lemma cancel_asks_gateway_witness :
  (run Shop.gw (cancel Shop.kiosk "o2" None) midday_db).2 =
    Ok ("o2", moved PENDING_PAYMENT CANCELLED Shop.waiting_o2).
Proof.
  rewrite (cancel_asks_gateway Shop.gw Shop.kiosk "o2" None midday_db Shop.waiting_o2 "p2" "pi_2").
  - reflexivity.
  - exact Shop.find_waiting_o2.
  - reflexivity.
  - by apply (bool_decide_unpack _).
  - vm_compute. reflexivity.
Defined.

Lemma expire_one_witness :
  (run Shop.gw (expireOne "o2") midday_db).2 = Ok true.
Proof.
  pose proof (proj2 (expire_one Shop.gw "o2" midday_db Shop.waiting_o2 Shop.find_waiting_o2)
    eq_refl) as H.
  assert (livePayment midday_db "o2" = Some ("p2", Some "pi_2")) as Hl by (vm_compute; reflexivity).
  assert (Shop.gw (cancelIntent "pi_2") = Ok IntentCANCELLED) as Hg by reflexivity.
  rewrite Hl, Hg in H. apply H.
Defined.

Lemma expire_tick_witness :
  (run Shop.gw (expireOverdue (Shop.noon + 3600000)) midday_db).2 = Ok 1.
Proof.
  assert (length (overdue (Shop.noon + 3600000) midday_db) = 1%nat) as Hn
    by (vm_compute; reflexivity).
  pose proof (proj1 (expire_tick Shop.gw (Shop.noon + 3600000) midday_db (fun _ => eq_refl))) as H.
  rewrite Hn in H. exact H.
Defined.

(** Refunding part of the captured gateway payment. *)
Lemma refund_outcome_witness :
  (run Shop.gw (refund Shop.config Shop.tzOffset "u1" "r9" "p2" (Shop.give 500) Shop.noon)
    (pool_db Shop.closing)).1.2 = [].
Proof.
  rewrite (refund_outcome (port := stripePort) Shop.config Shop.tzOffset Shop.gw "u1" "r9" "p2"
    (Shop.give 500) Shop.noon (pool_db Shop.closing) Shop.card_p2 Shop.paid_o2 closing_inv
    Shop.find_p2 eq_refl Shop.find_o2).
  - vm_compute. reflexivity.
  - vm_compute. reflexivity.
  - vm_compute. reflexivity.
  - reflexivity.
  - reflexivity.
Defined.

Lemma refund_refused_witness :
  run Shop.gw (refund Shop.config Shop.tzOffset "u1" "r9" "nope" (Shop.give 500) Shop.noon)
    (pool_db Shop.closing) = (pool_db Shop.closing, [], Err (ResourceNotFoundError "payment" "nope")).
Proof.
  pose proof (refund_refused (port := stripePort) Shop.config Shop.tzOffset Shop.gw "u1" "r9" "nope"
    (Shop.give 500) Shop.noon (pool_db Shop.closing) closing_inv) as H.
  replace (payments (pool_db Shop.closing) !! "nope") with (@None PaymentRow) in H; [exact H|].
  vm_compute. reflexivity.
Defined.

(** The shop with one parked order. *)
Definition parked : Pool := foldl (serve Shop.gw) (idle Shop.morning) [
  thread_of (createOrder Shop.config Shop.tzOffset Shop.sha256 Shop.cashier
    {| in_channel := COUNTER; in_items := in_items (Shop.basket COUNTER 1);
       in_customerName := None; in_expectedTotalMinor := None; in_draft := Some true |} None Shop.noon (Shop.ids "o1"))].

Lemma parked_inv : Inv (H := stripePort) (pool_db parked).
Proof.
  apply (reachable_inv Shop.config Shop.tzOffset Shop.sha256). exists Shop.morning.
  split; [by split_and!|]. apply serve_steps. repeat constructor.
Qed.

Definition parked_o1 : OrderRow :=
  Eval vm_compute in default Shop.blankOrder (orders (pool_db parked) !! "o1").

Lemma checkout_draft_witness :
  ∃ db', run Shop.gw (checkout Shop.config Shop.cashier "o1" Shop.noon) (pool_db parked) =
    (db', [], Ok ("o1", queued "A-001" (Shop.noon + 600000) (moved DRAFT PENDING_PAYMENT parked_o1))).
Proof.
  edestruct (checkout_draft (H := stripePort) Shop.gw Shop.config Shop.cashier "o1" Shop.noon
    (pool_db parked) parked_o1 parked_inv) as (db' & Hrun & _).
  - vm_compute. reflexivity.
  - reflexivity.
  - exists db'. exact Hrun.
Defined.
