(* ===== verification/Findings.v ===== *)
(** * Findings: behaviours the model reaches that the code's comments rule out

    Each is a theorem about the definitions of the other files: a request that
    can never succeed, an interleaving that strands a payment, and a capture the
    books forget. *)

From S2P Require Import Prelude Text Schema Errors Program Pricing OrderState Transition.
From S2P Require Import BusinessDay Idempotency CreateOrder OrderDoors Gateway Webhooks.
From S2P Require Import CreatePayment Refunds Books Invariants Handlers System Scenario Replay.
From S2P Require Import Cursor OrdersRead Paging Rollup Reports Reporting.

(** ** A free order cannot be paid for *)

Lemma insertPayment_free pid row s :
  p_amountMinor row ≤ 0 → ∃ st, insertPayment pid row s = Err (DbError st) ∧
    (st = CHECK_VIOLATION ∨ st = OUT_OF_RANGE).
Proof.
  intros Ha. unfold insertPayment. tx_simpl. destruct (negb _); [eauto|].
  destruct (p_amountMinor row <=? 0) eqn:E; [eauto|lia].
Qed.

(** An order whose total is zero, which pricing accepts (a discount option may
    bring an item down to nothing), has no way to PAID: every payment attempt
    without a key fails and changes nothing, because [payments_amount_check]
    wants a positive amount. *)
Theorem free_order_unpayable gw principal oid input pid now db o :
  orders db !! oid = Some o → o_totalMinor o = 0 →
  ∃ e, run gw (payFor principal oid input None pid now) db = (db, [], Err e).
Proof.
  intros Ho Htot. unfold payFor, loadPayableOrder, Read. cbn [run fst snd]. unfold findOrder.
  rewrite Ho. destruct (negb (ownOrder principal o)); [by eexists|].
  case_bool_decide; [by eexists|]. case_bool_decide; [|by eexists]. cbn [negb run fst snd].
  destruct (livePayment db oid) as [[q i]|]; [by eexists|].
  assert (∀ (work : txM PaymentView) st, work (mkTx db []) = Err (DbError st) →
    st = CHECK_VIOLATION ∨ st = OUT_OF_RANGE →
    run gw (write None oid now work) db = (db, [], Err (DbError st))) as Hw.
  { intros work st He Hst. unfold write. rewrite run_after, run_afterCommit.
    unfold writeWork, mbind, txM_bind. cbn [reserveIfKeyed]. unfold mret, txM_ret. rewrite He.
    by destruct Hst as [-> | ->]. }
  case_bool_decide.
  - unfold takeCash. destruct principal as [u r|]; [|by eexists].
    destruct (cp_cashTenderedMinor input) as [t|]; [|by eexists].
    destruct (t <? _); [by eexists|]. rewrite run_after.
    edestruct (insertPayment_free pid) as (st & Hins & Hst); [|erewrite Hw; [by eexists| |done]].
    2:{ unfold cashWork, mbind, txM_bind. by rewrite Hins. }
    simpl. lia.
  - unfold openGatewayPayment. cbn [run].
    destruct (gw (createIntent _ _ _ _)) as [intent|e]; [|by eexists].
    edestruct (insertPayment_free pid) as (st & Hins & Hst); [|erewrite Hw; [by eexists| |done]].
    2:{ unfold intentWork, mbind, txM_bind. by rewrite Hins. }
    simpl. lia.
Qed.

(** ** Interleavings, a few steps at a time *)

(** The first [n] steps of a handler running alone. *)
Fixpoint advance {R} (n : nat) (gw : Gateway) (p : prog R) (db : Database) : prog R * Database :=
  match n, p with
  | S n, Step t k => advance n gw (k (t db).2) (t db).1
  | S n, Ask call k => advance n gw (k (gw call)) db
  | _, _ => (p, db)
  end.

Lemma advance_steps `{port : PaymentPort} config tzOffset sha256 {R} n gw : ∀ (p : prog R) db log l,
  pool_steps (request config tzOffset sha256)
    {| pool_db := db; pool_threads := thread_of p :: l; pool_log := log |}
    {| pool_db := (advance n gw p db).2; pool_threads := thread_of (advance n gw p db).1 :: l;
       pool_log := log |}.
Proof.
  induction n as [|n IH]; intros p db log l; [apply rtc_refl|].
  destruct p as [r|X t k|call k|e k]; [apply rtc_refl| | |apply rtc_refl].
  - eapply rtc_l; [apply (pool_db_step _ _ _ [])|]. apply IH.
  - eapply rtc_l; [apply (pool_answer _ _ _ [] _ _ _ _ (gw call))|]. apply IH.
Qed.

Module Race.
Import Shop.

Definition ordered : Pool := foldl (serve gw) (idle morning) [createFor kiosk KIOSK 1 "create-o2" "o2"].

(** The customer's card request, up to the gateway call it is waiting on. *)
Definition opening : prog (ResponseBody * bool) :=
  createPayment sha256 kiosk "o2" byGateway None "p2" noon.

Definition waiting : prog (ResponseBody * bool) * Database := advance 2 gw opening (pool_db ordered).

(** The expiry tick that fires meanwhile, an hour later. *)
Definition tick : Database := (run gw (expireOverdue (noon + 3600000)) waiting.2).1.1.

(** The gateway answers, and the request writes its row. *)
Definition final : Database := (run gw waiting.1 tick).1.1.
End Race.

(** Opening a gateway payment does not look at the order again after the intent
    is created: a reachable database has a live payment on an EXPIRED order, which
    nothing will cancel, and whose capture the processor will refuse. *)
Theorem live_payment_on_expired_order :
  ∃ c o p, reachable (port := stripePort) Shop.config Shop.tzOffset Shop.sha256 c ∧
    orders (pool_db c) !! "o2" = Some o ∧ o_status o = EXPIRED ∧
    payments (pool_db c) !! "p2" = Some p ∧ p_orderId p = "o2" ∧ isLive p = true.
Proof.
  assert (∃ log, pool_steps (request (port := stripePort) Shop.config Shop.tzOffset Shop.sha256)
    (idle Shop.morning) {| pool_db := Race.final; pool_threads := []; pool_log := log |}) as [log Hs].
  { eexists. etransitivity; [apply (serve_steps _ _ _ Shop.gw [Shop.createFor Shop.kiosk KIOSK 1 "create-o2" "o2"]); repeat constructor|].
    fold Race.ordered. eapply rtc_l; [apply (pool_spawn _ _ _ _ (thread_of Race.opening)); constructor|].
    etransitivity; [apply (advance_steps _ _ _ 2 Shop.gw)|]. fold Race.waiting.
    eapply rtc_l; [apply (pool_spawn _ _ _ _ (thread_of (expireOverdue (Shop.noon + 3600000)))); constructor|].
    etransitivity; [apply (run_steps _ _ _ _ Shop.gw)|]. fold Race.tick.
    etransitivity; [apply (run_steps _ _ _ _ Shop.gw)|]. fold Race.final. apply rtc_refl. }
  eexists _, _, _. split_and!.
  - exists Shop.morning. split; [by split_and!|exact Hs].
  - vm_compute. reflexivity.
  - reflexivity.
  - vm_compute. reflexivity.
  - reflexivity.
  - reflexivity.
Qed.

(** ** A capture the books forget *)

Module Twice.
Import Shop.

Definition failedPayload : Json := JObj [
  ("type", JStr "payment_intent.payment_failed");
  ("data", JObj [("object", JObj [("id", JStr "pi_2")])])].

(** The same gateway, delivering a decline and then, on the same intent, a capture. *)
Definition stripe : StripeClient := {|
  pi_create := pi_create Shop.stripe; pi_cancel := pi_cancel Shop.stripe;
  pi_retrieve := pi_retrieve Shop.stripe;
  constructEvent := fun rawBody _ _ =>
    if bool_decide (rawBody = "declined") then
      Ok {| se_id := "evt_0"; se_type := "payment_intent.payment_failed";
            se_created := 1753246700; se_payload := failedPayload |}
    else
      Ok {| se_id := "evt_1"; se_type := "payment_intent.succeeded"; se_created := 1753246800;
            se_payload := succeededPayload |} |}.

(** A declined card, cash instead, and the customer's retry on the terminal. *)
Definition day : list thread := [
  createFor cashier COUNTER 1 "create-o1" "o1";
  thread_of (createPayment sha256 cashier "o1" byGateway None "p2" noon);
  thread_of (receive stripe ["whsec"] (Some "declined") (Some "sig") "e0" noon);
  thread_of (processEvent (port := stripePort) "e0" noon);
  thread_of (createPayment sha256 cashier "o1" (cash 20000) None "p1" noon);
  thread_of (receive stripe ["whsec"] (Some "captured") (Some "sig") "e1" noon);
  thread_of (processEvent (port := stripePort) "e1" noon)].

Definition closing : Pool := foldl (serve gw) (idle morning) day.
End Twice.

(** A FAILED payment is not live, so its intent stays confirmable while another
    payment is taken. If the customer then completes it, the processor finds the
    order PAID, skips the event as a duplicate and stamps it processed: the money
    was captured twice, the payment row still says FAILED, and the event is no
    longer among the unmatched ones reconciliation reports. *)
Theorem capture_forgotten :
  ∃ c p row, reachable (port := stripePort) Shop.config Shop.tzOffset Shop.sha256 c ∧
    payments (pool_db c) !! "p2" = Some p ∧ p_status p = PayFAILED ∧
    paymentEvents (pool_db c) !! "e1" = Some row ∧ is_Some (pe_processedAt row) ∧
    toOutcome (pe_payload row) =
      Ok (GwSUCCEEDED (JStr "pi_2") (JNum (p_amountMinor p)) (p_currency p)) ∧
    p_providerIntentId p = Some "pi_2" ∧ unmatched (pool_db c) = [].
Proof.
  exists Twice.closing. eexists _, _. split_and!.
  - exists Shop.morning. split; [by split_and!|]. apply serve_steps. repeat constructor.
  - vm_compute. reflexivity.
  - reflexivity.
  - vm_compute. reflexivity.
  - eexists. reflexivity.
  - reflexivity.
  - reflexivity.
  - vm_compute. reflexivity.
Qed.

(** ** Smaller divergences *)

(** A payload that passes the shape check can still make [interpret] throw: only
    [type] and [data.object] are checked, and [currency] is then used as a string. *)
Theorem interpret_throws :
  ∃ payload, hasEventShape payload = true ∧ is_ok (toOutcome payload) = false.
Proof.
  exists (JObj [("type", JStr "payment_intent.succeeded");
                ("data", JObj [("object", JObj [("id", JStr "pi_1")])])]).
  by vm_compute.
Qed.

Module Feast.
Import Shop.

Definition toppings : list string := (fun n => "t" +:+ pretty n) <$> seq 0 8.

(** The scenario's menu with the dearest item and the dearest options allowed. *)
Definition menu : Database := {|
  categories := categories morning;
  menuItems := {[ "gold" := {| mi_categoryId := "drinks"; mi_name := "Gold";
                                mi_description := None; mi_imageUrl := None;
                               mi_basePriceMinor := 1000000; mi_isAvailable := true;
                               mi_sortOrder := 0 |} ]};
  optionGroups := {[ "tops" := {| og_name := "Toppings"; og_minSelect := 0; og_maxSelect := 8 |} ]};
  options := list_to_map ((fun t => (t, {| opt_optionGroupId := "tops"; opt_name := t;
               opt_priceDeltaMinor := 100000; opt_isDefault := false;
               opt_isAvailable := true |})) <$> toppings);
  menuItemOptionGroups := [ {| lk_menuItemId := "gold"; lk_optionGroupId := "tops"; lk_sortOrder := 0 |} ];
  kioskDevices := ∅; orders := ∅; orderItems := []; orderItemOptions := [];
  orderStatusHistory := []; orderNumberCounters := ∅; payments := ∅; refunds := ∅;
  paymentEvents := ∅; idempotencyKeys := ∅ |}.

Definition basket : CreateOrderInput := {|
  in_channel := COUNTER;
  in_items := replicate 30 {| ri_menuItemId := "gold"; ri_quantity := 50;
                              ri_optionIds := toppings; ri_notes := None |};
  in_customerName := None; in_expectedTotalMinor := None; in_draft := None |}.
End Feast.

(** A basket every field of which the DTO and the menu's own limits allow (30
    lines of 50) is priced above what the [integer] total column holds, and is
    answered with a driver error, not a refusal. *)
Theorem largest_basket_overflows :
  run Shop.gw (createOrder Shop.config Shop.tzOffset Shop.sha256 Shop.cashier Feast.basket
    None Shop.noon (Shop.ids "o1")) Feast.menu =
  (Feast.menu, [], Err (DbError OUT_OF_RANGE)).
Proof. vm_compute. reflexivity. Qed.

(** A replay asks the gateway for the client secret even when the payment has long
    been captured: the check reads the stored view, which is PENDING for ever. *)
Theorem replay_asks_after_capture (gw : Gateway) v db p i :
  pv_provider v = STRIPE → pv_status v = PayPENDING →
  payments db !! pv_id v = Some p → p_status p = PaySUCCEEDED → p_providerIntentId p = Some i →
  gw (clientSecretFor i) = Err (DependencyUnavailableError "gateway") →
  run gw (rehydrate (PaymentBody v)) db = (db, [], Err (DependencyUnavailableError "gateway")).
Proof.
  intros Hv Hst Hp _ Hi Hgw. rewrite run_rehydrate, bool_decide_true by done.
  unfold paymentIntent. rewrite Hp. simpl. by rewrite Hi, Hgw.
Qed.

(** ** Cursors *)

(** [created_at] has microseconds and the cursor milliseconds. Of two orders of one
    millisecond, newest first, the second is never shown; oldest first, the second
    page is the first one again, with the same cursor. *)
Theorem cursor_drops_microseconds :
  let db := PagedShop.withOrders
    [(PagedShop.id1, PagedShop.order 17500 (PagedShop.noon + 400) None);
     (PagedShop.id2, PagedShop.order 9000 (PagedShop.noon + 500) None)] in
  (∃ page, walk (PagedShop.query createdAt_desc) None [db; db; db] = Ok page ∧
    os_id <$> concat (page_orders <$> page) = [PagedShop.id2] ∧ isLast <$> page = [false; true]) ∧
  (∃ page, walk (PagedShop.query createdAt_asc) None [db; db; db] = Ok page ∧
    os_id <$> concat (page_orders <$> page) = [PagedShop.id1; PagedShop.id1; PagedShop.id1] ∧
    isLast <$> page = [false; false; false]).
Proof. split; (eexists; split; [vm_compute; reflexivity|]; split; vm_compute; reflexivity). Qed.

(** Two cursors that pass every check of [decodeCursor] and that the database then
    refuses to cast, so the answer is a 500. *)
Theorem cursor_cast_fails :
  let large := encodeCursor "totalMinor" "3000000000" PagedShop.id1 in
  let noSuchDay := encodeCursor "createdAt" "2026-02-30T00:00:00.000Z" PagedShop.id1 in
  list_orders (resumed (PagedShop.query totalMinor_asc) (Some large)) PagedShop.early
    = Err (DbError OUT_OF_RANGE) ∧
  list_orders (resumed (PagedShop.query createdAt_asc) (Some noSuchDay)) PagedShop.early
    = Err (DbError DATETIME_OVERFLOW).
Proof. by vm_compute. Qed.

(** ** Reports *)

(** An item renamed during the day is two entries of the day's list, which is sorted by
    quantity: the name the range shows is that of the entry that sold less, not the
    newer one. *)
Theorem rename_shows_lesser_seller :
  let before := {| it_menuItemId := "m1"; it_name := "Latte"; it_quantity := 5; it_revenueMinor := 500 |} in
  let afterwards := {| it_menuItemId := "m1"; it_name := "Caffe latte"; it_quantity := 9; it_revenueMinor := 900 |} in
  let parts := {| rp_statusCounts := []; rp_revenueByMethod := []; rp_refundsMinor := 0;
                  rp_vatMinor := 0; rp_ordersSettled := 0; rp_items := [before; afterwards] |} in
  let row := buildRollupRow codeUnits "2025-07-23" parts in
  it_name <$> mergeTopItems codeUnits [("2025-07-23", rw_topItems row)] 10 = ["Latte"].
Proof. reflexivity. Qed.

(** A re-roll that fails on the last night of its window is not retried: the day keeps
    [finalized_at] from its first roll, so the catch-up sweep passes over it, and the
    stored row stays behind the books. *)
Theorem failed_reroll_not_retried :
  let day := "2025-07-23" in
  let nightOf n := Shop.noon + (14 + 24 * n) * 3600000 in
  let books := pool_db Shop.closing in
  let rollNight n attempt rollups :=
    (rollUpYesterday codeUnits Shop.config Shop.tzOffset (nightOf n) books attempt rollups).2 in
  let written := rollNight 1 (fun _ => Ok (pool_db Shop.midday)) ∅ in
  let failed := rollNight 4 (fun _ => Err (DbError "57P01")) written in
  let retried := rollNight 5 (fun _ => Ok books) failed in
  (fun s => rw_revenueMinor (sr_row s)) <$> written !! day = Some 23000 ∧
  (fun s => rw_revenueMinor (sr_row s)) <$> retried !! day = Some 23000 ∧
  rw_revenueMinor (liveRow codeUnits books day) = 34500.
Proof. split_and!; vm_compute; reflexivity. Qed.
