(* ===== verification/RateLimit.v ===== *)
(** * RateLimit: [identity/rate-limit/*.ts]

    The two Redis scripts (failed logins per account, hits per rule) over a model of
    the Redis commands they use, the rules, and the guard's answers. Times are in
    milliseconds; a script runs at one instant and alone. *)

From S2P Require Import Prelude Text Schema Errors Idempotency OrdersRead.

(** ** Redis *)

Record RedisEntry := { re_value : Z; re_expiresAt : option Z }.

Notation Redis := (gmap string RedisEntry).

(** The entry a command sees: a key is gone once the clock has passed its expiry. *)
Definition liveEntry (now : Z) (redis : Redis) (key : string) : option RedisEntry :=
  match redis !! key with
  | Some e => match re_expiresAt e with
              | Some at_ => if at_ <? now then None else Some e
              | None => Some e
              end
  | None => None
  end.

(** [INCR]: a missing key counts from zero and has no expiry. *)
Definition INCR (now : Z) (key : string) (redis : Redis) : Z * Redis :=
  match liveEntry now redis key with
  | Some e => (re_value e + 1, <[key := {| re_value := re_value e + 1; re_expiresAt := re_expiresAt e |}]> redis)
  | None => (1, <[key := {| re_value := 1; re_expiresAt := None |}]> redis)
  end.

(** [PEXPIRE]; [EXPIRE] takes seconds. *)
Definition PEXPIRE (now : Z) (key : string) (ms : Z) (redis : Redis) : Redis :=
  match liveEntry now redis key with
  | Some e => <[key := {| re_value := re_value e; re_expiresAt := Some (now + ms) |}]> redis
  | None => redis
  end.

Definition EXPIRE (now : Z) (key : string) (seconds : Z) (redis : Redis) : Redis :=
  PEXPIRE now key (seconds * 1000) redis.

(** [PTTL]: -2 without the key, -1 without an expiry. [TTL] rounds to seconds. *)
Definition PTTL (now : Z) (key : string) (redis : Redis) : Z :=
  match liveEntry now redis key with
  | Some e => match re_expiresAt e with Some at_ => at_ - now | None => -1 end
  | None => -2
  end.

Definition TTL (now : Z) (key : string) (redis : Redis) : Z :=
  let ms := PTTL now key redis in if ms <? 0 then ms else (ms + 500) / 1000.

Definition GET (now : Z) (key : string) (redis : Redis) : option Z :=
  re_value <$> liveEntry now redis key.

Definition DEL (key : string) (redis : Redis) : Redis := delete key redis.

(** [SET key value EX seconds]. *)
Definition SET_EX (now : Z) (key : string) (value seconds : Z) (redis : Redis) : Redis :=
  <[key := {| re_value := value; re_expiresAt := Some (now + seconds * 1000) |}]> redis.

(** ** Failed logins ([login-attempt.limiter.ts]) *)

Definition MAX_FAILURES : Z := 5.
Definition WINDOW_SECONDS : Z := 15 * 60.

Definition keyFor (email : string) : string := "login-failures:" +:+ lowerText (trim email).

(** [new RateLimitedError(seconds)]: never less than a second. *)
Definition rateLimited (seconds : Z) : AppError := RateLimitedError (Z.max 1 seconds).

Definition assertNotLockedOut (now : Z) (email : string) (redis : Redis)
    : Redis * result AppError unit :=
  let key := keyFor email in
  let failures := default 0 (GET now key redis) in
  let ttl := TTL now key redis in
  if failures <? MAX_FAILURES then (redis, Ok tt)
  else if ttl <? 0 then (EXPIRE now key WINDOW_SECONDS redis, Err (rateLimited WINDOW_SECONDS))
  else (redis, Err (rateLimited ttl)).

Definition recordFailure (now : Z) (email : string) (redis : Redis) : Redis :=
  let key := keyFor email in
  let '(failures, redis) := INCR now key redis in
  if failures =? 1 then EXPIRE now key WINDOW_SECONDS redis else redis.

Definition clearFailures (email : string) (redis : Redis) : Redis := DEL (keyFor email) redis.

(** ** Hits ([redis-throttler.storage.ts]) *)

Record ThrottleRecord := {
  tr_totalHits : Z; tr_timeToExpire : Z; tr_isBlocked : bool; tr_timeToBlockExpire : Z }.

(** [Math.max(0, Math.ceil(ms / 1000))]. *)
Definition toSeconds (ms : Z) : Z := Z.max 0 ((ms + 999) / 1000).

Definition incrementScript (now : Z) (key : string) (ttl limit blockDuration : Z) (redis : Redis)
    : Redis * (Z * Z * bool) :=
  let '(hits, redis) := INCR now key redis in
  let redis := if hits =? 1 then PEXPIRE now key ttl redis else redis in
  let remaining := PTTL now key redis in
  if limit <? hits then
    if (0 <? blockDuration) && (remaining <? blockDuration)
    then (PEXPIRE now key blockDuration redis, (hits, blockDuration, true))
    else (redis, (hits, remaining, true))
  else (redis, (hits, remaining, false)).

Definition throttleKey (throttlerName key : string) : string :=
  "throttle:" +:+ throttlerName +:+ ":" +:+ key.

Definition increment (now : Z) (key : string) (ttl limit blockDuration : Z) (throttlerName : string)
    (redis : Redis) : Redis * ThrottleRecord :=
  let '(redis, (hits, remaining, blocked)) :=
    incrementScript now (throttleKey throttlerName key) ttl limit blockDuration redis in
  (redis, {| tr_totalHits := hits; tr_timeToExpire := toSeconds remaining; tr_isBlocked := blocked;
             tr_timeToBlockExpire := if blocked then toSeconds remaining else 0 |}).

(** ** The rules ([rate-limits.ts]) *)

Inductive BackendFailurePolicy := allow | refuse.

Record RateLimitRule := {
  rl_limit : Z; rl_ttl : Z; rl_blockDuration : Z; rl_onBackendFailure : BackendFailurePolicy }.

Definition minutes (n : Z) : Z := n * 60000.
Definition hours (n : Z) : Z := minutes (60 * n).

Definition staffGeneral : RateLimitRule :=
  {| rl_limit := 600; rl_ttl := minutes 1; rl_blockDuration := minutes 1; rl_onBackendFailure := allow |}.
Definition loginRule : RateLimitRule :=
  {| rl_limit := 20; rl_ttl := minutes 15; rl_blockDuration := minutes 15; rl_onBackendFailure := refuse |}.
Definition deviceActivation : RateLimitRule :=
  {| rl_limit := 5; rl_ttl := hours 1; rl_blockDuration := hours 1; rl_onBackendFailure := refuse |}.

(** ** The guard ([identity-throttler.guard.ts]) *)

Definition getTracker (principal : option Principal) (ip : option string) : string :=
  match principal with
  | Some (StaffPrincipal userId _) => "user:" +:+ userId
  | Some (DevicePrincipal deviceId) => "device:" +:+ deviceId
  | None => "ip:" +:+ default "unknown" ip
  end.

(** [throwThrottlingException]. *)
Definition throttled (record : ThrottleRecord) : AppError :=
  rateLimited (if tr_timeToBlockExpire record =? 0 then tr_timeToExpire record
               else tr_timeToBlockExpire record).

(** [withoutABackend]: a route without a policy of its own takes the backstop's. *)
Definition withoutABackend (policy : option BackendFailurePolicy) : result AppError bool :=
  match default (rl_onBackendFailure staffGeneral) policy with
  | refuse => Err (DependencyUnavailableError
      "This request could not be rate limited, so it was refused. Try again shortly.")
  | allow => Ok true
  end.

Section guard.
(** What the library's guard rejects, given the record the storage answered. *)
Context (rejects : ThrottleRecord → bool).

(** [handleRequest]: [None] is a storage that could not be reached. *)
Definition handleRequest (policy : option BackendFailurePolicy) (answer : option ThrottleRecord)
    : result AppError bool :=
  match answer with
  | None => withoutABackend policy
  | Some record => if rejects record then Err (throttled record) else Ok true
  end.
End guard.

(** ** What the scripts guarantee *)

Lemma liveEntry_Some now redis key e :
  liveEntry now redis key = Some e ↔
  redis !! key = Some e ∧ match re_expiresAt e with Some a => now ≤ a | None => True end.
Proof.
  unfold liveEntry. destruct (redis !! key) as [e'|]; [|naive_solver].
  destruct (re_expiresAt e') as [a|] eqn:Ea.
  - destruct (Z.ltb_spec a now); split; try done.
    + intros [[= ->] H']. rewrite Ea in H'. lia.
    + intros [= ->]. by rewrite Ea.
    + by intros [[= ->] _].
  - split; [intros [= ->]; by rewrite Ea|by intros [[= ->] _]].
Qed.

Lemma liveEntry_insert now redis key e :
  match re_expiresAt e with Some a => now ≤ a | None => True end →
  liveEntry now (<[key := e]> redis) key = Some e.
Proof. intros H. apply liveEntry_Some. by rewrite lookup_insert_eq. Qed.

(** The entry after a failure at [now]. *)
Lemma recordFailure_entry now email redis :
  recordFailure now email redis !! keyFor email =
  Some match liveEntry now redis (keyFor email) with
       | Some e => if re_value e =? 0 then {| re_value := 1; re_expiresAt := Some (now + WINDOW_SECONDS * 1000) |}
                   else {| re_value := re_value e + 1; re_expiresAt := re_expiresAt e |}
       | None => {| re_value := 1; re_expiresAt := Some (now + WINDOW_SECONDS * 1000) |}
       end.
Proof.
  unfold recordFailure, INCR. destruct (liveEntry now redis (keyFor email)) as [e|] eqn:E.
  - destruct (Z.eqb_spec (re_value e + 1) 1) as [H1|H1];
      destruct (Z.eqb_spec (re_value e) 0) as [H0|H0]; try lia.
    + unfold EXPIRE, PEXPIRE. erewrite (liveEntry_insert now redis (keyFor email) {| re_value := _ |}) by
        (cbn; by apply liveEntry_Some in E as [_ ?]).
      rewrite lookup_insert_eq. cbn. by rewrite H0.
    + by rewrite lookup_insert_eq.
  - cbn [Z.eqb Pos.eqb]. unfold EXPIRE, PEXPIRE, liveEntry. rewrite lookup_insert_eq. cbn.
    by rewrite lookup_insert_eq.
Qed.

(** The window of an account: how many failures it holds and when it ends. *)
Definition window (now : Z) (email : string) (redis : Redis) : option (Z * option Z) :=
  (fun e => (re_value e, re_expiresAt e)) <$> liveEntry now redis (keyFor email).

(** A sequence of failures at given instants. *)
Definition failures (email : string) (times : list Z) (redis : Redis) : Redis :=
  foldl (fun r now => recordFailure now email r) redis times.

(** While the window of the first failure lasts, failures add up and its end stays. *)
Lemma failures_count email t0 times redis :
  window t0 email redis = None →
  Forall (fun t => t0 ≤ t ≤ t0 + WINDOW_SECONDS * 1000) times →
  failures email (t0 :: times) redis !! keyFor email =
  Some {| re_value := 1 + Z.of_nat (length times); re_expiresAt := Some (t0 + WINDOW_SECONDS * 1000) |}.
Proof.
  intros Hw. unfold window in Hw. apply fmap_None in Hw.
  induction times as [|t times IH] using rev_ind; intros Ht.
  - unfold failures. cbn. rewrite recordFailure_entry, Hw. done.
  - apply Forall_app in Ht as [Ht Hlast]. apply Forall_cons in Hlast as [Hlast _].
    unfold failures in *. rewrite app_comm_cons, foldl_snoc, recordFailure_entry.
    specialize (IH Ht). set (r := foldl _ _ _) in *.
    assert (liveEntry t r (keyFor email) = r !! keyFor email) as ->.
    { unfold liveEntry. rewrite IH. cbn. by destruct (Z.ltb_spec (t0 + WINDOW_SECONDS * 1000) t); [lia|]. }
    rewrite IH. cbn. destruct (Z.eqb_spec (1 + Z.of_nat (length times)) 0); [lia|].
    rewrite length_app. cbn. do 2 f_equal. lia.
Qed.

(** C30. Five failures within fifteen minutes of the first lock the account until those
    fifteen minutes are over, and no longer: fewer do not lock it, more do not extend
    it, and the wait announced is within the window. *)
Theorem lockout_window email t0 times redis now :
  window t0 email redis = None →
  Forall (fun t => t0 ≤ t ≤ t0 + WINDOW_SECONDS * 1000) times → t0 ≤ now →
  let r := failures email (t0 :: times) redis in
  if (now <=? t0 + WINDOW_SECONDS * 1000) && (4 <=? Z.of_nat (length times)) then
    ∃ s, assertNotLockedOut now email r = (r, Err (RateLimitedError s)) ∧ 1 ≤ s ≤ WINDOW_SECONDS
  else assertNotLockedOut now email r = (r, Ok tt).
Proof.
  intros Hw Ht Hnow. cbv zeta. pose proof (failures_count email t0 times redis Hw Ht) as He.
  set (r := failures email (t0 :: times) redis) in *. clearbody r.
  unfold assertNotLockedOut, GET, TTL, PTTL, liveEntry. rewrite He. cbn [re_expiresAt].
  destruct (Z.leb_spec now (t0 + WINDOW_SECONDS * 1000)) as [Hin|Hout]; cbn [andb].
  - destruct (Z.ltb_spec (t0 + WINDOW_SECONDS * 1000) now); [lia|]. cbn [fmap option_fmap option_map default re_value re_expiresAt].
    unfold MAX_FAILURES, id. destruct (Z.leb_spec 4 (Z.of_nat (length times))) as [H4|H4].
    + destruct (Z.ltb_spec (1 + Z.of_nat (length times)) 5); [lia|].
      destruct (Z.ltb_spec (t0 + WINDOW_SECONDS * 1000 - now) 0); [lia|].
      unfold WINDOW_SECONDS in *.
      assert (0 ≤ (t0 + 15 * 60 * 1000 - now + 500) / 1000 ≤ 900) as Hd.
      { split; [apply Z.div_pos; lia|]. apply Z.lt_succ_r, Z.div_lt_upper_bound; lia. }
      destruct (Z.ltb_spec ((t0 + 15 * 60 * 1000 - now + 500) / 1000) 0); [lia|].
      eexists. split; [done|]. lia.
    + destruct (Z.ltb_spec (1 + Z.of_nat (length times)) 5); [done|lia].
  - destruct (Z.ltb_spec (t0 + WINDOW_SECONDS * 1000) now); [done|lia].
Qed.

(** Whatever is in Redis, an account that is refused has an end to its lockout: a counter
    without an expiry, which would lock it for ever, is given one by the refusal. *)
Theorem lockout_ends now email redis redis' e :
  assertNotLockedOut now email redis = (redis', Err e) →
  ∃ until, (∃ n, redis' !! keyFor email = Some {| re_value := n; re_expiresAt := Some until |}) ∧
    now ≤ until ∧
    ∀ later, until < later → assertNotLockedOut later email redis' = (redis', Ok tt).
Proof.
  unfold assertNotLockedOut, GET, TTL, PTTL. intros H.
  destruct (liveEntry now redis (keyFor email)) as [en|] eqn:E; [|done]. cbn in H.
  assert (∀ r n until, r !! keyFor email = Some {| re_value := n; re_expiresAt := Some until |} →
    ∀ later, until < later → liveEntry later r (keyFor email) = None) as Hgone.
  { intros r n until Hr later Hl. unfold liveEntry. rewrite Hr. cbn. by destruct (Z.ltb_spec until later); [|lia]. }
  destruct (re_value en <? MAX_FAILURES); [done|].
  destruct en as [n [until|]]; cbn in H.
  - apply liveEntry_Some in E as [Hl Hle]. cbn in Hle.
    destruct (Z.ltb_spec (until - now) 0); [lia|].
    assert (0 ≤ (until - now + 500) / 1000) by (apply Z.div_pos; lia).
    destruct (Z.ltb_spec ((until - now + 500) / 1000) 0); [lia|]. injection H as <- <-.
    exists until. split_and!; [eauto|done|]. intros later Hlt. by rewrite (Hgone _ _ _ Hl).
  - injection H as <- <-. unfold EXPIRE, PEXPIRE. rewrite E. cbn [re_value].
    exists (now + WINDOW_SECONDS * 1000). split_and!.
    + rewrite lookup_insert_eq. eauto.
    + unfold WINDOW_SECONDS. lia.
    + intros later Hlt. rewrite (Hgone _ n (now + WINDOW_SECONDS * 1000)); [done| |done].
      apply lookup_insert_eq.
Qed.

(** *** Hits *)

(** The hits a counter holds at an instant. *)
Definition hitsSoFar (now : Z) (key : string) (redis : Redis) : Z := default 0 (GET now key redis).

Lemma PEXPIRE_value now key ms redis k :
  re_value <$> PEXPIRE now key ms redis !! k = re_value <$> redis !! k.
Proof.
  unfold PEXPIRE. destruct (liveEntry now redis key) as [e|] eqn:E; [|done].
  apply liveEntry_Some in E as [E _]. destruct (decide (k = key)) as [->|Hne].
  - by rewrite lookup_insert_eq, E.
  - by rewrite lookup_insert_ne.
Qed.

(** Every hit is counted, and it is refused exactly when it exceeds the limit. *)
Lemma incrementScript_counts now key ttl limit block redis :
  let h := hitsSoFar now key redis + 1 in
  ∃ redis' remaining, incrementScript now key ttl limit block redis = (redis', (h, remaining, limit <? h)) ∧
    re_value <$> redis' !! key = Some h.
Proof.
  cbv zeta. unfold incrementScript, INCR, hitsSoFar, GET.
  assert (∀ h r, re_value <$> r !! key = Some h →
    let r' := if h =? 1 then PEXPIRE now key ttl r else r in
    ∃ redis' remaining,
      (if limit <? h then
        if (0 <? block) && (PTTL now key r' <? block)
        then (PEXPIRE now key block r', (h, block, true)) else (r', (h, PTTL now key r', true))
       else (r', (h, PTTL now key r', false))) = (redis', (h, remaining, limit <? h)) ∧
      re_value <$> redis' !! key = Some h) as Hgen.
  { intros h r Hr. cbv zeta.
    assert (re_value <$> (if h =? 1 then PEXPIRE now key ttl r else r) !! key = Some h) as Hr'.
    { destruct (h =? 1); [by rewrite PEXPIRE_value|done]. }
    destruct (limit <? h); [destruct (_ && _)|]; eexists _, _; (split; [done|]); by rewrite ?PEXPIRE_value. }
  destruct (liveEntry now redis key) as [e|]; cbn [fmap option_fmap option_map default]; apply Hgen;
    by rewrite lookup_insert_eq.
Qed.

Section hits.
Context (key : string) (ttl limit block : Z).

(** The answers to hits at given instants. *)
Fixpoint hitAll (times : list Z) (redis : Redis) : Redis * list bool :=
  match times with
  | [] => (redis, [])
  | now :: times =>
      let '(redis, (_, _, blocked)) := incrementScript now key ttl limit block redis in
      let '(redis, rest) := hitAll times redis in (redis, blocked :: rest)
  end.

(** A hit on a counter that is there. *)
Lemma incrementScript_live now redis e until :
  liveEntry now redis key = Some e → re_expiresAt e = Some until → 1 ≤ re_value e →
  ∃ redis' remaining until',
    incrementScript now key ttl limit block redis
      = (redis', (re_value e + 1, remaining, limit <? re_value e + 1)) ∧
    redis' !! key = Some {| re_value := re_value e + 1; re_expiresAt := Some until' |} ∧
    until ≤ until' ∧ (limit < re_value e + 1 → now + block ≤ until').
Proof.
  intros E Hu Hv. pose proof E as [Hl Hle]%liveEntry_Some. rewrite Hu in Hle.
  unfold incrementScript, INCR. rewrite E.
  destruct (Z.eqb_spec (re_value e + 1) 1); [lia|].
  set (r := <[key := _]> redis).
  assert (liveEntry now r key = Some {| re_value := re_value e + 1; re_expiresAt := re_expiresAt e |}) as Hr.
  { apply liveEntry_insert. cbn. by rewrite Hu. }
  unfold PTTL, PEXPIRE. rewrite Hr. cbn [re_expiresAt re_value]. rewrite Hu.
  destruct (Z.ltb_spec limit (re_value e + 1)) as [Hb|Hb].
  - destruct ((0 <? block) && (until - now <? block)) eqn:Ec.
    + eexists _, _, (now + block). split; [done|]. rewrite lookup_insert_eq. split; [done|]. lia.
    + eexists _, _, until. split; [done|]. unfold r. rewrite lookup_insert_eq, Hu. split; [done|]. lia.
  - eexists _, _, until. split; [done|]. unfold r. rewrite lookup_insert_eq, Hu. split; [done|]. lia.
Qed.

Lemma hitAll_live times : ∀ redis n until,
  redis !! key = Some {| re_value := n; re_expiresAt := Some until |} → 1 ≤ n →
  Forall (fun t => t ≤ until) times →
  (hitAll times redis).2 = (fun i : nat => limit <? n + 1 + Z.of_nat i) <$> seq 0 (length times).
Proof.
  induction times as [|now times IH]; intros redis n until Hr Hn Ht; [done|].
  apply Forall_cons in Ht as [Hnow Ht]. cbn [hitAll].
  destruct (incrementScript_live now redis {| re_value := n; re_expiresAt := Some until |} until)
    as (redis' & remaining & until' & -> & Hr' & Hle & _); [by apply liveEntry_Some|done|done|].
  cbn [re_value] in *.
  assert ((hitAll times redis').2 = (fun i : nat => limit <? n + 1 + 1 + Z.of_nat i) <$> seq 0 (length times)) as IH'.
  { eapply IH; [exact Hr'|lia|]. eapply Forall_impl; [exact Ht|]. cbn. lia. }
  destruct (hitAll times redis') as [redis'' rest]. cbn in IH' |- *. rewrite IH', Z.add_0_r. f_equal.
  rewrite <-fmap_S_seq, <-list_fmap_compose. apply list_fmap_ext. intros i j _. cbn. f_equal. lia.
Qed.

(** The first hit of a window. *)
Lemma incrementScript_new now redis :
  liveEntry now redis key = None → 0 ≤ ttl →
  ∃ redis' remaining until,
    incrementScript now key ttl limit block redis = (redis', (1, remaining, limit <? 1)) ∧
    redis' !! key = Some {| re_value := 1; re_expiresAt := Some until |} ∧ now + ttl ≤ until.
Proof.
  intros Hnew Httl. unfold incrementScript, INCR. rewrite Hnew. cbn [Z.eqb Pos.eqb].
  set (r := <[key := _]> redis).
  assert (PEXPIRE now key ttl r = <[key := {| re_value := 1; re_expiresAt := Some (now + ttl) |}]> r) as ->.
  { unfold PEXPIRE, r. by rewrite liveEntry_insert. }
  set (r' := <[key := _]> r).
  assert (liveEntry now r' key = Some {| re_value := 1; re_expiresAt := Some (now + ttl) |}) as Hr'.
  { apply liveEntry_insert. cbn. lia. }
  assert (PTTL now key r' = ttl) as -> by (unfold PTTL; rewrite Hr'; cbn; lia).
  destruct (limit <? 1); [|by eexists _, _, (now + ttl); unfold r'; rewrite lookup_insert_eq].
  destruct ((0 <? block) && (ttl <? block)) eqn:Ec.
  - unfold PEXPIRE. rewrite Hr'. cbn [re_value]. eexists _, _, (now + block). split; [done|].
    rewrite lookup_insert_eq. split; [done|]. lia.
  - by eexists _, _, (now + ttl); unfold r'; rewrite lookup_insert_eq.
Qed.

(** Within one window, exactly the first [limit] requests pass, however they are spread
    and however many there are. *)
Theorem throttle_admits_limit t0 times redis :
  liveEntry t0 redis key = None → 0 ≤ limit → 0 ≤ ttl →
  Forall (fun t => t0 ≤ t ≤ t0 + ttl) times →
  (hitAll (t0 :: times) redis).2 = (fun i : nat => limit <=? Z.of_nat i) <$> seq 0 (S (length times)).
Proof.
  intros Hnew Hlim Httl Ht. cbn [hitAll].
  destruct (incrementScript_new t0 redis Hnew Httl) as (redis' & remaining & until & -> & Hl & Hu).
  assert ((hitAll times redis').2 = (fun i : nat => limit <? 1 + 1 + Z.of_nat i) <$> seq 0 (length times)) as IH.
  { eapply (hitAll_live times redis' 1 until Hl); [lia|].
    eapply Forall_impl; [exact Ht|]. cbn. lia. }
  destruct (hitAll times redis') as [redis'' rest]. cbn in IH. subst rest. cbn -[Z.ltb Z.leb].
  f_equal; [destruct (Z.ltb_spec limit 1), (Z.leb_spec limit (Z.of_nat 0)); lia|]. rewrite <-fmap_S_seq, <-list_fmap_compose. apply list_fmap_ext.
  intros _ i _. change ((limit <? 1 + 1 + Z.of_nat i) = (limit <=? Z.of_nat (S i))).
  destruct (Z.ltb_spec limit (1 + 1 + Z.of_nat i)), (Z.leb_spec limit (Z.of_nat (S i))); lia.
Qed.

(** A block holds for its whole length from the last hit it refused. *)
Theorem block_holds now redis e until later :
  liveEntry now redis key = Some e → re_expiresAt e = Some until → 1 ≤ re_value e →
  limit < re_value e + 1 → now ≤ later ≤ now + block →
  let after := (incrementScript now key ttl limit block redis).1 in
  ∃ r hits remaining, incrementScript later key ttl limit block after = (r, (hits, remaining, true)).
Proof.
  intros E Hu Hv Hb Hl. cbv zeta.
  destruct (incrementScript_live now redis e until E Hu Hv)
    as (r & remaining & until' & -> & Hr & _ & Hblock). cbn [fst].
  destruct (incrementScript_live later r {| re_value := re_value e + 1; re_expiresAt := Some until' |} until')
    as (r2 & rem2 & u2 & -> & _); [|done|cbn; lia|].
  - apply liveEntry_Some. split; [done|]. cbn. specialize (Hblock Hb). lia.
  - eexists _, _, _. cbn [re_value]. by destruct (Z.ltb_spec limit (re_value e + 1 + 1)); [|lia].
Qed.
End hits.

(** Six wrong passwords in ten minutes. *)
Lemma lockout_window_witness :
  (let r := failures "a@b.c" [0; 60000; 120000; 180000; 240000; 600000] ∅ in
   (∃ s, assertNotLockedOut 900000 "A@B.c" r = (r, Err (RateLimitedError s)) ∧ 1 ≤ s ≤ WINDOW_SECONDS) ∧
   assertNotLockedOut 900001 "a@b.c" r = (r, Ok tt)).
Proof.
  cbv zeta. split.
  - apply (lockout_window "a@b.c" 0 [60000; 120000; 180000; 240000; 600000] ∅ 900000);
      [done|repeat constructor; done|done].
  - apply (lockout_window "a@b.c" 0 [60000; 120000; 180000; 240000; 600000] ∅ 900001);
      [done|repeat constructor; done|done].
Defined.

(** A fourth login of a burst limited to three. *)
Lemma throttle_admits_limit_witness :
  (hitAll "login" 900000 3 900000 [0; 1; 1; 2] ∅).2 = [false; false; false; true].
Proof.
  etransitivity; [apply (throttle_admits_limit "login" 900000 3 900000 0 [1; 1; 2] ∅)|done].
  - done.
  - lia.
  - lia.
  - repeat constructor; lia.
Defined.
