(* ===== verification/Atoms.v ===== *)
(** * Atoms: handlers over a state of their own

    Services that do not touch the order tables (sessions, accounts, devices) are
    written as trees of atomic actions on their own state, one action per SQL
    statement, transaction or Redis command. [runAlone] runs a handler by itself;
    [astep] interleaves any number of them and lets any of them die. The judgement
    [owned] is a rely-guarantee one with permissions: a handler relies on the state
    evolving along [rel] since it last looked, and what it may still create is counted
    with what exists; [owned_safe] carries both through all interleavings. A [Round] is a
    state and handlers with one type of answer that take turns. *)

From S2P Require Import Prelude.

Section atoms.
Context {S : Type}.

Inductive handler (R : Type) : Type :=
| Answer (r : R)
| Act (X : Type) (t : S → S * X) (k : X → handler R).
Arguments Answer {R} r.
Arguments Act {R X} t k.

Fixpoint andThen {A B} (p : handler A) (k : A → handler B) : handler B :=
  match p with
  | Answer r => k r
  | Act t f => Act t (fun x => andThen (f x) k)
  end.

Fixpoint runAlone {R} (p : handler R) (s : S) : S * R :=
  match p with
  | Answer r => (s, r)
  | Act t k => runAlone (k (t s).2) (t s).1
  end.

Lemma runAlone_andThen {A B} (p : handler A) (k : A → handler B) s :
  runAlone (andThen p k) s = runAlone (k (runAlone p s).2) (runAlone p s).1.
Proof. revert s. induction p as [r|X t f IH]; intros s; [done|]. cbn. apply IH. Qed.

(** ** Interleavings *)

Definition task : Type := { R : Type & handler R }.

Record Flight := { fl_state : S; fl_tasks : list task }.

(** Any handler in flight may take its next action, or die. A handler that has not
    begun is one whose first action is still to come, so a run of any number of
    requests is a run from the flight that holds them all. *)
Inductive astep : Flight → Flight → Prop :=
| astep_act s l1 R X (t : S → S * X) (k : X → handler R) l2 :
    astep {| fl_state := s; fl_tasks := l1 ++ existT R (Act t k) :: l2 |}
          {| fl_state := (t s).1; fl_tasks := l1 ++ existT R (k (t s).2) :: l2 |}
| astep_die s l1 th l2 :
    astep {| fl_state := s; fl_tasks := l1 ++ th :: l2 |} {| fl_state := s; fl_tasks := l1 ++ l2 |}.

(** One chosen order: the handlers take their turns as listed. *)
Definition turn (fl : Flight) (i : nat) : Flight :=
  match fl_tasks fl !! i with
  | Some (existT R (Act t k)) =>
      {| fl_state := (t (fl_state fl)).1; fl_tasks := <[i := existT R (k (t (fl_state fl)).2)]> (fl_tasks fl) |}
  | _ => fl
  end.

Definition turns : Flight → list nat → Flight := foldl turn.

Lemma turns_reach l : ∀ fl, rtc astep fl (turns fl l).
Proof.
  induction l as [|i l IH]; intros fl; [done|]. cbn. etrans; [|apply IH]. unfold turn.
  destruct (fl_tasks fl !! i) as [[R [r|X t k]]|] eqn:E; [done| |done]. apply rtc_once.
  destruct fl as [s tasks]. cbn in *. rewrite (insert_take_drop _ _ _ (lookup_lt_Some _ _ _ E)).
  rewrite <-(take_drop_middle _ _ _ E) at 1. apply astep_act.
Qed.

(** What the handler in a place has answered. *)
Definition reply {R : Type} (r : R) : { R : Type & R } := existT R r.

Definition answered (fl : Flight) (i : nat) : option { R : Type & R } :=
  match fl_tasks fl !! i with
  | Some (existT R (Answer r)) => Some (reply r)
  | _ => None
  end.

(** ** Permissions *)

(** [count l] is what exists under the label [l], [rel] how a state may follow another. *)
Context {L : Type} (count : L → S → Z) (valid : S → Prop) (rel : S → S → Prop).
Context `{!PreOrder rel}.

Definition Permissions : Type := L → Z.

(** The permission to create nothing. *)
Definition none : Permissions := fun _ => 0.

(** A handler that holds [own] and last saw [seen] keeps the state valid, follows [rel],
    and never raises a count by more than it gives up. *)
Fixpoint owned {R} (own : Permissions) (seen : S) (p : handler R) : Prop :=
  match p with
  | Answer _ => True
  | Act t k => ∀ s, rel seen s → valid s → valid (t s).1 ∧ rel s (t s).1 ∧
      ∃ own', (∀ l, 0 ≤ own' l) ∧ (∀ l, count l (t s).1 + own' l ≤ count l s + own l) ∧
        owned own' (t s).1 (k (t s).2)
  end.

Lemma owned_later {R} (p : handler R) own seen seen' :
  rel seen seen' → owned own seen p → owned own seen' p.
Proof.
  intros Hr. destruct p as [r|X t k]; [done|]. cbn. intros Hp s Hs. apply Hp. by etrans.
Qed.

Lemma owned_weaken {R} (p : handler R) own own' seen :
  (∀ l, own l ≤ own' l) → owned own seen p → owned own' seen p.
Proof.
  intros Hle. destruct p as [r|X t k]; [done|]. cbn. intros Hp s Hr Hv.
  destruct (Hp s Hr Hv) as (? & ? & o & ? & Ho & ?). split_and!; [done..|]. exists o. split_and!; [done| |done].
  intros l. specialize (Ho l). specialize (Hle l). lia.
Qed.

(** An action that creates nothing. *)
Definition quiet {X} (t : S → S * X) : Prop :=
  ∀ s, valid s → valid (t s).1 ∧ rel s (t s).1 ∧ ∀ l, count l (t s).1 ≤ count l s.

Lemma owned_quiet {R X} (t : S → S * X) (k : X → handler R) own seen :
  (∀ l, 0 ≤ own l) → quiet t → (∀ s x, rel seen s → owned own s (k x)) → owned own seen (Act t k).
Proof.
  intros Hpos Hq Hk s Hr Hv. destruct (Hq s Hv) as (Hv' & Hr' & Hc). split_and!; [done..|].
  exists own. split_and!; [done| |apply Hk; by etrans]. intros l. specialize (Hc l). lia.
Qed.

(** A handler whose actions all create nothing. *)
Fixpoint allQuiet {R} (p : handler R) : Prop :=
  match p with Answer _ => True | Act t k => quiet t ∧ ∀ x, allQuiet (k x) end.

Lemma allQuiet_andThen {A B} (p : handler A) (k : A → handler B) :
  allQuiet p → (∀ a, allQuiet (k a)) → allQuiet (andThen p k).
Proof. intros Hp Hk. induction p as [r|X t f IH]; [apply Hk|]. cbn in *. naive_solver. Qed.

Lemma owned_andThen_quiet {A B} (p : handler A) (k : A → handler B) own seen :
  (∀ l, 0 ≤ own l) → allQuiet p → (∀ s a, rel seen s → owned own s (k a)) →
  owned own seen (andThen p k).
Proof.
  intros Hpos. revert seen. induction p as [r|X t f IH]; intros seen Hp Hk; [by apply Hk|].
  destruct Hp as [Ht Hp]. apply owned_quiet; [done..|]. intros s x Hs. apply IH; [apply Hp|].
  intros s' a Hs'. apply Hk. by etrans.
Qed.

(** What a handler answers with costs nothing. *)
Lemma owned_andThen_answer {A B} (p : handler A) (k : A → handler B) own seen :
  owned own seen p → (∀ a, ∃ b, k a = Answer b) → owned own seen (andThen p k).
Proof.
  intros Hp Hk. revert own seen Hp. induction p as [r|X t f IH]; intros own seen Hp.
  - cbn. by destruct (Hk r) as [b ->].
  - intros s Hs Hv. destruct (Hp s Hs Hv) as (? & ? & own' & ? & ? & ?). split_and!; [done..|].
    exists own'. split_and!; [done..|]. by apply IH.
Qed.

Lemma owned_allQuiet {R} (p : handler R) own seen :
  (∀ l, 0 ≤ own l) → allQuiet p → owned own seen p.
Proof.
  intros Hpos. revert seen. induction p as [r|X t f IH]; intros seen Hp; [done|].
  destruct Hp as [Ht Hp]. apply owned_quiet; auto.
Qed.

Lemma runAlone_quiet {R} (p : handler R) s :
  allQuiet p → valid s →
  valid (runAlone p s).1 ∧ rel s (runAlone p s).1 ∧ ∀ l, count l (runAlone p s).1 ≤ count l s.
Proof.
  revert s. induction p as [r|X t f IH]; intros s Hp Hv; [done|]. destruct Hp as [Ht Hp]. cbn.
  destruct (Ht s Hv) as (Hv' & Hr & Hc). destruct (IH (t s).2 (t s).1 (Hp _) Hv') as (? & ? & Hc').
  split_and!; [done|by etrans|]. intros l. specialize (Hc l). specialize (Hc' l). lia.
Qed.

Lemma runAlone_owned {R} (p : handler R) own s : owned own s p → valid s → valid (runAlone p s).1.
Proof.
  revert own s. induction p as [r|X t f IH]; intros own s Hp Hv; [done|].
  destruct (Hp s ltac:(done) Hv) as (Hv' & _ & own' & _ & _ & Ho). by eapply IH.
Qed.

(** ** All interleavings *)

Definition held (own : list Permissions) (l : L) : Z := sumZ (fun o => o l) own.

Definition holds (s : S) (own : Permissions) (th : task) : Prop :=
  (∀ l, 0 ≤ own l) ∧ owned own s (projT2 th).

(** What exists and what may still be created stays within [bound]. *)
Definition bounded (bound : L → Z) (fl : Flight) : Prop :=
  valid (fl_state fl) ∧ ∃ own : list Permissions,
    Forall2 (holds (fl_state fl)) own (fl_tasks fl) ∧
    ∀ l, count l (fl_state fl) + held own l ≤ bound l.

Lemma held_app o1 o2 l : held (o1 ++ o2) l = held o1 l + held o2 l.
Proof. apply sumZ_app. Qed.

Lemma held_cons o own l : held (o :: own) l = o l + held own l.
Proof. done. Qed.

Lemma held_nonneg s own (ths : list task) l : Forall2 (holds s) own ths → 0 ≤ held own l.
Proof.
  intros H. apply sumZ_nonneg. apply Forall_forall. intros o Ho.
  apply list_elem_of_lookup in Ho as [i Hi]. destruct (Forall2_lookup_l _ _ _ _ _ H Hi) as (th & _ & Hp & _).
  apply Hp.
Qed.

Lemma holds_later s s' own ths : rel s s' → Forall2 (holds s) own ths → Forall2 (holds s') own ths.
Proof.
  intros Hr HF. apply (Forall2_impl _ _ _ _ HF). intros o th [Hp Ho]. split; [done|]. by eapply owned_later.
Qed.

Lemma bounded_step bound fl fl' :
  astep fl fl' → bounded bound fl → bounded bound fl' ∧ rel (fl_state fl) (fl_state fl').
Proof.
  intros Hstep Hb. destruct Hstep as [s l1 R X t k l2|s l1 th l2].
  - destruct Hb as (Hv & own & HF & Hc). cbn in *.
    apply Forall2_app_inv_r in HF as (o1 & o2' & H1 & H2 & ->).
    apply Forall2_cons_inv_r in H2 as (o & o2 & [Hpos Ho] & H2 & ->). cbn in Ho.
    destruct (Ho s) as (Hv' & Hr & o' & Hpos' & Hle & Ho'); [done..|]. split; [|done]. split; [done|].
    exists (o1 ++ o' :: o2). split.
    + apply Forall2_app; [by eapply holds_later|]. constructor; [done|by eapply holds_later].
    + intros l. specialize (Hc l). specialize (Hle l). rewrite held_app, held_cons in *. cbn. lia.
  - destruct Hb as (Hv & own & HF & Hc). cbn in *. split; [|done].
    apply Forall2_app_inv_r in HF as (o1 & o2' & H1 & H2 & ->).
    apply Forall2_cons_inv_r in H2 as (o & o2 & [Hpos Ho] & H2 & ->). split; [done|].
    exists (o1 ++ o2). split; [by apply Forall2_app|]. intros l. specialize (Hc l).
    specialize (Hpos l). rewrite held_app, ?held_cons in *. cbn. lia.
Qed.

(** The bound, validity and [rel] hold in every interleaving. *)
Lemma owned_safe bound fl fl' :
  bounded bound fl → rtc astep fl fl' →
  valid (fl_state fl') ∧ rel (fl_state fl) (fl_state fl') ∧ ∀ l, count l (fl_state fl') ≤ bound l.
Proof.
  intros Hb Hs.
  assert (bounded bound fl' ∧ rel (fl_state fl) (fl_state fl')) as [(Hv & own & HF & Hc) Hr].
  { induction Hs as [|x y z Hxy Hyz IH]; [done|].
    destruct (bounded_step _ _ _ Hxy Hb) as [Hy Hr]. destruct (IH Hy) as [Hz Hr']. split; [done|by etrans]. }
  split_and!; [done..|]. intros l. specialize (Hc l). pose proof (held_nonneg _ own _ l HF). lia.
Qed.
End atoms.

Arguments handler : clear implicits.
Arguments Answer {S R} r.
Arguments Act {S R X} t k.
Arguments task : clear implicits.
Arguments Flight : clear implicits.

(** ** Handlers that may throw *)

Definition fallible (S E A : Type) : Type := handler S (result E A).

#[export] Instance fallible_ret S E : MRet (fallible S E) := fun _ a => Answer (Ok a).
#[export] Instance fallible_bind S E : MBind (fallible S E) := fun _ _ k p =>
  andThen p (fun r => match r with Ok a => k a | Err e => Answer (Err e) end).

(** One action, and its outcome. *)
Definition act {S E A} (t : S → S * result E A) : fallible S E A := Act t Answer.
Definition raise {S E A} (e : E) : fallible S E A := Answer (Err e).
Definition give {S E A} (a : A) : fallible S E A := Answer (Ok a).

(** ** Facts every action keeps *)

(** A fact every action of a handler keeps. *)
Fixpoint always {S R} (I : S → Prop) (p : handler S R) : Prop :=
  match p with Answer _ => True | Act t k => ∀ s, I s → I (t s).1 ∧ always I (k (t s).2) end.

Lemma always_andThen {S A B} (I : S → Prop) (p : handler S A) (k : A → handler S B) :
  always I p → (∀ a, always I (k a)) → always I (andThen p k).
Proof.
  intros Hp Hk. induction p as [r|X t f IH]; [apply Hk|]. cbn. intros s Hs. destruct (Hp s Hs). auto.
Qed.

Lemma always_flight {S} (I : S → Prop) (fl fl' : Flight S) :
  rtc astep fl fl' → I (fl_state fl) → Forall (fun th => always I (projT2 th)) (fl_tasks fl) → I (fl_state fl').
Proof.
  induction 1 as [fl|fl1 fl2 fl3 Hs _ IH]; [done|]. intros HI Hth.
  destruct Hs as [s l1 R X t k l2|s l1 th l2]; cbn in *; apply Forall_app in Hth as [H1 [Hm H2]%Forall_cons].
  - destruct (Hm s HI) as [HI' Hk]. apply IH; [done|]. apply Forall_app. split; [done|]. by constructor.
  - apply IH; [done|]. by apply Forall_app.
Qed.

(** ** Handlers that keep a promise, in any order of turns

    A round is a state and the handlers in flight, all with one type of answer; [takeTurns] lets
    them act in any order, and a handler that is never given another turn has died. A
    handler [ensures] a promise when, however the others move the state along [rel] between
    its actions, it moves it along [rel] itself, keeps it valid, and makes the promise true of
    its answer. *)

Section rounds.
Context {S R : Type}.

Record Round := { ro_state : S; ro_tasks : list (handler S R) }.

Definition takeTurn (r : Round) (i : nat) : Round :=
  match ro_tasks r !! i with
  | Some (Act t k) =>
      {| ro_state := (t (ro_state r)).1; ro_tasks := <[i := k (t (ro_state r)).2]> (ro_tasks r) |}
  | _ => r
  end.

Definition takeTurns : Round → list nat → Round := foldl takeTurn.

Context (valid : S → Prop) (rel : S → S → Prop) `{!PreOrder rel}.

Fixpoint ensures (Q : S → R → Prop) (seen : S) (p : handler S R) : Prop :=
  match p with
  | Answer r => Q seen r
  | Act t k => ∀ s, rel seen s → valid s →
      valid (t s).1 ∧ rel s (t s).1 ∧ ensures Q (t s).1 (k (t s).2)
  end.

(** A promise that stays true as the state moves on. *)
Definition lasting (Q : S → R → Prop) : Prop := ∀ s s' r, rel s s' → Q s r → Q s' r.

Lemma ensures_later Q p seen seen' : lasting Q → rel seen seen' → ensures Q seen p → ensures Q seen' p.
Proof.
  intros HQ Hr. destruct p as [r|X t k]; cbn; [by apply HQ|]. intros Hp s Hs. apply Hp. by etrans.
Qed.

Lemma ensures_impl Q Q' p seen :
  (∀ s r, Q s r → Q' s r) → ensures Q seen p → ensures Q' seen p.
Proof.
  intros HQ. revert seen. induction p as [r|X t k IH]; intros seen; cbn; [apply HQ|].
  intros Hp s Hs Hv. destruct (Hp s Hs Hv) as (? & ? & ?). split_and!; [done..|]. by apply IH.
Qed.

(** Each handler with a promise of its own. *)
Definition promised (Q : nat → S → R → Prop) (r : Round) : Prop :=
  valid (ro_state r) ∧ ∀ i p, ro_tasks r !! i = Some p → ensures (Q i) (ro_state r) p.

Lemma promised_turn Q r i : (∀ i, lasting (Q i)) → promised Q r →
  promised Q (takeTurn r i) ∧ rel (ro_state r) (ro_state (takeTurn r i)).
Proof.
  intros HQ [Hv Hp]. unfold takeTurn. destruct (ro_tasks r !! i) as [[a|X t k]|] eqn:E; [by split..| |by split].
  destruct (Hp i _ E (ro_state r)) as (Hv' & Hr & Hk); [done..|]. split; [|done]. split; [done|].
  intros j p. cbn. rewrite list_lookup_insert_Some. intros [(-> & <- & _)|[_ Hj]]; [done|].
  eapply ensures_later; [done|exact Hr|by apply Hp].
Qed.

(** Promises survive every schedule. *)
Lemma promised_turns Q order : ∀ r, (∀ i, lasting (Q i)) → promised Q r →
  promised Q (takeTurns r order) ∧ rel (ro_state r) (ro_state (takeTurns r order)).
Proof.
  induction order as [|i order IH]; intros r HQ Hp; [by split|]. cbn.
  destruct (promised_turn Q r i HQ Hp) as [Hp' Hr]. destruct (IH _ HQ Hp') as [? ?]. split; [done|by etrans].
Qed.

(** An answer is given once. *)
Lemma answer_stays r order i a : ro_tasks r !! i = Some (Answer a) → ro_tasks (takeTurns r order) !! i = Some (Answer a).
Proof.
  revert r. induction order as [|j order IH]; intros r Hi; [done|]. cbn. apply IH. unfold takeTurn.
  destruct (decide (j = i)) as [->|Hne]; [by rewrite Hi|].
  destruct (ro_tasks r !! j) as [[]|]; [done| |done]. cbn. by rewrite list_lookup_insert_ne.
Qed.

Lemma takeTurns_app r o1 o2 : takeTurns r (o1 ++ o2) = takeTurns (takeTurns r o1) o2.
Proof. apply foldl_app. Qed.
End rounds.

Arguments Round : clear implicits.

(** A handler, then whatever its answer calls for. *)
Lemma ensures_andThen {S A B} (valid : S → Prop) (rel : S → S → Prop) (Q : S → A → Prop) (Q' : S → B → Prop)
    (p : handler S A) (k : A → handler S B) seen :
  ensures valid rel Q seen p → (∀ s a, Q s a → ensures valid rel Q' s (k a)) →
  ensures valid rel Q' seen (andThen p k).
Proof.
  intros Hp Hk. revert seen Hp. induction p as [r|X t f IH]; intros seen Hp; cbn in *; [by apply Hk|].
  intros s Hs Hv. destruct (Hp s Hs Hv) as (? & ? & ?). split_and!; [done..|]. by apply IH.
Qed.

(** A fact every action keeps may be relied on. *)
Lemma ensures_always {S R} (valid W : S → Prop) (rel : S → S → Prop) (Q : S → R → Prop) (p : handler S R) seen :
  ensures valid rel Q seen p → always W p → ensures (fun s => valid s ∧ W s) rel Q seen p.
Proof.
  revert seen. induction p as [r|X t k IH]; intros seen Hp Hw; [done|]. cbn. intros s Hr [Hv HW].
  destruct (Hp s Hr Hv) as (? & ? & ?). destruct (Hw s HW). split_and!; [done..|]. by apply IH.
Qed.
