(* ===== verification/IdentityStore.v ===== *)
(** * IdentityStore: the tables and the Redis keys of [identity/]

    The three tables of [database/schema/identity.ts], the revocation keys and the
    kill channel, behind statements with the shape the services use: guarded updates
    that return the rows they changed, first matches, and inserts that hit the unique
    indexes. Times are in milliseconds and every statement reads one clock. Redis may
    be unreachable, in which case a command fails and changes nothing. *)

From S2P Require Import Prelude Schema Errors OrdersRead RateLimit Atoms.

(** ** Rows *)

Record UserRow := {
  u_id : string; u_email : string; u_passwordHash : string; u_displayName : string;
  u_role : UserRole; u_isActive : bool }.

Record TokenRow := {
  rt_id : string; rt_userId : string; rt_tokenHash : string; rt_familyId : string;
  rt_expiresAt : Z; rt_revokedAt : option Z }.

Record DeviceRow := {
  d_id : string; d_name : string; d_tokenHash : option string;
  d_pairingCodeHash : option string; d_pairingExpiresAt : option Z;
  d_status : DeviceStatus; d_lastSeenAt : option Z; d_registeredBy : string; d_createdAt : Z }.

(** [Revocation]: what a message on the kill channel names. *)
Inductive Revocation := RevokeUser (userId : string) | RevokeToken (jti : string) | RevokeDevice (deviceId : string).

#[export] Instance Revocation_eq_dec : EqDecision Revocation.
Proof. solve_decision. Defined.

Record Identity := {
  i_now : Z;
  i_users : gmap string UserRow;
  i_refreshTokens : gmap string TokenRow;
  i_kioskDevices : gmap string DeviceRow;
  i_redis : Redis;
  i_redisUp : bool;
  i_published : list Revocation }.

Definition with_users (t : gmap string UserRow) (s : Identity) : Identity :=
  {| i_now := i_now s; i_users := t; i_refreshTokens := i_refreshTokens s;
     i_kioskDevices := i_kioskDevices s; i_redis := i_redis s; i_redisUp := i_redisUp s;
     i_published := i_published s |}.
Definition with_refreshTokens (t : gmap string TokenRow) (s : Identity) : Identity :=
  {| i_now := i_now s; i_users := i_users s; i_refreshTokens := t;
     i_kioskDevices := i_kioskDevices s; i_redis := i_redis s; i_redisUp := i_redisUp s;
     i_published := i_published s |}.
Definition with_devices (t : gmap string DeviceRow) (s : Identity) : Identity :=
  {| i_now := i_now s; i_users := i_users s; i_refreshTokens := i_refreshTokens s;
     i_kioskDevices := t; i_redis := i_redis s; i_redisUp := i_redisUp s;
     i_published := i_published s |}.
(** Everything but the tables. *)
Definition with_outside (now : Z) (redis : Redis) (up : bool) (published : list Revocation)
    (s : Identity) : Identity :=
  {| i_now := now; i_users := i_users s; i_refreshTokens := i_refreshTokens s;
     i_kioskDevices := i_kioskDevices s; i_redis := redis; i_redisUp := up;
     i_published := published |}.

(** ** Statements *)

Section statements.
Context {R : Type}.

Definition rows (table : gmap string R) : list R := (map_to_list table).*2.

(** [findFirst({ where })]. *)
Definition findFirst (P : R → bool) (table : gmap string R) : option R :=
  head (filter (fun r => P r = true) (rows table)).

(** [update().set(f).where(P)]: the table after it, and what [returning] holds. *)
Definition updateWhere (P : R → bool) (f : R → R) (table : gmap string R) : gmap string R * list R :=
  ((fun r => if P r then f r else r) <$> table, f <$> filter (fun r => P r = true) (rows table)).

Lemma elem_of_rows r table : r ∈ rows table ↔ ∃ k, table !! k = Some r.
Proof.
  unfold rows. rewrite list_elem_of_fmap. split.
  - intros ([k r'] & -> & H). exists k. by apply elem_of_map_to_list.
  - intros [k H]. exists (k, r). split; [done|]. by apply elem_of_map_to_list.
Qed.

Lemma findFirst_Some P table r :
  findFirst P table = Some r → P r = true ∧ ∃ k, table !! k = Some r.
Proof.
  unfold findFirst. intros H. apply head_Some_elem_of, list_elem_of_filter in H as [? H].
  by apply elem_of_rows in H.
Qed.

Lemma findFirst_None P table :
  findFirst P table = None ↔ ∀ k r, table !! k = Some r → P r = false.
Proof.
  unfold findFirst. rewrite head_None. split.
  - intros H k r Hr. destruct (P r) eqn:E; [|done]. exfalso.
    assert (r ∈ filter (fun r => P r = true) (rows table)) as Hin.
    { apply list_elem_of_filter. split; [done|]. apply elem_of_rows. eauto. }
    rewrite H in Hin. by apply elem_of_nil in Hin.
  - intros H. destruct (filter _ _) as [|r l] eqn:E; [done|]. exfalso.
    assert (r ∈ filter (fun r => P r = true) (rows table)) as Hin by (rewrite E; constructor).
    apply list_elem_of_filter in Hin as [HP Hin]. apply elem_of_rows in Hin as [k Hk].
    by rewrite (H k r Hk) in HP.
Qed.

(** A unique match is the first one. *)
Lemma findFirst_unique P table k r :
  table !! k = Some r → P r = true → (∀ k' r', table !! k' = Some r' → P r' = true → k' = k) →
  findFirst P table = Some r.
Proof.
  intros Hr HP Hu. destruct (findFirst P table) as [r'|] eqn:E.
  - apply findFirst_Some in E as (HP' & k' & Hk'). rewrite (Hu _ _ Hk' HP') in Hk'. congruence.
  - rewrite findFirst_None in E. by rewrite (E _ _ Hr) in HP.
Qed.

Lemma lookup_updateWhere P f table k :
  (updateWhere P f table).1 !! k = (fun r => if P r then f r else r) <$> table !! k.
Proof. apply lookup_fmap. Qed.

Lemma updateWhere_head P f table : head (updateWhere P f table).2 = f <$> findFirst P table.
Proof. unfold updateWhere, findFirst. cbn. by destruct (filter _ _). Qed.

Lemma updateWhere_none P f table :
  findFirst P table = None → (updateWhere P f table).1 = table.
Proof.
  rewrite findFirst_None. intros H. apply map_eq. intros k. rewrite lookup_updateWhere.
  destruct (table !! k) as [r|] eqn:E; [|done]. cbn. by rewrite (H _ _ E).
Qed.

(** Where one row matches, the update is an insert at its key. *)
Lemma updateWhere_one P f table k r :
  table !! k = Some r → P r = true → (∀ k' r', table !! k' = Some r' → P r' = true → k' = k) →
  updateWhere P f table = (<[k := f r]> table, [f r]) .
Proof.
  intros Hr HP Hu. unfold updateWhere. f_equal.
  - apply map_eq. intros k'. rewrite lookup_fmap. destruct (decide (k' = k)) as [->|Hne].
    + rewrite lookup_insert_eq, Hr. cbn. by rewrite HP.
    + rewrite lookup_insert_ne by done. destruct (table !! k') as [r'|] eqn:E; [|done]. cbn.
      destruct (P r') eqn:HP'; [|done]. by destruct Hne, (Hu _ _ E HP').
  - assert (filter (fun r => P r = true) (rows table) = [r]) as ->; [|done].
    unfold rows. rewrite <-(insert_id table k r Hr), <-(insert_delete_eq table).
    assert (∀ l : list (string * R), (∀ p, p ∈ l → P p.2 = false) →
      filter (fun r => P r = true) l.*2 = []) as Hnil.
    { induction l as [|p l IH]; intros Hl; [done|]. rewrite fmap_cons, filter_cons_False.
      - apply IH. intros q Hq. apply Hl. by constructor.
      - rewrite Hl by constructor. done. }
    assert (filter (fun r => P r = true) (map_to_list (delete k table)).*2 = []) as Hrest.
    { apply Hnil. intros [k' r'] Hin. apply elem_of_map_to_list, lookup_delete_Some in Hin as [Hne Hin].
      cbn. destruct (P r') eqn:HP'; [|done]. by destruct Hne; rewrite (Hu _ _ Hin HP'). }
    assert (filter (fun r => P r = true) (map_to_list (<[k := r]> (delete k table))).*2
            ≡ₚ filter (fun r => P r = true) (r :: (map_to_list (delete k table)).*2)) as Hp.
    { change (r :: (map_to_list (delete k table)).*2) with (((k, r) :: map_to_list (delete k table)).*2).
      apply filter_Permutation, fmap_Permutation, map_to_list_insert, lookup_delete_eq. }
    rewrite filter_cons_True in Hp by done. rewrite Hrest in Hp. by apply Permutation_singleton_r in Hp.
Qed.

Lemma rows_insert k r table : table !! k = None → rows (<[k := r]> table) ≡ₚ r :: rows table.
Proof.
  intros H. unfold rows. change (r :: (map_to_list table).*2) with (((k, r) :: map_to_list table).*2).
  by apply fmap_Permutation, map_to_list_insert.
Qed.

Lemma rows_take k r table : table !! k = Some r → rows table ≡ₚ r :: rows (delete k table).
Proof.
  intros H. rewrite <-(rows_insert k r) by apply lookup_delete_eq. by rewrite insert_delete_id.
Qed.

(** A statement that returned one row matched one key. *)
Lemma updateWhere_single P f table x k k' r r' :
  (updateWhere P f table).2 = [x] → table !! k = Some r → table !! k' = Some r' →
  P r = true → P r' = true → k = k'.
Proof.
  intros H Hk Hk' HP HP'. destruct (decide (k = k')) as [|Hne]; [done|]. exfalso.
  cbn in H. apply (f_equal length) in H. rewrite length_fmap in H. cbn in H.
  assert (filter (fun r => P r = true) (rows table)
    ≡ₚ r :: r' :: filter (fun r => P r = true) (rows (delete k' (delete k table)))) as Hp.
  { rewrite (rows_take k r) by done. rewrite filter_cons_True by done.
    rewrite (rows_take k' r') by (by rewrite lookup_delete_ne). by rewrite filter_cons_True. }
  apply Permutation_length in Hp. cbn in Hp. lia.
Qed.
End statements.

(** A citext comparison. *)
Definition sameEmail (a b : string) : bool := bool_decide (lowerText a = lowerText b).

(** A Redis command: none where it cannot be reached. *)
Definition onRedis {X} (f : Z → Redis → Redis * X) (s : Identity) : Identity * result AppError X :=
  if i_redisUp s then
    let '(redis, x) := f (i_now s) (i_redis s) in
    (with_outside (i_now s) redis (i_redisUp s) (i_published s) s, Ok x)
  else (s, Err (JsError "redis")).

Lemma onRedis_up {X} (f : Z → Redis → Redis * X) s : i_redisUp s = true →
  onRedis f s = (with_outside (i_now s) (f (i_now s) (i_redis s)).1 true (i_published s) s,
                 Ok (f (i_now s) (i_redis s)).2).
Proof. intros H. unfold onRedis. rewrite H. by destruct (f _ _). Qed.

(** [redis.publish]. *)
Definition publish (message : Revocation) (s : Identity) : Identity * result AppError unit :=
  if i_redisUp s then
    (with_outside (i_now s) (i_redis s) (i_redisUp s) (i_published s ++ [message]) s, Ok tt)
  else (s, Err (JsError "redis")).

(** A query, which changes nothing. *)
Definition query {X} (f : Identity → X) (s : Identity) : Identity * result AppError X := (s, Ok (f s)).

Notation idM := (fallible Identity AppError).

(** The clock moves, and Redis comes and goes. *)
Definition elapse (ms : Z) : idM unit :=
  act (fun s => (with_outside (i_now s + ms) (i_redis s) (i_redisUp s) (i_published s) s, Ok tt)).
Definition redisTurns (up : bool) : idM unit :=
  act (fun s => (with_outside (i_now s) (i_redis s) up (i_published s) s, Ok tt)).
