(* ===== verification/Revocations.v ===== *)
(** * Revocations: [identity/revocation/revocation.service.ts]

    The deny keys and the kill channel: announcing with retries, the check a socket
    makes on connecting, and the parser of the channel's messages. *)

From S2P Require Import Prelude Text Schema Errors Idempotency Fingerprint OrdersRead JsonText RateLimit Atoms IdentityStore.

Definition userKey (userId : string) : string := "ws:revoked:user:" +:+ userId.
Definition tokenKey (jti : string) : string := "ws:revoked:jti:" +:+ jti.

(** [RETRY_DELAYS_MS]. *)
Definition RETRY_DELAYS_MS : list Z := [50; 100; 200].

(** [withRetry]: one attempt and one more per delay. *)
Fixpoint withRetryFrom (remaining : nat) (attempt : idM unit) : idM unit :=
  andThen attempt (fun r =>
    match r with
    | Ok x => give x
    | Err error =>
        match remaining with
        | O => raise error
        | S remaining => withRetryFrom remaining attempt
        end
    end).

Definition withRetry : idM unit → idM unit := withRetryFrom (length RETRY_DELAYS_MS).

Section revocations.
(** ACCESS_TOKEN_TTL_SECONDS. *)
Context (ttlSeconds : Z).

(** The key is written before the message is sent. *)
Definition announce (key : string) (message : Revocation) : idM unit :=
  withRetry (
    _ ← act (onRedis (fun now redis => (SET_EX now key 1 ttlSeconds redis, tt)));
    act (publish message)).

Definition revokeUser (userId : string) : idM unit := announce (userKey userId) (RevokeUser userId).
Definition revokeToken (jti : string) : idM unit := announce (tokenKey jti) (RevokeToken jti).
Definition revokeDevice (deviceId : string) : idM unit :=
  withRetry (act (publish (RevokeDevice deviceId))).
End revocations.

(** [isRevoked]: an unreachable Redis throws. *)
Definition isRevoked (userId tokenId : string) : idM bool :=
  act (onRedis (fun now redis =>
    (redis, existsb (fun key => bool_decide (is_Some (GET now key redis)))
              [userKey userId; tokenKey tokenId]))).

(** ** The channel *)

(** [JSON.stringify] of a message. *)
Definition printRevocation (message : Revocation) : string :=
  let '(field, value) := match message with
    | RevokeUser userId => ("userId", userId)
    | RevokeToken jti => ("jti", jti)
    | RevokeDevice deviceId => ("deviceId", deviceId)
    end in
  print (JObj [(field, JStr value)]).

Definition named (parsed : JsonValue) (field : string) : option string :=
  match asString (property field parsed) with
  | Some value => if bool_decide (value = "") then None else Some value
  | None => None
  end.

(** [parseRevocation]: exactly one of the three fields. *)
Definition parseRevocation (raw : string) : option Revocation :=
  match jsonParse raw with
  | None => None
  | Some parsed =>
      match named parsed "userId", named parsed "jti", named parsed "deviceId" with
      | Some userId, None, None => Some (RevokeUser userId)
      | None, Some jti, None => Some (RevokeToken jti)
      | None, None, Some deviceId => Some (RevokeDevice deviceId)
      | _, _, _ => None
      end
  end.

(** ** Lemmas *)

Section laws.
Context (ttlSeconds : Z).

(** With Redis reachable, an announcement is one write and one message. *)
Lemma announce_up key message s : i_redisUp s = true →
  runAlone (announce ttlSeconds key message) s =
  (with_outside (i_now s) (SET_EX (i_now s) key 1 ttlSeconds (i_redis s)) true
     (i_published s ++ [message]) s, Ok tt).
Proof.
  intros Hup. unfold announce, withRetry, withRetryFrom. cbn. unfold onRedis, publish.
  rewrite Hup. cbn. done.
Qed.

(** With Redis unreachable it gives up after four attempts and changes nothing. *)
Lemma announce_down key message s : i_redisUp s = false →
  runAlone (announce ttlSeconds key message) s = (s, Err (JsError "redis")).
Proof.
  intros Hdown. unfold announce, withRetry, withRetryFrom. cbn. unfold onRedis, publish.
  repeat (rewrite Hdown; cbn). done.
Qed.
End laws.

(** A message of the service's own, with a name in it, is read back. *)
Lemma parse_print_revocation message :
  (match message with RevokeUser x | RevokeToken x | RevokeDevice x => x ≠ "" end) →
  parseRevocation (printRevocation message) = Some message.
Proof.
  intros H. unfold parseRevocation, printRevocation.
  destruct message as [x|x|x]; rewrite parse_print by done; unfold named;
    repeat match goal with |- context [asString ?o] =>
      let v := eval vm_compute in (asString o) in change (asString o) with v end;
    cbv beta iota; rewrite (bool_decide_eq_false_2 (x = "")) by exact H; reflexivity.
Qed.
