(* ===== verification/Sessions.v ===== *)
(** * Sessions: [identity/auth/*.ts]

    Access tokens, and the service that signs staff in, rotates refresh tokens and ends
    sessions. Each SQL statement is an action of its own, so a handler is only as atomic
    as the code makes it. The ids and secrets a handler draws are its arguments. *)

From S2P Require Import Prelude Schema Errors OrdersRead RateLimit Atoms IdentityStore Revocations.

(** ** Access tokens ([access-token.service.ts]) *)

Record StaffClaims := {
  cl_sub : string; cl_role : string; cl_type : string; cl_jti : string; cl_iat : Z; cl_exp : Z }.

Inductive JwtAnswer := JwtClaims (claims : StaffClaims) | JwtExpired | JwtInvalid.

(** [JwtService]: signing and verifying at an instant in milliseconds; a token that does
    not decode has no claims. *)
Class Jwt := {
  jwt_sign : Z → string → string → string → string → string;
  jwt_decode : string → option StaffClaims;
  jwt_verify : Z → string → JwtAnswer }.

(** What the library documents: a token carries the claims it was signed with, the second
    it was signed in and its lifetime, and verifies until the second it expires in. *)
Class JwtLaws `{!Jwt} (ttlSeconds : Z) := {
  jwt_decode_sign now sub role type jti :
    jwt_decode (jwt_sign now sub role type jti) = Some
      {| cl_sub := sub; cl_role := role; cl_type := type; cl_jti := jti;
         cl_iat := now / 1000; cl_exp := now / 1000 + ttlSeconds |};
  jwt_verify_sign later now sub role type jti :
    jwt_verify later (jwt_sign now sub role type jti) =
    if now / 1000 + ttlSeconds <=? later / 1000 then JwtExpired
    else JwtClaims {| cl_sub := sub; cl_role := role; cl_type := type; cl_jti := jti;
                      cl_iat := now / 1000; cl_exp := now / 1000 + ttlSeconds |} }.

Definition userRoles : list UserRole := [ADMIN; MANAGER; CASHIER; BARISTA].

Definition roleText (r : UserRole) : string :=
  match r with ADMIN => "ADMIN" | MANAGER => "MANAGER" | CASHIER => "CASHIER" | BARISTA => "BARISTA" end.

(** [isUserRole], with the role it narrows to. *)
Definition userRoleOf (role : string) : option UserRole :=
  find (fun r => bool_decide (roleText r = role)) userRoles.

(** [StaffPrincipal]: with the id of its token. *)
Record StaffSession := { ss_userId : string; ss_role : UserRole; ss_tokenId : string }.

Definition principalOf (s : StaffSession) : Principal := StaffPrincipal (ss_userId s) (ss_role s).

Definition STAFF_TOKEN_TYPE : string := "staff".

(** [PasswordHasher]: the hash of a password under a salt, and its check. *)
Class Passwords := {
  hashPassword : string → string → string;
  verifyPassword : string → string → bool }.

Section auth.
Context `{!Jwt, !Passwords} (sha256 : string → string).
(** ACCESS_TOKEN_TTL_SECONDS and REFRESH_TOKEN_TTL_SECONDS. *)
Context (accessTtl refreshTtl : Z).

Definition issue (userId : string) (role : UserRole) (jti : string) : idM (string * Z) :=
  now ← act (query i_now);
  let accessToken := jwt_sign now userId (roleText role) STAFF_TOKEN_TYPE jti in
  match jwt_decode accessToken with
  | Some claims => give (accessToken, cl_exp claims - cl_iat claims)
  | None => raise (JsError "decode")
  end.

Definition verifyAccess (now : Z) (token : string) : result AppError StaffSession :=
  match jwt_verify now token with
  | JwtExpired => Err TokenExpiredError
  | JwtInvalid => Err TokenInvalidError
  | JwtClaims claims =>
      if negb (bool_decide (cl_type claims = STAFF_TOKEN_TYPE)) then Err TokenInvalidError
      else match userRoleOf (cl_role claims) with
           | None => Err TokenInvalidError
           | Some role => Ok {| ss_userId := cl_sub claims; ss_role := role; ss_tokenId := cl_jti claims |}
           end
  end.

(** ** The service ([auth.service.ts]) *)

Record TokenPair := { tp_accessToken : string; tp_refreshToken : string; tp_expiresInSeconds : Z }.

Record AuthenticatedUser := {
  au_id : string; au_email : string; au_displayName : string; au_role : UserRole }.

Definition ABSENT_USER_HASH : string :=
  "$argon2id$v=19$m=19456,t=2,p=1$Ny54wUL1ahJTvTP1ZEvIvw$ehB8O7J0xPlug57LlgrVykj2qEctN0YI6uZtPIyo6V8".

(** [hashSecret] ([crypto/secret-token.ts]). *)
Definition hashSecret (secret : string) : string := sha256 secret.

(** What one issued pair draws: the row's id, the token's id and the secret. *)
Record Draw := { dr_rowId : string; dr_jti : string; dr_secret : string }.

(** [insert(refreshTokens)]: the primary key, the unique hash and the user. *)
Definition insertToken (row : TokenRow) (s : Identity) : Identity * result AppError unit :=
  if bool_decide (is_Some (i_refreshTokens s !! rt_id row))
     || existsb (fun r => bool_decide (rt_tokenHash r = rt_tokenHash row)) (rows (i_refreshTokens s))
  then (s, Err (DbError UNIQUE_VIOLATION))
  else if bool_decide (i_users s !! rt_userId row = None) then (s, Err (DbError FOREIGN_KEY_VIOLATION))
  else (with_refreshTokens (<[rt_id row := row]> (i_refreshTokens s)) s, Ok tt).

(** The row is stamped by the database's clock. *)
Definition insertIssued (userId familyId : string) (draw : Draw) (s : Identity)
    : Identity * result AppError unit :=
  insertToken {| rt_id := dr_rowId draw; rt_userId := userId;
                 rt_tokenHash := hashSecret (dr_secret draw); rt_familyId := familyId;
                 rt_expiresAt := i_now s + refreshTtl * 1000; rt_revokedAt := None |} s.

Definition issuePair (user : UserRow) (familyId : string) (draw : Draw) : idM TokenPair :=
  '(accessToken, expiresInSeconds) ← issue (u_id user) (u_role user) (dr_jti draw);
  _ ← act (insertIssued (u_id user) familyId draw);
  give {| tp_accessToken := accessToken; tp_refreshToken := dr_secret draw;
          tp_expiresInSeconds := expiresInSeconds |}.

Definition findUser (P : UserRow → bool) : idM (option UserRow) :=
  act (query (fun s => findFirst P (i_users s))).

Definition publicUser (u : UserRow) : AuthenticatedUser :=
  {| au_id := u_id u; au_email := u_email u; au_displayName := u_displayName u; au_role := u_role u |}.

Definition failLogin {A} (email : string) : idM A :=
  _ ← act (onRedis (fun now redis => (recordFailure now email redis, tt)));
  raise InvalidCredentialsError.

Definition login (email password familyId : string) (draw : Draw) : idM (TokenPair * AuthenticatedUser) :=
  lockedOut ← act (onRedis (fun now redis => assertNotLockedOut now email redis));
  match lockedOut with
  | Err e => raise e
  | Ok _ =>
      user ← findUser (fun u => sameEmail (u_email u) email);
      let passwordMatches := verifyPassword (default ABSENT_USER_HASH (u_passwordHash <$> user)) password in
      match user with
      | None => failLogin email
      | Some user =>
          if negb (u_isActive user) || negb passwordMatches then failLogin email
          else
            _ ← act (onRedis (fun _ redis => (clearFailures email redis, tt)));
            pair ← issuePair user familyId draw;
            give (pair, publicUser user)
      end
  end.

(** [update(refreshTokens).set({ revokedAt }).where(P and revoked_at is null)]. *)
Definition revokeTokens (P : TokenRow → bool) (s : Identity) : Identity * result AppError (option TokenRow) :=
  let '(table, changed) := updateWhere
    (fun r => P r && bool_decide (rt_revokedAt r = None))
    (fun r => {| rt_id := rt_id r; rt_userId := rt_userId r; rt_tokenHash := rt_tokenHash r;
                 rt_familyId := rt_familyId r; rt_expiresAt := rt_expiresAt r;
                 rt_revokedAt := Some (i_now s) |}) (i_refreshTokens s) in
  (with_refreshTokens table s, Ok (head changed)).

Definition hasHash (tokenHash : string) (r : TokenRow) : bool := bool_decide (rt_tokenHash r = tokenHash).
Definition inFamily (familyId : string) (r : TokenRow) : bool := bool_decide (rt_familyId r = familyId).

Definition revokeFamily (familyId : string) : idM unit :=
  _ ← act (revokeTokens (inFamily familyId)); give tt.

Definition findToken (tokenHash : string) : idM (option TokenRow) :=
  act (query (fun s => findFirst (hasHash tokenHash) (i_refreshTokens s))).

Definition revokeFamilyOfReplayedToken (tokenHash : string) : idM unit :=
  replayed ← findToken tokenHash;
  match replayed with
  | None => give tt
  | Some replayed => _ ← revokeFamily (rt_familyId replayed); raise RefreshTokenReusedError
  end.

Definition refresh (token : string) (draw : Draw) : idM TokenPair :=
  let tokenHash := hashSecret token in
  retired ← act (revokeTokens (hasHash tokenHash));
  match retired with
  | None => _ ← revokeFamilyOfReplayedToken tokenHash; raise TokenInvalidError
  | Some retired =>
      now ← act (query i_now);
      if rt_expiresAt retired <=? now then raise TokenExpiredError
      else
        user ← findUser (fun u => bool_decide (u_id u = rt_userId retired));
        match user with
        | Some user => if u_isActive user then issuePair user (rt_familyId retired) draw
                       else raise InvalidCredentialsError
        | None => raise InvalidCredentialsError
        end
  end.

(** A failed announcement is logged, not thrown. *)
Definition caught (p : idM unit) : idM unit := andThen p (fun _ => give tt).

Definition logout (session : StaffSession) (token : string) : idM unit :=
  row ← findToken (hashSecret token);
  match row with
  | None => raise TokenInvalidError
  | Some row =>
      if negb (bool_decide (rt_userId row = ss_userId session)) then raise TokenInvalidError
      else
        _ ← revokeFamily (rt_familyId row);
        caught (revokeToken accessTtl (ss_tokenId session))
  end.

(** [PrincipalDescription]. *)
Inductive PrincipalDescription :=
| StaffDescription (user : AuthenticatedUser)
| DeviceDescription (id name : string) (status : DeviceStatus).

Definition describe (principal : Principal) : idM PrincipalDescription :=
  match principal with
  | StaffPrincipal userId _ =>
      user ← findUser (fun u => bool_decide (u_id u = userId));
      match user with
      | Some user => if u_isActive user then give (StaffDescription (publicUser user))
                     else raise InvalidCredentialsError
      | None => raise InvalidCredentialsError
      end
  | DevicePrincipal deviceId =>
      device ← act (query (fun s => findFirst (fun d => bool_decide (d_id d = deviceId)) (i_kioskDevices s)));
      match device with
      | Some device => give (DeviceDescription (d_id device) (d_name device) (d_status device))
      | None => raise TokenInvalidError
      end
  end.
End auth.
