(* ===== verification/Accounts.v ===== *)
(** * Accounts: [identity/users/users.service.ts]

    Staff accounts: creation, and the update that never takes the last active
    administrator away. The guarded update is one action: its transaction locks the
    active administrators first, so two of them run one after the other. *)

From S2P Require Import Prelude Schema Errors OrdersRead RateLimit Atoms IdentityStore Revocations Sessions.

(** [StaffAccount]: no password hash. *)
Record StaffAccount := {
  sa_id : string; sa_email : string; sa_displayName : string; sa_role : UserRole; sa_isActive : bool }.

(** [PUBLIC_COLUMNS]. *)
Definition publicColumns (u : UserRow) : StaffAccount :=
  {| sa_id := u_id u; sa_email := u_email u; sa_displayName := u_displayName u; sa_role := u_role u;
     sa_isActive := u_isActive u |}.

Record CreateUserInput := {
  cu_email : string; cu_displayName : string; cu_role : UserRole; cu_password : string }.

(** The changes the schema lets through name at least one field. *)
Record UpdateUserInput := {
  uu_displayName : option string; uu_role : option UserRole; uu_isActive : option bool }.

(** [insert(users)]: the primary key and the case-insensitive unique email. *)
Definition insertUser (row : UserRow) (s : Identity) : Identity * result AppError StaffAccount :=
  if bool_decide (is_Some (i_users s !! u_id row))
     || existsb (fun u => sameEmail (u_email u) (u_email row)) (rows (i_users s))
  then (s, Err (DbError UNIQUE_VIOLATION))
  else (with_users (<[u_id row := row]> (i_users s)) s, Ok (publicColumns row)).

Definition createUser `{!Passwords} (input : CreateUserInput) (id salt : string) : idM StaffAccount :=
  andThen (act (insertUser
    {| u_id := id; u_email := cu_email input; u_passwordHash := hashPassword salt (cu_password input);
       u_displayName := cu_displayName input; u_role := cu_role input; u_isActive := true |}))
    (fun r => match r with
              | Ok created => give created
              | Err error => if isUniqueViolation error then raise (UserEmailExistsError (cu_email input))
                             else raise error
              end).

Definition isActiveAdmin (u : UserRow) : bool := bool_decide (u_role u = ADMIN) && u_isActive u.

Definition applyChanges (changes : UpdateUserInput) (u : UserRow) : UserRow :=
  {| u_id := u_id u; u_email := u_email u; u_passwordHash := u_passwordHash u;
     u_displayName := default (u_displayName u) (uu_displayName changes);
     u_role := default (u_role u) (uu_role changes);
     u_isActive := default (u_isActive u) (uu_isActive changes) |}.

Definition hasId (id : string) (u : UserRow) : bool := bool_decide (u_id u = id).

(** [update(users).set(changes).where(id)]. *)
Definition writeUser (id : string) (changes : UpdateUserInput) (s : Identity)
    : Identity * option StaffAccount :=
  let '(table, updated) := updateWhere (hasId id) (applyChanges changes) (i_users s) in
  (with_users table s, publicColumns <$> head updated).

(** [guardLastAdmin]. *)
Definition guardLastAdmin (id : string) (current : UserRow) (changes : UpdateUserInput) (s : Identity)
    : result AppError unit :=
  let wasAdmin := isActiveAdmin current in
  if negb wasAdmin then Ok tt
  else
    let willBeAdmin := bool_decide (default (u_role current) (uu_role changes) = ADMIN)
                       && default (u_isActive current) (uu_isActive changes) in
    if willBeAdmin then Ok tt
    else
      let count := length (filter (fun u => isActiveAdmin u && negb (hasId id u) = true) (rows (i_users s))) in
      if bool_decide (count = 0%nat) then Err LastAdminError else Ok tt.

(** The transaction of the guarded path, and the row its update returned. *)
Definition guardedUpdateUser (id : string) (changes : UpdateUserInput) (s : Identity)
    : Identity * result AppError (option StaffAccount) :=
  match findFirst (hasId id) (i_users s) with
  | None => (s, Err (ResourceNotFoundError "user" id))
  | Some current =>
      match guardLastAdmin id current changes s with
      | Err e => (s, Err e)
      | Ok _ =>
          let '(s', updated) := writeUser id changes s in (s', Ok updated)
      end
  end.

Definition updateUser (accessTtl : Z) (id : string) (changes : UpdateUserInput) : idM (option StaffAccount) :=
  match uu_role changes, uu_isActive changes with
  | None, None =>
      act (fun s => let '(s', renamed) := writeUser id changes s in
           match renamed with
           | Some renamed => (s', Ok (Some renamed))
           | None => (s', Err (ResourceNotFoundError "user" id))
           end)
  | _, _ =>
      updated ← act (guardedUpdateUser id changes);
      _ ← caught (revokeUser accessTtl id);
      give updated
  end.
