(* ===== verification/Devices.v ===== *)
(** * Devices: [identity/devices/*.ts], [identity/crypto/secret-token.ts]

    Kiosk tablets: registration with a one-time pairing code, activation, pausing,
    revocation, and resolving the token a tablet presents. *)

From S2P Require Import Prelude Text Schema Errors Idempotency OrdersRead RateLimit Atoms IdentityStore Revocations Sessions.

(** ** Pairing codes *)

Definition PAIRING_CODE_ALPHABET : string := "23456789ABCDEFGHJKMNPQRSTUVWXYZ".
Definition PAIRING_CODE_LENGTH : nat := 8.

(** [generatePairingCode]: one draw of [randomInt] per character. *)
Definition generatePairingCode (randomInt : nat → nat) : string :=
  foldr (fun i code => match String.get (randomInt i) PAIRING_CODE_ALPHABET with
                       | Some c => String c code
                       | None => code
                       end) "" (seq 0 PAIRING_CODE_LENGTH).

Definition inAlphabet (c : Ascii.ascii) : bool :=
  existsb (Ascii.eqb c) (String.list_ascii_of_string PAIRING_CODE_ALPHABET).

(** [ActivateDeviceSchema]: the code it hands on. *)
Definition ActivateDeviceSchema (pairingCode : string) : option string :=
  let code := upperText (trimText pairingCode) in
  if (String.length code =? PAIRING_CODE_LENGTH)%nat && forallb inAlphabet (String.list_ascii_of_string code)
  then Some code else None.

(** ** The service *)

Record DeviceSummary := {
  ds_id : string; ds_name : string; ds_status : DeviceStatus; ds_lastSeenAt : option Z; ds_createdAt : Z }.

Definition deviceSummary (d : DeviceRow) : DeviceSummary :=
  {| ds_id := d_id d; ds_name := d_name d; ds_status := d_status d; ds_lastSeenAt := d_lastSeenAt d;
     ds_createdAt := d_createdAt d |}.

Record ActivatedDevice := { ad_deviceId : string; ad_name : string; ad_deviceToken : string }.

Record UpdateDeviceInput := { ud_name : option string; ud_paused : option bool }.

Section devices.
Context (sha256 : string → string).
(** PAIRING_CODE_TTL_SECONDS. *)
Context (pairingTtl : Z).

Notation hashSecret := (hashSecret sha256).

(** [insert(kioskDevices)]. *)
Definition insertDevice (id name pairingCode registeredBy : string) (s : Identity)
    : Identity * result AppError DeviceSummary :=
  let row := {| d_id := id; d_name := name; d_tokenHash := None;
                d_pairingCodeHash := Some (hashSecret pairingCode);
                d_pairingExpiresAt := Some (i_now s + pairingTtl * 1000); d_status := DevPENDING;
                d_lastSeenAt := None; d_registeredBy := registeredBy; d_createdAt := i_now s |} in
  if bool_decide (is_Some (i_kioskDevices s !! id)) then (s, Err (DbError UNIQUE_VIOLATION))
  else if bool_decide (i_users s !! registeredBy = None) then (s, Err (DbError FOREIGN_KEY_VIOLATION))
  else (with_devices (<[id := row]> (i_kioskDevices s)) s, Ok (deviceSummary row)).

Definition createDevice (name registeredBy id pairingCode : string) : idM (DeviceSummary * string) :=
  created ← act (insertDevice id name pairingCode registeredBy);
  give (created, pairingCode).

(** The rows an activation matches. *)
Definition pairable (codeHash : string) (now : Z) (d : DeviceRow) : bool :=
  bool_decide (d_pairingCodeHash d = Some codeHash) && bool_decide (d_status d = DevPENDING)
  && match d_pairingExpiresAt d with Some at_ => now <? at_ | None => false end.

Definition paired (tokenHash : string) (d : DeviceRow) : DeviceRow :=
  {| d_id := d_id d; d_name := d_name d; d_tokenHash := Some tokenHash; d_pairingCodeHash := None;
     d_pairingExpiresAt := None; d_status := DevACTIVE; d_lastSeenAt := d_lastSeenAt d;
     d_registeredBy := d_registeredBy d; d_createdAt := d_createdAt d |}.

(** The guarded update of [activate]; the unique index refuses a token hash held twice. *)
Definition pairDevice (codeHash tokenHash : string) (s : Identity)
    : Identity * result AppError (option DeviceRow) :=
  let '(table, activated) := updateWhere (pairable codeHash (i_now s)) (paired tokenHash) (i_kioskDevices s) in
  match activated with
  | [] => (s, Ok None)
  | [d] => if existsb (fun d => bool_decide (d_tokenHash d = Some tokenHash)) (rows (i_kioskDevices s))
           then (s, Err (DbError UNIQUE_VIOLATION))
           else (with_devices table s, Ok (Some d))
  | _ => (s, Err (DbError UNIQUE_VIOLATION))
  end.

Definition findDevice (P : DeviceRow → bool) : idM (option DeviceRow) :=
  act (query (fun s => findFirst P (i_kioskDevices s))).

Definition explainFailedPairing {A} (codeHash : string) : idM A :=
  device ← findDevice (fun d => bool_decide (d_pairingCodeHash d = Some codeHash));
  now ← act (query i_now);
  match device with
  | Some d =>
      if bool_decide (d_status d = DevPENDING)
         && match d_pairingExpiresAt d with Some at_ => at_ <=? now | None => false end
      then raise PairingCodeExpiredError else raise PairingCodeInvalidError
  | None => raise PairingCodeInvalidError
  end.

Definition activate (pairingCode deviceToken : string) : idM ActivatedDevice :=
  let codeHash := hashSecret pairingCode in
  activated ← act (pairDevice codeHash (hashSecret deviceToken));
  match activated with
  | None => explainFailedPairing codeHash
  | Some d => give {| ad_deviceId := d_id d; ad_name := d_name d; ad_deviceToken := deviceToken |}
  end.

Definition hasDeviceId (id : string) (d : DeviceRow) : bool := bool_decide (d_id d = id).

(** The row with a new name, status or time of last sight. *)
Definition editDevice (name : option string) (status : option DeviceStatus) (seen : option Z) (d : DeviceRow)
    : DeviceRow :=
  {| d_id := d_id d; d_name := default (d_name d) name; d_tokenHash := d_tokenHash d;
     d_pairingCodeHash := d_pairingCodeHash d; d_pairingExpiresAt := d_pairingExpiresAt d;
     d_status := default (d_status d) status;
     d_lastSeenAt := match seen with Some t => Some t | None => d_lastSeenAt d end;
     d_registeredBy := d_registeredBy d; d_createdAt := d_createdAt d |}.

(** [update(kioskDevices).set(...).where(P)]. *)
Definition writeDevices (P : DeviceRow → bool) (name : option string) (status : option DeviceStatus)
    (seen : bool) (s : Identity) : Identity * result AppError (option DeviceRow) :=
  let '(table, updated) := updateWhere P
    (editDevice name status (if seen then Some (i_now s) else None)) (i_kioskDevices s) in
  (with_devices table s, Ok (head updated)).

(** The status a change asks for: only the pause and resume pair. *)
Definition requestedStatus (changes : UpdateDeviceInput) : option DeviceStatus :=
  (fun paused : bool => if paused then DevPAUSED else DevACTIVE) <$> ud_paused changes.

Definition writeDevice (id : string) (changes : UpdateDeviceInput) : idM DeviceSummary :=
  updated ← act (writeDevices (hasDeviceId id) (ud_name changes) (requestedStatus changes) false);
  match updated with
  | Some d => give (deviceSummary d)
  | None => raise (ResourceNotFoundError "device" id)
  end.

Definition updateDevice (id : string) (changes : UpdateDeviceInput) : idM DeviceSummary :=
  match ud_paused changes with
  | None => writeDevice id changes
  | Some _ =>
      current ← findDevice (hasDeviceId id);
      match current with
      | None => raise (ResourceNotFoundError "device" id)
      | Some d =>
          if bool_decide (d_status d ≠ DevACTIVE) && bool_decide (d_status d ≠ DevPAUSED)
          then raise DeviceNotPairedError
          else writeDevice id changes
      end
  end.

Definition revoke (id : string) : idM unit :=
  revoked ← act (writeDevices (hasDeviceId id) None (Some DevREVOKED) false);
  match revoked with
  | None => raise (ResourceNotFoundError "device" id)
  | Some _ => caught (revokeDevice id)
  end.

(** ** Presenting a token ([device-token.service.ts]) *)

Definition LAST_SEEN_REFRESH_MS : Z := 60000.

Definition touchLastSeen (deviceId : string) (lastSeenAt : option Z) : idM unit :=
  now ← act (query i_now);
  if match lastSeenAt with Some t => now - t <? LAST_SEEN_REFRESH_MS | None => false end then give tt
  else _ ← act (writeDevices (hasDeviceId deviceId) None None true); give tt.

Definition resolve (token : string) : idM Principal :=
  device ← findDevice (fun d => bool_decide (d_tokenHash d = Some (hashSecret token)));
  match device with
  | None => raise TokenInvalidError
  | Some d =>
      if bool_decide (d_status d = DevREVOKED) then raise DeviceRevokedError
      else _ ← touchLastSeen (d_id d) (d_lastSeenAt d); give (DevicePrincipal (d_id d))
  end.

Definition markSeen (deviceIds : list string) : idM unit :=
  if bool_decide (deviceIds = []) then give tt
  else _ ← act (writeDevices (fun d => bool_decide (d_id d ∈ deviceIds)) None None true); give tt.
End devices.
