(* ===== verification/Guards.v ===== *)
(** * Guards: [identity/guards/*.ts]

    The three global guards in their order ([identity.module.ts]): the caller is resolved
    from the bearer header, the request is counted, and the route's roles are enforced. *)

From S2P Require Import Prelude Text Schema Errors Idempotency OrdersRead RateLimit Atoms IdentityStore Revocations Sessions Devices.
From Stdlib Require Import Ascii.

(** [@Public()] and [@Roles(...)] of a route. *)
Record Route := { ro_public : bool; ro_roles : option (list string) }.

Definition KIOSK_ROLE : string := "KIOSK".

(** [principal.role]. *)
Definition principalRole (p : Principal) : string :=
  match p with StaffPrincipal _ role => roleText role | DevicePrincipal _ => KIOSK_ROLE end.

(** ** The bearer header ([authentication.guard.ts]) *)

Definition BEARER : string := "bearer".

(** [/^bearer\s+(\S+)$/i]. *)
Definition bearerTokenOf (authorization : option string) : result AppError string :=
  let header := default "" authorization in
  let scheme := String.substring 0 (String.length BEARER) header in
  let rest := String.substring (String.length BEARER) (String.length header) header in
  let token := trimStart rest in
  if bool_decide (lowerText scheme = BEARER)
     && (String.length token <? String.length rest)%nat
     && negb (bool_decide (token = ""))
     && allChars (fun c => negb (isSpace c)) token
  then Ok token else Err TokenInvalidError.

(** [token.includes('.')]. *)
Definition looksLikeJwt (token : string) : bool := negb (allChars (fun c => negb (Ascii.eqb c "."%char)) token).

(** ** The limits of a route *)

(** [@SkipThrottle()] and [@RateLimit(rule)] of a route. *)
Record Limits := { li_skip : bool; li_rule : option RateLimitRule }.

(** [ThrottlerGuard] of [@nestjs/throttler], which the guard extends: the key it counts a
    caller of a handler under, and the records it refuses. *)
Class Throttler := {
  generateKey : string → string → string → string;
  rejects : ThrottleRecord → bool }.

(** It refuses what its storage says is blocked. *)
Class ThrottlerLaws `{!Throttler} : Prop := rejects_blocked record : rejects record = tr_isBlocked record.

Section guards.
Context `{!Jwt, !Throttler} (sha256 : string → string).

Definition resolveToken (token : string) : idM Principal :=
  if looksLikeJwt token then
    now ← act (query i_now);
    match verifyAccess now token with
    | Ok session => give (principalOf session)
    | Err e => raise e
    end
  else resolve sha256 token.

(** [AuthenticationGuard.canActivate]: the principal it attaches. *)
Definition authenticate (route : Route) (authorization : option string) : idM (option Principal) :=
  if ro_public route then give None
  else match bearerTokenOf authorization with
       | Err e => raise e
       | Ok token => principal ← resolveToken token; give (Some principal)
       end.

(** [RolesGuard.canActivate]: a route without a policy is refused as a fault of ours. *)
Definition rolesGuard (route : Route) (principal : option Principal) : result AppError bool :=
  if ro_public route then Ok true
  else match ro_roles route with
       | None => Err (JsError "declares no @Roles")
       | Some allowed =>
           match principal with
           | Some p => if bool_decide (principalRole p ∈ allowed) then Ok true
                       else Err (ForbiddenRoleError allowed)
           | None => Err (ForbiddenRoleError allowed)
           end
       end.

(** [IdentityThrottlerGuard.canActivate]: the request is counted against its caller, under
    the rule its route names or the backstop; a Redis that cannot be reached answers by the
    rule's policy. *)
Definition throttle (handler : string) (limits : Limits) (ip : option string)
    (principal : option Principal) : idM bool :=
  if li_skip limits then give true
  else act (fun s =>
    let rule := default staffGeneral (li_rule limits) in
    let policy := rl_onBackendFailure <$> li_rule limits in
    if i_redisUp s then
      let '(redis, record) := increment (i_now s) (generateKey handler (getTracker principal ip) "default")
        (rl_ttl rule) (rl_limit rule) (rl_blockDuration rule) "default" (i_redis s) in
      (with_outside (i_now s) redis true (i_published s) s, handleRequest rejects policy (Some record))
    else (s, handleRequest rejects policy None)).

(** The request is counted between the other two. *)
Definition guards (handler : string) (limits : Limits) (route : Route) (ip authorization : option string)
    : idM (option Principal) :=
  principal ← authenticate route authorization;
  _ ← throttle handler limits ip principal;
  match rolesGuard route principal with
  | Err e => raise e
  | Ok _ => give principal
  end.
End guards.
