(* ===== verification/IdentitySafety.v ===== *)
(** * IdentitySafety: what all interleavings of [identity/] keep

    The invariant of the three tables, how a state may follow another, and the count of
    live refresh tokens per session; every handler keeps them ([owned]), so every
    interleaving of any requests does ([identity_safe]). *)

From S2P Require Import Prelude Schema Errors OrdersRead RateLimit Atoms IdentityStore Revocations Sessions Accounts Devices.

(** ** Tables over time *)

Section tables.
Context {R : Type} (row : R → R → Prop).

(** No row is deleted, and each changes along [row]. *)
Definition follows (table table' : gmap string R) : Prop :=
  ∀ k r, table !! k = Some r → ∃ r', table' !! k = Some r' ∧ row r r'.

#[global] Instance follows_preorder `{!PreOrder row} : PreOrder follows.
Proof.
  split.
  - intros t k r H. by exists r.
  - intros t1 t2 t3 H12 H23 k r H. destruct (H12 k r H) as (r2 & H2 & ?).
    destruct (H23 k r2 H2) as (r3 & H3 & ?). exists r3. split; [done|]. by etrans.
Qed.

Lemma follows_update `{!PreOrder row} P f table :
  (∀ k r, table !! k = Some r → P r = true → row r (f r)) → follows table (updateWhere P f table).1.
Proof.
  intros H k r Hr. rewrite lookup_updateWhere, Hr. eexists. split; [done|]. cbn.
  destruct (P r) eqn:E; [by eapply H|done].
Qed.

Lemma follows_insert `{!PreOrder row} k r table : table !! k = None → follows table (<[k := r]> table).
Proof.
  intros Hk k' r' H. destruct (decide (k' = k)) as [->|Hne]; [congruence|].
  exists r'. by rewrite lookup_insert_ne.
Qed.

(** Every row is kept under its own id. *)
Definition keyed (id : R → string) (table : gmap string R) : Prop :=
  ∀ k r, table !! k = Some r → id r = k.

Lemma keyed_update id P f table : (∀ r, id (f r) = id r) → keyed id table → keyed id (updateWhere P f table).1.
Proof.
  intros Hid H k r. rewrite lookup_updateWhere, fmap_Some. intros (r0 & Hr & ->).
  destruct (P r0); rewrite ?Hid; by apply H.
Qed.

Lemma keyed_insert id k r table : id r = k → keyed id table → keyed id (<[k := r]> table).
Proof. intros Hr H k' r' [[<- <-]|[Hne H']]%lookup_insert_Some; [done|by apply H]. Qed.
End tables.

Section unique.
Context {R A : Type} (key : R → option A).

(** A unique index: [None] is NULL, which never collides. *)
Definition unique (table : gmap string R) : Prop :=
  ∀ k k' r r' a, table !! k = Some r → table !! k' = Some r' → key r = Some a → key r' = Some a → k = k'.

Lemma unique_same P f table : (∀ r, key (f r) = key r) → unique table → unique (updateWhere P f table).1.
Proof.
  intros Hf H k k' r r' a. rewrite !lookup_updateWhere, !fmap_Some.
  intros (r0 & Hr & ->) (r0' & Hr' & ->) H1 H2. apply (H k k' r0 r0' a Hr Hr').
  - destruct (P r0); by rewrite ?Hf in H1.
  - destruct (P r0'); by rewrite ?Hf in H2.
Qed.

Lemma unique_insert k r table :
  (∀ a, key r = Some a → ∀ k' r', table !! k' = Some r' → key r' ≠ Some a) →
  unique table → unique (<[k := r]> table).
Proof.
  intros Hnew H k1 k2 r1 r2 a [[<- <-]|[Hne1 H1]]%lookup_insert_Some
    [[<- <-]|[Hne2 H2]]%lookup_insert_Some E1 E2; [done| | |by eapply H].
  - by destruct (Hnew a E1 k2 r2 H2).
  - by destruct (Hnew a E2 k1 r1 H1).
Qed.
End unique.

(** ** The invariant *)

Record validUsers (users : gmap string UserRow) : Prop := {
  vu_keyed : keyed u_id users;
  vu_email : unique (fun u => Some (lowerText (u_email u))) users;
  vu_admin : ∃ k u, users !! k = Some u ∧ isActiveAdmin u = true }.

Record validTokens (users : gmap string UserRow) (tokens : gmap string TokenRow) : Prop := {
  vt_keyed : keyed rt_id tokens;
  vt_hash : unique (fun r => Some (rt_tokenHash r)) tokens;
  vt_user : ∀ k r, tokens !! k = Some r → is_Some (users !! rt_userId r) }.

(** A tablet that may order or is on a break has a token behind it; one that is not
    paired has none, and a code with a deadline instead. *)
Definition deviceOk (d : DeviceRow) : Prop :=
  match d_status d with
  | DevACTIVE | DevPAUSED => is_Some (d_tokenHash d)
  | DevPENDING => d_tokenHash d = None ∧ is_Some (d_pairingCodeHash d) ∧ is_Some (d_pairingExpiresAt d)
  | DevREVOKED => True
  end.

Record validDevices (devices : gmap string DeviceRow) : Prop := {
  vd_keyed : keyed d_id devices;
  vd_token : unique d_tokenHash devices;
  vd_ok : ∀ k d, devices !! k = Some d → deviceOk d }.

Record valid (s : Identity) : Prop := {
  v_users : validUsers (i_users s);
  v_tokens : validTokens (i_users s) (i_refreshTokens s);
  v_devices : validDevices (i_kioskDevices s) }.

(** ** How a state follows another *)

Definition userNext (u u' : UserRow) : Prop :=
  u_id u' = u_id u ∧ u_email u' = u_email u ∧ u_passwordHash u' = u_passwordHash u.

(** A token keeps what it was issued with, and its first revocation stands. *)
Definition tokenNext (r r' : TokenRow) : Prop :=
  rt_id r' = rt_id r ∧ rt_userId r' = rt_userId r ∧ rt_tokenHash r' = rt_tokenHash r ∧
  rt_familyId r' = rt_familyId r ∧ rt_expiresAt r' = rt_expiresAt r ∧
  (rt_revokedAt r ≠ None → rt_revokedAt r' = rt_revokedAt r).

(** A tablet is paired at most once: its token never changes, and it never awaits
    pairing again. *)
Definition deviceNext (d d' : DeviceRow) : Prop :=
  d_id d' = d_id d ∧ d_createdAt d' = d_createdAt d ∧ d_registeredBy d' = d_registeredBy d ∧
  (d_tokenHash d ≠ None → d_tokenHash d' = d_tokenHash d) ∧
  (d_status d ≠ DevPENDING → d_status d' ≠ DevPENDING).

#[export] Instance userNext_preorder : PreOrder userNext.
Proof. split; [done|]. unfold userNext. intros u1 u2 u3. naive_solver congruence. Qed.
#[export] Instance tokenNext_preorder : PreOrder tokenNext.
Proof. split; [done|]. unfold tokenNext. intros r1 r2 r3. naive_solver congruence. Qed.
#[export] Instance deviceNext_preorder : PreOrder deviceNext.
Proof. split; [done|]. unfold deviceNext. intros d1 d2 d3. naive_solver congruence. Qed.

Record next (s s' : Identity) : Prop := {
  n_users : follows userNext (i_users s) (i_users s');
  n_tokens : follows tokenNext (i_refreshTokens s) (i_refreshTokens s');
  n_devices : follows deviceNext (i_kioskDevices s) (i_kioskDevices s') }.

#[export] Instance next_preorder : PreOrder next.
Proof.
  split; [done|]. intros s1 s2 s3 [] []. split; by etrans.
Qed.

(** ** Live tokens *)

Definition isLive (familyId : string) (r : TokenRow) : bool :=
  inFamily familyId r && bool_decide (rt_revokedAt r = None).

Definition liveIds (familyId : string) (tokens : gmap string TokenRow) : gset string :=
  dom (filter (fun kv => isLive familyId kv.2 = true) tokens).

(** How many live refresh tokens a session has. *)
Definition live (familyId : string) (s : Identity) : Z := Z.of_nat (size (liveIds familyId (i_refreshTokens s))).

Lemma elem_of_liveIds f tokens k :
  k ∈ liveIds f tokens ↔ ∃ r, tokens !! k = Some r ∧ isLive f r = true.
Proof.
  unfold liveIds. rewrite elem_of_dom. unfold is_Some.
  split; intros [r H]; exists r; by rewrite map_lookup_filter_Some in *.
Qed.

Lemma live_sub f s s' :
  (∀ k, k ∈ liveIds f (i_refreshTokens s') → k ∈ liveIds f (i_refreshTokens s)) → live f s' ≤ live f s.
Proof. intros H. unfold live. apply Nat2Z.inj_le, subseteq_size. done. Qed.

Lemma live_less f s s' k :
  (∀ k, k ∈ liveIds f (i_refreshTokens s') → k ∈ liveIds f (i_refreshTokens s)) →
  k ∈ liveIds f (i_refreshTokens s) → k ∉ liveIds f (i_refreshTokens s') → live f s' + 1 ≤ live f s.
Proof.
  intros H Hk Hk'. unfold live.
  assert (liveIds f (i_refreshTokens s') ⊂ liveIds f (i_refreshTokens s)) as Hs by set_solver.
  apply subset_size in Hs. lia.
Qed.

Lemma live_insert f s k r :
  live f (with_refreshTokens (<[k := r]> (i_refreshTokens s)) s) ≤
  live f s + (if isLive f r then 1 else 0).
Proof.
  unfold live. cbn [i_refreshTokens with_refreshTokens].
  assert (liveIds f (<[k := r]> (i_refreshTokens s)) ⊆
          liveIds f (i_refreshTokens s) ∪ (if isLive f r then {[k]} else ∅)) as Hs.
  { intros x. rewrite elem_of_liveIds. intros (r' & [[<- <-]|[Hne H]]%lookup_insert_Some & Hl).
    - rewrite Hl. set_solver.
    - apply elem_of_union_l, elem_of_liveIds. eauto. }
  apply subseteq_size in Hs. destruct (isLive f r).
  - pose proof (size_union_alt (liveIds f (i_refreshTokens s)) {[k]}) as Hu.
    assert (size ({[k]} ∖ liveIds f (i_refreshTokens s)) ≤ 1)%nat.
    { rewrite <-(size_singleton (C:=gset string) k). apply subseteq_size. set_solver. }
    lia.
  - rewrite union_empty_r_L in Hs. lia.
Qed.

(** ** Statements *)

Notation quiet := (Atoms.quiet live valid next).
Notation owned := (Atoms.owned live valid next).
Notation allQuiet := (Atoms.allQuiet live valid next).

(** An action that leaves the tables alone. *)
Lemma quiet_outside {X} (t : Identity → Identity * X) :
  (∀ s, i_users (t s).1 = i_users s ∧ i_refreshTokens (t s).1 = i_refreshTokens s ∧
        i_kioskDevices (t s).1 = i_kioskDevices s) → quiet t.
Proof.
  intros H s [Hu Ht Hd]. destruct (H s) as (Eu & Et & Ed). split_and!.
  - split; rewrite ?Eu, ?Et, ?Ed; done.
  - split; rewrite ?Eu, ?Et, ?Ed; done.
  - intros f. unfold live. rewrite Et. lia.
Qed.

Lemma quiet_query {X} (f : Identity → X) : quiet (query f).
Proof. by apply quiet_outside. Qed.

Lemma quiet_onRedis {X} (f : Z → Redis → Redis * X) : quiet (onRedis f).
Proof.
  apply quiet_outside. intros s. unfold onRedis. destruct (i_redisUp s); [|done]. by destruct (f _ _).
Qed.

Lemma quiet_publish message : quiet (publish message).
Proof. apply quiet_outside. intros s. unfold publish. by destruct (i_redisUp s). Qed.

Lemma quiet_environment ms up :
  allQuiet (elapse ms) ∧ allQuiet (redisTurns up).
Proof. cbn. split_and!; auto; by apply quiet_outside. Qed.

#[local] Hint Resolve quiet_query quiet_onRedis quiet_publish : quiet.

(** *** Tokens *)

Lemma revokeTokens_spec P s :
  valid s →
  let s' := (revokeTokens P s).1 in
  valid s' ∧ next s s' ∧ (∀ f, live f s' ≤ live f s) ∧
  ∀ r, (revokeTokens P s).2 = Ok (Some r) → live (rt_familyId r) s' + 1 ≤ live (rt_familyId r) s.
Proof.
  intros [Hu [Hk Hh Hus] Hd]. unfold revokeTokens.
  set (Q := fun r => P r && bool_decide (rt_revokedAt r = None)). set (g := fun r => _).
  pose proof (updateWhere_head Q g (i_refreshTokens s)) as Hhead.
  assert (follows tokenNext (i_refreshTokens s) (updateWhere Q g (i_refreshTokens s)).1) as Hn.
  { apply follows_update; [apply _|]. intros k r _ HQ. unfold tokenNext, g. cbn.
    split_and!; try done. unfold Q in HQ. apply andb_true_iff in HQ as [_ HQ].
    apply bool_decide_eq_true in HQ. congruence. }
  assert (∀ f k, k ∈ liveIds f (updateWhere Q g (i_refreshTokens s)).1 → k ∈ liveIds f (i_refreshTokens s)) as Hsub.
  { intros f k. rewrite !elem_of_liveIds. intros (r & Hr & Hl). rewrite lookup_updateWhere, fmap_Some in Hr.
    destruct Hr as (r0 & Hr0 & ->). exists r0. split; [done|]. destruct (Q r0) eqn:E; [|done].
    unfold isLive, g in Hl. cbn in Hl. by rewrite andb_false_r in Hl. }
  assert (validTokens (i_users s) (updateWhere Q g (i_refreshTokens s)).1) as Ht.
  { split; [by apply keyed_update|by apply unique_same|].
    intros k r. rewrite lookup_updateWhere, fmap_Some. intros (r0 & Hr0 & ->).
    destruct (Q r0); by apply (Hus k r0). }
  assert (∀ f k r, i_refreshTokens s !! k = Some r → Q r = true →
    k ∉ liveIds f (updateWhere Q g (i_refreshTokens s)).1) as Hdead.
  { intros f k r Hr HQ. rewrite elem_of_liveIds. intros (r' & Hr' & Hl).
    rewrite lookup_updateWhere, Hr in Hr'. cbn in Hr'. rewrite HQ in Hr'. injection Hr' as <-.
    unfold isLive, g in Hl. cbn in Hl. by rewrite andb_false_r in Hl. }
  destruct (updateWhere Q g (i_refreshTokens s)) as [table changed]. cbn in *.
  split_and!; [by split|by split|by intros f; apply live_sub, Hsub|].
  intros r [= Hr]. rewrite Hhead in Hr. apply fmap_Some in Hr as (r0 & [HQ [k Hk0]]%findFirst_Some & ->).
  apply live_less with k; [apply Hsub| |by eapply Hdead].
  apply elem_of_liveIds. exists r0. split; [done|]. unfold isLive, inFamily, g. cbn.
  unfold Q in HQ. apply andb_true_iff in HQ as [_ ->]. by rewrite bool_decide_eq_true_2.
Qed.

Lemma quiet_revokeTokens P : quiet (revokeTokens P).
Proof. intros s Hv. by destruct (revokeTokens_spec P s Hv) as (? & ? & ? & _). Qed.

(** An insert spends the permission of its family. *)
Lemma insertToken_spec row s :
  valid s →
  let s' := (insertToken row s).1 in
  valid s' ∧ next s s' ∧ ∀ f, live f s' ≤ live f s + (if isLive f row then 1 else 0).
Proof.
  intros Hv. assert (∀ f, live f s ≤ live f s + (if isLive f row then 1 else 0)) as Hle.
  { intros f. destruct (isLive f row); lia. }
  unfold insertToken. cbv zeta.
  destruct (bool_decide (is_Some (i_refreshTokens s !! rt_id row)) || _) eqn:Ec; [done|].
  apply orb_false_iff in Ec as [Hid Hh]. apply bool_decide_eq_false, eq_None_not_Some in Hid.
  case_bool_decide as Hus; [done|]. cbn [fst].
  destruct Hv as [Hu [Hk Hhash Husers] Hd]. split_and!.
  - split; [done| |done]. cbn. split; [by apply keyed_insert| |].
    + apply unique_insert; [|done]. intros a [= <-] k r Hr [= E].
      assert (existsb (fun r => bool_decide (rt_tokenHash r = rt_tokenHash row)) (rows (i_refreshTokens s)) = true)
        as Hb; [|congruence].
      apply existsb_exists. exists r. split; [|by rewrite bool_decide_eq_true_2].
      apply list_elem_of_In, elem_of_rows. eauto.
    + intros k r [[<- <-]|[Hne H]]%lookup_insert_Some; [|by eapply Husers].
      by apply not_eq_None_Some.
  - split; [done| |done]. cbn. by apply follows_insert; [apply _|].
  - intros f. apply live_insert.
Qed.

(** *** Accounts *)

Lemma live_tables f s s' : i_refreshTokens s' = i_refreshTokens s → live f s' = live f s.
Proof. unfold live. by intros ->. Qed.

(** A new user table keeps the invariant if it keeps its own part and every account. *)
Lemma valid_with_users users s :
  valid s → validUsers users → follows userNext (i_users s) users →
  valid (with_users users s) ∧ next s (with_users users s) ∧ ∀ f, live f (with_users users s) ≤ live f s.
Proof.
  intros [Hu [Hk Hh Hus] Hd] Hv Hf. split_and!; [|by split|by intros f; rewrite (live_tables f s)].
  split; [done| |done]. split; [done..|]. cbn. intros k r Hr. destruct (Hus k r Hr) as [u Hu'].
  destruct (Hf _ _ Hu') as (u' & ? & _). eauto.
Qed.

Lemma quiet_insertUser row : quiet (insertUser row).
Proof.
  intros s Hv. unfold insertUser.
  destruct (bool_decide (is_Some (i_users s !! u_id row)) || _) eqn:Ec; [done|].
  apply orb_false_iff in Ec as [Hid He]. apply bool_decide_eq_false, eq_None_not_Some in Hid. cbn [fst].
  pose proof Hv as [[Hk Hem Hadm] _ _]. apply valid_with_users; [done| |by apply follows_insert; [apply _|]].
  split; [by apply keyed_insert| |].
  - apply unique_insert; [|done]. intros a [= <-] k u Hu [= E].
    assert (existsb (fun u => sameEmail (u_email u) (u_email row)) (rows (i_users s)) = true) as Hb; [|congruence].
    apply existsb_exists. exists u. split; [apply list_elem_of_In, elem_of_rows; eauto|].
    unfold sameEmail. by rewrite bool_decide_eq_true_2.
  - destruct Hadm as (k & u & Hu & Ha). exists k, u. split; [|done].
    rewrite lookup_insert_ne; [done|]. intros <-. congruence.
Qed.

(** An edit of accounts keeps the invariant if an active administrator is left. *)
Lemma writeUser_spec id changes s :
  valid s → (∃ k u, (updateWhere (hasId id) (applyChanges changes) (i_users s)).1 !! k = Some u ∧
                    isActiveAdmin u = true) →
  let s' := (writeUser id changes s).1 in
  valid s' ∧ next s s' ∧ ∀ f, live f s' ≤ live f s.
Proof.
  intros Hv Hadm. unfold writeUser. cbv zeta. pose proof Hv as [[Hk Hem _] _ _].
  assert (follows userNext (i_users s) (updateWhere (hasId id) (applyChanges changes) (i_users s)).1) as Hf.
  { by apply follows_update; [apply _|]. }
  assert (validUsers (updateWhere (hasId id) (applyChanges changes) (i_users s)).1) as Hvu.
  { split; [by apply keyed_update|by apply unique_same|done]. }
  destruct (updateWhere _ _ (i_users s)) as [table updated]. cbn in *. by apply valid_with_users.
Qed.

(** A change of the name alone leaves every administrator one. *)
Lemma quiet_rename id changes :
  uu_role changes = None → uu_isActive changes = None →
  quiet (fun s => let '(s', renamed) := writeUser id changes s in
         match renamed with
         | Some renamed => (s', Ok (Some renamed))
         | None => (s', Err (ResourceNotFoundError "user" id))
         end).
Proof.
  intros Hr Ha s Hv.
  destruct (writeUser_spec id changes s Hv) as (Hv' & Hn & Hl).
  - destruct Hv as [[_ _ (k & u & Hu & Hadm)] _ _]. exists k, (if hasId id u then applyChanges changes u else u).
    rewrite lookup_updateWhere, Hu. split; [done|]. destruct (hasId id u); [|done].
    unfold isActiveAdmin, applyChanges in *. cbn. by rewrite Hr, Ha.
  - destruct (writeUser id changes s) as [s' [u|]]; done.
Qed.

Lemma guardLastAdmin_covers id current changes s k :
  keyed u_id (i_users s) → i_users s !! k = Some current → hasId id current = true →
  (∃ k' u, i_users s !! k' = Some u ∧ isActiveAdmin u = true) →
  guardLastAdmin id current changes s = Ok tt →
  ∃ k' u, (updateWhere (hasId id) (applyChanges changes) (i_users s)).1 !! k' = Some u ∧ isActiveAdmin u = true.
Proof.
  intros Hk Hc Hid (ka & ua & Hua & Ha) Hg. unfold guardLastAdmin in Hg.
  assert (∀ k' u, i_users s !! k' = Some u → isActiveAdmin u = true → hasId id u = false →
    ∃ k' u, (updateWhere (hasId id) (applyChanges changes) (i_users s)).1 !! k' = Some u ∧
            isActiveAdmin u = true) as Hother.
  { intros k' u Hu Hadm Hne. exists k', u. rewrite lookup_updateWhere, Hu. cbn. by rewrite Hne. }
  destruct (hasId id ua) eqn:Eid; [|by eapply Hother].
  (* The administrator there was is the account being changed. *)
  assert (ua = current) as ->.
  { unfold hasId in *. apply bool_decide_eq_true in Eid, Hid. rewrite <-(Hk _ _ Hc) in Hc.
    rewrite <-(Hk _ _ Hua) in Hua. rewrite Eid in Hua. rewrite Hid in Hc. congruence. }
  rewrite Ha in Hg. cbn in Hg.
  destruct (bool_decide (default (u_role current) (uu_role changes) = ADMIN)
            && default (u_isActive current) (uu_isActive changes)) eqn:Ew.
  - exists ka, (applyChanges changes current). rewrite lookup_updateWhere, Hua. cbn. by rewrite Eid.
  - destruct (filter _ (rows (i_users s))) as [|u l] eqn:Ef; [done|].
    assert (u ∈ filter (fun u => isActiveAdmin u && negb (hasId id u) = true) (rows (i_users s))) as Hin.
    { rewrite Ef. constructor. }
    apply list_elem_of_filter in Hin as [Hp Hin]. apply elem_of_rows in Hin as [k' Hk'].
    apply andb_true_iff in Hp as [Hp1 Hp2]. apply (Hother k' u Hk' Hp1). by apply negb_true_iff.
Qed.

Lemma quiet_guardedUpdateUser id changes : quiet (guardedUpdateUser id changes).
Proof.
  intros s Hv. unfold guardedUpdateUser.
  destruct (findFirst (hasId id) (i_users s)) as [current|] eqn:Ef; [|done].
  apply findFirst_Some in Ef as [Hid [k Hk]].
  destruct (guardLastAdmin id current changes s) as [[]|e] eqn:Eg; [|done].
  destruct (writeUser_spec id changes s Hv) as (Hv' & Hn & Hl).
  { pose proof Hv as [[Hkey _ Hadm] _ _]. by eapply guardLastAdmin_covers. }
  by destruct (writeUser id changes s) as [s' u].
Qed.

(** *** Devices *)

Lemma valid_with_devices devices s :
  valid s → validDevices devices → follows deviceNext (i_kioskDevices s) devices →
  valid (with_devices devices s) ∧ next s (with_devices devices s) ∧
  ∀ f, live f (with_devices devices s) ≤ live f s.
Proof. intros [Hu Ht Hd] Hv Hf. split_and!; [by split|by split|by intros f; rewrite (live_tables f s)]. Qed.

Lemma quiet_insertDevice sha256 ttl id name code registeredBy :
  quiet (insertDevice sha256 ttl id name code registeredBy).
Proof.
  intros s Hv. unfold insertDevice. case_bool_decide as Hid; [done|]. apply eq_None_not_Some in Hid.
  case_bool_decide; [done|]. cbn [fst]. pose proof Hv as [_ _ [Hk Htok Hok]].
  apply valid_with_devices; [done| |by apply follows_insert; [apply _|]].
  split; [by apply keyed_insert|by apply unique_insert|].
  intros k d [[<- <-]|[_ H']]%lookup_insert_Some; [|by eapply Hok].
  unfold deviceOk. cbn. eauto.
Qed.

Lemma pairable_pending codeHash now d : deviceOk d → pairable codeHash now d = true →
  d_status d = DevPENDING ∧ d_tokenHash d = None.
Proof.
  unfold pairable, deviceOk. intros Hok H. apply andb_true_iff in H as [H _].
  apply andb_true_iff in H as [_ H]. apply bool_decide_eq_true in H. rewrite H in Hok.
  by destruct Hok as [? _].
Qed.

Lemma quiet_pairDevice codeHash tokenHash : quiet (pairDevice codeHash tokenHash).
Proof.
  intros s Hv. unfold pairDevice. pose proof Hv as [_ _ [Hk Htok Hok]].
  set (P := pairable codeHash (i_now s)).
  pose proof (updateWhere_single P (paired tokenHash) (i_kioskDevices s)) as Hone.
  assert (∀ k d, i_kioskDevices s !! k = Some d → P d = true →
    d_status d = DevPENDING ∧ d_tokenHash d = None) as Hpend.
  { intros k d Hd. by eapply pairable_pending, Hok. }
  assert (follows deviceNext (i_kioskDevices s) (updateWhere P (paired tokenHash) (i_kioskDevices s)).1) as Hf.
  { apply follows_update; [apply _|]. intros k d Hd HP. destruct (Hpend k d Hd HP) as [H1 H2].
    unfold deviceNext. cbn. by rewrite H1, H2. }
  assert (∀ k, (updateWhere P (paired tokenHash) (i_kioskDevices s)).1 !! k
    = (fun d => if P d then paired tokenHash d else d) <$> i_kioskDevices s !! k) as Hlk.
  { intros k. apply lookup_updateWhere. }
  assert (keyed d_id (updateWhere P (paired tokenHash) (i_kioskDevices s)).1) as Hkey.
  { by apply keyed_update. }
  destruct (updateWhere P (paired tokenHash) (i_kioskDevices s)) as [table activated].
  destruct activated as [|x [|]]; [done| |done]. cbn [fst snd] in *.
  destruct (existsb _ (rows (i_kioskDevices s))) eqn:Ee; [done|]. cbn [fst].
  apply valid_with_devices; [done| |done]. split; [done| |].
  - assert (∀ k d, i_kioskDevices s !! k = Some d → d_tokenHash d ≠ Some tokenHash) as Hnew.
    { intros k d Hd E. apply not_true_iff_false in Ee. destruct Ee. apply existsb_exists. exists d.
      split; [apply list_elem_of_In, elem_of_rows; eauto|by rewrite bool_decide_eq_true_2]. }
    intros k k' d d' a. rewrite !Hlk, !fmap_Some. intros (d0 & Hd0 & ->) (d0' & Hd0' & ->).
    destruct (P d0) eqn:E1, (P d0') eqn:E2; cbn.
    + intros _ _. by eapply Hone.
    + intros [= <-] Ea. by destruct (Hnew k' d0').
    + intros Ea [= <-]. by destruct (Hnew k d0).
    + intros Ea Ea'. by eapply Htok.
  - intros k d. rewrite Hlk, fmap_Some. intros (d0 & Hd0 & ->). destruct (P d0); [|by eapply Hok].
    unfold deviceOk. cbn. eauto.
Qed.

(** An edit that revokes, leaves the status alone, or sets a live one where there is a token. *)
Lemma writeDevices_spec P name status seen s :
  valid s →
  (∀ k d, i_kioskDevices s !! k = Some d → P d = true →
    match status with
    | None | Some DevREVOKED => True
    | Some DevPENDING => False
    | _ => is_Some (d_tokenHash d)
    end) →
  let s' := (writeDevices P name status seen s).1 in
  valid s' ∧ next s s' ∧ ∀ f, live f s' ≤ live f s.
Proof.
  intros Hv HP. unfold writeDevices. cbv zeta. pose proof Hv as [_ _ [Hk Htok Hok]].
  set (f := editDevice name status _).
  assert (follows deviceNext (i_kioskDevices s) (updateWhere P f (i_kioskDevices s)).1) as Hf.
  { apply follows_update; [apply _|]. intros k d Hd E. specialize (HP k d Hd E).
    unfold deviceNext, f. cbn. split_and!; try done. by destruct status as [[]|]. }
  assert (validDevices (updateWhere P f (i_kioskDevices s)).1) as Hvd.
  { split; [by apply keyed_update|by apply unique_same|].
    intros k d. rewrite lookup_updateWhere, fmap_Some. intros (d0 & Hd0 & ->).
    destruct (P d0) eqn:E; [|by eapply Hok]. specialize (HP k d0 Hd0 E). specialize (Hok k d0 Hd0).
    unfold deviceOk, f in *. cbn. by destruct status as [[]|]; cbn. }
  destruct (updateWhere P f (i_kioskDevices s)) as [table updated]. cbn in *. by apply valid_with_devices.
Qed.

Lemma quiet_writeDevices P name status seen :
  status = None ∨ status = Some DevREVOKED → quiet (writeDevices P name status seen).
Proof. intros Hs s Hv. apply writeDevices_spec; [done|]. by destruct Hs as [-> | ->]. Qed.

(** ** Handlers *)

#[local] Hint Resolve quiet_revokeTokens quiet_insertUser quiet_guardedUpdateUser quiet_insertDevice
  quiet_pairDevice quiet_writeDevices : quiet.

Lemma allQuiet_act {A} (t : Identity → Identity * result AppError A) : quiet t → allQuiet (act t).
Proof. cbn. auto. Qed.

Lemma allQuiet_bind {A B} (p : idM A) (k : A → idM B) :
  allQuiet p → (∀ a, allQuiet (k a)) → allQuiet (p ≫= k).
Proof. intros Hp Hk. apply allQuiet_andThen; [done|]. intros [a|e]; [apply Hk|done]. Qed.

Lemma allQuiet_withRetryFrom n attempt : allQuiet attempt → allQuiet (withRetryFrom n attempt).
Proof.
  intros H. induction n as [|n IH]; cbn; apply allQuiet_andThen; try done; by intros [].
Qed.

Lemma allQuiet_caught p : allQuiet p → allQuiet (caught p).
Proof. intros H. by apply allQuiet_andThen. Qed.

(** Splits a handler into its statements. *)
Ltac quietly :=
  repeat first
    [ progress intros
    | apply allQuiet_bind
    | apply allQuiet_act
    | apply allQuiet_caught
    | apply allQuiet_withRetryFrom
    | match goal with
      | |- allQuiet (give _) => exact I
      | |- allQuiet (raise _) => exact I
      | |- context [match ?x with _ => _ end] => destruct x
      end ];
  eauto with quiet.

Lemma allQuiet_announce ttl key message : allQuiet (announce ttl key message).
Proof. unfold announce, withRetry. quietly. Qed.
#[local] Hint Resolve allQuiet_announce : quiet.

Lemma allQuiet_revokeDevice deviceId : allQuiet (revokeDevice deviceId).
Proof. unfold revokeDevice, withRetry. quietly. Qed.
#[local] Hint Resolve allQuiet_revokeDevice : quiet.

Lemma allQuiet_logout sha256 ttl session token : allQuiet (logout sha256 ttl session token).
Proof. unfold logout, findToken, revokeFamily, revokeToken. quietly. Qed.

Lemma allQuiet_describe principal : allQuiet (describe principal).
Proof. unfold describe, findUser. quietly. Qed.

Lemma allQuiet_isRevoked userId tokenId : allQuiet (isRevoked userId tokenId).
Proof. unfold isRevoked. quietly. Qed.

Lemma allQuiet_createUser `{!Passwords} input id salt : allQuiet (createUser input id salt).
Proof. unfold createUser. apply allQuiet_andThen; quietly. Qed.

Lemma allQuiet_updateUser ttl id changes : allQuiet (updateUser ttl id changes).
Proof.
  unfold updateUser, revokeUser.
  destruct (uu_role changes) as [r|] eqn:Er, (uu_isActive changes) as [a|] eqn:Ea;
    [quietly..|]. apply allQuiet_act. by apply quiet_rename.
Qed.

Lemma allQuiet_createDevice sha256 ttl name registeredBy id code :
  allQuiet (createDevice sha256 ttl name registeredBy id code).
Proof. unfold createDevice. quietly. Qed.

Lemma allQuiet_activate sha256 code token : allQuiet (activate sha256 code token).
Proof. unfold activate, explainFailedPairing, findDevice. quietly. Qed.

Lemma allQuiet_revoke id : allQuiet (revoke id).
Proof. unfold revoke. quietly. Qed.

Lemma allQuiet_touchLastSeen id seen : allQuiet (touchLastSeen id seen).
Proof. unfold touchLastSeen. quietly. Qed.
#[local] Hint Resolve allQuiet_touchLastSeen : quiet.

Lemma allQuiet_resolve sha256 token : allQuiet (resolve sha256 token).
Proof. unfold resolve, findDevice. quietly. Qed.

Lemma allQuiet_markSeen ids : allQuiet (markSeen ids).
Proof. unfold markSeen. quietly. Qed.

(** The pause and resume of a tablet relies on what it read: a tablet that was paired
    when it looked still has its token when it writes. *)
Lemma owned_writeDevice own seen id changes :
  (∀ l, 0 ≤ own l) →
  (ud_paused changes = None ∨ ∃ d, i_kioskDevices seen !! id = Some d ∧ is_Some (d_tokenHash d)) →
  owned own seen (writeDevice id changes).
Proof.
  intros Hpos Hknow s Hs Hv.
  destruct (writeDevices_spec (hasDeviceId id) (ud_name changes) (requestedStatus changes) false s Hv)
    as (Hv' & Hn & Hl).
  - intros k d Hd Hid. unfold requestedStatus. destruct Hknow as [-> | (d0 & Hd0 & [h Hh])]; [done|].
    destruct (n_devices _ _ Hs id d0 Hd0) as (d1 & Hd1 & _ & _ & _ & Htok & _).
    assert (k = id) as ->.
    { unfold hasDeviceId in Hid. apply bool_decide_eq_true in Hid.
      destruct Hv as [_ _ [Hk _ _]]. by rewrite <-(Hk _ _ Hd). }
    assert (is_Some (d_tokenHash d)) as Hsome.
    { replace d with d1 by congruence. rewrite Htok; rewrite Hh; eauto. }
    destruct (ud_paused changes) as [[]|]; done.
  - cbn in *. split_and!; [done..|]. exists own. split_and!; [done| |].
    + intros l. specialize (Hl l). lia.
    + by destruct (head _).
Qed.

Lemma owned_updateDevice own seen id changes :
  (∀ l, 0 ≤ own l) → owned own seen (updateDevice id changes).
Proof.
  intros Hpos. unfold updateDevice. destruct (ud_paused changes) as [paused|] eqn:Ep; [|by apply owned_writeDevice; auto].
  intros s Hs Hv. cbn. split_and!; [done..|]. exists own. split_and!; [done|done|].
  destruct (findFirst (hasDeviceId id) (i_kioskDevices s)) as [d|] eqn:Ef; [|done].
  destruct (bool_decide (d_status d ≠ DevACTIVE) && bool_decide (d_status d ≠ DevPAUSED)) eqn:Es; [done|].
  apply owned_writeDevice; [done|]. right. apply findFirst_Some in Ef as [Hid [k Hk]].
  destruct Hv as [_ _ [Hkey _ Hok]]. unfold hasDeviceId in Hid. apply bool_decide_eq_true in Hid.
  rewrite (Hkey _ _ Hk) in Hid. subst k. exists d. split; [done|]. specialize (Hok _ _ Hk).
  unfold deviceOk in Hok. destruct (d_status d); try done; by cbn in Es.
Qed.

(** The right to one live token of a family. *)
Definition one (familyId : string) : string → Z := fun f => if bool_decide (f = familyId) then 1 else 0.

Lemma one_nonneg familyId l : 0 ≤ one familyId l.
Proof. unfold one. case_bool_decide; lia. Qed.
#[local] Hint Resolve one_nonneg : quiet.

Lemma owned_bind_quiet {A B} (p : idM A) (k : A → idM B) own seen :
  (∀ l, 0 ≤ own l) → allQuiet p → (∀ s a, next seen s → owned own s (k a)) → owned own seen (p ≫= k).
Proof. intros Hpos Hp Hk. apply owned_andThen_quiet; [apply _|done..|]. intros s [a|e] Hs; [by apply Hk|done]. Qed.

Lemma filter_out (f : string) l : f ∉ l → filter (fun g => g = f) l = [].
Proof.
  intros H. destruct (filter (fun g => g = f) l) as [|g l'] eqn:E; [done|]. exfalso.
  assert (g ∈ filter (fun g => g = f) l) as Hg by (rewrite E; left).
  by apply list_elem_of_filter in Hg as [-> Hg].
Qed.

Section sessions.
Context `{!Jwt, !Passwords} (sha256 : string → string) (accessTtl refreshTtl pairingTtl : Z).

Lemma owned_issuePair user familyId draw seen :
  owned (one familyId) seen (issuePair sha256 refreshTtl user familyId draw).
Proof.
  unfold issuePair. apply owned_bind_quiet; [eauto with quiet|unfold issue; quietly|].
  intros s0 [token secs] _ s Hs Hv. unfold insertIssued. set (row := {| rt_id := _ |}).
  destruct (insertToken_spec row s Hv) as (Hv' & Hn & Hl). split_and!; [done..|].
  exists (fun _ => 0). split_and!; [done| |].
  - intros f. specialize (Hl f). unfold one. unfold isLive, inFamily, row in Hl. cbn in Hl.
    fold row in Hl. repeat case_bool_decide; cbn in Hl; subst; try done; lia.
  - by destruct (insertToken row s) as [s' [|]].
Qed.

Lemma owned_login email password familyId draw seen :
  owned (one familyId) seen (login sha256 refreshTtl email password familyId draw).
Proof.
  unfold login, findUser. apply owned_bind_quiet; [eauto with quiet|quietly|]. intros s1 [[]|e] _; [|done].
  apply owned_bind_quiet; [eauto with quiet|quietly|]. intros s2 [user|] _.
  2: { apply owned_allQuiet; [apply _|eauto with quiet|unfold failLogin; quietly]. }
  destruct (negb (u_isActive user) || _).
  - apply owned_allQuiet; [apply _|eauto with quiet|unfold failLogin; quietly].
  - apply owned_bind_quiet; [eauto with quiet|quietly|]. intros s3 [] _.
    apply owned_andThen_answer; [apply owned_issuePair|]. intros [pair|e]; by eexists.
Qed.

(** Retiring a token earns the right to its successor. *)
Lemma owned_refresh token draw seen :
  owned (fun _ => 0) seen (refresh sha256 refreshTtl token draw).
Proof.
  intros s Hs Hv. destruct (revokeTokens_spec (hasHash (hashSecret sha256 token)) s Hv) as (Hv' & Hn & Hl & Hless).
  split_and!; [done..|].
  destruct (revokeTokens (hasHash (hashSecret sha256 token)) s) as [s' r] eqn:E. cbn [fst snd] in *.
  destruct r as [[retired|]|e].
  - specialize (Hless retired eq_refl). exists (one (rt_familyId retired)). split_and!.
    + apply one_nonneg.
    + intros f. specialize (Hl f). unfold one. case_bool_decide; subst; lia.
    + cbn [andThen]. apply owned_bind_quiet; [apply one_nonneg|quietly|]. intros s1 now _.
      destruct (rt_expiresAt retired <=? now); [done|].
      unfold findUser. apply owned_bind_quiet; [apply one_nonneg|quietly|]. intros s2 [user|] _; [|done].
      destruct (u_isActive user); [|done]. apply owned_issuePair.
  - exists (fun _ => 0). split_and!; [done| |].
    + intros f. specialize (Hl f). lia.
    + apply owned_allQuiet; [apply _|done|].
      unfold revokeFamilyOfReplayedToken, findToken, revokeFamily. cbn [andThen]. quietly.
  - exists (fun _ => 0). split_and!; [done| |done]. intros f. specialize (Hl f). lia.
Qed.

(** ** Requests *)

(** Everything that can be asked of the component, and what happens around it. *)
Inductive Request :=
| Login (email password familyId : string) (draw : Draw)
| Refresh (token : string) (draw : Draw)
| Logout (session : StaffSession) (token : string)
| Describe (principal : Principal)
| IsRevoked (userId tokenId : string)
| CreateUser (input : CreateUserInput) (id salt : string)
| UpdateUser (id : string) (changes : UpdateUserInput)
| CreateDevice (name registeredBy id pairingCode : string)
| Activate (pairingCode deviceToken : string)
| UpdateDevice (id : string) (changes : UpdateDeviceInput)
| RevokeKiosk (id : string)
| Resolve (token : string)
| MarkSeen (deviceIds : list string)
| Elapse (ms : Z)
| RedisTurns (up : bool).

Definition taskOf (r : Request) : task Identity :=
  match r with
  | Login email password familyId draw => existT _ (login sha256 refreshTtl email password familyId draw)
  | Refresh token draw => existT _ (refresh sha256 refreshTtl token draw)
  | Logout session token => existT _ (logout sha256 accessTtl session token)
  | Describe principal => existT _ (describe principal)
  | IsRevoked userId tokenId => existT _ (isRevoked userId tokenId)
  | CreateUser input id salt => existT _ (createUser input id salt)
  | UpdateUser id changes => existT _ (updateUser accessTtl id changes)
  | CreateDevice name registeredBy id pairingCode =>
      existT _ (createDevice sha256 pairingTtl name registeredBy id pairingCode)
  | Activate pairingCode deviceToken => existT _ (activate sha256 pairingCode deviceToken)
  | UpdateDevice id changes => existT _ (updateDevice id changes)
  | RevokeKiosk id => existT _ (revoke id)
  | Resolve token => existT _ (resolve sha256 token)
  | MarkSeen deviceIds => existT _ (markSeen deviceIds)
  | Elapse ms => existT _ (elapse ms)
  | RedisTurns up => existT _ (redisTurns up)
  end.

(** The sessions a list of requests opens. *)
Definition opens (r : Request) : list string :=
  match r with Login _ _ familyId _ => [familyId] | _ => [] end.

Definition rights (r : Request) : string → Z :=
  match r with Login _ _ familyId _ => one familyId | _ => fun _ => 0 end.

Lemma request_owned s r : holds live valid next s (rights r) (taskOf r).
Proof.
  split; [intros l; destruct r; cbn; try done; apply one_nonneg|].
  destruct r; cbn [taskOf projT2 rights];
    try apply owned_login; try apply owned_refresh; try (by apply owned_updateDevice);
    (apply owned_allQuiet; [apply _|done|]).
  - apply allQuiet_logout.
  - apply allQuiet_describe.
  - apply allQuiet_isRevoked.
  - apply allQuiet_createUser.
  - apply allQuiet_updateUser.
  - apply allQuiet_createDevice.
  - apply allQuiet_activate.
  - apply allQuiet_revoke.
  - apply allQuiet_resolve.
  - apply allQuiet_markSeen.
  - apply (quiet_environment ms true).
  - apply (quiet_environment 0 up).
Qed.

Lemma held_rights requests f :
  held (rights <$> requests) f = Z.of_nat (length (filter (fun g => g = f) (requests ≫= opens))).
Proof.
  induction requests as [|r requests IH]; [done|].
  change (held (rights <$> r :: requests) f) with (rights r f + held (rights <$> requests) f).
  rewrite IH, bind_cons, filter_app, length_app, Nat2Z.inj_add. f_equal.
  destruct r; try done. cbn. unfold one, filter, list_filter. cbn.
  destruct (decide (familyId = f)); cbn; by case_bool_decide; subst.
Qed.

(** How the requests stand at the start: together in flight, none begun. *)
Definition start (s : Identity) (requests : list Request) : Flight Identity :=
  {| fl_state := s; fl_tasks := taskOf <$> requests |}.

(** Every state that requests in any interleaving reach is valid and follows the first,
    and a session has gained at most a live token per request that opens it. *)
Lemma identity_counts s requests fl :
  valid s → rtc astep (start s requests) fl →
  valid (fl_state fl) ∧ next s (fl_state fl) ∧
  ∀ f, live f (fl_state fl) ≤ live f s + Z.of_nat (length (filter (fun g => g = f) (requests ≫= opens))).
Proof.
  intros Hv Hs. apply (owned_safe live valid next
    (fun f => live f s + Z.of_nat (length (filter (fun g => g = f) (requests ≫= opens))))
    (start s requests) fl); [|exact Hs].
  split; [done|]. exists (rights <$> requests). split.
  - cbn. clear Hs. induction requests as [|r requests IH]; [constructor|].
    rewrite !fmap_cons. constructor; [apply request_owned|apply IH].
  - intros f. rewrite held_rights. done.
Qed.

(** If the sessions the requests open are new ones, no session has two live tokens. *)
Lemma identity_safe s requests fl :
  valid s → (∀ f, live f s ≤ 1) → NoDup (requests ≫= opens) →
  (∀ f, f ∈ requests ≫= opens → live f s = 0) →
  rtc astep (start s requests) fl →
  ∀ f, live f (fl_state fl) ≤ 1.
Proof.
  intros Hv H1 Hnd Hnew Hs f. destruct (identity_counts s requests fl Hv Hs) as (_ & _ & Hc).
  etrans; [apply Hc|]. destruct (decide (f ∈ requests ≫= opens)) as [Hin|Hout].
  - rewrite (Hnew f Hin). assert (length (filter (fun g => g = f) (requests ≫= opens)) <= 1)%nat; [|lia].
    assert (filter (fun g => g = f) (requests ≫= opens) ⊆+ [f]) as Hsub.
    { apply NoDup_submseteq; [by apply NoDup_filter|]. intros g [-> _]%list_elem_of_filter. by left. }
    apply submseteq_length in Hsub. done.
  - rewrite (filter_out f) by done. cbn. rewrite Z.add_0_r. apply H1.
Qed.

(** A session without a live token never has one again, unless a request is in flight
    that has already retired its last one. *)
Lemma dead_session s requests fl f :
  valid s → live f s = 0 → f ∉ requests ≫= opens → rtc astep (start s requests) fl →
  live f (fl_state fl) = 0.
Proof.
  intros Hv Hdead Hout Hs. destruct (identity_counts s requests fl Hv Hs) as (_ & _ & Hc).
  specialize (Hc f). rewrite (filter_out f) in Hc by done. cbn in Hc. unfold live in *. lia.
Qed.
End sessions.
