(* ===== verification/Reception.v ===== *)
(** * Reception: one café's accounts, executed

    Concrete libraries (a signer, a password check, a hash) that satisfy what the
    theorems ask of theirs, and a small state they run on. *)

From S2P Require Import Prelude Text Schema Errors Idempotency Fingerprint OrdersRead JsonText RateLimit Atoms IdentityStore Revocations Sessions Accounts Devices IdentitySafety.
From Stdlib Require Import Ascii.

(** ** A signer *)

Module Signer.

(** A number as the length of a word, its sign in front. *)
Fixpoint ticks (n : nat) : string := match n with O => "" | S n => String "x"%char (ticks n) end.

Definition tally (z : Z) : string :=
  if z <? 0 then String "-"%char (ticks (Z.to_nat (- z))) else String "+"%char (ticks (Z.to_nat z)).

Definition untally (s : string) : Z :=
  match s with
  | EmptyString => 0
  | String c s => if Ascii.eqb c "-"%char then - Z.of_nat (String.length s) else Z.of_nat (String.length s)
  end.

Lemma ticks_length n : String.length (ticks n) = n.
Proof. induction n; cbn; congruence. Qed.

Lemma untally_tally z : untally (tally z) = z.
Proof.
  unfold tally. destruct (Z.ltb_spec z 0); cbn; rewrite ticks_length; lia.
Qed.

Definition sign (now : Z) (sub role type jti : string) : string :=
  "." +:+ print (JArr [JStr sub; JStr role; JStr type; JStr jti; JStr (tally (now / 1000))]).

Section lifetime.
Context (ttlSeconds : Z).

Definition decode (token : string) : option StaffClaims :=
  match token with
  | EmptyString => None
  | String _ text =>
      match jsonParse text with
      | Some (VArr [VStr sub; VStr role; VStr type; VStr jti; VStr iat]) =>
          Some {| cl_sub := sub; cl_role := role; cl_type := type; cl_jti := jti;
                  cl_iat := untally iat; cl_exp := untally iat + ttlSeconds |}
      | _ => None
      end
  end.

Definition verifyAt (now : Z) (token : string) : JwtAnswer :=
  match decode token with
  | Some claims => if cl_exp claims <=? now / 1000 then JwtExpired else JwtClaims claims
  | None => JwtInvalid
  end.

#[export] Instance signer : Jwt := {| jwt_sign := sign; jwt_decode := decode; jwt_verify := verifyAt |}.

Lemma decode_sign now sub role type jti :
  decode (sign now sub role type jti) = Some
    {| cl_sub := sub; cl_role := role; cl_type := type; cl_jti := jti;
       cl_iat := now / 1000; cl_exp := now / 1000 + ttlSeconds |}.
Proof.
  unfold decode, sign. change ("." +:+ ?x) with (String "."%char x). cbv beta iota.
  rewrite parse_print by done. cbn [ofJson map]. by rewrite untally_tally.
Qed.

#[export] Instance signer_laws : JwtLaws ttlSeconds.
Proof.
  split; [apply decode_sign|]. intros later now sub role type jti. cbn. unfold verifyAt.
  by rewrite decode_sign.
Qed.
End lifetime.
End Signer.

(** ** Passwords and hashes *)

#[export] Instance clearText : Passwords :=
  {| hashPassword := fun salt password => salt +:+ password;
     verifyPassword := fun stored password => bool_decide (String.substring 1 (String.length stored) stored = password) |}.

Definition plain (s : string) : string := s.

(** ** A café with one administrator *)

Definition owner : UserRow :=
  {| u_id := "u0"; u_email := "Owner@cafe.test"; u_passwordHash := "ahunter22222"; u_displayName := "Owner";
     u_role := ADMIN; u_isActive := true |}.

Definition opening : Identity :=
  {| i_now := 5000; i_users := {["u0" := owner]}; i_refreshTokens := ∅; i_kioskDevices := ∅;
     i_redis := ∅; i_redisUp := true; i_published := [] |}.

Lemma opening_valid : valid opening.
Proof.
  assert (∀ k u, i_users opening !! k = Some u → k = "u0" ∧ u = owner) as Hu.
  { intros k u H. unfold opening in H. cbn [i_users] in H. apply lookup_singleton_Some in H. naive_solver. }
  split; [split|split; by intros ?|split; by intros ?].
  - by intros k u [-> ->]%Hu.
  - by intros k k' u u' a [-> _]%Hu [-> _]%Hu.
  - by exists "u0", owner.
Qed.

Definition drawn (n : string) : Draw :=
  {| dr_rowId := "row" +:+ n; dr_jti := "jti" +:+ n; dr_secret := "secret" +:+ n |}.
