(* ===== verification/Access.v ===== *)
(** * Access: the theorems about [identity/]

    Sessions, accounts and tablets under every interleaving; what refreshing does on every
    branch; sign-in and pairing from end to end; the deny keys against the lifetime of a
    token; and who passes the guards. *)

From S2P Require Import Prelude Text Schema Errors Idempotency OrdersRead JsonText RateLimit Atoms IdentityStore Revocations Sessions Accounts Devices Guards IdentitySafety Reception.

(** ** Lemmas *)

Lemma findFirst_keyed {R} (id : R → string) table k :
  keyed id table → findFirst (fun r => bool_decide (id r = k)) table = table !! k.
Proof.
  intros Hk. destruct (table !! k) as [r|] eqn:E.
  - apply (findFirst_unique _ _ k r); [done|by apply bool_decide_eq_true, Hk|].
    intros k' r' Hr' Hid. apply bool_decide_eq_true in Hid. by rewrite <-(Hk _ _ Hr').
  - apply findFirst_None. intros k' r' Hr'. apply bool_decide_eq_false. intros Hid.
    rewrite (Hk _ _ Hr') in Hid. congruence.
Qed.

Lemma with_refreshTokens_id s : with_refreshTokens (i_refreshTokens s) s = s.
Proof. by destruct s. Qed.

(** A token, retired at an instant. *)
Definition revokedAt (now : Z) (r : TokenRow) : TokenRow :=
  {| rt_id := rt_id r; rt_userId := rt_userId r; rt_tokenHash := rt_tokenHash r;
     rt_familyId := rt_familyId r; rt_expiresAt := rt_expiresAt r; rt_revokedAt := Some now |}.

(** The whole session, retired. *)
Definition endSession (familyId : string) (s : Identity) : Identity :=
  with_refreshTokens ((fun r => if isLive familyId r then revokedAt (i_now s) r else r) <$> i_refreshTokens s) s.

Lemma revokeTokens_family f s : (revokeTokens (inFamily f) s).1 = endSession f s.
Proof. done. Qed.

Lemma endSession_dead f s : live f (endSession f s) = 0.
Proof.
  unfold live. assert (liveIds f (i_refreshTokens (endSession f s)) = ∅) as ->; [|done].
  apply set_eq. intros k. rewrite elem_of_liveIds. split; [|set_solver].
  intros (r & Hr & Hl). exfalso. unfold endSession in Hr. cbn in Hr.
  rewrite lookup_fmap, fmap_Some in Hr. destruct Hr as (r0 & Hr0 & ->).
  destruct (isLive f r0) eqn:E; [|congruence]. unfold isLive in Hl. cbn in Hl.
  by rewrite andb_false_r in Hl.
Qed.

Lemma hash_unique s h k k' r r' :
  valid s → i_refreshTokens s !! k = Some r → i_refreshTokens s !! k' = Some r' →
  hasHash h r = true → hasHash h r' = true → k = k'.
Proof.
  intros [_ [_ Hh _] _] Hr Hr' H H'. unfold hasHash in *. apply bool_decide_eq_true in H, H'.
  apply (Hh k k' r r' h); [done..| |]; congruence.
Qed.

(** Retiring the token with a hash, if it is there and live. *)
Lemma revokeTokens_hash h s :
  valid s →
  revokeTokens (hasHash h) s =
  match findFirst (hasHash h) (i_refreshTokens s) with
  | Some r => if bool_decide (rt_revokedAt r = None)
              then (with_refreshTokens (<[rt_id r := revokedAt (i_now s) r]> (i_refreshTokens s)) s,
                    Ok (Some (revokedAt (i_now s) r)))
              else (s, Ok None)
  | None => (s, Ok None)
  end.
Proof.
  intros Hv. unfold revokeTokens. set (Q := fun r => hasHash h r && _).
  change (fun r => {| rt_id := _ |}) with (revokedAt (i_now s)).
  assert (findFirst Q (i_refreshTokens s) = None →
    (let '(table, changed) := updateWhere Q (revokedAt (i_now s)) (i_refreshTokens s) in
     (with_refreshTokens table s, Ok (head changed))) = (s, Ok (E:=AppError) None)) as Hnone.
  { intros E. pose proof (updateWhere_none Q (revokedAt (i_now s)) _ E) as Ht.
    pose proof (updateWhere_head Q (revokedAt (i_now s)) (i_refreshTokens s)) as Hh. rewrite E in Hh.
    destruct (updateWhere Q _ _) as [table changed]. cbn in *. subst table.
    by rewrite with_refreshTokens_id, Hh. }
  destruct (findFirst (hasHash h) (i_refreshTokens s)) as [r|] eqn:E.
  - apply findFirst_Some in E as [Hr [k Hk]].
    assert (k = rt_id r) as -> by (symmetry; by apply Hv).
    case_bool_decide as Hlive.
    + rewrite (updateWhere_one Q _ _ (rt_id r) r); [done|done|by unfold Q; rewrite Hr, bool_decide_eq_true_2|].
      intros k' r' Hk' HQ. apply andb_true_iff in HQ as [HQ _]. by eapply (hash_unique s h).
    + apply Hnone, findFirst_None. intros k' r' Hk'. unfold Q. destruct (hasHash h r') eqn:Hr'; [|done].
      assert (k' = rt_id r) as -> by (by eapply (hash_unique s h)).
      replace r' with r by congruence. by rewrite bool_decide_eq_false_2.
  - apply Hnone, findFirst_None. intros k r Hk. unfold Q. rewrite findFirst_None in E. by rewrite (E k r Hk).
Qed.

Section access.
Context `{!Jwt, !Passwords} (sha256 : string → string) (accessTtl refreshTtl pairingTtl : Z).

Notation start := (start sha256 accessTtl refreshTtl pairingTtl).
Notation hashSecret := (hashSecret sha256).
Notation login := (login sha256 refreshTtl).
Notation refresh := (refresh sha256 refreshTtl).

(** The row a draw writes for a session. *)
Definition issuedRow (userId familyId : string) (draw : Draw) (now : Z) : TokenRow :=
  {| rt_id := dr_rowId draw; rt_userId := userId; rt_tokenHash := hashSecret (dr_secret draw);
     rt_familyId := familyId; rt_expiresAt := now + refreshTtl * 1000; rt_revokedAt := None |}.

(** Neither the row's id nor the secret's hash is taken. *)
Definition fresh (draw : Draw) (tokens : gmap string TokenRow) : Prop :=
  tokens !! dr_rowId draw = None ∧
  ∀ k r, tokens !! k = Some r → rt_tokenHash r ≠ hashSecret (dr_secret draw).

Lemma insertIssued_fresh userId familyId draw s :
  fresh draw (i_refreshTokens s) → is_Some (i_users s !! userId) →
  insertIssued sha256 refreshTtl userId familyId draw s =
  (with_refreshTokens (<[dr_rowId draw := issuedRow userId familyId draw (i_now s)]> (i_refreshTokens s)) s, Ok tt).
Proof.
  intros [Hid Hh] Hu. unfold insertIssued, insertToken. cbn [rt_id rt_tokenHash rt_userId].
  rewrite bool_decide_eq_false_2 by (rewrite Hid; by intros [? ?]). cbn [orb].
  assert (existsb (fun r => bool_decide (rt_tokenHash r = hashSecret (dr_secret draw))) (rows (i_refreshTokens s))
          = false) as ->.
  { apply not_true_iff_false. rewrite existsb_exists. intros (r & Hr & E). apply bool_decide_eq_true in E.
    apply list_elem_of_In, elem_of_rows in Hr as [k Hk]. by eapply Hh. }
  rewrite bool_decide_eq_false_2; [done|]. destruct Hu as [u Hu]. congruence.
Qed.

Context `{!JwtLaws accessTtl}.

(** The pair a user is handed at an instant. *)
Definition pairOf (user : UserRow) (draw : Draw) (now : Z) : TokenPair :=
  {| tp_accessToken := jwt_sign now (u_id user) (roleText (u_role user)) STAFF_TOKEN_TYPE (dr_jti draw);
     tp_refreshToken := dr_secret draw; tp_expiresInSeconds := accessTtl |}.

Lemma issuePair_runs user familyId draw s :
  fresh draw (i_refreshTokens s) → is_Some (i_users s !! u_id user) →
  runAlone (issuePair sha256 refreshTtl user familyId draw) s =
  (with_refreshTokens (<[dr_rowId draw := issuedRow (u_id user) familyId draw (i_now s)]> (i_refreshTokens s)) s,
   Ok (pairOf user draw (i_now s))).
Proof.
  intros Hf Hu. unfold issuePair, issue, mbind, fallible_bind, act. cbn [andThen runAlone query fst snd].
  rewrite jwt_decode_sign. cbn [andThen give runAlone]. rewrite (insertIssued_fresh _ _ _ _ Hf Hu).
  cbn [andThen runAlone give fst snd cl_exp cl_iat]. unfold pairOf. repeat f_equal. lia.
Qed.

(** ** Refreshing *)

(** What refreshing is meant to do: a session is its chain of tokens, of which the last
    may be exchanged for the next, once, while it lasts and its owner is employed; any
    other token of the chain ends the session. *)
Definition rotated (token : string) (draw : Draw) (s : Identity) : Identity * result AppError TokenPair :=
  let tokens := i_refreshTokens s in
  match findFirst (hasHash (hashSecret token)) tokens with
  | None => (s, Err TokenInvalidError)
  | Some r =>
      if negb (bool_decide (rt_revokedAt r = None))
      then (endSession (rt_familyId r) s, Err RefreshTokenReusedError)
      else
        let spent := <[rt_id r := revokedAt (i_now s) r]> tokens in
        if rt_expiresAt r <=? i_now s then (with_refreshTokens spent s, Err TokenExpiredError)
        else match i_users s !! rt_userId r with
             | Some user =>
                 if u_isActive user
                 then (with_refreshTokens
                         (<[dr_rowId draw := issuedRow (rt_userId r) (rt_familyId r) draw (i_now s)]> spent) s,
                       Ok (pairOf user draw (i_now s)))
                 else (with_refreshTokens spent s, Err InvalidCredentialsError)
             | None => (with_refreshTokens spent s, Err InvalidCredentialsError)
             end
  end.

Lemma fresh_spent draw tokens r :
  tokens !! rt_id r = Some r → fresh draw tokens → ∀ now, fresh draw (<[rt_id r := revokedAt now r]> tokens).
Proof.
  intros Hr [Hid Hh] now. split.
  - rewrite lookup_insert_ne; [done|]. intros E. congruence.
  - intros k r' [[<- <-]|[_ H']]%lookup_insert_Some; [by apply (Hh (rt_id r) r)|by eapply Hh].
Qed.

Lemma replayed_runs token s :
  runAlone (revokeFamilyOfReplayedToken (hashSecret token)) s =
  match findFirst (hasHash (hashSecret token)) (i_refreshTokens s) with
  | None => (s, Ok tt)
  | Some r => (endSession (rt_familyId r) s, Err RefreshTokenReusedError)
  end.
Proof.
  unfold revokeFamilyOfReplayedToken, findToken, mbind, fallible_bind, act. cbn [andThen runAlone query fst snd].
  by destruct (findFirst _ _) as [r|].
Qed.

(** C25. Refreshing does exactly that, whatever is presented and whatever is stored. *)
Theorem refresh_rotates token draw s :
  valid s → fresh draw (i_refreshTokens s) → runAlone (refresh token draw) s = rotated token draw s.
Proof.
  intros Hv Hf. unfold rotated, Sessions.refresh, mbind at 1, fallible_bind at 1, act at 1.
  cbn [andThen runAlone]. rewrite (revokeTokens_hash _ _ Hv).
  destruct (findFirst (hasHash (hashSecret token)) (i_refreshTokens s)) as [r|] eqn:Er.
  2: { cbn [fst snd]. unfold mbind, fallible_bind. by rewrite runAlone_andThen, replayed_runs, Er. }
  case_bool_decide as Hlive; cbn [fst snd negb].
  2: { unfold mbind, fallible_bind. by rewrite runAlone_andThen, replayed_runs, Er. }
  apply findFirst_Some in Er as [_ [k Hk]].
  assert (k = rt_id r) as -> by (symmetry; by apply Hv).
  set (spent := with_refreshTokens _ s).
  unfold mbind, fallible_bind, act. cbn [andThen runAlone query fst snd].
  change (rt_expiresAt (revokedAt (i_now s) r)) with (rt_expiresAt r).
  change (i_now spent) with (i_now s).
  destruct (rt_expiresAt r <=? i_now s); [done|].
  unfold findUser, act. cbn [andThen runAlone query fst snd].
  change (rt_userId (revokedAt (i_now s) r)) with (rt_userId r). change (i_users spent) with (i_users s).
  rewrite (findFirst_keyed u_id) by apply Hv.
  destruct (i_users s !! rt_userId r) as [user|] eqn:Eu; [|done].
  destruct (u_isActive user); [|done].
  assert (u_id user = rt_userId r) as Hid by (by apply Hv).
  rewrite issuePair_runs; [by rewrite Hid|by apply fresh_spent|]. rewrite Hid. cbn. eauto.
Qed.

Lemma refresh_replay token draw s r :
  valid s → findFirst (hasHash (hashSecret token)) (i_refreshTokens s) = Some r → rt_revokedAt r ≠ None →
  runAlone (refresh token draw) s = (endSession (rt_familyId r) s, Err RefreshTokenReusedError).
Proof.
  intros Hv Er Hd. unfold Sessions.refresh, mbind at 1, fallible_bind at 1, act at 1.
  cbn [andThen runAlone]. rewrite (revokeTokens_hash _ _ Hv), Er, bool_decide_eq_false_2 by done.
  cbn [fst snd]. unfold mbind, fallible_bind. by rewrite runAlone_andThen, replayed_runs, Er.
Qed.

Lemma endSession_valid f s : valid s → valid (endSession f s).
Proof. intros Hv. rewrite <-revokeTokens_family. by apply revokeTokens_spec. Qed.

(** ** The end of a session *)

(** What ends the session [f]: presenting a token of it that was already exchanged, or its
    owner signing out. *)
Inductive ends (f : string) (s : Identity) : Identity → Prop :=
| ends_replay token draw r :
    findFirst (hasHash (hashSecret token)) (i_refreshTokens s) = Some r → rt_familyId r = f →
    rt_revokedAt r ≠ None → ends f s (runAlone (refresh token draw) s).1
| ends_logout session token r :
    findFirst (hasHash (hashSecret token)) (i_refreshTokens s) = Some r → rt_familyId r = f →
    rt_userId r = ss_userId session → ends f s (runAlone (logout sha256 accessTtl session token) s).1.

Lemma logout_runs session token s r :
  findFirst (hasHash (hashSecret token)) (i_refreshTokens s) = Some r →
  runAlone (logout sha256 accessTtl session token) s =
  if negb (bool_decide (rt_userId r = ss_userId session)) then (s, Err TokenInvalidError)
  else runAlone (caught (revokeToken accessTtl (ss_tokenId session))) (endSession (rt_familyId r) s).
Proof.
  intros Er. unfold logout, findToken, revokeFamily, mbind, fallible_bind, act.
  cbn [andThen runAlone query fst snd]. rewrite Er. by destruct (negb _).
Qed.

Lemma ends_dead f s s' : valid s → ends f s s' → valid s' ∧ live f s' = 0.
Proof.
  intros Hv He. assert (∀ s', valid s' ∧ live f s' ≤ 0 → valid s' ∧ live f s' = 0) as Hz.
  { intros s'' [? ?]. split; [done|]. unfold live in *. lia. }
  apply Hz. destruct He as [token draw r Er Hf Hd|session token r Er Hf Hu].
  - rewrite (refresh_replay _ _ _ _ Hv Er Hd), Hf.
    split; [by apply endSession_valid|]. cbn [fst]. by rewrite endSession_dead.
  - rewrite (logout_runs _ _ _ _ Er), bool_decide_eq_true_2, Hf by done. cbn [negb].
    destruct (runAlone_quiet live valid next (caught (revokeToken accessTtl (ss_tokenId session)))
      (endSession f s)) as (Hv' & _ & Hc).
    + apply allQuiet_caught, allQuiet_announce.
    + by apply endSession_valid.
    + split; [done|]. rewrite <-(endSession_dead f s). apply Hc.
Qed.

(** C26. An ended session stays ended, if nothing of it was in flight: a replayed refresh token
    or a logout ends a session in a request that runs alone, no refresh of that session being
    under way (such a refresh revives it: [Entry.Races.ended_session_revived]). Whatever
    requests start afterwards, in whatever order they interleave and wherever they die, none
    of them being the login that opens this session, it never has a live token again, and
    each of its tokens that is still stored is refused as reused. *)
Theorem session_ends f s s' requests fl :
  valid s → ends f s s' → f ∉ requests ≫= opens → rtc astep (start s' requests) fl →
  live f (fl_state fl) = 0 ∧
  ∀ token draw r, findFirst (hasHash (hashSecret token)) (i_refreshTokens (fl_state fl)) = Some r →
    rt_familyId r = f →
    (runAlone (refresh token draw) (fl_state fl)).2 = Err RefreshTokenReusedError.
Proof.
  intros Hv He Hout Hs. destruct (ends_dead f s s' Hv He) as [Hv' Hdead].
  pose proof (dead_session sha256 accessTtl refreshTtl pairingTtl s' requests fl f Hv' Hdead Hout Hs) as Hd.
  destruct (identity_counts sha256 accessTtl refreshTtl pairingTtl s' requests fl Hv' Hs) as (Hvf & _ & _).
  split; [done|]. intros token draw r Er Hf. rewrite (refresh_replay token draw _ r Hvf Er); [done|].
  intros Hlive. apply findFirst_Some in Er as [_ [k Hk]].
  assert (k ∈ liveIds f (i_refreshTokens (fl_state fl))) as Hin.
  { apply elem_of_liveIds. exists r. split; [done|]. unfold isLive, inFamily. by rewrite !bool_decide_eq_true_2. }
  unfold live in Hd. assert (size (liveIds f (i_refreshTokens (fl_state fl))) = 0%nat) as Hz by lia.
  apply size_empty_inv in Hz. set_solver.
Qed.

(** C20. No session ever has two live tokens: however requests interleave, wherever they die,
    two of them racing on the same token do not both get a successor. *)
Theorem one_live_token s requests fl :
  valid s → (∀ f, live f s ≤ 1) → NoDup (requests ≫= opens) →
  (∀ f, f ∈ requests ≫= opens → live f s = 0) →
  rtc astep (start s requests) fl → ∀ f, live f (fl_state fl) ≤ 1.
Proof. apply identity_safe. Qed.

(** In every state the identity services' own requests can reach (retention deletes stale
    tokens in [Retention.v]) there is an active administrator, no two accounts
    share an email in any case, every session belongs to an account, a tablet that may
    order has a token behind it and one that is not paired has a code instead; no account,
    token or tablet is lost, a revoked token stays revoked, and a tablet is paired at most
    once. *)
Theorem identity_invariant s requests fl :
  valid s → rtc astep (start s requests) fl → valid (fl_state fl) ∧ next s (fl_state fl).
Proof.
  intros Hv Hs. by destruct (identity_counts sha256 accessTtl refreshTtl pairingTtl s requests fl Hv Hs) as (? & ? & _).
Qed.

(** ** The deny keys *)

Lemma userRoleOf_roleText role : userRoleOf (roleText role) = Some role.
Proof. by destruct role. Qed.

Lemma verify_issued issued later userId role jti :
  verifyAccess later (jwt_sign issued userId (roleText role) STAFF_TOKEN_TYPE jti) =
  if issued / 1000 + accessTtl <=? later / 1000 then Err TokenExpiredError
  else Ok {| ss_userId := userId; ss_role := role; ss_tokenId := jti |}.
Proof.
  unfold verifyAccess. rewrite jwt_verify_sign. destruct (_ <=? _); [done|]. cbn [cl_type cl_role].
  by rewrite bool_decide_eq_true_2, userRoleOf_roleText.
Qed.

(** Once a user's revocation is announced, a token minted before it is refused for as long
    as it verifies: the key outlives every such token. *)
Theorem denylist_covers issued role jti userId s s' :
  i_redisUp s = true → issued ≤ i_now s ≤ i_now s' → i_redisUp s' = true →
  i_redis s' !! userKey userId = i_redis (runAlone (revokeUser accessTtl userId) s).1 !! userKey userId →
  is_ok (verifyAccess (i_now s') (jwt_sign issued userId (roleText role) STAFF_TOKEN_TYPE jti)) = true →
  runAlone (isRevoked userId jti) s' = (s', Ok true).
Proof.
  intros Hup Ht Hup' Hkey Hv. rewrite verify_issued in Hv.
  destruct (Z.leb_spec (issued / 1000 + accessTtl) (i_now s' / 1000)) as [|Hlt]; [done|].
  unfold revokeUser in Hkey. rewrite (announce_up accessTtl _ _ _ Hup) in Hkey.
  cbn [fst i_redis with_outside] in Hkey. unfold SET_EX in Hkey. rewrite lookup_insert_eq in Hkey.
  assert (i_now s' ≤ i_now s + accessTtl * 1000) as Hle.
  { pose proof (Z.mul_div_le issued 1000 ltac:(lia)).
    pose proof (Z.mul_succ_div_gt (i_now s') 1000 ltac:(lia)). lia. }
  unfold isRevoked, act, runAlone, onRedis. rewrite Hup'. cbn [fst snd existsb].
  assert (GET (i_now s') (userKey userId) (i_redis s') = Some 1) as ->.
  { unfold GET. rewrite (proj2 (liveEntry_Some _ _ _ _) (conj Hkey Hle)). done. }
  rewrite (bool_decide_eq_true_2 (is_Some (Some 1))) by eauto. cbn [orb].
  destruct s'. cbn in *. by subst.
Qed.

(** ** Signing in *)

(** The row a creation writes. *)
Definition createdRow (input : CreateUserInput) (id salt : string) : UserRow :=
  {| u_id := id; u_email := cu_email input; u_passwordHash := hashPassword salt (cu_password input);
     u_displayName := cu_displayName input; u_role := cu_role input; u_isActive := true |}.

Lemma createUser_runs input id salt s :
  i_users s !! id = None →
  (∀ k u, i_users s !! k = Some u → sameEmail (u_email u) (cu_email input) = false) →
  runAlone (createUser input id salt) s =
  (with_users (<[id := createdRow input id salt]> (i_users s)) s, Ok (publicColumns (createdRow input id salt))).
Proof.
  intros Hid He. unfold createUser, act. cbn [andThen runAlone]. unfold insertUser. cbn [u_id u_email].
  rewrite bool_decide_eq_false_2 by (rewrite Hid; by intros [? ?]). cbn [orb].
  assert (existsb (fun u => sameEmail (u_email u) (cu_email input)) (rows (i_users s)) = false) as ->; [|done].
  apply not_true_iff_false. rewrite existsb_exists. intros (u & Hu & E).
  apply list_elem_of_In, elem_of_rows in Hu as [k Hk]. by rewrite (He k u Hk) in E.
Qed.

(** A sign-in with the right password, where Redis is reachable and does not object. *)
Lemma login_runs email password familyId draw s user :
  i_redisUp s = true → (assertNotLockedOut (i_now s) email (i_redis s)).2 = Ok tt →
  findFirst (fun u => sameEmail (u_email u) email) (i_users s) = Some user →
  i_users s !! u_id user = Some user →
  u_isActive user = true → verifyPassword (u_passwordHash user) password = true →
  fresh draw (i_refreshTokens s) →
  ∃ redis, runAlone (login email password familyId draw) s =
  (with_refreshTokens (<[dr_rowId draw := issuedRow (u_id user) familyId draw (i_now s)]> (i_refreshTokens s))
     (with_outside (i_now s) redis true (i_published s) s),
   Ok (pairOf user draw (i_now s), publicUser user)).
Proof.
  intros Hup Hlock Hfind Hu Hact Hpw Hf.
  unfold Sessions.login, mbind at 1, fallible_bind at 1, act at 1. cbn [andThen runAlone].
  rewrite (onRedis_up _ _ Hup). cbn [fst snd]. rewrite Hlock.
  unfold findUser, mbind at 1, fallible_bind at 1, act at 1. cbn [andThen runAlone query fst snd i_users with_outside].
  rewrite Hfind. cbn [fmap option_fmap option_map default]. unfold id. rewrite Hact, Hpw. cbn [negb orb].
  unfold mbind at 1, fallible_bind at 1, act at 1. cbn [andThen runAlone].
  rewrite onRedis_up by done. cbn [i_redisUp with_outside fst snd i_now i_redis].
  unfold mbind, fallible_bind. rewrite runAlone_andThen, issuePair_runs; [|done|cbn; eauto].
  by eexists.
Qed.

(** From a new account to a session: the account signs in with its password under any
    spelling of its email, the access token names it and its role until it expires, and
    the refresh token can be exchanged. *)
Theorem signin_round_trip input id salt email familyId d1 d2 s later :
  valid s → i_redisUp s = true →
  verifyPassword (hashPassword salt (cu_password input)) (cu_password input) = true →
  i_users s !! id = None →
  (∀ k u, i_users s !! k = Some u → sameEmail (u_email u) (cu_email input) = false) →
  sameEmail (cu_email input) email = true →
  (assertNotLockedOut (i_now s) email (i_redis s)).2 = Ok tt →
  fresh d1 (i_refreshTokens s) → fresh d2 (i_refreshTokens s) →
  dr_rowId d1 ≠ dr_rowId d2 → hashSecret (dr_secret d1) ≠ hashSecret (dr_secret d2) →
  0 < refreshTtl → i_now s / 1000 ≤ later / 1000 < i_now s / 1000 + accessTtl →
  let '(s1, created) := runAlone (createUser input id salt) s in
  let '(s2, answer) := runAlone (login email (cu_password input) familyId d1) s1 in
  created = Ok {| sa_id := id; sa_email := cu_email input; sa_displayName := cu_displayName input;
                  sa_role := cu_role input; sa_isActive := true |} ∧
  ∃ pair user, answer = Ok (pair, user) ∧ au_id user = id ∧ au_role user = cu_role input ∧
    verifyAccess later (tp_accessToken pair)
      = Ok {| ss_userId := id; ss_role := cu_role input; ss_tokenId := dr_jti d1 |} ∧
    is_ok (runAlone (refresh (tp_refreshToken pair) d2) s2).2 = true.
Proof.
  intros Hv Hup Hpw Hid Hem Hsame Hlock Hf1 Hf2 Hrow Hsec Httl Hlater.
  rewrite createUser_runs by done. set (user := createdRow input id salt).
  set (s1 := with_users _ s).
  assert (valid s1) as Hv1.
  { replace s1 with (runAlone (createUser input id salt) s).1 by (by rewrite createUser_runs).
    by apply (runAlone_quiet live valid next), Hv; apply allQuiet_createUser. }
  destruct (login_runs email (cu_password input) familyId d1 s1 user) as [redis Hlogin]; try done.
  { apply (findFirst_unique _ _ id); [apply lookup_insert_eq|done|].
    intros k u Hk Hs. unfold s1 in Hk. cbn in Hk. apply lookup_insert_Some in Hk as [[<- _]|[_ Hk]]; [done|].
    unfold sameEmail in *. apply bool_decide_eq_true in Hs, Hsame. specialize (Hem k u Hk).
    apply bool_decide_eq_false in Hem. congruence. }
  { apply lookup_insert_eq. }
  pose proof (runAlone_owned live valid next _ _ s1
    (owned_login sha256 refreshTtl email (cu_password input) familyId d1 s1) Hv1) as Hv2.
  rewrite Hlogin in *. cbn [fst] in Hv2. split; [done|]. eexists _, _. split_and!; [done..| |].
  - cbn [tp_accessToken pairOf]. rewrite verify_issued.
    destruct (Z.leb_spec (i_now s1 / 1000 + accessTtl) (later / 1000)); [|done].
    change (i_now s1) with (i_now s) in *. lia.
  - cbn [tp_refreshToken pairOf]. set (s2 := with_refreshTokens _ _) in *.
    rewrite refresh_rotates; [|done|].
    + unfold rotated. rewrite (findFirst_unique _ _ (dr_rowId d1) (issuedRow id familyId d1 (i_now s)));
        [|apply lookup_insert_eq|by apply bool_decide_eq_true|].
      * cbn [rt_revokedAt issuedRow rt_expiresAt rt_userId negb]. rewrite bool_decide_eq_true_2 by done.
        change (i_now s2) with (i_now s). destruct (Z.leb_spec (i_now s + refreshTtl * 1000) (i_now s)); [lia|].
        change (i_users s2) with (<[id := user]> (i_users s)). by rewrite lookup_insert_eq.
      * intros k r Hk Hh. symmetry. eapply (hash_unique s2 (hashSecret (dr_secret d1))); [done| |done| |done].
        -- apply lookup_insert_eq.
        -- by apply bool_decide_eq_true.
    + destruct Hf2 as [Hf2 Hf2']. split.
      * cbn. by rewrite lookup_insert_ne.
      * intros k r Hk. unfold s2 in Hk. cbn in Hk.
        apply lookup_insert_Some in Hk as [[_ <-]|[_ Hk]]; [done|by eapply Hf2'].
Qed.
End access.

(** ** A day at the reception *)

Module Morning.

#[local] Instance jwt : Jwt := Signer.signer 900.
#[local] Instance jwt_laws : JwtLaws 900 := Signer.signer_laws 900.

(** The owner signs in. *)
Definition signIn : idM (TokenPair * AuthenticatedUser) :=
  login plain 1000 "owner@CAFE.test" "hunter22222" "f1" (drawn "1").
Definition signedIn : Identity := (runAlone signIn opening).1.

(** And exchanges the first refresh token. *)
Definition exchange : idM TokenPair := refresh plain 1000 "secret1" (drawn "2").
Definition exchanged : Identity := (runAlone exchange signedIn).1.

Lemma signedIn_valid : valid signedIn.
Proof. eapply (runAlone_owned live valid next), opening_valid. apply owned_login. Qed.

Lemma exchanged_valid : valid exchanged.
Proof. eapply (runAlone_owned live valid next), signedIn_valid. apply owned_refresh. Qed.

(** Freshness, computed. *)
Lemma fresh_computed draw tokens :
  bool_decide (tokens !! dr_rowId draw = None ∧
    map_Forall (fun _ r => rt_tokenHash r ≠ dr_secret draw) tokens) = true → fresh plain draw tokens.
Proof. intros H. apply bool_decide_eq_true in H. exact H. Qed.

Lemma refresh_rotates_witness :
  is_ok (runAlone exchange signedIn).2 = true ∧
  (runAlone (refresh plain 1000 "secret1" (drawn "3")) exchanged).2 = Err RefreshTokenReusedError.
Proof.
  unfold exchange. rewrite (refresh_rotates plain 900 1000 "secret1" (drawn "2") signedIn signedIn_valid)
    by (apply fresh_computed; vm_compute; reflexivity).
  rewrite (refresh_rotates plain 900 1000 "secret1" (drawn "3") exchanged exchanged_valid)
    by (apply fresh_computed; vm_compute; reflexivity).
  vm_compute. done.
Defined.

(** The first token is presented again, and then the second one. *)
Lemma session_ends_witness :
  let s' := (runAlone (refresh plain 1000 "secret1" (drawn "3")) exchanged).1 in
  let fl := turns (start plain 900 1000 600 s' [Refresh "secret2" (drawn "4")]) [0; 0; 0; 0]%nat in
  live "f1" (fl_state fl) = 0.
Proof.
  cbv zeta.
  eapply proj1, (session_ends plain 900 1000 600 "f1" exchanged
    (runAlone (refresh plain 1000 "secret1" (drawn "3")) exchanged).1 [Refresh "secret2" (drawn "4")]).
  - exact exchanged_valid.
  - eapply ends_replay; [vm_compute; reflexivity|done|done].
  - by apply not_elem_of_nil.
  - apply turns_reach.
Defined.

(** Two requests exchange the same token at once. *)
Lemma one_live_token_witness :
  let fl := turns (start plain 900 1000 600 signedIn [Refresh "secret1" (drawn "2"); Refresh "secret1" (drawn "3")])
              [0; 1; 0; 1; 0; 1; 0; 1; 0; 1]%nat in
  live "f1" (fl_state fl) ≤ 1.
Proof.
  cbv zeta. refine (one_live_token plain 900 1000 600 signedIn _ _ signedIn_valid _ _ _ (turns_reach _ _) "f1").
  - intros f. transitivity (Z.of_nat (size (i_refreshTokens signedIn))); [|by vm_compute].
    unfold live, liveIds. rewrite size_dom. apply Nat2Z.inj_le, map_subseteq_size, map_filter_subseteq.
  - apply NoDup_nil_2.
  - intros f Hf. by apply elem_of_nil in Hf.
Defined.

(** The only administrator tries to leave, while a colleague is hired. *)
Lemma identity_invariant_witness :
  let fl := turns (start plain 900 1000 600 opening
    [UpdateUser "u0" {| uu_displayName := None; uu_role := Some CASHIER; uu_isActive := None |};
     CreateUser {| cu_email := "b@cafe.test"; cu_displayName := "B"; cu_role := BARISTA; cu_password := "p" |} "u1" "s"])
    [1; 0; 0; 0]%nat in
  ∃ k u, i_users (fl_state fl) !! k = Some u ∧ isActiveAdmin u = true.
Proof.
  cbv zeta. edestruct (identity_invariant plain 900 1000 600 opening) as [[[_ _ Hadm] _ _] _];
    [exact opening_valid|apply turns_reach|exact Hadm].
Defined.

(** A token of the second before, and the last instant it verifies. *)
Lemma denylist_covers_witness :
  let s' := (runAlone (elapse 898999) (runAlone (revokeUser 900 "u0") opening).1).1 in
  runAlone (isRevoked "u0" "jti1") s' = (s', Ok true).
Proof.
  cbv zeta. apply (denylist_covers 900 4000 ADMIN "jti1" "u0" opening);
    [done|by vm_compute|done|done|vm_compute; reflexivity].
Defined.

Lemma signin_round_trip_witness :
  let input := {| cu_email := "b@cafe.test"; cu_displayName := "B"; cu_role := BARISTA; cu_password := "0123456789" |} in
  let '(s1, created) := runAlone (createUser input "u1" "s") opening in
  let '(s2, answer) := runAlone (login plain 1000 "B@Cafe.Test" "0123456789" "f1" (drawn "1")) s1 in
  is_ok created = true ∧ is_ok answer = true.
Proof.
  cbv zeta.
  pose proof (signin_round_trip plain 900 1000
    {| cu_email := "b@cafe.test"; cu_displayName := "B"; cu_role := BARISTA; cu_password := "0123456789" |}
    "u1" "s" "B@Cafe.Test" "f1" (drawn "1") (drawn "2") opening 6000) as H.
  destruct (runAlone (createUser _ _ _) opening) as [s1 created].
  cbn [cu_password] in H. destruct (runAlone (login _ _ _ _ _ _) s1) as [s2 answer].
  destruct H as [-> (pair & user & -> & _)]; try done.
  - exact opening_valid.
  - intros k u Hk. unfold opening in Hk. cbn [i_users] in Hk. by apply lookup_singleton_Some in Hk as [<- <-].
Defined.
End Morning.
