(* ===== verification/Entry.v ===== *)
(** * Entry: tablets from pairing to revocation, and who passes the guards

    The last part holds executions of a few requests in a stated order whose outcome the
    comments of [identity/] rule out. *)

From S2P Require Import Prelude Text Schema Errors Idempotency Fingerprint OrdersRead JsonText RateLimit Atoms.
From S2P Require Import IdentityStore Revocations Sessions Accounts Devices Guards IdentitySafety Reception Access.
From Stdlib Require Import Ascii.

(** ** Pairing *)

Lemma existsb_rows_false {R} (P : R → bool) table :
  (∀ k r, table !! k = Some r → P r = false) → existsb P (rows table) = false.
Proof.
  intros H. apply not_true_iff_false. rewrite existsb_exists. intros (r & Hr & E).
  apply list_elem_of_In, elem_of_rows in Hr as [k Hk]. by rewrite (H k r Hk) in E.
Qed.

(** An edit of one tablet, by its id. *)
Lemma writeDevices_id id name status seen s d :
  keyed d_id (i_kioskDevices s) → i_kioskDevices s !! id = Some d →
  writeDevices (hasDeviceId id) name status seen s =
  (with_devices (<[id := editDevice name status (if seen then Some (i_now s) else None) d]> (i_kioskDevices s)) s,
   Ok (Some (editDevice name status (if seen then Some (i_now s) else None) d))).
Proof.
  intros Hk Hd. unfold writeDevices. rewrite (updateWhere_one _ _ _ id d); [done|done| |].
  - apply bool_decide_eq_true. by apply Hk.
  - intros k r Hr Hid. unfold hasDeviceId in Hid. apply bool_decide_eq_true in Hid. by rewrite <-(Hk _ _ Hr).
Qed.

Section pairing.
Context (sha256 : string → string) (pairingTtl : Z).

Notation hashSecret := (hashSecret sha256).

(** The row a registration writes. *)
Definition registered (id name pairingCode registeredBy : string) (now : Z) : DeviceRow :=
  {| d_id := id; d_name := name; d_tokenHash := None; d_pairingCodeHash := Some (hashSecret pairingCode);
     d_pairingExpiresAt := Some (now + pairingTtl * 1000); d_status := DevPENDING; d_lastSeenAt := None;
     d_registeredBy := registeredBy; d_createdAt := now |}.

(** No other tablet has the code, nor the token that will be handed out. *)
Definition unclaimed (code token : string) (devices : gmap string DeviceRow) : Prop :=
  ∀ k d, devices !! k = Some d →
    d_pairingCodeHash d ≠ Some (hashSecret code) ∧ d_tokenHash d ≠ Some (hashSecret token).

Lemma createDevice_runs name registeredBy id code s :
  i_kioskDevices s !! id = None → is_Some (i_users s !! registeredBy) →
  runAlone (createDevice sha256 pairingTtl name registeredBy id code) s =
  (with_devices (<[id := registered id name code registeredBy (i_now s)]> (i_kioskDevices s)) s,
   Ok (deviceSummary (registered id name code registeredBy (i_now s)), code)).
Proof.
  intros Hid Hu. unfold createDevice, mbind, fallible_bind, act. cbn [andThen runAlone]. unfold insertDevice.
  rewrite bool_decide_eq_false_2 by (rewrite Hid; by intros [? ?]).
  rewrite bool_decide_eq_false_2; [done|]. destruct Hu as [u Hu]. congruence.
Qed.

(** A tablet just registered, alone with its code. *)
Lemma only_registered code token id name by_ now devices k d :
  unclaimed code token devices → <[id := registered id name code by_ now]> devices !! k = Some d →
  d_pairingCodeHash d = Some (hashSecret code) → k = id.
Proof. intros Hu [[<- _]|[_ Hk]]%lookup_insert_Some Hc; [done|]. by destruct (Hu k d Hk). Qed.

(** Activating a registered tablet at a later instant. *)
Lemma activate_runs code token id name by_ created devices s :
  unclaimed code token devices → i_kioskDevices s = <[id := registered id name code by_ created]> devices →
  runAlone (activate sha256 code token) s =
  if i_now s <? created + pairingTtl * 1000
  then (with_devices (<[id := paired (hashSecret token) (registered id name code by_ created)]> (i_kioskDevices s)) s,
        Ok {| ad_deviceId := id; ad_name := name; ad_deviceToken := token |})
  else (s, Err PairingCodeExpiredError).
Proof.
  intros Hu Hs. set (row := registered id name code by_ created).
  assert (i_kioskDevices s !! id = Some row) as Hrow by (rewrite Hs; apply lookup_insert_eq).
  assert (∀ k d, i_kioskDevices s !! k = Some d → d_pairingCodeHash d = Some (hashSecret code) → k = id) as Honly.
  { intros k d. rewrite Hs. by apply (only_registered code token). }
  unfold activate, mbind, fallible_bind, act. cbn [andThen runAlone]. unfold pairDevice.
  assert (∀ d, pairable (hashSecret code) (i_now s) d = true → d_pairingCodeHash d = Some (hashSecret code)) as Hp.
  { intros d H. unfold pairable in H. apply andb_true_iff in H as [H _]. apply andb_true_iff in H as [H _].
    by apply bool_decide_eq_true in H. }
  assert (pairable (hashSecret code) (i_now s) row = (i_now s <? created + pairingTtl * 1000)) as Hpair.
  { unfold pairable, row. cbn. by rewrite !bool_decide_eq_true_2. }
  destruct (Z.ltb_spec (i_now s) (created + pairingTtl * 1000)) as [Hin|Hout].
  - rewrite (updateWhere_one _ _ _ id row Hrow Hpair);
      [|intros k d Hk E; by apply (Honly k d), Hp].
    rewrite existsb_rows_false; [done|]. intros k d Hk. apply bool_decide_eq_false. intros E.
    rewrite Hs in Hk. apply lookup_insert_Some in Hk as [[<- <-]|[_ Hk]]; [done|].
    by destruct (Hu k d Hk).
  - assert (findFirst (pairable (hashSecret code) (i_now s)) (i_kioskDevices s) = None) as Hnone.
    { apply findFirst_None. intros k d Hk. destruct (pairable _ _ d) eqn:E; [|done].
      rewrite (Honly k d Hk (Hp d E)) in Hk. congruence. }
    pose proof (updateWhere_head (pairable (hashSecret code) (i_now s)) (paired (hashSecret token))
      (i_kioskDevices s)) as Hh. rewrite Hnone in Hh.
    destruct (updateWhere _ _ (i_kioskDevices s)) as [table [|]]; [|done]. cbn [fst snd].
    unfold explainFailedPairing, findDevice, mbind, fallible_bind, act. cbn [andThen runAlone query fst snd].
    rewrite (findFirst_unique _ _ id row Hrow); [|by apply bool_decide_eq_true|].
    + unfold row. cbn. by destruct (Z.leb_spec (created + pairingTtl * 1000) (i_now s)); [|lia].
    + intros k d Hk E. apply bool_decide_eq_true in E. by apply (Honly k d).
Qed.

Lemma announced_devices id s :
  i_kioskDevices (runAlone (caught (revokeDevice id)) s).1 = i_kioskDevices s.
Proof.
  unfold caught, revokeDevice, withRetry, withRetryFrom, act. rewrite runAlone_andThen. cbn.
  unfold publish. destruct (i_redisUp s) eqn:E; cbn; [done|]. repeat (rewrite E; cbn). done.
Qed.

(** Presenting the token of a tablet. *)
Lemma resolve_runs token id d s :
  validDevices (i_kioskDevices s) → i_kioskDevices s !! id = Some d → d_tokenHash d = Some (hashSecret token) →
  (runAlone (resolve sha256 token) s).2 =
    (if bool_decide (d_status d = DevREVOKED) then Err DeviceRevokedError else Ok (DevicePrincipal id)) ∧
  (d_status d = DevREVOKED → (runAlone (resolve sha256 token) s).1 = s).
Proof.
  intros [Hk Htok _] Hd Ht. unfold resolve, findDevice, mbind, fallible_bind, act.
  cbn [andThen runAlone query fst snd].
  rewrite (findFirst_unique _ _ id d Hd); [|by apply bool_decide_eq_true|].
  - rewrite (Hk _ _ Hd). case_bool_decide as Hs; [done|]. split; [|done]. rewrite runAlone_andThen.
    unfold touchLastSeen, mbind, fallible_bind, act. cbn [andThen runAlone query fst snd].
    destruct (match d_lastSeenAt d with Some _ => _ | None => _ end); [done|].
    cbn [andThen runAlone]. unfold writeDevices. by destruct (updateWhere _ _ _).
  - intros k r Hr E. apply bool_decide_eq_true in E. by eapply Htok.
Qed.

(** A code that no tablet awaits. *)
Lemma activate_unknown code token s :
  (∀ k d, i_kioskDevices s !! k = Some d → d_pairingCodeHash d ≠ Some (hashSecret code)) →
  runAlone (activate sha256 code token) s = (s, Err PairingCodeInvalidError).
Proof.
  intros H. unfold activate, mbind, fallible_bind, act. cbn [andThen runAlone]. unfold pairDevice.
  assert (findFirst (pairable (hashSecret code) (i_now s)) (i_kioskDevices s) = None) as Hnone.
  { apply findFirst_None. intros k d Hk. unfold pairable.
    rewrite (bool_decide_eq_false_2 (d_pairingCodeHash d = _)); [done|by eapply H]. }
  pose proof (updateWhere_head (pairable (hashSecret code) (i_now s)) (paired (hashSecret token))
    (i_kioskDevices s)) as Hh. rewrite Hnone in Hh.
  destruct (updateWhere _ _ (i_kioskDevices s)) as [table [|]]; [|done]. cbn [fst snd].
  unfold explainFailedPairing, findDevice, mbind, fallible_bind, act. cbn [andThen runAlone query fst snd].
  assert (findFirst (fun d => bool_decide (d_pairingCodeHash d = Some (hashSecret code))) (i_kioskDevices s) = None)
    as ->; [|done].
  apply findFirst_None. intros k d Hk. apply bool_decide_eq_false. by eapply H.
Qed.

(** C28. From registration to retirement: within its deadline a code pairs its tablet and hands
    out a token that resolves to it; the code is spent by that; once the tablet is revoked
    its token is refused as such. After the deadline the code is refused as expired. *)
Theorem pairing_round_trip name registeredBy id code token ms s :
  valid s → is_Some (i_users s !! registeredBy) → i_kioskDevices s !! id = None →
  unclaimed code token (i_kioskDevices s) → 0 ≤ ms →
  let s1 := (runAlone (createDevice sha256 pairingTtl name registeredBy id code) s).1 in
  let s2 := (runAlone (elapse ms) s1).1 in
  let '(s3, answer) := runAlone (activate sha256 code token) s2 in
  if ms <? pairingTtl * 1000 then
    answer = Ok {| ad_deviceId := id; ad_name := name; ad_deviceToken := token |} ∧
    (runAlone (resolve sha256 token) s3).2 = Ok (DevicePrincipal id) ∧
    (∀ token', runAlone (activate sha256 code token') s3 = (s3, Err PairingCodeInvalidError)) ∧
    let s4 := (runAlone (revoke id) s3).1 in
    runAlone (resolve sha256 token) s4 = (s4, Err DeviceRevokedError)
  else s3 = s2 ∧ answer = Err PairingCodeExpiredError.
Proof.
  intros Hv Hby Hid Hun Hms. cbv zeta. rewrite createDevice_runs by done. cbn [fst].
  set (s1 := with_devices _ s). set (s2 := (runAlone (elapse ms) s1).1).
  assert (valid s1) as Hv1.
  { replace s1 with (runAlone (createDevice sha256 pairingTtl name registeredBy id code) s).1
      by (by rewrite createDevice_runs).
    by apply (runAlone_quiet live valid next), Hv; apply allQuiet_createDevice. }
  assert (valid s2) as Hv2.
  { apply (runAlone_quiet live valid next), Hv1. apply (quiet_environment ms true). }
  pose proof (activate_runs code token id name registeredBy (i_now s) (i_kioskDevices s) s2 Hun eq_refl) as Hact.
  pose proof (runAlone_quiet live valid next (activate sha256 code token) s2
    (allQuiet_activate sha256 code token) Hv2) as (Hv3 & _ & _).
  rewrite Hact in Hv3 |- *. change (i_now s2) with (i_now s + ms).
  change (i_now s2) with (i_now s + ms) in Hv3.
  replace (i_now s + ms <? i_now s + pairingTtl * 1000) with (ms <? pairingTtl * 1000) in *
    by (destruct (Z.ltb_spec ms (pairingTtl * 1000)), (Z.ltb_spec (i_now s + ms) (i_now s + pairingTtl * 1000)); lia).
  destruct (ms <? pairingTtl * 1000); [|done]. cbn [fst] in Hv3.
  set (s3 := with_devices _ s2) in *. set (row := paired _ _) in *.
  assert (i_kioskDevices s3 !! id = Some row) as Hrow by apply lookup_insert_eq.
  split_and!; [done| | |].
  - by destruct (resolve_runs token id row s3) as [-> _]; [apply Hv3|..].
  - intros token'. apply activate_unknown. intros k d. unfold s3. cbn.
    intros [[<- <-]|[Hne Hk]]%lookup_insert_Some; [done|]. rewrite lookup_insert_ne in Hk by done.
    by destruct (Hun k d Hk).
  - set (s4 := (runAlone (revoke id) s3).1).
    pose proof (runAlone_quiet live valid next (revoke id) s3 (allQuiet_revoke id) Hv3) as (Hv4 & _ & _).
    assert (i_kioskDevices s4 !! id = Some (editDevice None (Some DevREVOKED) None row)) as Hrow4.
    { unfold s4, revoke, mbind, fallible_bind, act. cbn [andThen runAlone].
      rewrite (writeDevices_id id None (Some DevREVOKED) false s3 row) by (done || apply Hv3). cbn [fst snd].
      rewrite announced_devices. apply lookup_insert_eq. }
    destruct (resolve_runs token id _ s4 (v_devices _ Hv4) Hrow4 eq_refl) as [H2 H1].
    rewrite (surjective_pairing (runAlone (resolve sha256 token) s4)), H2, H1 by done. done.
Qed.
End pairing.

(** ** The guards *)

Lemma userRoleOf_Some text role : userRoleOf text = Some role → text = roleText role.
Proof.
  unfold userRoleOf. intros H. apply find_some in H as [_ H]. by apply bool_decide_eq_true in H.
Qed.

Lemma resolve_iff sha256 token s p :
  valid s →
  (runAlone (resolve sha256 token) s).2 = Ok p ↔
  ∃ k d, i_kioskDevices s !! k = Some d ∧ d_tokenHash d = Some (hashSecret sha256 token) ∧
         d_status d ≠ DevREVOKED ∧ p = DevicePrincipal (d_id d).
Proof.
  intros Hv. split.
  - intros H. destruct (findFirst (fun d => bool_decide (d_tokenHash d = Some (hashSecret sha256 token)))
      (i_kioskDevices s)) as [d|] eqn:Ef.
    + apply findFirst_Some in Ef as [Ht [k Hk]]. apply bool_decide_eq_true in Ht.
      destruct (resolve_runs sha256 token k d s (v_devices _ Hv) Hk Ht) as [Hr _]. rewrite Hr in H.
      case_bool_decide; [done|]. injection H as <-. exists k, d. split_and!; [done..|].
      f_equal. symmetry. by apply Hv.
    + exfalso. unfold resolve, findDevice, mbind, fallible_bind, act in H.
      cbn [andThen runAlone query fst snd] in H. by rewrite Ef in H.
  - intros (k & d & Hk & Ht & Hs & ->).
    destruct (resolve_runs sha256 token k d s (v_devices _ Hv) Hk Ht) as [-> _].
    rewrite bool_decide_eq_false_2 by done. f_equal. f_equal. symmetry. by apply Hv.
Qed.
Section guarded.
Context `{!Jwt} (sha256 : string → string).

(** Who the bearer of a header is, in a state: a signed token of the staff kind with a role
    that exists, or the token of a tablet that is not revoked. *)
Inductive bearerIs (s : Identity) (authorization : option string) : Principal → Prop :=
| bearer_staff token claims role :
    bearerTokenOf authorization = Ok token → looksLikeJwt token = true →
    jwt_verify (i_now s) token = JwtClaims claims → cl_type claims = STAFF_TOKEN_TYPE →
    cl_role claims = roleText role →
    bearerIs s authorization (StaffPrincipal (cl_sub claims) role)
| bearer_device token d k :
    bearerTokenOf authorization = Ok token → looksLikeJwt token = false →
    i_kioskDevices s !! k = Some d → d_tokenHash d = Some (hashSecret sha256 token) →
    d_status d ≠ DevREVOKED →
    bearerIs s authorization (DevicePrincipal (d_id d)).


Lemma authenticate_iff route authorization s p :
  valid s → ro_public route = false →
  (runAlone (authenticate sha256 route authorization) s).2 = Ok p ↔
  ∃ q, p = Some q ∧ bearerIs s authorization q.
Proof.
  intros Hv Hpub. unfold authenticate. rewrite Hpub.
  destruct (bearerTokenOf authorization) as [token|e] eqn:Eb.
  2: { split; [done|]. intros (q & _ & Hq). destruct Hq; congruence. }
  unfold mbind, fallible_bind. rewrite runAlone_andThen. unfold resolveToken.
  destruct (looksLikeJwt token) eqn:Ej.
  - unfold mbind, fallible_bind, act. cbn [andThen runAlone query fst snd].
    unfold verifyAccess. split.
    + intros Hrun. destruct (jwt_verify (i_now s) token) as [claims| |] eqn:Ev; try done.
      case_bool_decide as Ht; cbn [negb] in Hrun; [|done].
      destruct (userRoleOf (cl_role claims)) as [role|] eqn:Er; [|done]. injection Hrun as <-.
      eexists. split; [done|]. eapply bearer_staff; eauto. by apply userRoleOf_Some.
    + intros (q & -> & Hq). destruct Hq as [t claims role Eb' Ej' Ev Ht Hr|t d k Eb' Ej']; [|congruence].
      replace t with token in * by congruence. rewrite Ev, (bool_decide_eq_true_2 _ Ht), Hr, userRoleOf_roleText. done.
  - pose proof (resolve_iff sha256 token s) as Hres. split.
    + intros Hrun. destruct (runAlone (resolve sha256 token) s).2 as [q|e] eqn:Er; [|done].
      injection Hrun as <-. destruct (proj1 (Hres q Hv) eq_refl) as (k & d & Hk & Ht & Hs & ->).
      eexists. split; [done|]. by eapply bearer_device.
    + intros (q & -> & Hq). destruct Hq as [t claims role Eb' Ej'|t d k Eb' Ej' Hk Ht Hs]; [congruence|].
      replace t with token in * by congruence. rewrite (proj2 (Hres (DevicePrincipal (d_id d)) Hv)); [done|]. by exists k, d.
Qed.

(** Who calls: nobody in particular on a public route, the bearer elsewhere. *)
Definition calls (s : Identity) (route : Route) (authorization : option string) (p : option Principal) : Prop :=
  if ro_public route then p = None else ∃ q, p = Some q ∧ bearerIs s authorization q.

Lemma authenticate_calls route authorization s p :
  valid s → (runAlone (authenticate sha256 route authorization) s).2 = Ok p ↔ calls s route authorization p.
Proof.
  intros Hv. unfold calls. destruct (ro_public route) eqn:Hpub; [|by apply authenticate_iff].
  unfold authenticate. rewrite Hpub. cbn. naive_solver.
Qed.

Definition outside (s : Identity) : Z * Redis * bool := (i_now s, i_redis s, i_redisUp s).

Lemma authenticate_outside route authorization s :
  outside (runAlone (authenticate sha256 route authorization) s).1 = outside s.
Proof.
  unfold authenticate. destruct (ro_public route); [done|].
  destruct (bearerTokenOf authorization) as [token|]; [|done].
  unfold mbind, fallible_bind. rewrite runAlone_andThen.
  destruct (runAlone (resolveToken sha256 token) s) as [s' answer] eqn:E. cbn [fst snd].
  assert (outside s' = outside s) as <-; [|by destruct answer].
  change s' with (s', answer).1. rewrite <-E. clear E.
  unfold resolveToken, resolve, findDevice, touchLastSeen, mbind, fallible_bind, act. destruct (looksLikeJwt token).
  - cbn [andThen runAlone query fst snd]. by destruct (verifyAccess _ _).
  - cbn [andThen runAlone query fst snd]. destruct (findFirst _ _) as [d|]; [|done].
    case_bool_decide; [done|]. cbn [andThen runAlone query fst snd].
    destruct (match d_lastSeenAt d with Some _ => _ | None => _ end); [done|].
    cbn [andThen runAlone]. unfold writeDevices. by destruct (updateWhere _ _ _).
Qed.

Context `{!Throttler, !ThrottlerLaws}.

(** The counter of a caller of a handler. *)
Definition counterKey (handler : string) (ip : option string) (p : option Principal) : string :=
  throttleKey "default" (generateKey handler (getTracker p ip) "default").

(** A call is within its limit: the route is not counted, the caller's counter is below the
    rule's limit, or there is no counting it and the rule lets it pass. *)
Definition withinLimit (handler : string) (limits : Limits) (ip : option string) (p : option Principal)
    (s : Identity) : Prop :=
  let rule := default staffGeneral (li_rule limits) in
  li_skip limits = true ∨
  if i_redisUp s then hitsSoFar (i_now s) (counterKey handler ip p) (i_redis s) < rl_limit rule
  else rl_onBackendFailure rule = allow.

Lemma throttle_answers handler limits ip p s :
  let '(s', answer) := runAlone (throttle handler limits ip p) s in
  (is_ok answer = true ↔ withinLimit handler limits ip p s) ∧
  (li_skip limits = false → i_redisUp s = true →
   re_value <$> i_redis s' !! counterKey handler ip p =
     Some (hitsSoFar (i_now s) (counterKey handler ip p) (i_redis s) + 1)).
Proof using All.
  unfold throttle, withinLimit, counterKey, act. destruct (li_skip limits) eqn:Hskip.
  { cbn. split; [|done]. split; [by left|done]. }
  cbn [runAlone]. destruct (i_redisUp s) eqn:Hup; cbn [runAlone fst snd].
  - unfold increment.
    destruct (incrementScript_counts (i_now s) (throttleKey "default" (generateKey handler (getTracker p ip) "default"))
      (rl_ttl (default staffGeneral (li_rule limits))) (rl_limit (default staffGeneral (li_rule limits)))
      (rl_blockDuration (default staffGeneral (li_rule limits))) (i_redis s)) as (redis' & remaining & -> & Hv).
    cbn [fst snd runAlone handleRequest]. rewrite rejects_blocked. cbn [tr_isBlocked].
    split; [|intros _ _; exact Hv].
    destruct (Z.ltb_spec (rl_limit (default staffGeneral (li_rule limits)))
      (hitsSoFar (i_now s) (throttleKey "default" (generateKey handler (getTracker p ip) "default")) (i_redis s) + 1)).
    + split; [done|]. intros [?|?]; [done|lia].
    + split; [|done]. intros _. right. lia.
  - split; [|done]. unfold handleRequest, withoutABackend.
    destruct (li_rule limits) as [rule|]; cbn; [|naive_solver]. destruct (rl_onBackendFailure rule); cbn; naive_solver.
Qed.

(** C29. A route is reached by exactly those it is meant for: by anyone if it is public, and
    otherwise by the bearer of a live credential whose role the route names, a tablet by its
    own role only and a route that names no roles by nobody; and of these, by a caller whose
    counter for the route is below its rule's limit, or, when Redis cannot be reached, if the
    rule lets uncounted calls pass. Whoever is identified is counted, also when refused. *)
Theorem guards_admit handler limits route ip authorization s :
  valid s →
  let '(s', answer) := runAlone (guards sha256 handler limits route ip authorization) s in
  (∀ p, answer = Ok p ↔
    calls s route authorization p ∧ withinLimit handler limits ip p s ∧
    (ro_public route = true ∨
     ∃ q roles, p = Some q ∧ ro_roles route = Some roles ∧ principalRole q ∈ roles)) ∧
  (∀ p, calls s route authorization p → li_skip limits = false → i_redisUp s = true →
    re_value <$> i_redis s' !! counterKey handler ip p =
      Some (hitsSoFar (i_now s) (counterKey handler ip p) (i_redis s) + 1)).
Proof using All.
  intros Hv. unfold guards, mbind, fallible_bind. rewrite runAlone_andThen.
  pose proof (authenticate_calls route authorization s) as Ha.
  pose proof (authenticate_outside route authorization s) as Hout.
  destruct (runAlone (authenticate sha256 route authorization) s) as [s1 [a|e]]; cbn [fst snd] in *.
  2: { cbn. split; intros p; [|intros Hc; by apply Ha in Hc]. split; [done|]. by intros [Hc%Ha _]. }
  assert (∀ p, calls s route authorization p ↔ p = a) as Hcalls.
  { intros p. rewrite <-Ha by done. naive_solver. }
  rewrite runAlone_andThen. pose proof (throttle_answers handler limits ip a s1) as Ht.
  destruct (runAlone (throttle handler limits ip a) s1) as [s2 answer]. cbn [fst snd].
  unfold outside in Hout. injection Hout as En Er Eu. unfold withinLimit in *. rewrite En, Er, Eu in Ht.
  destruct Ht as [Hok Hcount].
  destruct answer as [b|e]; cbn [is_ok] in Hok.
  - match goal with |- context [runAlone ?p s2] =>
      replace (runAlone p s2) with (s2, match rolesGuard route a with Ok _ => Ok a | Err e => Err e end)
        by (by destruct (rolesGuard route a)) end.
    split; [|intros p ->%Hcalls; exact Hcount].
    intros p. rewrite Hcalls. unfold rolesGuard. destruct (ro_public route); [naive_solver|].
    destruct (ro_roles route) as [roles|]; [|naive_solver]. destruct a as [q|]; [|naive_solver].
    case_bool_decide; naive_solver.
  - cbn. split; [|intros p ->%Hcalls; exact Hcount]. intros p. rewrite Hcalls. naive_solver.
Qed.
End guarded.

(** ** The kill channel *)

(** What the service publishes is read back by every subscriber as the same revocation, and
    nothing that names no principal, or two, is acted on. *)
Theorem kill_channel message raw :
  (match message with RevokeUser x | RevokeToken x | RevokeDevice x => x ≠ "" end →
   parseRevocation (printRevocation message) = Some message) ∧
  (parseRevocation raw = Some message → ∃ v, jsonParse raw = Some v ∧
   let texts := (fun field => asString (property field v)) <$> ["userId"; "jti"; "deviceId"] in
   match message with
   | RevokeUser x => x ≠ "" ∧ texts !! 0%nat = Some (Some x)
   | RevokeToken x => x ≠ "" ∧ texts !! 1%nat = Some (Some x)
   | RevokeDevice x => x ≠ "" ∧ texts !! 2%nat = Some (Some x)
   end ∧ length (filter (fun t => t ≠ None ∧ t ≠ Some "") texts) = 1%nat).
Proof.
  split; [apply parse_print_revocation|]. unfold parseRevocation.
  destruct (jsonParse raw) as [v|]; [|done]. intros H. exists v. split; [done|]. unfold named in H. cbn zeta.
  rewrite !fmap_cons, fmap_nil. cbn [lookup list_lookup].
  destruct (asString (property "userId" v)) as [a|], (asString (property "jti" v)) as [b|],
    (asString (property "deviceId" v)) as [c|]; repeat case_bool_decide; simplify_eq;
    (split; [done|]); rewrite ?filter_cons, filter_nil; repeat case_decide; naive_solver.
Qed.


(** ** A tablet at the reception *)

Module Counter.

#[local] Instance jwt : Jwt := Signer.signer 900.

Definition registration : idM (DeviceSummary * string) := createDevice plain 600 "Kiosk 1" "u0" "d1" "23456789".

(** Nine minutes after it was registered, the tablet is paired. *)
Lemma pairing_round_trip_witness :
  let s2 := (runAlone (elapse 540000) (runAlone registration opening).1).1 in
  let '(s3, answer) := runAlone (activate plain "23456789" "tablet-token") s2 in
  answer = Ok {| ad_deviceId := "d1"; ad_name := "Kiosk 1"; ad_deviceToken := "tablet-token" |} ∧
  (runAlone (resolve plain "tablet-token") s3).2 = Ok (DevicePrincipal "d1").
Proof.
  cbv zeta. unfold registration.
  pose proof (pairing_round_trip plain 600 "Kiosk 1" "u0" "d1" "23456789" "tablet-token" 540000 opening) as H.
  cbv zeta in H. destruct (runAlone (activate _ _ _) _) as [s3 answer].
  destruct H as (-> & -> & _); try done. exact opening_valid.
Defined.

(** The library's key is a digest of the handler, the throttler's name and the caller; here
    the text itself. *)
#[local] Instance throttler : Throttler := {|
  generateKey handler tracker name := handler +:+ "-" +:+ name +:+ "-" +:+ tracker;
  rejects := tr_isBlocked |}.
#[local] Instance throttler_laws : ThrottlerLaws.
Proof. by intros ?. Qed.

(** The owner's token at a route for administrators, counted for the first time. *)
Lemma guards_admit_witness :
  (runAlone (guards plain "UsersController-list" {| li_skip := false; li_rule := None |}
     {| ro_public := false; ro_roles := Some ["ADMIN"; "MANAGER"] |} None
     (Some ("Bearer " +:+ jwt_sign 4000 "u0" "ADMIN" STAFF_TOKEN_TYPE "jti1"))) opening).2
  = Ok (Some (StaffPrincipal "u0" ADMIN)).
Proof.
  pose proof (guards_admit plain "UsersController-list" {| li_skip := false; li_rule := None |}
    {| ro_public := false; ro_roles := Some ["ADMIN"; "MANAGER"] |} None
    (Some ("Bearer " +:+ jwt_sign 4000 "u0" "ADMIN" STAFF_TOKEN_TYPE "jti1")) opening opening_valid) as H.
  destruct (runAlone (guards _ _ _ _ _ _) opening) as [s' answer]. cbn [snd]. apply H. split_and!.
  - cbn. eexists. split; [done|].
    eapply (bearer_staff plain opening _ (jwt_sign 4000 "u0" "ADMIN" STAFF_TOKEN_TYPE "jti1")
      {| cl_sub := "u0"; cl_role := "ADMIN"; cl_type := "staff"; cl_jti := "jti1";
       cl_iat := 4; cl_exp := 904 |}); vm_compute; reflexivity.
  - right. vm_compute. reflexivity.
  - right. eexists _, _. split_and!; [done..|]. cbn. set_solver.
Defined.
End Counter.

(** ** Behaviours of [identity/] that its comments rule out

    Each is an execution of a few requests in a stated order. *)

Module Races.
#[local] Instance jwt : Jwt := Signer.signer 900.

Notation start := (start plain 900 1000 600).

(** The first token of a session is presented twice at once. The second presentation finds
    it retired, ends the session and says so; the first one then inserts the successor, so
    the session the code declared dead has a live token, and it can be exchanged on. *)
Theorem ended_session_revived :
  let fl := start Morning.signedIn [Refresh "secret1" (drawn "2"); Refresh "secret1" (drawn "3")] in
  let killed := turns fl [0; 1; 1; 1]%nat in
  let after := turns killed [0; 0; 0; 0]%nat in
  answered killed 1 = Some (reply (R := result AppError TokenPair) (Err RefreshTokenReusedError)) ∧
  live "f1" (fl_state killed) = 0 ∧ live "f1" (fl_state after) = 1 ∧
  is_ok (runAlone (refresh plain 1000 "secret2" (drawn "4")) (fl_state after)).2 = true.
Proof. by vm_compute. Qed.

(** A tablet paired as "d1". *)
Definition withTablet : Identity :=
  (runAlone (activate plain "23456789" "tablet-token") (runAlone Counter.registration opening).1).1.

(** A tablet is resumed while it is being revoked: the resume read its status before the
    revocation and writes after it, and the revoked tablet is let in again. *)
Theorem revoked_tablet_revived :
  let resume := UpdateDevice "d1" {| ud_name := None; ud_paused := Some false |} in
  let fl := start withTablet [resume; RevokeKiosk "d1"] in
  let after := turns fl [0; 1; 1; 0]%nat in
  answered after 1 = Some (reply (R := result AppError unit) (Ok tt)) ∧
  (d_status <$> i_kioskDevices (fl_state after) !! "d1") = Some DevACTIVE ∧
  (runAlone (resolve plain "tablet-token") (fl_state after)).2 = Ok (DevicePrincipal "d1").
Proof. by vm_compute. Qed.

(** A user whose role was changed signs in again: the new token, minted after the
    revocation, is refused as revoked until the key expires. *)
Theorem new_token_counts_as_revoked :
  let s1 := (runAlone (revokeUser 900 "u0") opening).1 in
  let s2 := (runAlone (elapse 60000) s1).1 in
  let '(s3, answer) := runAlone (login plain 1000 "owner@cafe.test" "hunter22222" "f9" (drawn "9")) s2 in
  is_ok answer = true ∧ (runAlone (isRevoked "u0" "jti9") s3).2 = Ok true.
Proof. by vm_compute. Qed.

(** Six wrong passwords sent at once are all checked: each request reads the count before
    any of them has raised it. *)
Theorem parallel_guesses_unlocked :
  let guess n := Login "owner@cafe.test" ("wrong" +:+ n) "f" (drawn n) in
  let fl := start opening (guess <$> ["1"; "2"; "3"; "4"; "5"; "6"]) in
  let after := turns fl (mjoin (replicate 3 (seq 0 6))) in
  (answered after <$> seq 0 6) = replicate 6
    (Some (reply (R := result AppError (TokenPair * AuthenticatedUser)) (Err InvalidCredentialsError))).
Proof. by vm_compute. Qed.
End Races.
