(* ===== verification/Retention.v ===== *)
(** * Retention: [retention/*.ts]

    The four jobs that clear what is past its window, each one guarded statement run in
    batches. [minus] is Postgres's [now() - interval]: whole days and months follow the
    session's calendar, so the subtraction is a parameter. A batch may fail; what earlier
    batches did stays done. *)

From S2P Require Import Prelude Text Schema Errors Program Pricing OrderState Idempotency CreateOrder OrderDoors Gateway Webhooks.
From S2P Require Import Refunds Books Invariants System Scenario Replay.
From S2P Require Import Atoms IdentityStore Sessions Accounts IdentitySafety Reception Access.

(** ** Draining ([drain-in-batches.ts]) *)

Definition DEFAULT_MAX_BATCHES : nat := 100.

Section drain.
Context {S : Type} (step : nat → S → S * nat) (fails : nat → bool) (batchSize : nat).

Fixpoint drainFrom (remaining batch total : nat) (s : S) : S * result AppError nat :=
  match remaining with
  | O => (s, Ok total)
  | Datatypes.S remaining =>
      if fails batch then (s, Err (DbError "08006"))
      else
        let '(s', handled) := step batchSize s in
        if (handled <? batchSize)%nat then (s', Ok (total + handled)%nat)
        else drainFrom remaining (Datatypes.S batch) (total + handled) s'
  end.

Definition drainInBatches : S → S * result AppError nat := drainFrom DEFAULT_MAX_BATCHES 0 0.
End drain.

(** ** One guarded statement *)

Section statement.
Context {R : Type} (P : R → bool) (change : R → option R).

Definition due (table : gmap string R) : list (string * R) :=
  filter (fun e => P e.2 = true) (map_to_list table).

(** [update] or [delete where id in (select id ... limit n)], and how many rows it
    returned. *)
Definition batchStep (limit : nat) (table : gmap string R) : gmap string R * nat :=
  let batch := take limit (due table) in
  (foldl (fun t e => partial_alter (fun _ => change e.2) e.1 t) table batch, length batch).

(** Every due row, changed. *)
Definition allDone (table : gmap string R) : gmap string R :=
  omap (fun r => if P r then change r else Some r) table.

Lemma elem_of_due k r table : (k, r) ∈ due table ↔ table !! k = Some r ∧ P r = true.
Proof using P.
  unfold due. rewrite list_elem_of_filter, elem_of_map_to_list. cbn [snd]. apply and_comm.
Qed.

Lemma NoDup_due table : NoDup (due table).*1.
Proof using P.
  assert (∀ l : list (string * R), NoDup l.*1 → NoDup (filter (fun e => P e.2 = true) l).*1) as H.
  { induction l as [|e l IH]; intros Hl; [constructor|]. rewrite fmap_cons in Hl.
    apply NoDup_cons in Hl as [Hn Hl]. rewrite filter_cons. case_decide; [|by apply IH].
    rewrite fmap_cons. apply NoDup_cons. split; [|by apply IH].
    rewrite list_elem_of_fmap. intros (e' & E & He'). apply list_elem_of_filter in He' as [_ He'].
    apply Hn. rewrite list_elem_of_fmap. eauto. }
  apply H, NoDup_fst_map_to_list.
Qed.

Lemma lookup_batch (l : list (string * R)) : ∀ (table : gmap string R) k, NoDup l.*1 → (∀ e, e ∈ l → table !! e.1 = Some e.2) →
  foldl (fun t e => partial_alter (fun _ => change e.2) e.1 t) table l !! k =
  if decide (k ∈ l.*1) then table !! k ≫= change else table !! k.
Proof.
  induction l as [|[k' r] l IH]; intros table k Hn Hl; [done|].
  rewrite fmap_cons in Hn. apply NoDup_cons in Hn as [Hk' Hn].
  change (foldl _ table ((k', r) :: l))
    with (foldl (fun t e => partial_alter (fun _ => change e.2) e.1 t) (partial_alter (fun _ => change r) k' table) l).
  rewrite IH; [|done|].
  - rewrite fmap_cons. destruct (decide (k = k')) as [->|Hne].
    + rewrite decide_False by done. rewrite decide_True by left.
      rewrite lookup_partial_alter_eq. pose proof (Hl (k', r) ltac:(left)) as E. cbn in E. by rewrite E.
    + rewrite lookup_partial_alter_ne by done.
      destruct (decide (k ∈ l.*1)); [by rewrite decide_True by (by right)|].
      rewrite decide_False; [done|]. by intros [?|?]%elem_of_cons.
  - intros e He. rewrite lookup_partial_alter_ne; [apply Hl; by right|].
    intros E. apply Hk'. apply list_elem_of_fmap. by exists e.
Qed.

Lemma lookup_batchStep n table k :
  (batchStep n table).1 !! k =
  if decide (k ∈ (take n (due table)).*1) then table !! k ≫= change else table !! k.
Proof.
  unfold batchStep. cbn [fst]. apply lookup_batch.
  - rewrite fmap_take. eapply sublist_NoDup; [apply NoDup_due|apply sublist_take].
  - intros [k' r] He.
    assert ((k', r) ∈ due table) as H by (eapply elem_of_submseteq; [exact He|apply submseteq_take]).
    by apply elem_of_due in H as [H _].
Qed.

Hypothesis Hsettles : ∀ r r', P r = true → change r = Some r' → P r' = false.

(** After a batch, the rest of what was due is due. *)
Lemma due_batchStep n table : due (batchStep n table).1 ≡ₚ drop n (due table).
Proof.
  pose proof (NoDup_due table) as Hn. apply NoDup_Permutation.
  - eapply NoDup_fmap_1, NoDup_due.
  - eapply NoDup_fmap_1. rewrite fmap_drop. eapply sublist_NoDup; [exact Hn|apply sublist_drop].
  - intros [k r]. rewrite elem_of_due, lookup_batchStep. rewrite <-(take_drop n (due table)), fmap_app in Hn.
    apply NoDup_app in Hn as (_ & Hdis & _).
    assert (∀ x, x ∈ take n (due table) ∨ x ∈ drop n (due table) ↔ x ∈ due table) as Hsplit.
    { intros x. rewrite <-elem_of_app. by rewrite take_drop. }
    case_decide as Hin.
    + apply list_elem_of_fmap in Hin as ([k' r0] & -> & He). cbn [fst].
      assert (table !! k' = Some r0 ∧ P r0 = true) as [Hk HP] by (apply elem_of_due, Hsplit; by left).
      rewrite Hk. cbn. split; [intros [Hc Hp]; by rewrite (Hsettles r0 r HP Hc) in Hp|].
      intros Hd. exfalso. apply (Hdis k'); apply list_elem_of_fmap; [by exists (k', r0)|by exists (k', r)].
    + rewrite <-elem_of_due, <-Hsplit. split; [|by right].
      intros [Ht|?]; [|done]. exfalso. apply Hin, list_elem_of_fmap. by exists (k, r).
Qed.

Lemma allDone_batchStep n table : allDone (batchStep n table).1 = allDone table.
Proof.
  apply map_eq. intros k. unfold allDone. rewrite !lookup_omap, lookup_batchStep.
  case_decide as Hin; [|done]. apply list_elem_of_fmap in Hin as ([k' r] & -> & He). cbn [fst].
  assert ((k', r) ∈ due table) as [-> HP]%elem_of_due.
  { eapply elem_of_submseteq; [exact He|apply submseteq_take]. }
  cbn. rewrite HP. destruct (change r) as [r'|] eqn:E; [|done]. cbn. by rewrite (Hsettles r r' HP E).
Qed.

Lemma allDone_nothing table : due table = [] → allDone table = table.
Proof.
  intros H. apply map_eq. intros k. unfold allDone. rewrite lookup_omap.
  destruct (table !! k) as [r|] eqn:E; [|done]. cbn. destruct (P r) eqn:HP; [|done]. exfalso.
  assert ((k, r) ∈ due table) as Hin by (by apply elem_of_due). rewrite H in Hin. by apply elem_of_nil in Hin.
Qed.

Lemma due_allDone table : due (allDone table) = [].
Proof.
  destruct (due (allDone table)) as [|[k r] l] eqn:E; [done|]. exfalso.
  assert ((k, r) ∈ due (allDone table)) as [Hk HP]%elem_of_due by (rewrite E; left).
  unfold allDone in Hk. rewrite lookup_omap in Hk. destruct (table !! k) as [r0|]; [|done]. cbn in Hk.
  destruct (P r0) eqn:E0; [by rewrite (Hsettles _ _ E0 Hk) in HP|congruence].
Qed.

(** A run without a failing batch handles everything that is due if it fits in its batches,
    and otherwise exactly as many rows as its batches hold, leaving the rest for the next
    run; whatever was not due is untouched. *)
Lemma drain_all batchSize remaining : ∀ batch total table,
  (0 < batchSize)%nat → (length (due table) <= remaining * batchSize)%nat →
  drainFrom batchStep (fun _ => false) batchSize remaining batch total table =
  (allDone table, Ok (total + length (due table))%nat).
Proof.
  induction remaining as [|remaining IH]; intros batch total table Hb Hd; cbn [drainFrom].
  - assert (due table = []) as E by (apply nil_length_inv; lia).
    rewrite E. rewrite allDone_nothing by done. cbn. by rewrite Nat.add_0_r.
  - pose proof (due_batchStep batchSize table) as Hp. pose proof (allDone_batchStep batchSize table) as Ha.
    assert ((batchStep batchSize table).2 = min batchSize (length (due table))) as Hc.
    { unfold batchStep. cbn. by rewrite length_take. }
    destruct (batchStep batchSize table) as [table' handled]. cbn [fst snd] in *.
    apply Permutation_length in Hp as Hl. rewrite length_drop in Hl.
    destruct (Nat.ltb_spec handled batchSize) as [Hlt|Hge].
    + assert (due table' = []) as E by (apply nil_length_inv; lia).
      rewrite <-Ha, (allDone_nothing table') by done. do 2 f_equal. lia.
    + rewrite IH by lia. rewrite Ha. do 2 f_equal. lia.
Qed.

Lemma drain_capped batchSize remaining : ∀ batch total table,
  (0 < batchSize)%nat → (remaining * batchSize <= length (due table))%nat →
  let '(table', answer) := drainFrom batchStep (fun _ => false) batchSize remaining batch total table in
  answer = Ok (total + remaining * batchSize)%nat ∧
  length (due table') = (length (due table) - remaining * batchSize)%nat ∧ allDone table' = allDone table.
Proof.
  induction remaining as [|remaining IH]; intros batch total table Hb Hd; cbn [drainFrom].
  - split_and!; [f_equal; lia|lia|done].
  - pose proof (due_batchStep batchSize table) as Hp. pose proof (allDone_batchStep batchSize table) as Ha.
    assert ((batchStep batchSize table).2 = min batchSize (length (due table))) as Hc.
    { unfold batchStep. cbn. by rewrite length_take. }
    destruct (batchStep batchSize table) as [table' handled]. cbn [fst snd] in *.
    apply Permutation_length in Hp as Hl. rewrite length_drop in Hl.
    destruct (Nat.ltb_spec handled batchSize) as [Hlt|Hge]; [lia|].
    specialize (IH (Datatypes.S batch) (total + handled)%nat table' Hb ltac:(lia)).
    destruct (drainFrom _ _ _ _ _ _ table') as [table'' answer]. destruct IH as (-> & Hd'' & Ha'').
    split_and!; [f_equal; lia|lia|congruence].
Qed.

(** Whatever fails, a row is as it was or was due and has been changed once. *)
Lemma drain_safe fails batchSize remaining : ∀ batch total table k,
  let table' := (drainFrom batchStep fails batchSize remaining batch total table).1 in
  table' !! k = table !! k ∨ ∃ r, table !! k = Some r ∧ P r = true ∧ table' !! k = change r.
Proof.
  induction remaining as [|remaining IH]; intros batch total table k; cbn [drainFrom]; [by left|].
  destruct (fails batch); [by left|].
  pose proof (lookup_batchStep batchSize table k) as Hk.
  destruct (batchStep batchSize table) as [table' handled]. cbn [fst] in Hk.
  assert (table' !! k = table !! k ∨ ∃ r, table !! k = Some r ∧ P r = true ∧ table' !! k = change r) as H1.
  { rewrite Hk. case_decide as Hin; [|by left]. right.
    apply list_elem_of_fmap in Hin as ([k' r] & -> & He). cbn [fst].
    assert ((k', r) ∈ due table) as [-> HP]%elem_of_due.
    { eapply elem_of_submseteq; [exact He|apply submseteq_take]. }
    by exists r. }
  destruct (handled <? batchSize)%nat; [done|]. cbn zeta in IH.
  destruct (IH (Datatypes.S batch) (total + handled)%nat table' k) as [->|(r' & Hr' & HP' & ->)]; [done|].
  destruct H1 as [E|(r & Hr & HP & E)]; [right; exists r'; by rewrite <-E|].
  rewrite E in Hr'. by rewrite (Hsettles r r' HP Hr') in HP'.
Qed.
End statement.

(** ** The policy ([retention-policy.ts]) *)

Inductive RetainedData := customer_names | event_payloads | refresh_tokens | idempotency_keys.

Definition windowOf (data : RetainedData) : string :=
  match data with
  | customer_names => "90 days" | event_payloads => "13 months"
  | refresh_tokens => "30 days" | idempotency_keys => "0 seconds"
  end.

Definition graceOf (data : RetainedData) : string :=
  match data with idempotency_keys => "2 hours" | _ => "2 days" end.

(** ** The jobs ([retention.service.ts]) *)

Definition BATCH_SIZE : nat := 1000.

(** What the jobs work on: the order tables and the refresh tokens. *)
Record Retained := { rn_db : Database; rn_tokens : gmap string TokenRow }.

Section jobs.
(** [now() - intervals]. *)
Context (minus : list string → Z → Z).

Definition cutoff (data : RetainedData) (now : Z) : Z := minus [windowOf data] now.
Definition overdueCutoff (data : RetainedData) (now : Z) : Z := minus [windowOf data; graceOf data] now.

(** The [where] clauses, at a cutoff; orders are stamped in microseconds. *)
Definition namedBefore (at_ : Z) (o : OrderRow) : bool :=
  bool_decide (is_Some (o_customerName o)) && (o_createdAt o <? at_ * 1000).
Definition untrimmedBefore (at_ : Z) (e : PaymentEventRow) : bool :=
  bool_decide (pe_payloadTrimmedAt e = None) && (pe_receivedAt e <? at_).
Definition staleBefore (at_ : Z) (r : TokenRow) : bool :=
  (rt_expiresAt r <? at_) || match rt_revokedAt r with Some t => t <? at_ | None => false end.
Definition expiredBefore (at_ : Z) (k : IdempotencyRow) : bool := ik_expiresAt k <? at_.

Definition clearName (o : OrderRow) : OrderRow := {|
  o_orderNumber := o_orderNumber o; o_businessDay := o_businessDay o; o_channel := o_channel o;
  o_status := o_status o; o_kioskDeviceId := o_kioskDeviceId o; o_createdByUserId := o_createdByUserId o;
  o_customerName := None; o_subtotalMinor := o_subtotalMinor o; o_vatMinor := o_vatMinor o;
  o_totalMinor := o_totalMinor o; o_currency := o_currency o; o_expiresAt := o_expiresAt o;
  o_createdAt := o_createdAt o |}.

(** [payload->'key']: an absent key is null inside [jsonb_build_object]. *)
Definition arrow (key : string) (j : Json) : Json :=
  match json_get key j with JUndefined => JNull | v => v end.

Definition trimmedPayload (payload : Json) : Json :=
  JObj [("id", arrow "id" payload); ("type", arrow "type" payload); ("created", arrow "created" payload);
        ("data", JObj [("object", JObj [("id", arrow "id" (arrow "object" (arrow "data" payload)))])])].

Definition trimEvent (now : Z) (e : PaymentEventRow) : PaymentEventRow := {|
  pe_providerEventId := pe_providerEventId e; pe_eventType := pe_eventType e; pe_paymentId := pe_paymentId e;
  pe_payload := trimmedPayload (pe_payload e); pe_receivedAt := pe_receivedAt e;
  pe_processedAt := pe_processedAt e; pe_payloadTrimmedAt := Some now |}.

Section run.
Context (now : Z) (fails : RetainedData → nat → bool).

Definition clearCustomerNames (s : Retained) : Retained * result AppError nat :=
  let '(t, handled) := drainInBatches (batchStep (namedBefore (cutoff customer_names now)) (fun o => Some (clearName o)))
    (fails customer_names) BATCH_SIZE (orders (rn_db s)) in
  ({| rn_db := with_orders t (rn_db s); rn_tokens := rn_tokens s |}, handled).

Definition trimEventPayloads (s : Retained) : Retained * result AppError nat :=
  let '(t, handled) := drainInBatches (batchStep (untrimmedBefore (cutoff event_payloads now)) (fun e => Some (trimEvent now e)))
    (fails event_payloads) BATCH_SIZE (paymentEvents (rn_db s)) in
  ({| rn_db := with_paymentEvents t (rn_db s); rn_tokens := rn_tokens s |}, handled).

Definition deleteStaleRefreshTokens (s : Retained) : Retained * result AppError nat :=
  let '(t, handled) := drainInBatches (batchStep (staleBefore (cutoff refresh_tokens now)) (fun _ => None))
    (fails refresh_tokens) BATCH_SIZE (rn_tokens s) in
  ({| rn_db := rn_db s; rn_tokens := t |}, handled).

Definition deleteExpiredIdempotencyKeys (s : Retained) : Retained * result AppError nat :=
  let '(t, handled) := drainInBatches (batchStep (expiredBefore (cutoff idempotency_keys now)) (fun _ => None))
    (fails idempotency_keys) BATCH_SIZE (idempotencyKeys (rn_db s)) in
  ({| rn_db := with_idempotencyKeys t (rn_db s); rn_tokens := rn_tokens s |}, handled).

(** [run]: a job that fails does not stop the next. *)
Definition runJob (job : Retained → Retained * result AppError nat) (s : Retained) : Retained := (job s).1.

Definition runNightly (s : Retained) : Retained :=
  runJob deleteStaleRefreshTokens (runJob trimEventPayloads (runJob clearCustomerNames s)).

Definition runHourly (s : Retained) : Retained := runJob deleteExpiredIdempotencyKeys s.
End run.

(** [overdueCounts]: the gauge. *)
Definition overdueCounts (now : Z) (s : Retained) (data : RetainedData) : nat :=
  match data with
  | customer_names => length (due (namedBefore (overdueCutoff data now)) (orders (rn_db s)))
  | event_payloads => length (due (untrimmedBefore (overdueCutoff data now)) (paymentEvents (rn_db s)))
  | refresh_tokens => length (due (staleBefore (overdueCutoff data now)) (rn_tokens s))
  | idempotency_keys => length (due (expiredBefore (overdueCutoff data now)) (idempotencyKeys (rn_db s)))
  end.

(** What a job would still find. *)
Definition backlog (now : Z) (s : Retained) (data : RetainedData) : nat :=
  match data with
  | customer_names => length (due (namedBefore (cutoff data now)) (orders (rn_db s)))
  | event_payloads => length (due (untrimmedBefore (cutoff data now)) (paymentEvents (rn_db s)))
  | refresh_tokens => length (due (staleBefore (cutoff data now)) (rn_tokens s))
  | idempotency_keys => length (due (expiredBefore (cutoff data now)) (idempotencyKeys (rn_db s)))
  end.
End jobs.

(** ** What the jobs guarantee *)

(** Fewer rows are due at an earlier cutoff. *)
Lemma due_earlier {R} (P Q : R → bool) table :
  (∀ r, Q r = true → P r = true) → due P table = [] → due Q table = [].
Proof.
  intros HQ H. destruct (due Q table) as [|[k r] l] eqn:E; [done|]. exfalso.
  assert ((k, r) ∈ due Q table) as [Hk HP]%elem_of_due by (rewrite E; left).
  assert ((k, r) ∈ due P table) as Hin by (rewrite elem_of_due; split; [done|by apply HQ]). rewrite H in Hin. by apply elem_of_nil in Hin.
Qed.

Lemma batchSize_pos : (0 < BATCH_SIZE)%nat.
Proof. unfold BATCH_SIZE. lia. Qed.

Lemma namedBefore_mono a b o : a ≤ b → namedBefore a o = true → namedBefore b o = true.
Proof. unfold namedBefore. rewrite !andb_true_iff, !Z.ltb_lt. intros ? [? ?]. split; [done|lia]. Qed.
Lemma untrimmedBefore_mono a b e : a ≤ b → untrimmedBefore a e = true → untrimmedBefore b e = true.
Proof. unfold untrimmedBefore. rewrite !andb_true_iff, !Z.ltb_lt. intros ? [? ?]. split; [done|lia]. Qed.
Lemma staleBefore_mono a b r : a ≤ b → staleBefore a r = true → staleBefore b r = true.
Proof.
  unfold staleBefore. rewrite !orb_true_iff, !Z.ltb_lt. intros ? [?|H']; [left; lia|]. right.
  destruct (rt_revokedAt r); [|done]. rewrite Z.ltb_lt in *. lia.
Qed.
Lemma expiredBefore_mono a b k : a ≤ b → expiredBefore a k = true → expiredBefore b k = true.
Proof. unfold expiredBefore. rewrite !Z.ltb_lt. lia. Qed.

Lemma clearName_settles at_ o o' : namedBefore at_ o = true → Some (clearName o) = Some o' → namedBefore at_ o' = false.
Proof. by intros _ [= <-]. Qed.
Lemma trimEvent_settles at_ now e e' :
  untrimmedBefore at_ e = true → Some (trimEvent now e) = Some e' → untrimmedBefore at_ e' = false.
Proof. by intros _ [= <-]. Qed.
Lemma delete_settles {R} (P : R → bool) (r r' : R) : P r = true → (None : option R) = Some r' → P r' = false.
Proof. done. Qed.

Section guarantees.
Context (minus : list string → Z → Z) (now : Z).

(** A night and an hour in which no batch fails, with at most a hundred thousand rows of
    each kind waiting, leave nothing past its window: every due row was changed as its
    policy says and no other, and the gauge of overdue rows reads zero. *)
Theorem retention_catches_up s :
  (∀ data, (backlog minus now s data <= DEFAULT_MAX_BATCHES * BATCH_SIZE)%nat) →
  (∀ data, overdueCutoff minus data now ≤ cutoff minus data now) →
  let s' := runHourly minus now (fun _ _ => false) (runNightly minus now (fun _ _ => false) s) in
  (∀ data, backlog minus now s' data = 0%nat ∧ overdueCounts minus now s' data = 0%nat) ∧
  orders (rn_db s') = allDone (namedBefore (cutoff minus customer_names now)) (fun o => Some (clearName o)) (orders (rn_db s)) ∧
  paymentEvents (rn_db s') = allDone (untrimmedBefore (cutoff minus event_payloads now)) (fun e => Some (trimEvent now e))
    (paymentEvents (rn_db s)) ∧
  rn_tokens s' = allDone (staleBefore (cutoff minus refresh_tokens now)) (fun _ => None) (rn_tokens s) ∧
  idempotencyKeys (rn_db s') = allDone (expiredBefore (cutoff minus idempotency_keys now)) (fun _ => None)
    (idempotencyKeys (rn_db s)).
Proof.
  intros Hlog Hgrace. cbv zeta. unfold runHourly, runNightly, runJob, clearCustomerNames, trimEventPayloads,
    deleteStaleRefreshTokens, deleteExpiredIdempotencyKeys, drainInBatches.
  rewrite (drain_all _ _ (clearName_settles _)) by (exact batchSize_pos || exact (Hlog customer_names)).
  cbn [fst rn_db rn_tokens]. change (paymentEvents (with_orders ?t ?d)) with (paymentEvents d).
  rewrite (drain_all _ _ (trimEvent_settles _ now)) by (exact batchSize_pos || exact (Hlog event_payloads)).
  cbn [fst rn_db rn_tokens].
  rewrite (drain_all (staleBefore _) _ (delete_settles _)) by (exact batchSize_pos || exact (Hlog refresh_tokens)).
  cbn [fst rn_db rn_tokens].
  change (idempotencyKeys (with_paymentEvents ?t (with_orders ?t' ?d))) with (idempotencyKeys d).
  rewrite (drain_all (expiredBefore _) _ (delete_settles _)) by (exact batchSize_pos || exact (Hlog idempotency_keys)).
  cbn [fst rn_db rn_tokens orders paymentEvents idempotencyKeys with_idempotencyKeys with_paymentEvents with_orders].
  split; [|done]. intros data. specialize (Hgrace data).
  destruct data; unfold backlog, overdueCounts; cbn [rn_db rn_tokens orders paymentEvents idempotencyKeys
    with_idempotencyKeys with_paymentEvents with_orders].
  - pose proof (due_allDone _ _ (clearName_settles (cutoff minus customer_names now)) (orders (rn_db s))) as E.
    rewrite E. split; [done|]. by rewrite (due_earlier _ _ _ (fun o => namedBefore_mono _ _ o Hgrace) E).
  - pose proof (due_allDone _ _ (trimEvent_settles (cutoff minus event_payloads now) now) (paymentEvents (rn_db s))) as E.
    rewrite E. split; [done|]. by rewrite (due_earlier _ _ _ (fun e => untrimmedBefore_mono _ _ e Hgrace) E).
  - pose proof (due_allDone (staleBefore (cutoff minus refresh_tokens now)) _ (delete_settles _) (rn_tokens s)) as E.
    rewrite E. split; [done|]. by rewrite (due_earlier _ _ _ (fun r => staleBefore_mono _ _ r Hgrace) E).
  - pose proof (due_allDone (expiredBefore (cutoff minus idempotency_keys now)) _ (delete_settles _)
      (idempotencyKeys (rn_db s))) as E.
    rewrite E. split; [done|]. by rewrite (due_earlier _ _ _ (fun k => expiredBefore_mono _ _ k Hgrace) E).
Qed.

End guarantees.

(** ** The books *)

(** The same order, but for the name. *)
Definition sameOrders (O O' : gmap string OrderRow) : Prop := ∀ oid, clearName <$> O' !! oid = clearName <$> O !! oid.

Lemma sameOrders_back O O' oid o' : sameOrders O O' → O' !! oid = Some o' →
  ∃ o, O !! oid = Some o ∧ clearName o' = clearName o.
Proof.
  intros H Ho. specialize (H oid). rewrite Ho in H. cbn in H. symmetry in H.
  apply fmap_Some in H as (o & Ho' & E). eauto.
Qed.

Lemma sameOrders_sym O O' : sameOrders O O' → sameOrders O' O.
Proof. intros H oid. symmetry. apply H. Qed.

Lemma sameOrders_none O O' oid : sameOrders O O' → O' !! oid = None → O !! oid = None.
Proof. intros H Ho. specialize (H oid). rewrite Ho in H. symmetry in H. by apply fmap_None in H. Qed.

(** Rewrites every order of the second table to one of the first with the same columns. *)
Ltac same_order Hs :=
  repeat match goal with
  | H : ?O' !! _ = Some ?o' |- _ =>
      match type of Hs with sameOrders _ O' =>
        let o := fresh "o" in let Ho := fresh "Ho" in let E := fresh "E" in
        destruct (sameOrders_back _ _ _ _ Hs H) as (o & Ho & E); injection E as ?; clear H
      end
  end.

Lemma money_same O O' P R : sameOrders O O' → money_ok O P R → money_ok O' P R.
Proof.
  intros Hs HM. split.
  - intros pid p Hp. destruct (pay_order _ _ _ HM pid p Hp) as (o & Ho & Ha & Hc & Hpos).
    destruct (sameOrders_back _ _ _ _ (sameOrders_sym _ _ Hs) Ho) as (o' & Ho' & E). injection E as ?.
    exists o'. split; [done|]. split_and!; congruence.
  - intros oid o' pid p Ho' HS. same_order Hs. rewrite <-(pay_taken _ _ _ HM _ _ _ _ Ho HS). congruence.
  - intros oid o' Ho' Ht. same_order Hs. apply (pay_exists _ _ _ HM _ _ Ho). congruence.
  - apply HM.
  - apply HM.
  - apply HM.
  - apply HM.
  - apply HM.
  - intros oid o' pid p Ho' HS. same_order Hs. rewrite <-(pay_full _ _ _ HM _ _ _ _ Ho HS).
    split; congruence.
Qed.

Lemma trail_same O O' H : sameOrders O O' → trail_ok O H → trail_ok O' H.
Proof.
  intros Hs [Ht Hn]. split.
  - intros oid o' Ho'. same_order Hs. specialize (Ht _ _ Ho). congruence.
  - intros oid Ho'. apply Hn. by eapply sameOrders_none.
Qed.

Lemma queue_same O O' C : sameOrders O O' → queue_ok O C → queue_ok O' C.
Proof.
  intros Hs [H1 H2 H3 H4 H5 H6]. split.
  - intros oid o' Ho' Hd. same_order Hs. specialize (H1 _ _ Ho). rewrite <-H1; congruence.
  - intros oid o' Ho' Hd. same_order Hs. specialize (H2 _ _ Ho).
    replace (o_orderNumber o') with (o_orderNumber o) by congruence. apply H2. congruence.
  - intros oid o' n Ho' Hd. same_order Hs. destruct (H3 _ _ n Ho) as (k & ? & ?); [congruence|].
    exists k. split; [done|]. congruence.
  - intros oid o1' oid' o2' n Ho1 Ho2 Hday Hn1 Hn2. same_order Hs.
    eapply (H4 oid _ oid' _ n); [eassumption|eassumption|congruence..].
  - intros day k Hk. destruct (H5 day k Hk) as (oid & o & Ho & Hd & Hn).
    destruct (sameOrders_back _ _ _ _ (sameOrders_sym _ _ Hs) Ho) as (o' & Ho' & E). injection E as ?.
    exists oid, o'. split_and!; congruence.
  - done.
Qed.

Lemma window_same O O' : sameOrders O O' → window_ok O → window_ok O'.
Proof.
  intros Hs H oid o' Ho'. same_order Hs. specialize (H _ _ Ho).
  replace (o_expiresAt o') with (o_expiresAt o) by congruence.
  by replace (o_status o') with (o_status o) by congruence.
Qed.

Lemma items_same O O' OI : sameOrders O O' → items_ok O OI → items_ok O' OI.
Proof.
  intros Hs [Ht Hn Hl]. split; [| |done].
  - intros oid o' Ho'. same_order Hs. destruct (Ht _ _ Ho). split; congruence.
  - intros oid Ho'. apply Hn. by eapply sameOrders_none.
Qed.

Section books.
Context `{port : PaymentPort}.
Context (config : Config) (tzOffset : string → Z → Z) (sha256 : string → string).
Context (minus : list string → Z → Z).

(** C32. Whatever batches fail, retention leaves the books alone: of an order it touches the
    name and nothing else, an event keeps its identity and whether it was acted on, no
    payment, refund, line, history row or counter changes, and the books balance, the
    trail and the queue hold as before. *)
Theorem retention_keeps_books c now fails tokens :
  reachable config tzOffset sha256 c →
  let db := pool_db c in
  let db' := rn_db (runHourly minus now fails (runNightly minus now fails {| rn_db := db; rn_tokens := tokens |})) in
  sameOrders (orders db) (orders db') ∧
  (∀ key row, paymentEvents db !! key = Some row → ∃ row', paymentEvents db' !! key = Some row' ∧
    pe_providerEventId row' = pe_providerEventId row ∧ pe_processedAt row' = pe_processedAt row ∧
    pe_paymentId row' = pe_paymentId row) ∧
  payments db' = payments db ∧ refunds db' = refunds db ∧
  money_ok (orders db') (payments db') (refunds db') ∧
  trail_ok (orders db') (orderStatusHistory db') ∧
  queue_ok (orders db') (orderNumberCounters db') ∧
  window_ok (orders db') ∧ items_ok (orders db') (orderItems db').
Proof.
  intros [[HM HT HQ HW HI _] _]%reachable_inv. cbv zeta. set (db := pool_db c) in *.
  unfold runHourly, runNightly, runJob, clearCustomerNames, trimEventPayloads, deleteStaleRefreshTokens,
    deleteExpiredIdempotencyKeys, drainInBatches. cbn [rn_db rn_tokens].
  pose proof (drain_safe _ _ (clearName_settles (cutoff minus customer_names now)) (fails customer_names)
    BATCH_SIZE DEFAULT_MAX_BATCHES 0 0 (orders db)) as Ho.
  destruct (drainFrom _ (fails customer_names) _ _ _ _ _) as [O' n1]. cbn [fst snd rn_db rn_tokens] in *.
  pose proof (drain_safe _ _ (trimEvent_settles (cutoff minus event_payloads now) now) (fails event_payloads)
    BATCH_SIZE DEFAULT_MAX_BATCHES 0 0 (paymentEvents db)) as He.
  change (paymentEvents (with_orders O' db)) with (paymentEvents db).
  destruct (drainFrom _ (fails event_payloads) _ _ _ _ _) as [E' n2]. cbn [fst snd rn_db rn_tokens] in *.
  destruct (drainFrom _ (fails refresh_tokens) _ _ _ _ _) as [T' n3]. cbn [fst snd rn_db rn_tokens].
  destruct (drainFrom _ (fails idempotency_keys) _ _ _ _ _) as [K' n4]. cbn [fst snd rn_db rn_tokens].
  assert (sameOrders (orders db) O') as Hs.
  { intros oid. destruct (Ho oid) as [->|(o & -> & _ & ->)]; [done|]. cbn. by destruct o. }
  cbn [orders paymentEvents payments refunds orderStatusHistory orderNumberCounters orderItems
    with_idempotencyKeys with_paymentEvents with_orders].
  split_and!; [done| |done|done|by eapply money_same|by eapply trail_same|by eapply queue_same
    |by eapply window_same|by eapply items_same].
  intros key row Hrow. destruct (He key) as [->|(r & Hr & _ & ->)]; [by exists row|].
  replace r with row by congruence. by exists (trimEvent now row).
Qed.
End books.

(** ** What is kept

    The requests never rewrite a record; the jobs do, and only past its window. *)

Section kept.
Context (minus : list string → Z → Z) (now : Z) (fails : RetainedData → nat → bool).

(** A night's jobs, then the hour's. *)
Definition retain (s : Retained) : Retained := runHourly minus now fails (runNightly minus now fails s).

(** Row by row: as it was, or due and changed. *)
Definition settled {R} (P : R → bool) (change : R → option R) (table table' : gmap string R) : Prop :=
  ∀ k, table' !! k = table !! k ∨ ∃ r, table !! k = Some r ∧ P r = true ∧ table' !! k = change r.

Lemma settled_find {R} P change (table table' : gmap string R) k r :
  settled P change table table' → table !! k = Some r →
  table' !! k = Some r ∨ (P r = true ∧ table' !! k = change r).
Proof. intros H Hr. destruct (H k) as [->|(r0 & Hr0 & ? & ?)]; [by left|]. right. by simplify_eq. Qed.

Lemma retain_settled s :
  let db := rn_db s in let db' := rn_db (retain s) in
  settled (namedBefore (cutoff minus customer_names now)) (fun o => Some (clearName o)) (orders db) (orders db') ∧
  settled (untrimmedBefore (cutoff minus event_payloads now)) (fun e => Some (trimEvent now e))
    (paymentEvents db) (paymentEvents db') ∧
  settled (staleBefore (cutoff minus refresh_tokens now)) (fun _ => None) (rn_tokens s) (rn_tokens (retain s)) ∧
  settled (expiredBefore (cutoff minus idempotency_keys now)) (fun _ => None)
    (idempotencyKeys db) (idempotencyKeys db') ∧
  payments db' = payments db ∧ refunds db' = refunds db ∧ orderStatusHistory db' = orderStatusHistory db ∧
  orderItems db' = orderItems db.
Proof.
  cbv zeta. unfold retain, runHourly, runNightly, runJob, clearCustomerNames, trimEventPayloads,
    deleteStaleRefreshTokens, deleteExpiredIdempotencyKeys, drainInBatches. cbn [rn_db rn_tokens].
  pose proof (drain_safe _ _ (clearName_settles (cutoff minus customer_names now)) (fails customer_names)
    BATCH_SIZE DEFAULT_MAX_BATCHES 0 0 (orders (rn_db s))) as Ho.
  destruct (drainFrom _ (fails customer_names) _ _ _ _ _) as [O' n1]. cbn [fst snd rn_db rn_tokens] in *.
  change (paymentEvents (with_orders O' (rn_db s))) with (paymentEvents (rn_db s)).
  pose proof (drain_safe _ _ (trimEvent_settles (cutoff minus event_payloads now) now) (fails event_payloads)
    BATCH_SIZE DEFAULT_MAX_BATCHES 0 0 (paymentEvents (rn_db s))) as He.
  destruct (drainFrom _ (fails event_payloads) _ _ _ _ _) as [E' n2]. cbn [fst snd rn_db rn_tokens] in *.
  pose proof (drain_safe _ _ (delete_settles (staleBefore (cutoff minus refresh_tokens now))) (fails refresh_tokens)
    BATCH_SIZE DEFAULT_MAX_BATCHES 0 0 (rn_tokens s)) as Ht.
  destruct (drainFrom _ (fails refresh_tokens) _ _ _ _ _) as [T' n3]. cbn [fst snd rn_db rn_tokens] in *.
  change (idempotencyKeys (with_paymentEvents E' (with_orders O' (rn_db s)))) with (idempotencyKeys (rn_db s)).
  pose proof (drain_safe _ _ (delete_settles (expiredBefore (cutoff minus idempotency_keys now)))
    (fails idempotency_keys) BATCH_SIZE DEFAULT_MAX_BATCHES 0 0 (idempotencyKeys (rn_db s))) as Hk.
  destruct (drainFrom _ (fails idempotency_keys) _ _ _ _ _) as [K' n4]. cbn [fst snd rn_db rn_tokens] in *.
  split_and!; [exact Ho|exact He|exact Ht|exact Hk|done..].
Qed.

(** A run before a key's expiry leaves the key. *)
Lemma retain_key s key row :
  idempotencyKeys (rn_db s) !! key = Some row → cutoff minus idempotency_keys now ≤ ik_expiresAt row →
  idempotencyKeys (rn_db (retain s)) !! key = Some row.
Proof.
  intros Hk Hc. destruct (retain_settled s) as (_ & _ & _ & HK & _).
  destruct (settled_find _ _ _ _ _ _ HK Hk) as [|[He%Z.ltb_lt _]]; [done|lia].
Qed.

(** Fewer refresh tokens are as valid. *)
Lemma retain_valid s db :
  valid s →
  valid (with_refreshTokens (rn_tokens (retain {| rn_db := db; rn_tokens := i_refreshTokens s |})) s).
Proof.
  intros [HU [H1 H2 H3] HD]. destruct (retain_settled {| rn_db := db; rn_tokens := i_refreshTokens s |})
    as (_ & _ & HT & _). cbn [rn_tokens] in HT.
  set (T' := rn_tokens _) in *.
  assert (∀ k r, T' !! k = Some r → i_refreshTokens s !! k = Some r) as Hsub.
  { intros k r Hr. destruct (HT k) as [E|(? & _ & _ & E)]; congruence. }
  split; [done| |done]. split.
  - intros k r Hr. by apply H1, Hsub.
  - intros k k' r r' a Hr Hr'. apply H2; by apply Hsub.
  - intros k r Hr. by eapply H3, Hsub.
Qed.
End kept.

Section records.
Context `{port : PaymentPort}.
Context (config : Config) (tzOffset : string → Z → Z) (sha256 : string → string).
Context (minus : list string → Z → Z).

(** C4. Nothing is rewritten but what retention clears: whatever the requests and jobs of the
    order pipeline do from a reachable state, and then a run of the retention jobs with any
    batches failing, an order keeps its price, day, channel and owner, moves only along legal
    transitions and keeps the number it was called with, and its customer name is as it was
    unless the order was created before the 90-day cutoff; a payment keeps its order, amount,
    currency and intent and stays captured once captured; refunds, audit rows and order lines
    are only added; an event stays processed and keeps its payload unless it was received
    before the 13-month cutoff; a stored response is unchanged unless its key had expired. *)
Theorem records_kept c c' now fails tokens :
  reachable config tzOffset sha256 c → pool_steps (request config tzOffset sha256) c c' →
  let db := pool_db c in
  let db' := rn_db (retain minus now fails {| rn_db := pool_db c'; rn_tokens := tokens |}) in
  (∀ oid o, orders db !! oid = Some o → ∃ o', orders db' !! oid = Some o' ∧
    order_frozen (clearName o') = order_frozen (clearName o) ∧
    (o_customerName o' = o_customerName o ∨
      o_customerName o' = None ∧ o_createdAt o < cutoff minus customer_names now * 1000) ∧
    rtc legal_step (o_status o) (o_status o') ∧
    (∀ n, o_orderNumber o = Some n → o_orderNumber o' = Some n)) ∧
  (∀ pid p, payments db !! pid = Some p → ∃ p', payments db' !! pid = Some p' ∧
    payment_frozen p' = payment_frozen p ∧
    (p_status p = PaySUCCEEDED → p_status p' = PaySUCCEEDED)) ∧
  (∀ eid row, paymentEvents db !! eid = Some row → ∃ row', paymentEvents db' !! eid = Some row' ∧
    pe_providerEventId row' = pe_providerEventId row ∧
    (pe_payload row' = pe_payload row ∨
      pe_payload row' = trimmedPayload (pe_payload row) ∧ pe_receivedAt row' < cutoff minus event_payloads now) ∧
    (∀ t, pe_processedAt row = Some t → pe_processedAt row' = Some t)) ∧
  refunds db ⊆ refunds db' ∧
  orderStatusHistory db `prefix_of` orderStatusHistory db' ∧
  orderItems db `prefix_of` orderItems db' ∧
  (∀ key row, idempotencyKeys db !! key = Some row → idempotencyKeys db' !! key = Some row ∨
    idempotencyKeys db' !! key = None ∧ ik_expiresAt row < cutoff minus idempotency_keys now).
Proof.
  intros Hr Hs. destruct (reachable_ev _ _ _ _ _ Hr Hs) as [[HO HP HR HH HI _ _ HE] HK].
  destruct (retain_settled minus now fails {| rn_db := pool_db c'; rn_tokens := tokens |})
    as (SO & SE & _ & SK & EP & ER & EH & EI). cbn [rn_db rn_tokens] in *. cbv zeta.
  rewrite EP, ER, EH, EI. split_and!; try done.
  - intros oid o (o' & Ho' & [Hf] & Hl & Hn)%HO. unfold order_frozen in Hf.
    destruct (settled_find _ _ _ _ _ _ SO Ho') as [->|[[_ Hd%Z.ltb_lt]%andb_true_iff ->]];
      eexists; (split; [done|]); unfold order_frozen; simplify_eq; split_and!; try done; try (cbn; congruence).
    + left. congruence.
    + right. split; [done|]. congruence.
  - intros pid p (p' & ? & [Hf] & ? & ?)%HP. by exists p'.
  - intros eid row (row' & Hrow & Hi & Hp & Hq)%HE.
    destruct (settled_find _ _ _ _ _ _ SE Hrow) as [->|[[_ Hd%Z.ltb_lt]%andb_true_iff ->]];
      eexists; (split; [done|]); cbn; rewrite ?Hp; eauto.
  - intros key row Hk. eapply lookup_weaken in Hk; [|exact HK].
    destruct (settled_find _ _ _ _ _ _ SK Hk) as [|[Hd%Z.ltb_lt ?]]; [by left|]. by right.
Qed.

(** Several runs, at their clocks. *)
Definition retainAll (runs : list (Z * (RetainedData → nat → bool))) (s : Retained) : Retained :=
  foldl (fun s run => retain minus run.1 run.2 s) s runs.

Lemma retainAll_key runs : ∀ s key row,
  idempotencyKeys (rn_db s) !! key = Some row →
  Forall (fun run => cutoff minus idempotency_keys run.1 ≤ ik_expiresAt row) runs →
  idempotencyKeys (rn_db (retainAll runs s)) !! key = Some row.
Proof.
  induction runs as [|r runs IH]; intros s key row Hk Hr; [done|].
  apply Forall_cons in Hr as [Hr Hrs]. cbn [retainAll foldl]. apply IH; [|done]. by apply retain_key.
Qed.

(** C16. A retried order is the same order for as long as its key is kept: once a keyed
    request has created an order, whatever the other requests then commit, and however many
    runs of the retention jobs follow whose cutoff has not passed the key's expiry, 24 hours
    after the request, presenting the key again with the same request answers the very same
    response, flagged as a replay, and writes nothing, emits nothing, calls no gateway. *)
Theorem retry_within_window c gw principal input key now ids db log view c' runs tokens gw' now' ids' :
  reachable config tzOffset sha256 c →
  run gw (createOrder config tzOffset sha256 principal input (Some key) now ids) (pool_db c) =
    (db, log, Ok (view, false)) →
  pool_steps (request config tzOffset sha256)
    {| pool_db := db; pool_threads := pool_threads c; pool_log := pool_log c ++ log |} c' →
  Forall (fun run => cutoff minus idempotency_keys run.1 ≤ keyExpiry now) runs →
  let later := rn_db (retainAll runs {| rn_db := pool_db c'; rn_tokens := tokens |}) in
  run gw' (createOrder config tzOffset sha256 principal input (Some key) now' ids') later =
    (later, [], Ok (view, true)).
Proof.
  intros Hr Hrun Hs Hruns. cbv zeta. pose proof (createOrder_stored _ _ _ _ _ _ _ _ _ _ _ _ _ Hrun) as Hk.
  assert (reachable config tzOffset sha256
    {| pool_db := db; pool_threads := pool_threads c; pool_log := pool_log c ++ log |}) as Hr'.
  { destruct Hr as (db0 & Ho & Hc). exists db0. split; [done|]. etransitivity; [exact Hc|].
    pose proof (serve_steps config tzOffset sha256 gw
      [thread_of (createOrder config tzOffset sha256 principal input (Some key) now ids)] c) as Hserve.
    cbn [foldl] in Hserve. unfold serve, thread_of in Hserve. cbn [projT1 projT2] in Hserve.
    rewrite Hrun in Hserve. apply Hserve. repeat constructor. }
  eapply lookup_weaken in Hk; [|exact (evo_keys _ _ (reachable_ev _ _ _ _ _ Hr' Hs))].
  pose proof (retainAll_key runs {| rn_db := pool_db c'; rn_tokens := tokens |} key _ Hk Hruns) as Hk'.
  erewrite createOrder_taken by exact Hk'.
  pose proof (replayKey_stored _ _ _ _ Hk' eq_refl) as Hp. cbn in Hp. by rewrite Hp.
Qed.
End records.

Section identity.
Context `{!Jwt, !Passwords} (sha256 : string → string) (accessTtl refreshTtl pairingTtl : Z).
Context (minus : list string → Z → Z).

(** C24. However the identity services' requests interleave and die, and after a run of the
    retention jobs then, with any batches failing: there is an active administrator, no two
    accounts share an email in any case, every session belongs to an account, a tablet that
    may order has a token behind it and one that is not paired has a code instead; no account
    or tablet is lost, a tablet is paired at most once, a revoked token stays revoked, and a
    refresh token is lost only to retention, expired or revoked for longer than its 30 days. *)
Theorem identity_kept s requests fl now fails db :
  valid s → rtc astep (start sha256 accessTtl refreshTtl pairingTtl s requests) fl →
  let tokens := rn_tokens (retain minus now fails {| rn_db := db; rn_tokens := i_refreshTokens (fl_state fl) |}) in
  let s' := with_refreshTokens tokens (fl_state fl) in
  valid s' ∧
  follows userNext (i_users s) (i_users s') ∧ follows deviceNext (i_kioskDevices s) (i_kioskDevices s') ∧
  ∀ k r, i_refreshTokens s !! k = Some r → ∃ r', tokenNext r r' ∧
    (i_refreshTokens s' !! k = Some r' ∨
     i_refreshTokens s' !! k = None ∧ staleBefore (cutoff minus refresh_tokens now) r' = true).
Proof.
  intros Hv Hs. cbv zeta. destruct (identity_invariant _ _ _ _ _ _ _ Hv Hs) as [Hv' [HU HT HD]].
  split_and!; [by apply retain_valid|done|done|].
  intros k r (r' & Hr' & Hn)%HT. exists r'. split; [done|].
  destruct (retain_settled minus now fails {| rn_db := db; rn_tokens := i_refreshTokens (fl_state fl) |})
    as (_ & _ & ST & _). destruct (settled_find _ _ _ _ _ _ ST Hr') as [|[? ?]]; [by left|by right].
Qed.
End identity.

(** ** A shop's old data *)

Module OldData.

Import Shop.

(** A session without daylight saving: a day is a day, a month thirty. *)
Definition minus (intervals : list string) (now : Z) : Z :=
  now - 1000 * sumZ (fun i =>
    if bool_decide (i = "90 days") then 90 * 86400 else if bool_decide (i = "13 months") then 390 * 86400
    else if bool_decide (i = "30 days") then 30 * 86400 else if bool_decide (i = "2 days") then 2 * 86400
    else if bool_decide (i = "2 hours") then 7200 else 0) intervals.

Lemma retention_catches_up_witness :
  let now := noon + 1000 * 86400 * 400 in
  let s := {| rn_db := pool_db closing; rn_tokens := ∅ |} in
  let s' := runHourly minus now (fun _ _ => false) (runNightly minus now (fun _ _ => false) s) in
  overdueCounts minus now s event_payloads = 1%nat ∧ overdueCounts minus now s' event_payloads = 0%nat.
Proof.
  cbv zeta. split; [by vm_compute|].
  apply (retention_catches_up minus (noon + 1000 * 86400 * 400)).
  - intros data. apply Nat.leb_le. destruct data; vm_compute; reflexivity.
  - intros []; vm_compute; discriminate.
Defined.

Lemma retention_keeps_books_witness :
  let now := noon + 1000 * 86400 * 400 in
  let db' := rn_db (runHourly minus now (fun _ n => bool_decide (n = 1%nat))
    (runNightly minus now (fun _ n => bool_decide (n = 1%nat)) {| rn_db := pool_db closing; rn_tokens := ∅ |})) in
  money_ok (orders db') (payments db') (refunds db').
Proof.
  cbv zeta. eapply proj1, proj2, proj2, proj2, proj2,
    (retention_keeps_books config tzOffset sha256 minus closing (noon + 1000 * 86400 * 400)
       (fun _ n => bool_decide (n = 1%nat)) ∅ closing_reachable).
Defined.
(** The event is trimmed, the order stays. *)
Lemma records_kept_witness :
  let now := noon + 1000 * 86400 * 400 in
  let db' := rn_db (retain minus now (fun _ _ => false) {| rn_db := pool_db closing; rn_tokens := ∅ |}) in
  ∃ o', orders db' !! "o2" = Some o' ∧ order_frozen (clearName o') = order_frozen (clearName waiting_o2) ∧
    rtc legal_step PENDING_PAYMENT (o_status o').
Proof.
  cbv zeta. destruct (records_kept config tzOffset sha256 minus midday closing (noon + 1000 * 86400 * 400)
    (fun _ _ => false) ∅ midday_reachable midday_closing) as [HO _].
  destruct (HO "o2" _ find_waiting_o2) as (o' & Ho' & Hf & _ & Hl & _). exists o'. exact (conj Ho' (conj Hf Hl)).
Defined.

Lemma morning_reachable : reachable (port := stripePort) config tzOffset sha256 (idle morning).
Proof. exists morning. split; [by split_and!|]. apply rtc_refl. Qed.

(** Twenty-three hours later, the job having run twice. *)
Lemma retry_within_window_witness :
  let later := rn_db (retainAll minus [(noon + 3600000, fun _ _ => false); (noon + 82800000, fun _ _ => false)]
    {| rn_db := Retry.first.1.1; rn_tokens := ∅ |}) in
  run gw (Retry.create (basket COUNTER 2)) later = (later, [], Ok (Retry.answer, true)).
Proof.
  cbv zeta. unfold Retry.create.
  refine (retry_within_window config tzOffset sha256 minus (idle morning) gw cashier (basket COUNTER 2) "create-o1"
    noon (ids "o1") Retry.first.1.1 Retry.first.1.2 Retry.answer
    {| pool_db := Retry.first.1.1; pool_threads := []; pool_log := [] ++ Retry.first.1.2 |}
    [(noon + 3600000, fun _ _ => false); (noon + 82800000, fun _ _ => false)] ∅ gw noon (ids "o1")
    morning_reachable Retry.first_run (rtc_refl _ _) _).
  repeat constructor; vm_compute; discriminate.
Defined.

(** The owner's session, forty days after it expired. *)
Lemma identity_kept_witness :
  let tokens := rn_tokens (retain minus (i_now Morning.signedIn + 1000 * 86400 * 40) (fun _ _ => false)
    {| rn_db := morning; rn_tokens := i_refreshTokens Morning.signedIn |}) in
  size tokens = 0%nat ∧ valid (with_refreshTokens tokens Morning.signedIn).
Proof.
  cbv zeta. split; [vm_compute; reflexivity|].
  refine (proj1 (identity_kept (H := Morning.jwt) plain 900 1000 600 minus Morning.signedIn []
    (start plain 900 1000 600 Morning.signedIn []) _ _ morning Morning.signedIn_valid (rtc_refl _ _))).
Defined.
End OldData.
