(* ===== verification/Screens.v ===== *)
(** * Screens: [kds/kds.service.ts], [board/board.service.ts] and
    [realtime/events/socket-realtime.publisher.ts]

    The worklist of the bar, the public board, and the publisher that turns committed
    events into pushes. The publisher reads the database between its pushes, so it is a
    program of its own: what it pushes may be old by the time it leaves. *)

From S2P Require Import Prelude Text Schema Errors CreateOrder Ordering OrdersRead.

(** ** The bar ([kds.service.ts]) *)

Record KdsTicket := { kt_order : OrderSummary; kt_items : list LineView }.

Definition KDS_STATUSES : list OrderStatus := [PAID; IN_PREPARATION; READY].

Definition MAX_TICKETS : nat := 200.

(** [ORDER BY created_at, id]. *)
Definition waitsLonger (r1 r2 : string * OrderRow) : Prop :=
  ¬ keyLt (o_createdAt r2.2, r2.1) (o_createdAt r1.2, r1.1).

#[export] Instance waitsLonger_dec r1 r2 : Decision (waitsLonger r1 r2).
Proof. unfold waitsLonger. apply _. Defined.

Definition oldestFirst (rows : gmap string OrderRow) : list (string * OrderRow) :=
  merge_sort waitsLonger (map_to_list rows).

(** A row with its lines, in the shape of the bar. *)
Definition ticketOf (db : Database) (row : string * OrderRow) : KdsTicket :=
  {| kt_order := toOrderSummary row.1 row.2; kt_items := toOrderLines (itemsWithOptions db row.1) |}.

Definition kdsRows (db : Database) : gmap string OrderRow :=
  filter (fun e => o_status e.2 ∈ KDS_STATUSES) (orders db).

(** [KdsService.snapshot]. *)
Definition kdsSnapshot (db : Database) : list KdsTicket :=
  ticketOf db <$> take MAX_TICKETS (oldestFirst (kdsRows db)).

(** [KdsService.ticketFor]: any status. *)
Definition ticketFor (db : Database) (orderId : string) : option KdsTicket :=
  (fun row => ticketOf db (orderId, row)) <$> orders db !! orderId.

(** ** The board ([board.service.ts]) *)

Record BoardEntry := { be_orderNumber : string; be_status : OrderStatus }.

Definition BOARD_STATUSES : list OrderStatus := [IN_PREPARATION; READY].

Definition MAX_ENTRIES : nat := 200.

(** [WHERE status IN (...) AND order_number IS NOT NULL]. *)
Definition boardRows (db : Database) : gmap string OrderRow :=
  filter (fun e => o_status e.2 ∈ BOARD_STATUSES ∧ is_Some (o_orderNumber e.2)) (orders db).

Definition entryOf (row : string * OrderRow) : BoardEntry :=
  {| be_orderNumber := default "" (o_orderNumber row.2); be_status := o_status row.2 |}.

Definition boardEntries (rows : gmap string OrderRow) : list BoardEntry :=
  entryOf <$> take MAX_ENTRIES (oldestFirst rows).

(** [BoardService.snapshot]. *)
Definition boardSnapshot (db : Database) : list BoardEntry := boardEntries (boardRows db).

(** ** Who hears what ([socket-realtime.publisher.ts]) *)

Definition eventKind (event : DomainEvent) : string :=
  match event with
  | order_paid _ _ => "order.paid"
  | order_updated _ _ => "order.updated"
  | order_ready _ _ => "order.ready"
  | payment_succeeded _ _ _ => "payment.succeeded"
  | payment_failed _ _ _ => "payment.failed"
  end.

Definition orderIdOf (event : DomainEvent) : string :=
  match event with
  | order_paid id _ | order_updated id _ | order_ready id _
  | payment_succeeded id _ _ | payment_failed id _ _ => id
  end.

Definition deviceIdOf (event : DomainEvent) : option string :=
  match event with
  | order_paid _ d | order_updated _ d | order_ready _ d
  | payment_succeeded _ d _ | payment_failed _ d _ => d
  end.

Definition KDS_EVENTS : list string := ["order.paid"; "order.updated"; "order.ready"].
Definition KIOSK_EVENTS : list string := ["payment.succeeded"; "payment.failed"; "order.ready"].
Definition BOARD_EVENTS : list string := ["order.updated"; "order.ready"].

Definition forKds (event : DomainEvent) : bool := bool_decide (eventKind event ∈ KDS_EVENTS).
Definition forBoard (event : DomainEvent) : bool := bool_decide (eventKind event ∈ BOARD_EVENTS).

(** The device to tell, if there is one. *)
Definition forKiosk (event : DomainEvent) : option string :=
  if bool_decide (eventKind event ∈ KIOSK_EVENTS) then deviceIdOf event else None.

(** [kdsGateway.broadcast], [kioskGateway.emitToDevice], [boardGateway.broadcast]. *)
Inductive Push :=
| KdsPush (kind : string) (ticket : KdsTicket)
| DevicePush (deviceId kind : string) (ticket : KdsTicket)
| BoardPush (entries : list BoardEntry).

(** A program that reads and pushes; between any two of its actions others may run. *)
Inductive publisher :=
| Silent
| Look {X : Type} (f : Database → X) (k : X → publisher)
| Send (pushes : list Push) (k : publisher).

Definition pushesOf (event : DomainEvent) (ticket : KdsTicket) : list Push :=
  (if forKds event then [KdsPush (eventKind event) ticket] else []) ++
  match forKiosk event with
  | Some deviceId => [DevicePush deviceId (eventKind event) ticket]
  | None => []
  end.

(** [publish]: a ticket per event that somebody hears, the board once per batch. *)
Fixpoint publishFrom (events : list DomainEvent) (boardChanged : bool) : publisher :=
  match events with
  | [] =>
      if boardChanged then Look boardSnapshot (fun entries => Send [BoardPush entries] Silent)
      else Silent
  | event :: events =>
      let boardChanged := if forBoard event then true else boardChanged in
      if negb (forKds event) && bool_decide (forKiosk event = None) then
        publishFrom events boardChanged
      else
        Look (fun db => ticketFor db (orderIdOf event)) (fun ticket =>
          match ticket with
          | None => publishFrom events boardChanged
          | Some ticket => Send (pushesOf event ticket) (publishFrom events boardChanged)
          end)
  end.

Definition publish (events : list DomainEvent) : publisher := publishFrom events false.

(** ** Sorted reads *)

#[export] Instance waitsLonger_trans : Transitive waitsLonger.
Proof.
  intros [i a] [j b] [k c]. unfold waitsLonger. cbn. intros H1 H2 H3.
  destruct (keyLt_tri (o_createdAt a, i) (o_createdAt b, j)) as [H|[H|H]]; [|rewrite H in H3; done|done].
  apply H2. by etrans.
Qed.

#[export] Instance waitsLonger_total : Total waitsLonger.
Proof.
  intros [i a] [j b]. unfold waitsLonger. cbn.
  destruct (keyLt_tri (o_createdAt a, i) (o_createdAt b, j)) as [H|[H|H]].
  - left. intros H'. apply (keyLt_irrefl (o_createdAt a, i)). by etrans.
  - left. rewrite H. apply keyLt_irrefl.
  - right. intros H'. apply (keyLt_irrefl (o_createdAt a, i)). by etrans.
Qed.

Lemma elem_of_oldestFirst rows oid o : (oid, o) ∈ oldestFirst rows ↔ rows !! oid = Some o.
Proof. unfold oldestFirst. by rewrite elem_of_merge_sort, elem_of_map_to_list. Qed.

Lemma length_oldestFirst rows : length (oldestFirst rows) = size rows.
Proof.
  unfold oldestFirst. rewrite (Permutation_length (merge_sort_Permutation waitsLonger _)).
  by rewrite length_map_to_list.
Qed.

Lemma oldestFirst_sorted rows : StronglySorted waitsLonger (oldestFirst rows).
Proof. apply (StronglySorted_merge_sort _ _). Qed.
