(* ===== verification/Announcements.v ===== *)
(** * Announcements: what a handler says about what it did

    Every transaction of the order and payment services says what the screens need to
    know: an order that reaches a status a screen shows, or leaves one, is named in an
    event that the screen hears, with the device it was placed on. [vocal] carries this
    from the transactions to whole handlers, and so to every thread of the system. *)

From S2P Require Import Prelude Text Schema Errors Program Pricing OrderState Transition.
From S2P Require Import BusinessDay Idempotency CreateOrder OrderDoors Gateway Webhooks.
From S2P Require Import CreatePayment Refunds Ordering OrdersRead Books Invariants Handlers System Screens.

(** ** What must be said of a change *)

(** A status that some screen has been told about. *)
Definition announced (st : OrderStatus) : bool :=
  negb (bool_decide (st ∈ [DRAFT; PENDING_PAYMENT; EXPIRED])).

(** No order has ever been on the board. *)
Definition neverShown (db : Database) : Prop :=
  Forall (fun row => h_toStatus row ∉ BOARD_STATUSES) (orderStatusHistory db).

(** What an event must name to speak for an order. *)
Definition speaksFor (oid : string) (o : OrderRow) (event : DomainEvent) : Prop :=
  orderIdOf event = oid ∧ forKds event = true ∧
  (o_status o = READY → event = order_ready oid (o_kioskDeviceId o)).

(** [events] tell of everything a screen shows that differs between the two. *)
Record told (db db' : Database) (events : list DomainEvent) : Prop := {
  told_ticket : ∀ oid o, orders db' !! oid = Some o → announced (o_status o) = true →
    ticketFor db' oid = ticketFor db oid ∨ Exists (speaksFor oid o) events;
  told_board : (boardRows db' = boardRows db ∧ (neverShown db → neverShown db')) ∨
    Exists (fun ev => forBoard ev = true) events }.

(** Each event names an order and its device. *)
Definition truthful (events : list DomainEvent) (db : Database) : Prop :=
  Forall (fun ev => ∃ o, orders db !! orderIdOf ev = Some o ∧ deviceIdOf ev = o_kioskDeviceId o) events.

(** The columns the screens and these facts depend on. *)
Definition shown (db : Database) :=
  (orders db, orderItems db, orderItemOptions db, orderStatusHistory db).

Lemma ticketFor_shown db db' oid : shown db' = shown db → ticketFor db' oid = ticketFor db oid.
Proof.
  unfold shown. intros [= HO HI HX _]. unfold ticketFor, ticketOf, itemsWithOptions. by rewrite HO, HI, HX.
Qed.

Lemma boardRows_shown db db' : shown db' = shown db → boardRows db' = boardRows db.
Proof. unfold shown, boardRows. by intros [= -> _ _ _]. Qed.

Lemma neverShown_shown db db' : shown db' = shown db → neverShown db' ↔ neverShown db.
Proof. unfold shown, neverShown. by intros [= _ _ _ ->]. Qed.

Lemma told_same db db' events : shown db' = shown db → told db db' events.
Proof.
  intros H. split; [intros; left; by apply ticketFor_shown|]. left.
  split; [by apply boardRows_shown|by apply neverShown_shown].
Qed.

Lemma told_shown db db1 db2 db' events :
  shown db1 = shown db → shown db' = shown db2 → told db1 db2 events → told db db' events.
Proof.
  intros H1 H2 [Ht Hb]. split.
  - intros oid o. replace (orders db') with (orders db2) by (unfold shown in H2; congruence).
    rewrite (ticketFor_shown _ _ oid H2), <-(ticketFor_shown _ _ oid H1). apply Ht.
  - rewrite (boardRows_shown _ _ H2), <-(boardRows_shown _ _ H1), (neverShown_shown _ _ H2).
    by rewrite <-(neverShown_shown _ _ H1).
Qed.

Lemma truthful_shown db db' events : orders db' = orders db → truthful events db → truthful events db'.
Proof. unfold truthful. by intros ->. Qed.

(** One row written and one row of history: the order must be spoken for if its new
    status is announced, and the board if it was on it or is now. *)
Lemma told_row db db' events id row hist :
  orders db' = <[id := row]> (orders db) →
  orderStatusHistory db' = orderStatusHistory db ++ [hist] → h_toStatus hist = o_status row →
  (∀ oid, oid ≠ id → itemsWithOptions db' oid = itemsWithOptions db oid) →
  (announced (o_status row) = true → Exists (speaksFor id row) events) →
  (o_status row ∉ BOARD_STATUSES ∧ (∀ o, orders db !! id = Some o → o_status o ∉ BOARD_STATUSES)) ∨
    Exists (fun ev => forBoard ev = true) events →
  told db db' events.
Proof.
  intros HO HH Hh Hitems Hk Hb. split.
  - intros oid o. rewrite HO. intros Ho Ha. destruct (decide (oid = id)) as [->|Hne].
    + rewrite lookup_insert_eq in Ho. injection Ho as <-. right. by apply Hk.
    + rewrite lookup_insert_ne in Ho by done. left. unfold ticketFor.
      rewrite HO, lookup_insert_ne, Ho by done. cbn. unfold ticketOf. cbn. by rewrite Hitems.
  - destruct Hb as [[Hnew Hold]|Hb]; [left|by right]. split.
    + unfold boardRows. rewrite HO. rewrite map_filter_insert_False by naive_solver.
      rewrite map_filter_delete_not; [done|]. intros o Ho. cbn. intros [? _]. by apply (Hold o).
    + unfold neverShown. rewrite HH. intros H. apply Forall_app. split; [done|].
      constructor; [|done]. by rewrite Hh.
Qed.

(** A move, spoken for or between statuses nobody shows. *)
Lemma told_move db id o to actor reason events :
  orders db !! id = Some o →
  (announced to = true → Exists (speaksFor id (moved (o_status o) to o)) events) →
  (to ∉ BOARD_STATUSES ∧ o_status o ∉ BOARD_STATUSES) ∨ Exists (fun ev => forBoard ev = true) events →
  told db (moveOrder id (o_status o) to o actor reason db) events.
Proof.
  intros Ho Hk Hb. eapply told_row; [done..| |].
  - exact Hk.
  - destruct Hb as [[H1 H2]|Hb]; [left|by right]. split; [done|]. intros o' Ho'.
    by replace o' with o by congruence.
Qed.

(** ** The transactions *)

Definition aloud {A} (work : txM A) : Prop :=
  ∀ db a s, work (mkTx db []) = Ok (a, s) →
    told db (tx_db s) (tx_pending s) ∧ truthful (tx_pending s) (tx_db s).

(** A transaction that says nothing and changes nothing a screen shows. *)
Lemma unseen_aloud db s : shown (tx_db s) = shown db → tx_pending s = [] →
  told db (tx_db s) (tx_pending s) ∧ truthful (tx_pending s) (tx_db s).
Proof. intros Hs ->. split; [by apply told_same|constructor]. Qed.

(** A move followed by writes no screen shows, with its own event among those said. *)
Lemma move_aloud db id o to actor reason db' events :
  orders db !! id = Some o →
  shown db' = shown (moveOrder id (o_status o) to o actor reason db) →
  Exists (speaksFor id (moved (o_status o) to o)) events →
  Forall (fun ev => orderIdOf ev = id ∧ deviceIdOf ev = o_kioskDeviceId o) events →
  (to ∉ BOARD_STATUSES ∧ o_status o ∉ BOARD_STATUSES) ∨ Exists (fun ev => forBoard ev = true) events →
  told db db' events ∧ truthful events db'.
Proof.
  intros Ho Hs Hk Hd Hb. split.
  - eapply (told_shown db db); [done|exact Hs|]. by apply told_move.
  - eapply Forall_impl; [exact Hd|]. intros ev [-> ->]. exists (moved (o_status o) to o).
    unfold shown in Hs. injection Hs as HO _ _ _. rewrite HO. cbn. by rewrite lookup_insert_eq.
Qed.

Lemma not_on_board st : bool_decide (st ∈ BOARD_STATUSES) = false → st ∉ BOARD_STATUSES.
Proof. apply bool_decide_eq_false_1. Qed.

Lemma statusWork_aloud principal oid from to : aloud (statusWork principal oid from to).
Proof.
  intros db a s H. unfold statusWork in H. tx_inv.
  apply transitionOrder_Ok in H0 as (o & Ho & <- & -> & ->). cbn in *.
  eapply move_aloud; [exact Ho|done| | |right; constructor; by case_bool_decide].
  - constructor. by case_bool_decide; split_and!.
  - constructor; [by case_bool_decide|done].
Qed.

Lemma setUnsettledPayment_shown pid st s r s' :
  setUnsettledPayment pid st s = Ok (r, s') → shown (tx_db s') = shown (tx_db s) ∧ tx_pending s' = tx_pending s.
Proof. intros H. unfold setUnsettledPayment in H. tx_inv; done. Qed.

Lemma cancelWork_aloud principal oid from reason live :
  from ∈ CANCELLABLE → aloud (cancelWork principal oid from reason live).
Proof.
  intros Hf db a s H. unfold cancelWork in H. apply txM_bind_Ok in H as (row & s1 & H1 & H).
  apply transitionOrder_Ok in H1 as (o & Ho & <- & -> & ->).
  apply txM_bind_Ok in H as (landed & s2 & H2 & H).
  assert (shown (tx_db s2) = shown (moveOrder oid (o_status o) CANCELLED o (actorOf principal) reason db) ∧
    tx_pending s2 = []) as [Hs Hq].
  { destruct live as [[pid i]|]; [by apply setUnsettledPayment_shown in H2|]. by apply mret_Ok in H2 as [_ ->]. }
  clear H2. tx_inv. cbn. rewrite Hq. eapply move_aloud; [exact Ho|exact Hs| | |right; by constructor].
  - constructor. by split_and!.
  - by repeat constructor.
Qed.

Lemma markProcessed_shown e pid now s r s' :
  markProcessed e pid now s = Ok (r, s') → shown (tx_db s') = shown (tx_db s) ∧ tx_pending s' = tx_pending s.
Proof. intros H. unfold markProcessed in H. tx_inv; done. Qed.

Lemma markPaidWork_aloud eid pid oid method now : aloud (markPaidWork eid pid oid method now).
Proof.
  intros db a s H. unfold markPaidWork in H. apply txM_bind_Ok in H as (row & s1 & H1 & H).
  apply transitionOrder_Ok in H1 as (o & Ho & Hp & -> & ->). rewrite <-Hp in *.
  apply txM_bind_Ok in H as (? & s2 & [_ ->]%writes_Ok & H).
  apply txM_bind_Ok in H as (? & s3 & [Hs Hq]%markProcessed_shown & H). tx_inv. cbn in *. rewrite Hq.
  eapply move_aloud; [exact Ho|exact Hs| | |].
  - constructor. by split_and!.
  - by repeat constructor.
  - left. rewrite Hp. by split; apply not_on_board.
Qed.

Lemma markPaymentWork_aloud eid pid st now : aloud (markPaymentWork eid pid st now).
Proof.
  intros db a s H. unfold markPaymentWork in H.
  apply txM_bind_Ok in H as (settled & s1 & [Hs1 Hq1]%setUnsettledPayment_shown & H).
  apply txM_bind_Ok in H as (stamped & s2 & [Hs2 Hq2]%markProcessed_shown & H).
  cbn in *. rewrite Hq1 in Hq2. rewrite Hs1 in Hs2.
  tx_inv; try by apply unseen_aloud. rewrite Hq2. cbn. split; [by apply told_same|].
  constructor; [|done]. cbn. eauto.
Qed.

Lemma refundWork_aloud userId rid pid oid st amount input : aloud (refundWork userId rid pid oid st amount input).
Proof.
  intros db a s H. unfold refundWork in H. apply txM_bind_Ok in H as (already & s1 & [-> ->]%reads_Ok & H).
  destruct (_ <? _); [done|]. apply txM_bind_Ok in H as (? & s2 & H2 & H).
  assert (shown (tx_db s2) = shown db ∧ tx_pending s2 = []) as [Hs2 Hq2].
  { unfold insertRefund in H2. apply txM_bind_Ok in H2 as (? & ? & [-> ->]%reads_Ok & H2).
    tx_inv; done. }
  clear H2. unfold when in H. tx_inv; [|by apply unseen_aloud].
  match goal with E : transitionOrder _ _ _ _ _ _ = _ |- _ => rename E into Hmove end.
  apply transitionOrder_Ok in Hmove as (o & Ho & <- & -> & ->). cbn in *.
  unfold shown in Hs2. injection Hs2 as HO HI HX HH. rewrite Hq2. rewrite HO in Ho. cbn.
  eapply (move_aloud db oid o REFUNDED {| ta_actorType := USER; ta_actorId := Some userId |}
    (Some (cr_reason input))); [exact Ho| | | |right; by constructor].
  - unfold shown, moveOrder. cbn. by rewrite HO, HI, HX, HH.
  - constructor. by split_and!.
  - by repeat constructor.
Qed.

(** A transaction after which nothing needs saying. *)
Definition unsaid {A} (work : txM A) : Prop :=
  ∀ db a s, work (mkTx db []) = Ok (a, s) → told db (tx_db s) [].

Lemma checkoutWork_unsaid config principal oid day now : unsaid (checkoutWork config principal oid day now).
Proof.
  intros db a s H. unfold checkoutWork in H. tx_inv.
  apply transitionOrder_Ok in H0 as (o & Ho & Hdraft & -> & ->).
  apply nextOrderNumber_Ok in H1 as [-> ->]. cbn in *.
  eapply (told_row db _ [] oid); [cbn; apply insert_insert_eq|done|done|done|done|].
  left. split; [by apply not_on_board|]. intros o' Ho'. replace o' with o by congruence. rewrite Hdraft.
  by apply not_on_board.
Qed.

Lemma expireWork_unsaid oid live : unsaid (expireWork oid live).
Proof.
  intros db a s H. unfold expireWork in H. apply txM_bind_Ok in H as (row & s1 & H0 & H).
  apply transitionOrder_Ok in H0 as (o & Ho & Hp & -> & ->). rewrite <-Hp in *. cbn in H.
  assert (shown (tx_db s) = shown (moveOrder oid (o_status o) EXPIRED o systemActor None db)) as Hs.
  { destruct live as [[pid i]|]; [by apply writes_Ok in H as [_ ->]|by apply mret_Ok in H as [_ ->]]. }
  eapply (told_shown db db); [done|exact Hs|]. apply told_move; [done|done|].
  left. rewrite Hp. by split; apply not_on_board.
Qed.

Lemma markProcessed_unsaid eid pid now : unsaid (markProcessed eid pid now).
Proof. intros db a s [Hs _]%markProcessed_shown. by apply told_same. Qed.

(** *** Creation *)

Lemma insertOrderItems_fresh rows s a s' :
  insertOrderItems rows s = Ok (a, s') → NoDup ((orderItems (tx_db s)).*1 ++ rows.*1).
Proof.
  intros H. unfold insertOrderItems in H. apply txM_bind_Ok in H as (? & ? & [-> ->]%reads_Ok & H).
  destruct (bool_decide (rows = [])); [done|]. destruct (existsb _ _); [done|]. destruct (existsb _ _); [done|].
  case_bool_decide as Hn; done.
Qed.

(** New lines under new ids leave the lines of every other order as they were. *)
Lemma itemsWithOptions_new db db' id lines opts oid :
  orderItems db' = orderItems db ++ lines → orderItemOptions db' = orderItemOptions db ++ opts →
  Forall (fun e => oi_orderId e.2 = id) lines →
  Forall (fun o => oio_orderItemId o ∈ lines.*1) opts →
  NoDup ((orderItems db).*1 ++ lines.*1) → oid ≠ id →
  itemsWithOptions db' oid = itemsWithOptions db oid.
Proof.
  intros HI HX Hl Ho Hn Hne. unfold itemsWithOptions. rewrite HI, HX, filter_app.
  rewrite (filter_none (fun e : string * OrderItemRow => oi_orderId e.2 = oid) lines), app_nil_r.
  2:{ intros e He. rewrite Forall_forall in Hl. rewrite (Hl e He). congruence. }
  apply map_ext_in. intros [itemId line] Hin%list_elem_of_In.
  apply list_elem_of_filter in Hin as [_ Hin]. rewrite filter_app.
  rewrite (filter_none (fun o => oio_orderItemId o = itemId) opts), app_nil_r; [done|].
  intros o Hoin E. rewrite Forall_forall in Ho. specialize (Ho o Hoin). rewrite E in Ho.
  apply NoDup_app in Hn as (_ & Hdis & _). apply (Hdis itemId); [|done].
  apply list_elem_of_fmap. by exists (itemId, line).
Qed.

Lemma optionRows_lines ids lines :
  Forall (fun o => oio_orderItemId o ∈ (lineRows ids lines).*1) (optionRows ids lines).
Proof.
  apply Forall_forall. intros o Ho. unfold optionRows in Ho.
  apply list_elem_of_join in Ho as (l & Ho & Hl).
  apply list_elem_of_lookup in Hl as (i & Hi). rewrite list_lookup_imap in Hi.
  apply fmap_Some in Hi as (line & Hline & ->).
  apply list_elem_of_fmap in Ho as (x & -> & _). cbn.
  apply list_elem_of_fmap. exists (ni_line ids i, orderItemRow (ni_order ids) line). split; [done|].
  apply list_elem_of_lookup. exists i. unfold lineRows. by rewrite list_lookup_imap, Hline.
Qed.

Lemma persist_told config tzOffset principal channel input priced now ids s v s' :
  persist config tzOffset principal channel input priced now ids s = Ok (v, s') →
  told (tx_db s) (tx_db s') [].
Proof.
  intros H. unfold persist in H.
  apply txM_bind_Ok in H as (number & s1 & H1 & H).
  assert (shown (tx_db s1) = shown (tx_db s)) as Hs1.
  { destruct (isDraft input); [by apply mret_Ok in H1 as [_ ->]|].
    by apply txM_bind_Ok in H1 as (n & s1' & [-> ->]%nextOrderNumber_Ok & [-> ->]%mret_Ok). }
  apply txM_bind_Ok in H as (order & s2 & (-> & Hid & ->)%insertOrder_Ok & H).
  apply txM_bind_Ok in H as (? & s3 & H3 & H). pose proof (insertOrderItems_fresh _ _ _ _ H3) as Hn.
  apply insertOrderItems_Ok in H3 as (_ & ->).
  apply txM_bind_Ok in H as (? & s4 & ->%insertOrderItemOptions_Ok & H).
  apply txM_bind_Ok in H as (? & s5 & [_ ->]%writes_Ok & [-> ->]%mret_Ok).
  eapply (told_shown _ (tx_db s1)); [done|reflexivity|]. cbn in *.
  assert (o_status (newOrderRow config tzOffset principal channel input priced now (ni_createdAt ids) number)
    ∈ [DRAFT; PENDING_PAYMENT]) as Hst.
  { cbn. destruct (isDraft input); by apply (bool_decide_eq_true_1 _). }
  eapply (told_row (tx_db s1) _ [] (ni_order ids)); [done|done|done| | |].
  - intros oid Hne. eapply (itemsWithOptions_new (tx_db s1)); [done|done| |apply optionRows_lines|done|done].
    apply (lineRows_Forall _ _ (fun r => oi_orderId r = ni_order ids)). by apply Forall_true.
  - intros Ha. exfalso. rewrite !elem_of_cons in Hst. destruct Hst as [E|[E|[]%elem_of_nil]]; by rewrite E in Ha.
  - left. split; [|cbn in *; congruence].
    rewrite !elem_of_cons in Hst. destruct Hst as [E|[E|[]%elem_of_nil]]; rewrite E; by apply not_on_board.
Qed.

Lemma reserveIfKeyed_shown keyed expiry s a s' :
  reserveIfKeyed keyed expiry s = Ok (a, s') → shown (tx_db s') = shown (tx_db s) ∧ tx_pending s' = tx_pending s.
Proof. intros H. unfold reserveIfKeyed, reserveKey in H. tx_inv; done. Qed.

Lemma completeIfKeyed_shown keyed body s a s' :
  completeIfKeyed keyed body s = Ok (a, s') → shown (tx_db s') = shown (tx_db s) ∧ tx_pending s' = tx_pending s.
Proof. intros H. unfold completeIfKeyed, completeKey in H. tx_inv; done. Qed.

Lemma createWork_unsaid config tzOffset principal input keyed now ids :
  unsaid (createWork config tzOffset principal input keyed now ids).
Proof.
  intros db a s H. unfold createWork in H.
  apply txM_bind_Ok in H as (? & s1 & [Hs1 _]%reserveIfKeyed_shown & H).
  apply txM_bind_Ok in H as (view & s2 & H2 & H).
  apply txM_bind_Ok in H as (? & s3 & [Hs3 _]%completeIfKeyed_shown & H). apply mret_Ok in H as [_ ->].
  eapply told_shown; [exact Hs1|exact Hs3|]. unfold build in H2.
  apply txM_bind_Ok in H2 as (channel & s1' & H1 & H2).
  assert (s1' = s1) as ->. { unfold resolveChannel in H1. destruct principal; tx_inv; done. }
  apply txM_bind_Ok in H2 as (catalog & ? & [-> ->]%reads_Ok & H2).
  destruct (priceOrder _ _ _) as [priced|e]; [|done]. tx_inv; by eapply persist_told.
Qed.

(** *** Payments *)

Lemma insertPayment_shown pid row s a s' :
  insertPayment pid row s = Ok (a, s') → shown (tx_db s') = shown (tx_db s) ∧ tx_pending s' = tx_pending s.
Proof. intros H. unfold insertPayment in H. tx_inv; done. Qed.

Lemma intentWork_aloud pid order intent key now : aloud (intentWork pid order intent key now).
Proof.
  intros db a s H. unfold intentWork in H.
  apply txM_bind_Ok in H as (? & s1 & [Hs Hq]%insertPayment_shown & [_ ->]%mret_Ok). by apply unseen_aloud.
Qed.

Lemma cashWork_aloud userId pid order tendered key now : aloud (cashWork userId pid order tendered key now).
Proof.
  intros db a s H. unfold cashWork in H.
  apply txM_bind_Ok in H as (? & s1 & [Hs Hq]%insertPayment_shown & H).
  apply txM_bind_Ok in H as (row & s2 & H2 & H).
  apply transitionOrder_Ok in H2 as (o & Ho & Hp & -> & ->). rewrite <-Hp in *. tx_inv. cbn in *.
  unfold shown in Hs. injection Hs as HO HI HX HH. rewrite HO in Ho. rewrite Hq.
  eapply (move_aloud db (po_id order) o PAID {| ta_actorType := USER; ta_actorId := Some userId |} None);
    [exact Ho| | | |].
  - unfold shown, moveOrder. cbn. by rewrite HO, HI, HX, HH.
  - constructor. by split_and!.
  - by repeat constructor.
  - left. rewrite Hp. by split; apply not_on_board.
Qed.

Lemma writeWork_aloud keyed now work : aloud work → aloud (writeWork keyed now work).
Proof.
  intros Hw db a s H. unfold writeWork in H.
  apply txM_bind_Ok in H as (? & s1 & [Hs1 Hq1]%reserveIfKeyed_shown & H).
  apply txM_bind_Ok in H as (view & s2 & H2 & H).
  apply txM_bind_Ok in H as (? & s3 & [Hs3 Hq3]%completeIfKeyed_shown & H). apply mret_Ok in H as [_ ->].
  destruct s1 as [db1 pend]. cbn in *. rewrite Hq1 in H2. destruct (Hw _ _ _ H2) as [Ht Htr].
  rewrite Hq3. split; [by eapply told_shown|]. eapply truthful_shown; [|exact Htr].
  unfold shown in Hs3. congruence.
Qed.

(** ** Handlers *)

(** What a handler is about to publish. *)
Definition upcoming {R} (p : prog R) : list DomainEvent :=
  match p with Emit (Published events) _ => events | _ => [] end.

(** After each of its steps the handler's next act is to publish what the step calls
    for; it never publishes at any other point. *)
Fixpoint vocal {R} (p : prog R) : Prop :=
  match p with
  | Done _ => True
  | Step t k => ∀ db, told db (t db).1 (upcoming (k (t db).2)) ∧
      truthful (upcoming (k (t db).2)) (t db).1 ∧ vocal (k (t db).2)
  | Ask _ k => ∀ a, upcoming (k a) = [] ∧ vocal (k a)
  | Emit _ k => upcoming k = [] ∧ vocal k
  end.

#[global] Arguments vocal : simpl never.

(** A handler that has not just made a change. *)
Definition speaks {R} (p : prog R) : Prop := upcoming p = [] ∧ vocal p.

Lemma told_refl db events : told db db events.
Proof. by apply told_same. Qed.

Lemma speaks_read {R X} (f : Database → X) (k : X → prog R) : (∀ x, speaks (k x)) → speaks (Read f k).
Proof.
  intros Hk. split; [done|]. intros db. destruct (Hk (f db)) as [E Hv]. cbn. rewrite E.
  split_and!; [apply told_refl|constructor|done].
Qed.

Lemma speaks_ask {R} call (k : GatewayReply call → prog R) : (∀ a, speaks (k a)) → speaks (Ask call k).
Proof. by split. Qed.

Lemma upcoming_after {A B} (p : prog A) (k : result AppError A → prog B) :
  (∀ r, upcoming (k r) = []) → upcoming (after p k) = upcoming p.
Proof. intros Hk. by destruct p; [apply Hk|..]. Qed.

Lemma vocal_after {A B} (p : prog A) (k : result AppError A → prog B) :
  vocal p → (∀ r, speaks (k r)) → vocal (after p k).
Proof.
  intros Hp Hk. assert (∀ r, upcoming (k r) = []) as Hu by (intros r; apply Hk).
  induction p as [r|X t f IH|call f IH|e f IH].
  - apply Hk.
  - intros db. cbn. rewrite upcoming_after by done. destruct (Hp db) as (? & ? & ?). auto.
  - intros a. cbn. rewrite upcoming_after by done. destruct (Hp a). auto.
  - destruct Hp. unfold vocal; cbn; fold (@vocal B). rewrite upcoming_after by done. auto.
Qed.

Lemma speaks_after {A B} (p : prog A) (k : result AppError A → prog B) :
  speaks p → (∀ r, speaks (k r)) → speaks (after p k).
Proof.
  intros [Hu Hp] Hk. split; [|by apply vocal_after]. rewrite upcoming_after; [done|]. intros r. apply Hk.
Qed.

Lemma speaks_bind {A B} (p : prog A) (k : A → prog B) : speaks p → (∀ a, speaks (k a)) → speaks (p ≫= k).
Proof. intros Hp Hk. apply speaks_after; [done|]. intros [a|e]; [apply Hk|done]. Qed.

Lemma speaks_aloud {A} (work : txM A) : aloud work → speaks (afterCommit_run work).
Proof.
  intros Hw. split; [done|]. intros db. cbn. unfold transaction.
  destruct (work (mkTx db [])) as [[a s]|e] eqn:E; cbn.
  - destruct (Hw _ _ _ E) as [Ht Htr]. by destruct (tx_pending s).
  - split_and!; [apply told_refl|constructor|done].
Qed.

Lemma speaks_unsaid {R A} (work : txM A) (k : result AppError (A * list DomainEvent) → prog R) :
  unsaid work → (∀ r, speaks (k r)) → speaks (inTransaction work k).
Proof.
  intros Hw Hk. split; [done|]. intros db. cbn. unfold transaction.
  destruct (work (mkTx db [])) as [[a s]|e] eqn:E; cbn.
  - destruct (Hk (Ok (a, tx_pending s))) as [-> ?]. split_and!; [by eapply Hw|constructor|done].
  - destruct (Hk (Err e)) as [-> ?]. split_and!; [apply told_refl|constructor|done].
Qed.

Lemma createOrder_speaks config tzOffset sha256 principal input key now ids :
  speaks (createOrder config tzOffset sha256 principal input key now ids).
Proof.
  apply speaks_unsaid; [apply createWork_unsaid|]. intros [[v pend]|e]; [done|].
  destruct (isKeyAlreadyReserved e), key as [key|]; try done. apply speaks_read. by intros [].
Qed.

Lemma checkout_speaks config principal oid now : speaks (checkout config principal oid now).
Proof.
  apply speaks_read. intros [[st day]|]; [|done]. case_bool_decide; [|done].
  apply speaks_unsaid; [apply checkoutWork_unsaid|]. by intros [[]|].
Qed.

Lemma transition_speaks principal oid to : speaks (transition principal oid to).
Proof.
  apply speaks_read. intros [st|]; [|done]. destruct (isStaffTransition st to); [|done].
  apply speaks_aloud, statusWork_aloud.
Qed.

Lemma cancelMove_speaks principal oid from reason live :
  from ∈ CANCELLABLE → speaks (cancelMove principal oid from reason live).
Proof.
  intros Hf. apply speaks_bind; [by apply speaks_aloud, cancelWork_aloud|]. by intros [sum []].
Qed.

Lemma cancel_speaks principal oid reason : speaks (cancel principal oid reason).
Proof.
  apply speaks_read. intros [st|]; [|done]. case_bool_decide as Hc; [|done]. apply speaks_read.
  intros [[pid [i|]]|]; try by apply cancelMove_speaks.
  apply speaks_ask. intros [[]|]; try done. by apply cancelMove_speaks.
Qed.

Lemma expireMove_speaks oid live : speaks (expireMove oid live).
Proof.
  apply speaks_unsaid; [apply expireWork_unsaid|]. intros [[]|]; [|done]. by destruct live.
Qed.

Lemma expireOne_speaks oid : speaks (expireOne oid).
Proof.
  apply speaks_read. intros [[pid [i|]]|]; try apply expireMove_speaks.
  apply speaks_ask. intros [[]|]; try done. apply expireMove_speaks.
Qed.

Lemma expireOverdue_speaks now : speaks (expireOverdue now).
Proof.
  apply speaks_read. intros ids. generalize 0. induction ids as [|id ids IH]; intros n; [done|].
  apply speaks_bind; [apply expireOne_speaks|]. intros b. apply IH.
Qed.

Lemma rehydrate_speaks body : speaks (rehydrate body).
Proof.
  destruct body as [v|v]; [done|]. unfold rehydrate. destruct (_ || _); [done|].
  apply speaks_read. intros [i|]; [|done]. apply speaks_ask. by intros [].
Qed.

Lemma replay_speaks body : speaks (view ← rehydrate body; Return (view, true)).
Proof. apply speaks_bind; [apply rehydrate_speaks|done]. Qed.

Lemma write_speaks keyed oid now work : aloud work → speaks (write keyed oid now work).
Proof.
  intros Hw. apply speaks_after; [by apply speaks_aloud, writeWork_aloud|].
  intros [v|e]; [done|]. destruct (isUniqueViolation e); [by apply speaks_read|].
  destruct (isKeyAlreadyReserved e), keyed as [[k h]|]; try done.
  apply speaks_read. intros [b|]; [apply replay_speaks|done].
Qed.

Lemma createPayment_speaks sha256 principal oid input key pid now :
  speaks (createPayment sha256 principal oid input key pid now).
Proof.
  assert (∀ keyed, speaks (payFor principal oid input keyed pid now)) as Hpay.
  { intros keyed. apply speaks_read. intros [o|]; [|done]. destruct (ownOrder principal o); [|done]. cbn.
    case_bool_decide; [done|]. case_bool_decide; [|done]. apply speaks_read. intros [[q i]|]; [done|].
    case_bool_decide.
    - unfold takeCash. destruct principal as [userId role|]; [|done].
      destruct (cp_cashTenderedMinor input); [|done]. destruct (_ <? _); [done|].
      apply speaks_after; [apply write_speaks, cashWork_aloud|]. by intros [[b []]|].
    - apply speaks_ask. intros [intent|e]; [|done]. apply write_speaks, intentWork_aloud. }
  unfold createPayment. destruct key as [key|]; cbn; [|apply Hpay].
  apply speaks_read. intros [[h b]|]; [|apply Hpay]. case_bool_decide; [apply replay_speaks|done].
Qed.

Lemma refund_speaks config tzOffset userId rid pid input now :
  speaks (refund config tzOffset userId rid pid input now).
Proof.
  apply speaks_read. intros [p|]; [|done]. case_bool_decide; [|done]. apply speaks_read.
  intros [o|]; [|done]. case_bool_decide; [|done]. apply speaks_aloud, refundWork_aloud.
Qed.

Lemma listFor_speaks principal oid : speaks (listFor principal oid).
Proof.
  apply speaks_read. intros [o|]; [|done]. destruct (ownOrder _ _); [|done]. by apply speaks_read.
Qed.

Lemma reconcileYesterday_speaks config tzOffset now : speaks (reconcileYesterday config tzOffset now).
Proof.
  apply speaks_after; [|by intros []]. apply speaks_read. intros recorded. apply speaks_ask.
  intros [total|]; [|done]. by apply speaks_read.
Qed.

Lemma receive_speaks stripe secrets rawBody signature rowId now :
  speaks (receive stripe secrets rawBody signature rowId now).
Proof.
  unfold receive. destruct rawBody as [raw|]; [|done]. destruct signature as [sig|]; [|done].
  destruct (parseWebhook _ _ _ _) as [[event ?]|]; [|done]. split; [done|]. intros db.
  assert (shown (recordEvent rowId event now db).1 = shown db) as Hs.
  { unfold recordEvent. by repeat case_bool_decide. }
  destruct (recordEvent rowId event now db) as [db' [[id|]|e]]; cbn in *;
    (split_and!; [by apply told_same|constructor|done]).
Qed.

Section processor.
Context `{port : PaymentPort}.

Lemma apply_speaks eid now : speaks (Webhooks.apply eid now).
Proof.
  apply speaks_read. intros [payload|]; [|done]. destruct (interpret payload) as [outcome|]; [|done].
  assert (∀ payment order, speaks (match decidePaymentOutcome outcome payment order with
    | REFUSE _ => Return false
    | SKIP _ => _ ← db_transaction (markProcessed eid (pr_id <$> payment) now); Return false
    | MARK_PAYMENT paymentId status =>
        landed ← afterCommit_run (markPaymentWork eid paymentId status now);
        if (landed : bool) then Emit (PaymentsMetric STRIPE status) (Return true) else Return true
    | MARK_PAID paymentId orderId => markPaid eid paymentId orderId now
    end)) as Hact.
  { intros payment order. destruct (decidePaymentOutcome outcome payment order) as [pid oid|pid st|why|why]; [..|done].
    - assert (∀ method, speaks (_ ← afterCommit_run (markPaidWork eid pid oid method now);
        Emit (PaymentsMetric STRIPE PaySUCCEEDED) (Return true))) as Hfin.
      { intros method. apply speaks_bind; [apply speaks_aloud, markPaidWork_aloud|done]. }
      apply speaks_read. intros [i|]; [|apply Hfin]. apply speaks_ask. intros method. apply Hfin.
    - apply speaks_bind; [apply speaks_aloud, markPaymentWork_aloud|]. by intros [].
    - apply speaks_bind; [|done]. apply speaks_unsaid; [apply markProcessed_unsaid|]. by intros [[]|]. }
  unfold load. destruct (outcomeIntent outcome) as [j|]; [|apply Hact].
  apply speaks_read. intros [r|]; [|apply Hact]. apply speaks_read. intros order. apply Hact.
Qed.

Lemma processEvent_speaks eid now : speaks (processEvent eid now).
Proof. apply speaks_after; [apply apply_speaks|]. intros [b|e]; [done|]. by destruct (isLostRace e). Qed.

Lemma drainInbox_speaks now : speaks (drainInbox now).
Proof.
  apply speaks_read. intros ids. generalize 0. induction ids as [|id ids IH]; intros n; [done|].
  apply speaks_bind; [apply processEvent_speaks|]. intros b. apply IH.
Qed.

(** Every request and job of the system says what it does. *)
Lemma request_speaks config tzOffset sha256 th : request config tzOffset sha256 th → speaks (projT2 th).
Proof.
  destruct 1 as [| | | | | | | | | | | |t Ht]; cbn.
  - apply createOrder_speaks.
  - apply checkout_speaks.
  - apply transition_speaks.
  - apply cancel_speaks.
  - apply createPayment_speaks.
  - apply refund_speaks.
  - apply listFor_speaks.
  - apply receive_speaks.
  - apply processEvent_speaks.
  - apply drainInbox_speaks.
  - apply expireOverdue_speaks.
  - apply reconcileYesterday_speaks.
  - split; [done|]. intros db. cbn. split_and!; [|constructor|done].
    apply told_same. by destruct (Ht db) as [? _].
Qed.
End processor.
