(* ===== verification/Live.v ===== *)
(** * Live: the screens beside the running system

    The pool of handlers together with the publishers its commits start and the pushes
    that have left. A publisher may be overtaken between a read and its push, may fail
    half-way, and handlers may die before publishing. [pushes_true] holds of all of that;
    [screens_informed] of the runs in which nothing is lost. *)

From S2P Require Import Prelude Text Schema Errors Program OrderState OrderDoors Gateway Webhooks Refunds Ordering OrdersRead.
From S2P Require Import CreateOrder CreatePayment Books Invariants Handlers System Screens Announcements Scenario.

(** ** The state and its steps *)

Record Live := { lv_pool : Pool; lv_publishers : list publisher; lv_pushed : list Push }.

(** [flush]: a publisher for each batch published. *)
Definition started (effects : list Effect) : list publisher :=
  omap (fun e => match e with Published events => Some (publish events) | _ => None end) effects.

(** What a step of the pool added to the log. *)
Definition news (c c' : Pool) : list Effect := drop (length (pool_log c)) (pool_log c').

Section live.
Context `{port : PaymentPort}.
Context (config : Config) (tzOffset : string → Z → Z) (sha256 : string → string).

Notation request := (request config tzOffset sha256).
Notation reachable := (reachable config tzOffset sha256).

(** [calm]: nobody dies and no read fails. *)
Inductive live_step (calm : bool) : Live → Live → Prop :=
| live_pool c c' pubs pushed :
    pool_step request c c' →
    (calm = true → (length (pool_threads c) <= length (pool_threads c'))%nat) →
    live_step calm {| lv_pool := c; lv_publishers := pubs; lv_pushed := pushed |}
      {| lv_pool := c'; lv_publishers := pubs ++ started (news c c'); lv_pushed := pushed |}
| live_look c l1 X (f : Database → X) k l2 pushed :
    live_step calm {| lv_pool := c; lv_publishers := l1 ++ Look f k :: l2; lv_pushed := pushed |}
      {| lv_pool := c; lv_publishers := l1 ++ k (f (pool_db c)) :: l2; lv_pushed := pushed |}
| live_send c l1 pushes k l2 pushed :
    live_step calm {| lv_pool := c; lv_publishers := l1 ++ Send pushes k :: l2; lv_pushed := pushed |}
      {| lv_pool := c; lv_publishers := l1 ++ k :: l2; lv_pushed := pushed ++ pushes |}
| live_fail c l1 p l2 pushed :
    calm = false →
    live_step calm {| lv_pool := c; lv_publishers := l1 ++ p :: l2; lv_pushed := pushed |}
      {| lv_pool := c; lv_publishers := l1 ++ l2; lv_pushed := pushed |}.

Definition opened (db : Database) : Live :=
  {| lv_pool := idle db; lv_publishers := []; lv_pushed := [] |}.

Definition live_from (calm : bool) (db : Database) (s : Live) : Prop :=
  opening db ∧ rtc (live_step calm) (opened db) s.

(** ** What the pool's steps keep *)

Definition outspoken (db : Database) (th : thread) : Prop :=
  vocal (projT2 th) ∧ truthful (upcoming (projT2 th)) db.

Lemma truthful_later db db' events : Ev db db' → truthful events db → truthful events db'.
Proof.
  intros [[HO _ _ _ _ _ _ _] _] Ht. eapply Forall_impl; [exact Ht|].
  intros ev (o & Ho & Hd). destruct (HO _ _ Ho) as (o' & Ho' & [Hs] & _). exists o'. split; [done|].
  unfold order_frozen in Hs. congruence.
Qed.

Lemma pool_step_outspoken c c' :
  reachable c → pool_step request c c' →
  Forall (outspoken (pool_db c)) (pool_threads c) →
  Forall (outspoken (pool_db c')) (pool_threads c') ∧
  Forall (fun e => match e with Published events => truthful events (pool_db c') | _ => True end) (news c c').
Proof.
  intros Hr Hs. pose proof (reachable_ev _ _ _ c c' Hr (rtc_once _ _ Hs)) as HEv.
  destruct Hs as [db log l1 l2 R X t k|db log l1 l2 R call k a|db log l1 l2 R e k|db log l th Ha|db log l1 l2 th];
    unfold news; cbn in *.
  all: rewrite ?Forall_app, ?Forall_cons; intros Hth.
  - destruct Hth as (H1 & [Hv _] & H2). destruct (Hv db) as (_ & Htr & Hv'). rewrite drop_all.
    split_and!; [..|constructor]; [|by split|]; (eapply Forall_impl; [eassumption|]);
      intros th [? ?]; (split; [done|]); by eapply truthful_later.
  - destruct Hth as (H1 & [Hv _] & H2). destruct (Hv a) as (E & Hv'). rewrite drop_all.
    split_and!; [done| |done|constructor]. split; [done|]. rewrite (E : upcoming (projT2 (thread_of (k a))) = []). constructor.
  - destruct Hth as (H1 & [[E Hv] Htr] & H2). rewrite drop_app_length.
    split_and!; [done| |done|constructor; [|done]]; [split; [done|]; rewrite (E : upcoming (projT2 (thread_of k)) = []); constructor|].
    by destruct e.
  - rewrite drop_all. split; [|constructor]. split; [|done]. apply request_speaks in Ha as [E Hv].
    split; [done|]. rewrite E. constructor.
  - rewrite drop_all. destruct Hth as (? & _ & ?). split; [done|constructor].
Qed.

(** ** Every push was true once *)

(** The ticket is what the database held of the order at some moment of the run. *)
Definition once (c : Pool) (ticket : KdsTicket) : Prop :=
  ∃ c0, reachable c0 ∧ pool_steps request c0 c ∧
    ticketFor (pool_db c0) (os_id (kt_order ticket)) = Some ticket.

Definition true_push (c : Pool) (push : Push) : Prop :=
  match push with
  | KdsPush kind ticket => kind ∈ KDS_EVENTS ∧ once c ticket
  | DevicePush deviceId kind ticket => kind ∈ KIOSK_EVENTS ∧ once c ticket ∧
      ∃ o, orders (pool_db c) !! os_id (kt_order ticket) = Some o ∧ o_kioskDeviceId o = Some deviceId
  | BoardPush entries => ∃ c0, reachable c0 ∧ pool_steps request c0 c ∧ entries = boardSnapshot (pool_db c0)
  end.

(** A publisher whose every push will be. *)
Fixpoint honest (c : Pool) (p : publisher) : Prop :=
  match p with
  | Silent => True
  | Look f k => ∀ c', pool_steps request c c' → honest c' (k (f (pool_db c')))
  | Send pushes k => Forall (true_push c) pushes ∧ honest c k
  end.

Lemma reachable_later c c' : reachable c → pool_steps request c c' → reachable c'.
Proof. intros (db0 & Ho & Hs) Hs'. exists db0. split; [done|]. by etrans. Qed.

Lemma device_later db db' oid d :
  Ev db db' → (∃ o, orders db !! oid = Some o ∧ o_kioskDeviceId o = d) →
  ∃ o, orders db' !! oid = Some o ∧ o_kioskDeviceId o = d.
Proof.
  intros [[HO _ _ _ _ _ _ _] _] (o & Ho & Hd). destruct (HO _ _ Ho) as (o' & Ho' & [Hs] & _).
  exists o'. split; [done|]. unfold order_frozen in Hs. congruence.
Qed.

Lemma true_push_later c c' push : reachable c → pool_steps request c c' → true_push c push → true_push c' push.
Proof.
  intros Hr Hs. assert (∀ t, once c t → once c' t) as Honce.
  { intros t (c0 & ? & ? & ?). exists c0. split_and!; [done| |done]. by etrans. }
  destruct push as [kind t|d kind t|entries]; cbn.
  - intros [? ?]. auto.
  - intros (? & ? & ?). split_and!; [done|auto|]. eapply device_later; [|done]. by eapply reachable_ev.
  - intros (c0 & ? & ? & ?). exists c0. split_and!; [done| |done]. by etrans.
Qed.

Lemma honest_later p : ∀ c c', reachable c → pool_steps request c c' → honest c p → honest c' p.
Proof.
  induction p as [|X f k IH|pushes k IH]; intros c c' Hr Hs; cbn; [done| |].
  - intros Hp c'' Hs'. apply Hp. by etrans.
  - intros [Hp Hk]. split; [|by eapply IH]. eapply Forall_impl; [exact Hp|].
    intros x. by apply true_push_later.
Qed.

Lemma ticketFor_id db oid ticket : ticketFor db oid = Some ticket → os_id (kt_order ticket) = oid.
Proof. unfold ticketFor. intros H. by apply fmap_Some in H as (o & _ & ->). Qed.

Lemma ticketFor_status db oid o ticket :
  orders db !! oid = Some o → ticketFor db oid = Some ticket → os_status (kt_order ticket) = o_status o.
Proof. unfold ticketFor. intros ->. by intros [= <-]. Qed.

Lemma pushesOf_true c event ticket :
  reachable c → ticketFor (pool_db c) (orderIdOf event) = Some ticket → truthful [event] (pool_db c) →
  Forall (true_push c) (pushesOf event ticket).
Proof.
  intros Hr Ht [(o & Ho & Hd) _]%Forall_cons. pose proof (ticketFor_id _ _ _ Ht) as Hid.
  assert (once c ticket) as Honce.
  { exists c. split_and!; [done|reflexivity|]. by rewrite Hid. }
  unfold pushesOf. apply Forall_app. split.
  - destruct (forKds event) eqn:E; [|constructor]. constructor; [|done]. split; [|done].
    by apply bool_decide_eq_true in E.
  - unfold forKiosk. case_bool_decide as E; [|constructor]. destruct (deviceIdOf event) as [d|]; [|constructor].
    constructor; [|done]. split_and!; [done|done|]. rewrite Hid. by exists o.
Qed.

Lemma publishFrom_honest events : ∀ b c,
  reachable c → truthful events (pool_db c) → honest c (publishFrom events b).
Proof.
  induction events as [|event events IH]; intros b c Hr Ht; cbn.
  - destruct b; [|done]. intros c' Hs. split; [|done]. constructor; [|done]. cbn.
    exists c'. split_and!; [by eapply reachable_later|reflexivity|done].
  - apply Forall_cons in Ht as [He Ht]. destruct (negb _ && _); [by apply IH|]. cbn. intros c' Hs.
    assert (reachable c') as Hr' by (by eapply reachable_later).
    assert (truthful (event :: events) (pool_db c')) as [He' Ht']%Forall_cons.
    { apply (truthful_later (pool_db c)); [by eapply reachable_ev|]. by constructor. }
    destruct (ticketFor (pool_db c') (orderIdOf event)) as [ticket|] eqn:E; [|by apply IH].
    split; [|by apply IH]. apply pushesOf_true; [done..|]. by constructor.
Qed.

Record live_ok (s : Live) : Prop := {
  lo_reachable : reachable (lv_pool s);
  lo_threads : Forall (outspoken (pool_db (lv_pool s))) (pool_threads (lv_pool s));
  lo_publishers : Forall (honest (lv_pool s)) (lv_publishers s);
  lo_pushed : Forall (true_push (lv_pool s)) (lv_pushed s) }.

Lemma live_ok_step calm s s' : live_step calm s s' → live_ok s → live_ok s'.
Proof.
  destruct 1 as [c c' pubs pushed Hs _|c l1 X f k l2 pushed|c l1 pushes k l2 pushed|c l1 p l2 pushed _];
    intros [Hr Hth Hp Hx]; cbn in *.
  - assert (pool_steps request c c') as Hss by (by apply rtc_once).
    assert (reachable c') as Hr' by (by eapply reachable_later).
    destruct (pool_step_outspoken c c' Hr Hs Hth) as [Hth' Hn]. split; cbn; [done|done| |].
    + apply Forall_app. split; [eapply Forall_impl; [exact Hp|]; intros p; by apply honest_later|].
      unfold started. apply Forall_forall. intros p Hin.
      apply list_elem_of_omap in Hin as (e & Hin & He). destruct e as [events| | | | |]; try done.
      injection He as <-. rewrite Forall_forall in Hn. by apply publishFrom_honest, (Hn _ Hin).
    + eapply Forall_impl; [exact Hx|]. intros x. by apply true_push_later.
  - apply Forall_app in Hp as [H1 [Hm H2]%Forall_cons]. split; cbn; [done|done| |done].
    apply Forall_app. split; [done|]. constructor; [|done]. apply Hm. reflexivity.
  - apply Forall_app in Hp as [H1 [[Hm Hk] H2]%Forall_cons]. split; cbn; [done|done| |].
    + apply Forall_app. split; [done|]. by constructor.
    + by apply Forall_app.
  - apply Forall_app in Hp as [H1 [_ H2]%Forall_cons]. split; cbn; [done|done|by apply Forall_app|done].
Qed.

Lemma live_from_ok calm db s : live_from calm db s → live_ok s.
Proof.
  intros [Ho Hs]. assert (live_ok (opened db)) as H0.
  { split; cbn; [|constructor..]. exists db. split; [done|reflexivity]. }
  induction Hs as [s|s1 s2 s3 H1 _ IH]; [done|]. by eapply IH, live_ok_step.
Qed.

(** Whatever is interleaved, overtaken or lost, nothing false is pushed: every ticket was
    the committed state of its order at a moment of the run, its status is in the order's
    audit trail, a tablet is told only of orders placed on it, and every board that went
    out was the board of that moment. *)
Theorem pushes_true db s push :
  live_from false db s → push ∈ lv_pushed s →
  true_push (lv_pool s) push ∧
  match push with
  | KdsPush _ ticket | DevicePush _ _ ticket =>
      ∃ row, row ∈ orderStatusHistory (pool_db (lv_pool s)) ∧
        h_orderId row = os_id (kt_order ticket) ∧ h_toStatus row = os_status (kt_order ticket)
  | BoardPush entries => Forall (fun e => be_status e ∈ BOARD_STATUSES) entries
  end.
Proof.
  intros Hl Hin. destruct (live_from_ok _ _ _ Hl) as [_ _ _ Hx]. rewrite Forall_forall in Hx.
  specialize (Hx _ Hin). split; [done|].
  assert (∀ ticket, once (lv_pool s) ticket → ∃ row, row ∈ orderStatusHistory (pool_db (lv_pool s)) ∧
    h_orderId row = os_id (kt_order ticket) ∧ h_toStatus row = os_status (kt_order ticket)) as Htrail.
  { intros ticket (c0 & Hr & Hs & Ht). apply fmap_Some in Ht as (o & Ho & E).
    pose proof (reachable_inv _ _ _ c0 Hr) as [[_ [Hstory _] _ _ _ _] _]. specialize (Hstory _ _ Ho).
    assert (∃ row, row ∈ historyOf (orderStatusHistory (pool_db c0)) (os_id (kt_order ticket)) ∧
      h_toStatus row = o_status o) as (row & Hrow & Hst).
    { destruct Hstory as [row ??|rows st row ???]; exists row; (split; [|done]); [left|].
      apply elem_of_app. right. left. }
    apply list_elem_of_filter in Hrow as [Hid Hrow]. exists row. split_and!; [|done|by rewrite Hst, E].
    destruct (reachable_ev _ _ _ _ _ Hr Hs) as [[_ _ _ [l ->] _ _ _ _] _]. apply elem_of_app. by left. }
  destruct push as [kind t|d kind t|entries]; [apply Htrail, Hx..|].
  destruct Hx as (c0 & _ & _ & ->). unfold boardSnapshot, boardEntries. rewrite Forall_fmap.
  apply Forall_take, Forall_forall. intros [oid o] Ho%elem_of_oldestFirst.
  by apply map_lookup_filter_Some in Ho as [_ [? _]].
Qed.

(** ** Every screen hears *)

(** However the others move, as long as [D] holds when it reads, the publisher will yet
    make a push in [W]. *)
Fixpoint delivers (D : Database → Prop) (W : Push → Prop) (p : publisher) : Prop :=
  match p with
  | Silent => False
  | Look f k => ∀ db, D db → delivers D W (k (f db))
  | Send pushes k => Exists W pushes ∨ delivers D W k
  end.

Lemma deliver_ticket oid ticket (W : Push → Prop) events : ∀ b,
  Exists (fun ev => orderIdOf ev = oid ∧ Exists W (pushesOf ev ticket)) events →
  delivers (fun db => ticketFor db oid = Some ticket) W (publishFrom events b).
Proof.
  induction events as [|ev events IH]; intros b Hex; [by apply Exists_nil in Hex|].
  cbn. apply Exists_cons in Hex. destruct (negb (forKds ev) && bool_decide (forKiosk ev = None)) eqn:Eskip.
  - destruct Hex as [[_ Hw]|Hex]; [|by apply IH]. exfalso.
    apply andb_true_iff in Eskip as [Hk%negb_true_iff Hd%bool_decide_eq_true].
    unfold pushesOf in Hw. rewrite Hk, Hd in Hw. by apply Exists_nil in Hw.
  - cbn. intros db HD. destruct Hex as [[-> Hw]|Hex].
    + rewrite HD. by left.
    + destruct (ticketFor db (orderIdOf ev)); [right|]; by apply IH.
Qed.

Lemma deliver_board rows events : ∀ b,
  b = true ∨ Exists (fun ev => forBoard ev = true) events →
  delivers (fun db => boardRows db = rows) (fun x => x = BoardPush (boardEntries rows)) (publishFrom events b).
Proof.
  induction events as [|ev events IH]; intros b Hex.
  - destruct Hex as [->|Hex]; [|by apply Exists_nil in Hex]. cbn. intros db <-. left. by constructor.
  - assert ((if forBoard ev then true else b) = true ∨ Exists (fun ev => forBoard ev = true) events) as Hex'.
    { destruct (forBoard ev) eqn:E; [by left|]. destruct Hex as [->|Hex]; [by left|].
      apply Exists_cons in Hex as [?|?]; [congruence|by right]. }
    cbn. destruct (_ && _); [by apply IH|]. cbn. intros db _.
    destruct (ticketFor db (orderIdOf ev)); [right|]; by apply IH.
Qed.

(** A push that is made, or will be: a thread is about to publish an event that calls for
    it, or a publisher is bound to make it. *)
Record Duty := { duty_holds : Database → Prop; duty_push : Push → Prop; duty_calls : DomainEvent → Prop }.

Definition owed (g : Duty) (s : Live) : Prop :=
  Exists (duty_push g) (lv_pushed s) ∨
  Exists (fun th => Exists (duty_calls g) (upcoming (projT2 th))) (pool_threads (lv_pool s)) ∨
  Exists (delivers (duty_holds g) (duty_push g)) (lv_publishers s).

Definition served (g : Duty) : Prop :=
  ∀ events, Exists (duty_calls g) events → delivers (duty_holds g) (duty_push g) (publish events).

Lemma Exists_swap {A} (P : A → Prop) l1 x y l2 :
  Exists P (l1 ++ x :: l2) → (P x → P y) → Exists P (l1 ++ y :: l2).
Proof. rewrite !Exists_app, !Exists_cons. naive_solver. Qed.

Lemma owed_step g s s' : served g → live_step true s s' → duty_holds g (pool_db (lv_pool s)) → owed g s → owed g s'.
Proof.
  intros Hg. destruct 1 as [c c' pubs pushed Hs Hcalm|c l1 X f k l2 pushed|c l1 pushes k l2 pushed|]; [..|done];
    unfold owed; cbn; intros HD [Hp|[Hth|Hpub]]; try by left.
  - right. destruct Hs as [db log l1 l2 R X t k|db log l1 l2 R call k a|db log l1 l2 R e k|db log l th Ha|db log l1 l2 th];
      unfold news; cbn in *.
    + left. eapply Exists_swap; [exact Hth|]. by intros ?%Exists_nil.
    + left. eapply Exists_swap; [exact Hth|]. by intros ?%Exists_nil.
    + rewrite Exists_app, Exists_cons in Hth. destruct Hth as [Hth|[Hth|Hth]];
        [left; rewrite Exists_app; by left| |left; rewrite Exists_app; right; by right].
      right. rewrite Exists_app. right. rewrite drop_app_length. destruct e; try by apply Exists_nil in Hth.
      constructor. by apply Hg.
    + left. by right.
    + specialize (Hcalm eq_refl). rewrite !length_app in Hcalm. cbn in Hcalm. lia.
  - right. right. rewrite Exists_app. by left.
  - right. by left.
  - right. right. eapply Exists_swap; [exact Hpub|]. intros Hm. by apply Hm.
  - left. rewrite Exists_app. by left.
  - right. by left.
  - rewrite Exists_app, Exists_cons in Hpub. destruct Hpub as [?|[[Hm|Hm]|?]];
      [|left; rewrite Exists_app; by right|..]; right; right; rewrite Exists_app, Exists_cons; auto.
Qed.

(** Whatever a step of the pool changed is about to be said. *)
Lemma pool_step_told c c' : pool_step request c c' → Forall (outspoken (pool_db c)) (pool_threads c) →
  ∃ events, told (pool_db c) (pool_db c') events ∧
    ∀ calls, Exists calls events → Exists (fun th => Exists calls (upcoming (projT2 th))) (pool_threads c').
Proof.
  destruct 1 as [db log l1 l2 R X t k|db log l1 l2 R call k a|db log l1 l2 R e k|db log l th Ha|db log l1 l2 th];
    cbn; intros Hth; [|by exists []; split; [apply told_refl|intros ? H%Exists_nil]..].
  apply Forall_app in Hth as [_ [[Hv _] _]%Forall_cons]. destruct (Hv db) as (Ht & _ & _).
  exists (upcoming (k (t db).2)). split; [done|]. intros calls H. rewrite Exists_app, Exists_cons. auto.
Qed.

(** The bar hears of an order, a kiosk that its order is ready, the board of a change. *)
Definition barDuty (oid : string) (ticket : KdsTicket) : Duty := {|
  duty_holds := fun db => ticketFor db oid = Some ticket;
  duty_push := fun x => ∃ kind, x = KdsPush kind ticket;
  duty_calls := fun ev => orderIdOf ev = oid ∧ forKds ev = true |}.

Definition kioskDuty (oid deviceId : string) (ticket : KdsTicket) : Duty := {|
  duty_holds := fun db => ticketFor db oid = Some ticket;
  duty_push := fun x => x = DevicePush deviceId "order.ready" ticket;
  duty_calls := fun ev => ev = order_ready oid (Some deviceId) |}.

Definition boardDuty (rows : gmap string OrderRow) : Duty := {|
  duty_holds := fun db => boardRows db = rows;
  duty_push := fun x => x = BoardPush (boardEntries rows);
  duty_calls := fun ev => forBoard ev = true |}.

Lemma barDuty_served oid ticket : served (barDuty oid ticket).
Proof.
  intros events H. apply deliver_ticket. eapply Exists_impl; [exact H|]. intros ev [? Hk]. split; [done|].
  unfold pushesOf. rewrite Hk. constructor. cbn. eauto.
Qed.

Lemma kioskDuty_served oid d ticket : served (kioskDuty oid d ticket).
Proof.
  intros events H. apply deliver_ticket. eapply Exists_impl; [exact H|]. intros ev ->. split; [done|].
  apply Exists_app. right. by constructor.
Qed.

Lemma boardDuty_served rows : served (boardDuty rows).
Proof. intros events H. apply deliver_board. by right. Qed.

Record informed (s : Live) : Prop := {
  inf_orders : ∀ oid o, orders (pool_db (lv_pool s)) !! oid = Some o → announced (o_status o) = true →
    ∃ ticket, ticketFor (pool_db (lv_pool s)) oid = Some ticket ∧ owed (barDuty oid ticket) s ∧
      ∀ d, o_status o = READY → o_kioskDeviceId o = Some d → owed (kioskDuty oid d ticket) s;
  inf_board : neverShown (pool_db (lv_pool s)) ∨ owed (boardDuty (boardRows (pool_db (lv_pool s)))) s }.

(** A step that changed nothing an owed push depends on. *)
Lemma informed_kept s s' oid o o' ticket :
  live_step true s s' → ticketFor (pool_db (lv_pool s)) oid = Some ticket →
  owed (barDuty oid ticket) s ∧ (∀ d, o_status o = READY → o_kioskDeviceId o = Some d → owed (kioskDuty oid d ticket) s) →
  o_status o' = o_status o → o_kioskDeviceId o' = o_kioskDeviceId o →
  owed (barDuty oid ticket) s' ∧ (∀ d, o_status o' = READY → o_kioskDeviceId o' = Some d → owed (kioskDuty oid d ticket) s').
Proof.
  intros Hs Ht [Hb Hk] -> ->. split; [by eapply owed_step; [apply barDuty_served|..]|].
  intros d Hr Hd. eapply owed_step; [apply kioskDuty_served|done|done|by apply Hk].
Qed.

Lemma ticket_status db db' oid o o' :
  orders db !! oid = Some o → orders db' !! oid = Some o' → ticketFor db' oid = ticketFor db oid →
  o_status o' = o_status o.
Proof.
  intros Ho Ho'. unfold ticketFor. rewrite Ho, Ho'. cbn. intros [= E]. congruence.
Qed.

(** Every step that touches the pool: what it changed is said by the thread that took it. *)
Lemma informed_pool c c' pubs pubs' pushed :
  live_ok {| lv_pool := c; lv_publishers := pubs; lv_pushed := pushed |} → pool_step request c c' →
  live_step true {| lv_pool := c; lv_publishers := pubs; lv_pushed := pushed |}
    {| lv_pool := c'; lv_publishers := pubs'; lv_pushed := pushed |} →
  informed {| lv_pool := c; lv_publishers := pubs; lv_pushed := pushed |} →
  informed {| lv_pool := c'; lv_publishers := pubs'; lv_pushed := pushed |}.
Proof.
  intros [Hr Hth _ _] Hs Hlive [Hord Hboard]. cbn in *.
  destruct (pool_step_told c c' Hs Hth) as (events & [Ht Hb] & Hsay).
  destruct (reachable_ev _ _ _ c c' Hr (rtc_once _ _ Hs)) as [[HO _ _ _ _ _ _ _] _].
  split; cbn.
  - intros oid o' Ho' Ha. destruct (Ht oid o' Ho' Ha) as [Hsame|Hex].
    + destruct (orders (pool_db c) !! oid) as [o|] eqn:Ho.
      2:{ unfold ticketFor in Hsame. by rewrite Ho, Ho' in Hsame. }
      pose proof (ticket_status _ _ _ _ _ Ho Ho' Hsame) as Hst.
      destruct (HO _ _ Ho) as (o'' & Ho'' & [Hf] & _). replace o'' with o' in * by congruence.
      destruct (Hord oid o Ho) as (ticket & Htick & Howed); [congruence|].
      exists ticket. split; [congruence|]. eapply informed_kept; [exact Hlive|exact Htick|exact Howed|done|].
      unfold order_frozen in Hf. congruence.
    + exists (ticketOf (pool_db c') (oid, o')). split; [unfold ticketFor; by rewrite Ho'|].
      split; [|intros d Hready Hd]; right; left; cbn; apply Hsay; (eapply Exists_impl; [exact Hex|]);
        intros ev (? & ? & Hready'); cbn; [done|]. rewrite <-Hd. by apply Hready'.
  - destruct Hb as [[Hrows Hnever]|Hex].
    + destruct Hboard as [?|Howed]; [left; by apply Hnever|]. right. rewrite Hrows.
      by eapply owed_step; [apply boardDuty_served|..].
    + right. right. left. cbn. by apply Hsay.
Qed.

Lemma informed_step s s' : live_ok s → live_step true s s' → informed s → informed s'.
Proof.
  intros Hok Hs Hi. pose proof Hs as Hs'.
  assert (lv_pool s' = lv_pool s → informed s') as Hsame.
  { intros E. destruct Hi as [Hord Hboard]. split; rewrite E.
    - intros oid o Ho Ha. destruct (Hord oid o Ho Ha) as (ticket & Ht & Howed). exists ticket.
      split; [done|]. by eapply informed_kept.
    - destruct Hboard as [?|?]; [by left|right]. by eapply owed_step; [apply boardDuty_served|..]. }
  destruct Hs as [c c' pubs pushed Hstep Hcalm|c l1 X f k l2 pushed|c l1 pushes k l2 pushed|]; [|by apply Hsame..].
  by eapply informed_pool.
Qed.

Lemma live_from_informed db s : live_from true db s → informed s.
Proof.
  intros [Hopen Hs].
  assert (live_ok (opened db) ∧ informed (opened db)) as H0.
  { split; [apply (live_from_ok true db); split; [done|reflexivity]|].
    destruct Hopen as (HO & _ & HH & _). split; cbn.
    - intros oid o Ho. by rewrite HO in Ho.
    - left. unfold neverShown. rewrite HH. constructor. }
  enough (live_ok s ∧ informed s) by tauto. clear Hopen.
  induction Hs as [s|s1 s2 s3 H1 _ IH]; [done|]. apply IH. destruct H0.
  split; [by eapply live_ok_step|by eapply informed_step].
Qed.

(** Nothing is under way. *)
Definition settled (s : Live) : Prop :=
  Forall (fun th : thread => ∃ r, projT2 th = Done r) (pool_threads (lv_pool s)) ∧
  Forall (fun p => p = Silent) (lv_publishers s).

Lemma settled_owed g s : settled s → owed g s → Exists (duty_push g) (lv_pushed s).
Proof.
  intros [Hth Hp] [H|[H|H]]; [done|exfalso..]; apply Exists_exists in H as (x & Hin & H).
  - rewrite Forall_forall in Hth. destruct (Hth x Hin) as [r E]. rewrite E in H. by apply Exists_nil in H.
  - rewrite Forall_forall in Hp. by rewrite (Hp x Hin) in H.
Qed.

(** C21. When nothing is lost and everything under way has finished, each screen has been sent
    what the database holds: the bar the ticket of every order that was paid or called
    off, the kiosk the ticket of each of its orders that is ready, and the board what is on
    it, emptied or not, unless no order was ever made. *)
Theorem screens_informed db s :
  live_from true db s → settled s →
  let db' := pool_db (lv_pool s) in
  (∀ oid o, orders db' !! oid = Some o → announced (o_status o) = true →
    ∃ ticket, ticketFor db' oid = Some ticket ∧ (∃ kind, KdsPush kind ticket ∈ lv_pushed s) ∧
      ∀ d, o_status o = READY → o_kioskDeviceId o = Some d → DevicePush d "order.ready" ticket ∈ lv_pushed s) ∧
  (neverShown db' ∨ BoardPush (boardSnapshot db') ∈ lv_pushed s).
Proof.
  intros Hl Hset. destruct (live_from_informed _ _ Hl) as [Hord Hboard]. split.
  - intros oid o Ho Ha. destruct (Hord oid o Ho Ha) as (ticket & Ht & Hb & Hk). exists ticket.
    split_and!; [done| |].
    + apply (settled_owed _ _ Hset), Exists_exists in Hb as (x & Hx & kind & ->). eauto.
    + intros d Hr Hd. specialize (Hk d Hr Hd). by apply (settled_owed _ _ Hset), Exists_exists in Hk as (x & Hx & ->).
  - destruct Hboard as [?|Hb]; [by left|right].
    by apply (settled_owed _ _ Hset), Exists_exists in Hb as (x & Hx & ->).
Qed.

(** ** The snapshots *)

(** What the screens load: of the orders being worked on, the two hundred oldest, oldest
    first. The board hides nothing but the number's owner: an order being made or ready
    always has a number, no two of a day the same, and every order on the board is on the
    bar's list unless that is full. *)
Theorem snapshots_faithful c :
  reachable c →
  let db := pool_db c in
  (∀ oid o, orders db !! oid = Some o → o_status o ∈ BOARD_STATUSES → boardRows db !! oid = Some o ∧
    ∃ n, o_orderNumber o = Some n ∧ (∀ oid' o', boardRows db !! oid' = Some o' →
      o_businessDay o' = o_businessDay o → o_orderNumber o' = Some n → oid' = oid)) ∧
  (size (boardRows db) <= MAX_ENTRIES →
    ∀ entry, entry ∈ boardSnapshot db ↔ ∃ oid o, orders db !! oid = Some o ∧ o_status o ∈ BOARD_STATUSES ∧
      o_orderNumber o = Some (be_orderNumber entry) ∧ o_status o = be_status entry)%nat ∧
  (size (kdsRows db) <= MAX_TICKETS →
    ∀ ticket, ticket ∈ kdsSnapshot db ↔ ∃ oid o, orders db !! oid = Some o ∧ o_status o ∈ KDS_STATUSES ∧
      ticketFor db oid = Some ticket)%nat ∧
  StronglySorted waitsLonger (take MAX_TICKETS (oldestFirst (kdsRows db))) ∧
  (length (kdsSnapshot db) <= MAX_TICKETS)%nat ∧ (length (boardSnapshot db) <= MAX_ENTRIES)%nat.
Proof.
  intros [[_ _ HQ _ _ _] _]%reachable_inv db.
  assert (∀ oid o, orders db !! oid = Some o → o_status o ∈ BOARD_STATUSES → is_Some (o_orderNumber o)) as Hnum.
  { intros oid o Ho Hst. apply (queue_called _ _ HQ _ _ Ho). apply (bool_decide_eq_true_2 _) in Hst.
    by destruct (o_status o); try discriminate Hst; apply (bool_decide_eq_false_1 _). }
  assert (∀ oid o, boardRows db !! oid = Some o ↔ orders db !! oid = Some o ∧ o_status o ∈ BOARD_STATUSES) as Hrows.
  { intros oid o. unfold boardRows. rewrite map_lookup_filter_Some. cbn. naive_solver. }
  split_and!.
  - intros oid o Ho Hst. split; [by apply Hrows|]. destruct (Hnum _ _ Ho Hst) as [n Hn]. exists n.
    split; [done|]. intros oid' o' [Ho' _]%Hrows Hday Hn'. by eapply (queue_unique _ _ HQ).
  - intros Hle entry. unfold boardSnapshot, boardEntries.
    rewrite take_ge by (by rewrite length_oldestFirst). rewrite list_elem_of_fmap. split.
    + intros ([oid o] & -> & [Ho Hst]%elem_of_oldestFirst%Hrows). exists oid, o.
      destruct (Hnum _ _ Ho Hst) as [n Hn]. unfold entryOf. cbn. by rewrite Hn.
    + intros (oid & o & Ho & Hst & Hn & Hs). exists (oid, o). rewrite elem_of_oldestFirst, Hrows.
      split; [|done]. destruct entry. unfold entryOf. cbn in *. by rewrite Hn, Hs.
  - intros Hle ticket. unfold kdsSnapshot. rewrite take_ge by (by rewrite length_oldestFirst).
    rewrite list_elem_of_fmap. split.
    + intros ([oid o] & -> & Ho%elem_of_oldestFirst). apply map_lookup_filter_Some in Ho as [Ho Hst].
      exists oid, o. split_and!; [done..|]. unfold ticketFor. by rewrite Ho.
    + intros (oid & o & Ho & Hst & Ht). unfold ticketFor in Ht. rewrite Ho in Ht. injection Ht as <-.
      exists (oid, o). split; [done|]. rewrite elem_of_oldestFirst. by apply map_lookup_filter_Some.
  - pose proof (oldestFirst_sorted (kdsRows db)) as Hs.
    rewrite <-(take_drop MAX_TICKETS (oldestFirst (kdsRows db))) in Hs. by apply StronglySorted_app_1_l in Hs.
  - unfold kdsSnapshot. rewrite length_fmap, length_take. lia.
  - unfold boardSnapshot, boardEntries. rewrite length_fmap, length_take. lia.
Qed.
End live.

(** ** Schedules *)

Section schedules.
Context `{port : PaymentPort}.
Context (config : Config) (tzOffset : string → Z → Z) (sha256 : string → string).

(** A request begins, the handler or the publisher in a place takes its next action. *)
Inductive Turn := Start (th : thread) | Handler (i : nat) | Publisher (j : nat).

Definition handlerTurn (gw : Gateway) (c : Pool) (i : nat) : Pool :=
  match pool_threads c !! i with
  | Some (existT R (Step t k)) =>
      {| pool_db := (t (pool_db c)).1; pool_log := pool_log c;
         pool_threads := <[i := thread_of (k (t (pool_db c)).2)]> (pool_threads c) |}
  | Some (existT R (Ask call k)) =>
      {| pool_db := pool_db c; pool_log := pool_log c;
         pool_threads := <[i := thread_of (k (gw call))]> (pool_threads c) |}
  | Some (existT R (Emit e k)) =>
      {| pool_db := pool_db c; pool_log := pool_log c ++ [e];
         pool_threads := <[i := thread_of k]> (pool_threads c) |}
  | _ => c
  end.

Definition liveTurn (gw : Gateway) (s : Live) (turn : Turn) : Live :=
  let c := lv_pool s in
  match turn with
  | Start th => {| lv_pool := {| pool_db := pool_db c; pool_threads := th :: pool_threads c; pool_log := pool_log c |};
                   lv_publishers := lv_publishers s; lv_pushed := lv_pushed s |}
  | Handler i => let c' := handlerTurn gw c i in
      {| lv_pool := c'; lv_publishers := lv_publishers s ++ started (news c c'); lv_pushed := lv_pushed s |}
  | Publisher j =>
      match lv_publishers s !! j with
      | Some (Look f k) => {| lv_pool := c; lv_publishers := <[j := k (f (pool_db c))]> (lv_publishers s);
                              lv_pushed := lv_pushed s |}
      | Some (Send pushes k) => {| lv_pool := c; lv_publishers := <[j := k]> (lv_publishers s);
                                   lv_pushed := lv_pushed s ++ pushes |}
      | _ => s
      end
  end.

Lemma handlerTurn_step gw c i :
  (pool_step (request config tzOffset sha256) c (handlerTurn gw c i) ∧
   length (pool_threads (handlerTurn gw c i)) = length (pool_threads c)) ∨ handlerTurn gw c i = c.
Proof.
  unfold handlerTurn. destruct c as [db threads log]. cbn.
  destruct (threads !! i) as [[R [r|X t k|call k|e k]]|] eqn:E; [by right| | | |by right];
    left; cbn; rewrite length_insert; (split; [|done]);
    rewrite (insert_take_drop _ _ _ (lookup_lt_Some _ _ _ E)), <-(take_drop_middle _ _ _ E) at 1.
  - apply pool_db_step.
  - apply pool_answer.
  - apply pool_effect.
Qed.

Lemma liveTurns_steps gw turns : ∀ s,
  Forall (fun t => match t with Start th => request config tzOffset sha256 th | _ => True end) turns →
  rtc (live_step config tzOffset sha256 true) s (foldl (liveTurn gw) s turns).
Proof.
  induction turns as [|turn turns IH]; intros s Ht; [reflexivity|].
  apply Forall_cons in Ht as [H1 Ht]. cbn. etrans; [|by apply IH].
  destruct s as [c pubs pushed]. destruct turn as [th|i|j]; cbn.
  - apply rtc_once. destruct c as [db threads log]. cbn.
    assert (started (news {| pool_db := db; pool_threads := threads; pool_log := log |}
      {| pool_db := db; pool_threads := th :: threads; pool_log := log |}) = []) as E.
    { unfold news. cbn. by rewrite drop_all. }
    rewrite <-(app_nil_r pubs) at 2. rewrite <-E. apply live_pool; [by apply pool_spawn|]. cbn. lia.
  - destruct (handlerTurn_step gw c i) as [[Hs Hl]|E].
    + apply rtc_once, live_pool; [done|]. intros _. by rewrite Hl.
    + rewrite E. unfold news. rewrite drop_all. cbn. by rewrite app_nil_r.
  - destruct (pubs !! j) as [[|X f k|pushes k]|] eqn:E; try reflexivity; apply rtc_once;
      rewrite (insert_take_drop _ _ _ (lookup_lt_Some _ _ _ E)), <-(take_drop_middle _ _ _ E) at 1.
    + apply live_look.
    + apply live_send.
Qed.

Definition settledb (s : Live) : bool :=
  forallb (fun th : thread => match projT2 th with Done _ => true | _ => false end) (pool_threads (lv_pool s)) &&
  forallb (fun p => match p with Silent => true | _ => false end) (lv_publishers s).

Lemma settledb_settled s : settledb s = true → settled s.
Proof.
  unfold settledb. rewrite andb_true_iff, !forallb_forall. intros [Hth Hp].
  split; apply Forall_forall; intros x Hx%list_elem_of_In.
  - specialize (Hth x Hx). destruct (projT2 x); try done. eauto.
  - specialize (Hp x Hx). by destruct x.
Qed.
End schedules.

(** ** A rush *)

Module Rush.

Import Shop.

#[local] Existing Instance stripePort.

(** The morning's requests up to the first drink on the bar, each run to its end and its
    publishers after it. *)
Definition runOut (th : thread) (handler publisher : nat) (j : nat) : list Turn :=
  Start th :: replicate handler (Handler 0) ++ replicate publisher (Publisher j).

Definition opening_hours : list Turn :=
  runOut (createFor cashier COUNTER 2 "create-o1" "o1") 6 0 0 ++
  runOut (createFor kiosk KIOSK 1 "create-o2" "o2") 6 0 0 ++
  runOut (thread_of (createPayment sha256 cashier "o1" (cash 30000) (Some "pay-o1") "p1" noon)) 8 6 0 ++
  runOut (thread_of (createPayment sha256 kiosk "o2" byGateway (Some "pay-o2") "p2" noon)) 8 0 0 ++
  runOut (thread_of (receive stripe ["whsec"] (Some "body") (Some "whsec") "e1" noon)) 4 0 0 ++
  runOut (thread_of (processEvent "e1" noon)) 10 6 1.

Definition make : list Turn := [Start (thread_of (transition cashier "o2" IN_PREPARATION)); Handler 0; Handler 0; Handler 0].
Definition finish : list Turn := [Start (thread_of (transition cashier "o2" READY)); Handler 0; Handler 0; Handler 0].

Definition day_of (turns : list Turn) : Live := foldl (liveTurn gw) (opened morning) (opening_hours ++ turns).

Lemma day_of_live turns :
  Forall (fun t => match t with Start th => request config tzOffset sha256 th | _ => True end) turns →
  live_from config tzOffset sha256 true morning (day_of turns).
Proof.
  intros H. split; [by split_and!|]. apply (liveTurns_steps config tzOffset sha256 gw (opening_hours ++ turns)), Forall_app. split; [|done].
  repeat (apply Forall_cons; split; [try done; constructor|]). constructor.
Qed.

Definition after_begin : list Turn := make ++ replicate 4 (Publisher 2).

Lemma after_begin_requests :
  Forall (fun t => match t with Start th => request config tzOffset sha256 th | _ => True end) after_begin.
Proof. repeat (apply Forall_cons; split; [try done; constructor|]). constructor. Qed.

Definition begun_o2 : OrderRow :=
  Eval vm_compute in default blankOrder (orders (pool_db (lv_pool (day_of after_begin))) !! "o2").

Lemma find_begun_o2 : orders (pool_db (lv_pool (day_of after_begin))) !! "o2" = Some begun_o2.
Proof. vm_compute. reflexivity. Qed.

(** The ticket of the third push, to the kiosk. *)
Definition toKiosk (push : option Push) : option (string * string * string * OrderStatus) :=
  match push with
  | Some (DevicePush d kind t) => Some (d, kind, os_id (kt_order t), os_status (kt_order t))
  | _ => None
  end.

Lemma toKiosk_Some x d kind oid st : toKiosk x = Some (d, kind, oid, st) →
  ∃ t, x = Some (DevicePush d kind t) ∧ os_id (kt_order t) = oid ∧ os_status (kt_order t) = st.
Proof. destruct x as [[|d' kind' t|]|]; try done. cbn. intros [= <- <- <- <-]. by exists t. Qed.

Lemma kiosk_push : toKiosk (lv_pushed (day_of after_begin) !! 2%nat) = Some ("k1", "payment.succeeded", "o2", PAID).
Proof. vm_compute. reflexivity. Qed.

(** The drink is begun, the bar and the board have been told. *)
Lemma screens_informed_witness :
  let s := day_of after_begin in
  (∃ ticket kind, ticketFor (pool_db (lv_pool s)) "o2" = Some ticket ∧ os_status (kt_order ticket) = IN_PREPARATION ∧
    KdsPush kind ticket ∈ lv_pushed s) ∧
  BoardPush [ {| be_orderNumber := "A-002"; be_status := IN_PREPARATION |} ] ∈ lv_pushed s.
Proof.
  cbv zeta. pose proof (screens_informed config tzOffset sha256 morning (day_of after_begin)
    (day_of_live _ after_begin_requests)) as H.
  destruct H as [Hord Hboard]; [apply settledb_settled; by vm_compute|]. split.
  - destruct (Hord _ _ find_begun_o2) as (ticket & Ht & (kind & Hin) & _); [done|].
    exists ticket, kind. split_and!; [done| |done].
    by rewrite (ticketFor_status _ _ _ _ find_begun_o2 Ht).
  - assert (boardSnapshot (pool_db (lv_pool (day_of after_begin))) =
      [ {| be_orderNumber := "A-002"; be_status := IN_PREPARATION |} ]) as E by (vm_compute; reflexivity).
    rewrite <-E. destruct Hboard as [Hn|Hb]; [exfalso|exact Hb].
    assert (bool_decide (neverShown (pool_db (lv_pool (day_of after_begin)))) = false) as Hf by (vm_compute; reflexivity).
    exact (bool_decide_eq_false_1 _ Hf Hn).
Defined.

(** A calm run is a run. *)
Lemma live_step_any s s' : live_step config tzOffset sha256 true s s' → live_step config tzOffset sha256 false s s'.
Proof. destruct 1; [by apply live_pool|apply live_look|apply live_send|done]. Qed.

Lemma pushes_true_witness :
  ∃ c0 o, reachable config tzOffset sha256 c0 ∧ orders (pool_db c0) !! "o2" = Some o ∧ o_status o = PAID ∧
    o_kioskDeviceId o = Some "k1".
Proof.
  assert (∃ ticket, DevicePush "k1" "payment.succeeded" ticket ∈ lv_pushed (day_of after_begin) ∧
    os_id (kt_order ticket) = "o2" ∧ os_status (kt_order ticket) = PAID) as (ticket & Hin & Hid & Hst).
  { destruct (toKiosk_Some _ _ _ _ _ kiosk_push) as (t & Hl & ?). exists t.
    split; [exact (list_elem_of_lookup_2 _ _ _ Hl)|assumption]. }
  assert (live_from config tzOffset sha256 false morning (day_of after_begin)) as Hlive.
  { destruct (day_of_live _ after_begin_requests) as [Ho Hs]. split; [done|].
    by eapply rtc_subrel; [exact live_step_any|]. }
  destruct (pushes_true config tzOffset sha256 morning _ _ Hlive Hin) as [(_ & (c0 & Hr & Hs & Ht) & o & Ho & Hd) _].
  apply fmap_Some in Ht as (o0 & Ho0 & E). rewrite Hid in *. exists c0, o0.
  split_and!; [done|done|by rewrite E in Hst|].
  destruct (reachable_ev _ _ _ _ _ Hr Hs) as [[HO _ _ _ _ _ _ _] _].
  destruct (HO _ _ Ho0) as (o' & Ho' & [Hf] & _). unfold order_frozen in Hf. congruence.
Defined.

Lemma snapshots_faithful_witness :
  {| be_orderNumber := "A-002"; be_status := IN_PREPARATION |} ∈ boardSnapshot (pool_db closing).
Proof.
  apply (snapshots_faithful config tzOffset sha256 closing closing_reachable);
    [apply Nat.leb_le; vm_compute; reflexivity|].
  exists "o2", paid_o2. split_and!; [exact find_o2|by apply (bool_decide_eq_true_1 _)|done|done].
Defined.

(** The order is marked ready while the push of its start is still on its way. *)
Definition overtakenTicket : list Turn :=
  make ++ [Publisher 2] ++ finish ++ replicate 4 (Publisher 3) ++ replicate 4 (Publisher 2).
Definition overtakenBoard : list Turn :=
  make ++ replicate 3 (Publisher 2) ++ finish ++ replicate 4 (Publisher 3) ++ replicate 4 (Publisher 2).

(** Nothing is lost, and still a screen is left showing the past: a publisher reads and
    then pushes, so one that is overtaken in between pushes last what it read first. The
    bar keeps a ready drink as in preparation, or the board does, until the next event of
    the order or a reload. *)
Theorem overtaken_push_is_last :
  (let s := day_of overtakenTicket in
   live_from config tzOffset sha256 true morning s ∧ settled s ∧
   o_status <$> orders (pool_db (lv_pool s)) !! "o2" = Some READY ∧
   last (omap (fun x => match x with KdsPush _ t => Some (os_id (kt_order t), os_status (kt_order t)) | _ => None end)
     (lv_pushed s)) = Some ("o2", IN_PREPARATION)) ∧
  (let s := day_of overtakenBoard in
   live_from config tzOffset sha256 true morning s ∧ settled s ∧
   boardSnapshot (pool_db (lv_pool s)) = [ {| be_orderNumber := "A-002"; be_status := READY |} ] ∧
   last (lv_pushed s) = Some (BoardPush [ {| be_orderNumber := "A-002"; be_status := IN_PREPARATION |} ])).
Proof.
  split; cbv zeta.
  - split_and!; [|apply settledb_settled; by vm_compute|by vm_compute..].
    apply day_of_live. repeat (apply Forall_cons; split; [try done; constructor|]). constructor.
  - split_and!; [|apply settledb_settled; by vm_compute|by vm_compute..].
    apply day_of_live. repeat (apply Forall_cons; split; [try done; constructor|]). constructor.
Qed.
End Rush.
