(* ===== verification/Sockets.v ===== *)
(** * Sockets: [realtime/kds.gateway.ts], [realtime/kiosk.gateway.ts],
    [realtime/board.gateway.ts] and [realtime/revocation-subscriber.service.ts]

    The sockets one instance holds in the two authenticated namespaces, beside the identity
    tables and Redis they are checked against: the handshakes, the rooms a socket is filed
    in, the kill channel's messages and the presence job. The handshake's check and the
    filing are separate actions; anything may happen between them. The board's namespace
    has no gate and no rooms, so it has no state here. *)

From S2P Require Import Prelude Text Schema Errors Idempotency Fingerprint Ordering OrdersRead JsonText RateLimit Atoms.
From S2P Require Import IdentityStore Revocations Sessions Devices Guards IdentitySafety Reception Access Entry.

(** ** The state of an instance *)

(** A socket's [data.principal] and the rooms it is in. *)
Record KdsSocket := { ks_principal : StaffSession; ks_rooms : list string }.
Record KioskSocket := { kk_deviceId : string; kk_rooms : list string }.

Record Hall := {
  ha_identity : Identity;
  ha_kds : gmap string KdsSocket;
  ha_kiosk : gmap string KioskSocket }.

Definition userRoom (userId : string) : string := "user:" +:+ userId.
Definition tokenRoom (jti : string) : string := "token:" +:+ jti.
Definition deviceRoom (deviceId : string) : string := "device:" +:+ deviceId.

Definition UNAUTHORIZED : AppError := JsError "unauthorized".

(** An action on the identity tables, taken by this instance. *)
Fixpoint inHall {R} (p : handler Identity R) : handler Hall R :=
  match p with
  | Answer r => Answer r
  | Act t k => Act (fun h => ({| ha_identity := (t (ha_identity h)).1; ha_kds := ha_kds h; ha_kiosk := ha_kiosk h |},
                               (t (ha_identity h)).2)) (fun x => inHall (k x))
  end.

(** ** Handshakes *)

Definition fromHeader (authorization : option string) : option string :=
  match bearerTokenOf authorization with Ok token => Some token | Err _ => None end.

(** [bearerFrom]: [auth.token] if it is a string with something in it, else the header. *)
Definition bearerFrom (auth authorization : option string) : option string :=
  match auth with
  | Some token => if bool_decide (token = "") then fromHeader authorization else Some token
  | None => fromHeader authorization
  end.

Section handshakes.
Context `{!Jwt} (sha256 : string → string).

(** [KdsGateway.authenticate]: every refusal is the same, and an unreachable Redis refuses. *)
Definition kdsAuthenticate (auth authorization : option string) : idM StaffSession :=
  match bearerFrom auth authorization with
  | None => raise UNAUTHORIZED
  | Some token =>
      now ← act (query i_now);
      match verifyAccess now token with
      | Err _ => raise UNAUTHORIZED
      | Ok session =>
          andThen (isRevoked (ss_userId session) (ss_tokenId session)) (fun revoked =>
            match revoked with
            | Ok false => give session
            | Ok true | Err _ => raise UNAUTHORIZED
            end)
      end
  end.

(** [KioskGateway.authenticate]. *)
Definition kioskAuthenticate (auth authorization : option string) : idM string :=
  match bearerFrom auth authorization with
  | None => raise UNAUTHORIZED
  | Some token =>
      andThen (resolve sha256 token) (fun principal =>
        match principal with
        | Ok (DevicePrincipal deviceId) => give deviceId
        | _ => raise UNAUTHORIZED
        end)
  end.

(** [handleConnection]: the socket is filed under its rooms. The middleware has set the
    principal, so the branch that hangs up on a socket without one is never taken. *)
Definition kdsFile (socketId : string) (session : StaffSession) (h : Hall) : Hall :=
  {| ha_identity := ha_identity h; ha_kiosk := ha_kiosk h;
     ha_kds := <[socketId := {| ks_principal := session;
       ks_rooms := [userRoom (ss_userId session); tokenRoom (ss_tokenId session)] |}]> (ha_kds h) |}.

Definition kioskFile (socketId deviceId : string) (h : Hall) : Hall :=
  {| ha_identity := ha_identity h; ha_kds := ha_kds h;
     ha_kiosk := <[socketId := {| kk_deviceId := deviceId; kk_rooms := [deviceRoom deviceId] |}]> (ha_kiosk h) |}.

(** [server.use(authenticate)], then [handleConnection]. *)
Definition kdsConnect (socketId : string) (auth authorization : option string) : fallible Hall AppError unit :=
  session ← inHall (kdsAuthenticate auth authorization);
  act (fun h => (kdsFile socketId session h, Ok tt)).

Definition kioskConnect (socketId : string) (auth authorization : option string) : fallible Hall AppError unit :=
  deviceId ← inHall (kioskAuthenticate auth authorization);
  act (fun h => (kioskFile socketId deviceId h, Ok tt)).

(** ** The kill channel *)

(** [local.in(room).disconnectSockets()] in each namespace. *)
Definition kdsRevoke (revocation : Revocation) (sockets : gmap string KdsSocket) : gmap string KdsSocket :=
  match revocation with
  | RevokeDevice _ => sockets
  | RevokeUser userId => filter (fun e => userRoom userId ∉ ks_rooms e.2) sockets
  | RevokeToken jti => filter (fun e => tokenRoom jti ∉ ks_rooms e.2) sockets
  end.

Definition kioskRevoke (revocation : Revocation) (sockets : gmap string KioskSocket) : gmap string KioskSocket :=
  match revocation with
  | RevokeDevice deviceId => filter (fun e => deviceRoom deviceId ∉ kk_rooms e.2) sockets
  | _ => sockets
  end.

(** [subscriber.on('message')]: an unreadable message is ignored. *)
Definition onMessage (raw : string) (h : Hall) : Hall :=
  match parseRevocation raw with
  | None => h
  | Some revocation =>
      {| ha_identity := ha_identity h; ha_kds := kdsRevoke revocation (ha_kds h);
         ha_kiosk := kioskRevoke revocation (ha_kiosk h) |}
  end.

(** ** Presence *)

(** [recordPresence]: the devices of the sockets held here, each once; a failure is
    swallowed. *)
Definition recordPresence : handler Hall unit :=
  Act (fun h => (h, dedupe [] (kk_deviceId <$> (map_to_list (ha_kiosk h)).*2))) (fun deviceIds =>
    andThen (inHall (markSeen deviceIds)) (fun _ => Answer tt)).
End handshakes.

(** ** What may happen to an instance *)

Definition clientLeaves (socketId : string) (h : Hall) : Hall :=
  {| ha_identity := ha_identity h; ha_kds := delete socketId (ha_kds h); ha_kiosk := delete socketId (ha_kiosk h) |}.

Definition hallTask {R : Type} (p : handler Hall R) : task Hall := existT R p.

Inductive hallRequest `{!Jwt} (sha256 : string → string) : task Hall → Prop :=
| hall_kds socketId auth authorization : hallRequest sha256 (hallTask (kdsConnect socketId auth authorization))
| hall_kiosk socketId auth authorization : hallRequest sha256 (hallTask (kioskConnect sha256 socketId auth authorization))
| hall_message raw : hallRequest sha256 (hallTask (Act (fun h => (onMessage raw h, tt)) Answer))
| hall_presence : hallRequest sha256 (hallTask recordPresence)
| hall_leave socketId : hallRequest sha256 (hallTask (Act (fun h => (clientLeaves socketId h, tt)) Answer))
| hall_identity R (p : handler Identity R) : hallRequest sha256 (hallTask (inHall p)).

(** ** Filed sockets *)

(** Each socket is in the rooms of its principal and in no other. *)
Record filed (h : Hall) : Prop := {
  filed_kds : map_Forall (fun _ s => ks_rooms s =
    [userRoom (ss_userId (ks_principal s)); tokenRoom (ss_tokenId (ks_principal s))]) (ha_kds h);
  filed_kiosk : map_Forall (fun _ s => kk_rooms s = [deviceRoom (kk_deviceId s)]) (ha_kiosk h) }.

Lemma always_inHall {R} (p : handler Identity R) : always filed (inHall p).
Proof. induction p as [r|X t k IH]; [done|]. cbn. intros h [? ?]. split; [by split|apply IH]. Qed.

Lemma map_Forall_filter_keep {A} (P : string → A → Prop) (Q : string * A → Prop) `{∀ x, Decision (Q x)} (m : gmap string A) :
  map_Forall P m → map_Forall P (filter Q m).
Proof. intros HP k x [Hx _]%map_lookup_filter_Some. by apply HP. Qed.

Lemma onMessage_filed raw h : filed h → filed (onMessage raw h).
Proof.
  intros [Hk Hd]. unfold onMessage. destruct (parseRevocation raw) as [[u|j|d]|]; [..|done];
    split; cbn; try done; by apply map_Forall_filter_keep.
Qed.

Lemma hallRequest_filed `{!Jwt} sha256 th : hallRequest sha256 th → always filed (projT2 th).
Proof.
  destruct 1 as [sid auth hdr|sid auth hdr|raw| |sid|R p]; cbn [projT2].
  - apply always_andThen; [apply always_inHall|]. intros [session|e]; [|done]. cbn. intros h [? ?]. split; [|done].
    split; [by apply map_Forall_insert_2|done].
  - apply always_andThen; [apply always_inHall|]. intros [d|e]; [|done]. cbn. intros h [? ?]. split; [|done].
    split; [done|by apply map_Forall_insert_2].
  - cbn. intros h Hf. split; [by apply onMessage_filed|done].
  - cbn. intros h Hf. split; [done|]. apply always_andThen; [apply always_inHall|done].
  - cbn. intros h [? ?]. split; [|done]. split; by apply map_Forall_delete.
  - apply always_inHall.
Qed.

(** ** The kill switch *)

Definition namesStaff (message : Revocation) (session : StaffSession) : Prop :=
  message = RevokeUser (ss_userId session) ∨ message = RevokeToken (ss_tokenId session).

#[export] Instance namesStaff_dec message session : Decision (namesStaff message session).
Proof. unfold namesStaff. apply _. Defined.

(** Rooms of different kinds differ, and of one kind by what they name. *)
Lemma room_inj prefix a b : prefix +:+ a = prefix +:+ b → a = b.
Proof. induction prefix as [|c prefix IH]; [done|]. intros [= H]. by apply IH. Qed.

Lemma user_token_rooms a b : userRoom a ≠ tokenRoom b.
Proof. done. Qed.

(** A message about a principal closes its sockets and no others. *)
Lemma onMessage_exact message h :
  filed h → (match message with RevokeUser x | RevokeToken x | RevokeDevice x => x ≠ "" end) →
  onMessage (printRevocation message) h =
    {| ha_identity := ha_identity h;
       ha_kds := filter (fun e => ¬ namesStaff message (ks_principal e.2)) (ha_kds h);
       ha_kiosk := filter (fun e => message ≠ RevokeDevice (kk_deviceId e.2)) (ha_kiosk h) |}.
Proof.
  intros [Hk Hd] Hname. unfold onMessage. rewrite parse_print_revocation by done. f_equal.
  - unfold kdsRevoke. destruct message as [u|j|d].
    + apply map_filter_ext. intros k s Hlook. cbn. rewrite (Hk k s Hlook). unfold namesStaff.
      rewrite !elem_of_cons, elem_of_nil. split.
      * intros Hno [[= E]|?]; [|done]. apply Hno. left. by rewrite E.
      * intros Hno [E|[E|[]]]; [|by apply user_token_rooms in E]. apply Hno. left. f_equal. by eapply room_inj.
    + apply map_filter_ext. intros k s Hlook. cbn. rewrite (Hk k s Hlook). unfold namesStaff.
      rewrite !elem_of_cons, elem_of_nil. split.
      * intros Hno [?|[= E]]; [done|]. apply Hno. right. left. by rewrite E.
      * intros Hno [E|[E|[]]]; [by symmetry in E; apply user_token_rooms in E|]. apply Hno. right. f_equal. by eapply room_inj.
    + symmetry. apply map_filter_id. intros k s _. unfold namesStaff. by intros [?|?].
  - unfold kioskRevoke. destruct message as [u|j|d]; [by symmetry; apply map_filter_id; intros ???..|].
    apply map_filter_ext. intros k s Hlook. cbn. rewrite (Hd k s Hlook), list_elem_of_singleton. split.
    + intros Hno [= E]. apply Hno. by rewrite E.
    + intros Hno E. apply Hno. f_equal. by eapply room_inj.
Qed.

(** However handshakes, departures, presence jobs, identity requests and earlier messages
    interleave, a revocation that reaches this instance closes exactly the sockets of the
    principal it names that are filed here: a user's or a token's screens, or a tablet's,
    and no others; a message that cannot be read closes none. *)
Theorem revocation_closes `{!Jwt} sha256 identity tasks fl message raw :
  Forall (hallRequest sha256) tasks →
  rtc astep {| fl_state := {| ha_identity := identity; ha_kds := ∅; ha_kiosk := ∅ |}; fl_tasks := tasks |} fl →
  (match message with RevokeUser x | RevokeToken x | RevokeDevice x => x ≠ "" end) →
  let h := fl_state fl in
  onMessage (printRevocation message) h =
    {| ha_identity := ha_identity h;
       ha_kds := filter (fun e => ¬ namesStaff message (ks_principal e.2)) (ha_kds h);
       ha_kiosk := filter (fun e => message ≠ RevokeDevice (kk_deviceId e.2)) (ha_kiosk h) |} ∧
  (parseRevocation raw = None → onMessage raw h = h).
Proof.
  intros Htasks Hs Hname h. split; [|unfold onMessage; by intros ->]. apply onMessage_exact; [|done].
  eapply (always_flight filed); [exact Hs|split; apply map_Forall_empty|].
  eapply Forall_impl; [exact Htasks|]. intros th. apply hallRequest_filed.
Qed.

(** ** Who gets in *)

Lemma runAlone_inHall {R} (p : handler Identity R) h :
  runAlone (inHall p) h = ({| ha_identity := (runAlone p (ha_identity h)).1; ha_kds := ha_kds h; ha_kiosk := ha_kiosk h |},
    (runAlone p (ha_identity h)).2).
Proof.
  revert h. induction p as [r|X t k IH]; intros h; [by destruct h|]. cbn. rewrite IH. done.
Qed.

(** A staff token that is read, verifies and is on neither deny key. *)
Definition staffAdmitted `{!Jwt} (auth authorization : option string) (s : Identity) (session : StaffSession) : Prop :=
  ∃ token, bearerFrom auth authorization = Some token ∧ verifyAccess (i_now s) token = Ok session ∧
    i_redisUp s = true ∧ GET (i_now s) (userKey (ss_userId session)) (i_redis s) = None ∧
    GET (i_now s) (tokenKey (ss_tokenId session)) (i_redis s) = None.

(** A tablet's token that is some device's and not a revoked one's. *)
Definition tabletAdmitted (sha256 : string → string) (auth authorization : option string) (s : Identity) (deviceId : string)
    : Prop :=
  ∃ token d, bearerFrom auth authorization = Some token ∧
    findFirst (fun d => bool_decide (d_tokenHash d = Some (sha256 token))) (i_kioskDevices s) = Some d ∧
    d_status d ≠ DevREVOKED ∧ d_id d = deviceId.

Lemma isRevoked_alone u j s : i_redisUp s = true → runAlone (isRevoked u j) s =
  (s, Ok (bool_decide (is_Some (GET (i_now s) (userKey u) (i_redis s))) ||
          bool_decide (is_Some (GET (i_now s) (tokenKey j) (i_redis s))))).
Proof.
  intros Hup. unfold isRevoked, act, runAlone, onRedis. rewrite Hup. cbn. rewrite orb_false_r. f_equal.
  destruct s. cbn in *. by subst.
Qed.

(** Running a handler that begins with a query. *)
Lemma runAlone_query {X R} (f : Identity → X) (k : X → idM R) s :
  runAlone (x ← act (query f); k x) s = runAlone (k (f s)) s.
Proof. done. Qed.

Lemma kdsAuthenticate_alone `{!Jwt} auth authorization s :
  (∃ session, staffAdmitted auth authorization s session ∧
     runAlone (kdsAuthenticate auth authorization) s = (s, Ok session)) ∨
  ((¬ ∃ session, staffAdmitted auth authorization s session) ∧
     runAlone (kdsAuthenticate auth authorization) s = (s, Err UNAUTHORIZED)).
Proof.
  unfold kdsAuthenticate. destruct (bearerFrom auth authorization) as [token|] eqn:Et.
  2:{ right. split; [|done]. intros (ses & token & E & _). congruence. }
  rewrite runAlone_query. destruct (verifyAccess (i_now s) token) as [session|e] eqn:Ev.
  2:{ right. split; [|done]. intros (ses & token' & E & E' & _). congruence. }
  rewrite runAlone_andThen.
  destruct (i_redisUp s) eqn:Hup.
  2:{ right. split; [intros (ses & ? & _ & _ & ? & _); congruence|].
      unfold isRevoked, act, runAlone, onRedis. by rewrite Hup. }
  rewrite (isRevoked_alone _ _ _ Hup). cbn [fst snd].
  destruct (GET (i_now s) (userKey (ss_userId session)) (i_redis s)) as [a|] eqn:Eu.
  { rewrite (bool_decide_eq_true_2 (is_Some (Some a))) by eauto. right. split; [|done].
    intros (ses & token' & E & E' & _ & Hn & _). replace ses with session in Hn by congruence. congruence. }
  destruct (GET (i_now s) (tokenKey (ss_tokenId session)) (i_redis s)) as [b|] eqn:Ej.
  { rewrite (bool_decide_eq_true_2 (is_Some (Some b))) by eauto. rewrite orb_true_r. right. split; [|done].
    intros (ses & token' & E & E' & _ & _ & Hn). replace ses with session in Hn by congruence. congruence. }
  rewrite (bool_decide_eq_false_2 (is_Some None)) by (by intros [? ?]). left. exists session.
  split; [by exists token|done].
Qed.

Lemma kioskAuthenticate_alone sha256 auth authorization s :
  (∃ d s', tabletAdmitted (hashSecret sha256) auth authorization s d ∧
     runAlone (kioskAuthenticate sha256 auth authorization) s = (s', Ok d)) ∨
  ((¬ ∃ d, tabletAdmitted (hashSecret sha256) auth authorization s d) ∧
     runAlone (kioskAuthenticate sha256 auth authorization) s = (s, Err UNAUTHORIZED)).
Proof.
  unfold kioskAuthenticate. destruct (bearerFrom auth authorization) as [token|] eqn:Et.
  2:{ right. split; [|done]. intros (d & token & dev & E & _). congruence. }
  rewrite runAlone_andThen. unfold resolve, findDevice. rewrite runAlone_query.
  destruct (findFirst _ _) as [dev|] eqn:Ef.
  2:{ right. split; [|done]. intros (d & token' & dev & E & E' & _). by simplify_eq. }
  case_bool_decide as Hst.
  { right. split; [|done]. intros (d & token' & dev' & E & E' & Hno & _). by simplify_eq. }
  left. exists (d_id dev). unfold mbind at 1, fallible_bind at 1. rewrite runAlone_andThen.
  assert ((runAlone (touchLastSeen (d_id dev) (d_lastSeenAt dev)) s).2 = Ok tt) as ->.
  { unfold touchLastSeen. rewrite runAlone_query. by destruct (match d_lastSeenAt dev with Some _ => _ | None => _ end). }
  eexists. split; [by exists token, dev|]. reflexivity.
Qed.

(** A screen is let in exactly when its token verifies and neither deny key holds, and a
    tablet exactly when its token is a device's that is not revoked; what is let in is
    filed under its principal, and every refusal says the same and files nothing. *)
Theorem handshakes_admit `{!Jwt} sha256 sid auth authorization h :
  let '(h1, staff) := runAlone (kdsConnect sid auth authorization) h in
  let '(h2, tablet) := runAlone (kioskConnect sha256 sid auth authorization) h in
  (∀ session, staffAdmitted auth authorization (ha_identity h) session → staff = Ok tt ∧ h1 = kdsFile sid session h) ∧
  ((¬ ∃ session, staffAdmitted auth authorization (ha_identity h) session) → staff = Err UNAUTHORIZED ∧ h1 = h) ∧
  (∀ d, tabletAdmitted (hashSecret sha256) auth authorization (ha_identity h) d → tablet = Ok tt ∧
    ha_kiosk h2 = ha_kiosk (kioskFile sid d h) ∧ ha_kds h2 = ha_kds h) ∧
  ((¬ ∃ d, tabletAdmitted (hashSecret sha256) auth authorization (ha_identity h) d) → tablet = Err UNAUTHORIZED ∧ h2 = h).
Proof.
  destruct (runAlone (kdsConnect sid auth authorization) h) as [h1 staff] eqn:E1.
  destruct (runAlone (kioskConnect sha256 sid auth authorization) h) as [h2 tablet] eqn:E2.
  assert (h = {| ha_identity := ha_identity h; ha_kds := ha_kds h; ha_kiosk := ha_kiosk h |}) as Eh by (by destruct h).
  assert ((∀ session, staffAdmitted auth authorization (ha_identity h) session → staff = Ok tt ∧ h1 = kdsFile sid session h) ∧
    ((¬ ∃ session, staffAdmitted auth authorization (ha_identity h) session) → staff = Err UNAUTHORIZED ∧ h1 = h)) as Hstaff.
  { unfold kdsConnect, mbind, fallible_bind in E1. rewrite runAlone_andThen, runAlone_inHall in E1. cbn [fst snd] in E1.
    destruct (kdsAuthenticate_alone auth authorization (ha_identity h)) as [(session & Hadm & E)|[Hno E]];
      rewrite E in E1; cbn in E1; injection E1 as <- <-.
    - split; [|intros Hno; exfalso; by apply Hno; exists session]. intros ses (token & E' & Ev & _).
      destruct Hadm as (token' & E'' & Ev' & _). by replace ses with session by congruence.
    - split; [intros ses Hs; exfalso; by apply Hno; exists ses|]. intros _. by rewrite Eh. }
  destruct Hstaff as [? ?]. split; [done|]. split; [done|].
  unfold kioskConnect, mbind, fallible_bind in E2. rewrite runAlone_andThen, runAlone_inHall in E2. cbn [fst snd] in E2.
  destruct (kioskAuthenticate_alone sha256 auth authorization (ha_identity h)) as [(d & s' & Hadm & E)|[Hno E]];
    rewrite E in E2; cbn in E2; injection E2 as <- <-.
  - split; [|intros Hno; exfalso; by apply Hno; exists d]. intros d' (token & dev & Et & Ef & _ & <-).
    destruct Hadm as (token' & dev' & Et' & Ef' & _ & <-). simplify_eq. done.
  - split; [intros d Hs; exfalso; by apply Hno; exists d|]. intros _. by rewrite Eh.
Qed.

(** ** An evening at the bar *)

Module Bar.

#[local] Instance jwt : Jwt := Signer.signer 900.

Definition ownerToken : string := Signer.sign 5000 "u0" "ADMIN" STAFF_TOKEN_TYPE "jti1".
Definition empty : Hall := {| ha_identity := opening; ha_kds := ∅; ha_kiosk := ∅ |}.
Definition connect : task Hall := hallTask (kdsConnect "s1" (Some ownerToken) None).
Definition revokeOwner : task Hall := hallTask (inHall (revokeUser 900 "u0")).
Definition killMessage : task Hall := hallTask (Act (fun h => (onMessage (printRevocation (RevokeUser "u0")) h, tt)) Answer).

Definition evening : Flight Hall := {| fl_state := empty; fl_tasks := [connect; revokeOwner; killMessage] |}.

(** The owner's screen, connected. *)
Definition connected : Flight Hall := turns evening [0; 0; 0]%nat.

Lemma evening_requests : Forall (hallRequest plain) [connect; revokeOwner; killMessage].
Proof. repeat constructor. Qed.

Lemma revocation_closes_witness :
  size (ha_kds (fl_state connected)) = 1%nat ∧
  ha_kds (onMessage (printRevocation (RevokeUser "u0")) (fl_state connected)) = ∅.
Proof.
  split; [by vm_compute|].
  destruct (revocation_closes plain opening [connect; revokeOwner; killMessage] connected (RevokeUser "u0") "?" evening_requests
    (turns_reach _ _) ltac:(done)) as [E _].
  rewrite E. by vm_compute.
Defined.

Lemma handshakes_admit_witness :
  (runAlone (kdsConnect "s1" (Some ownerToken) None) empty).2 = Ok tt.
Proof.
  pose proof (handshakes_admit plain "s1" (Some ownerToken) None empty) as H.
  destruct (runAlone (kdsConnect _ _ _) _) as [h1 staff]. destruct (runAlone (kioskConnect _ _ _ _) _) as [h2 tablet].
  destruct H as [H _]. destruct (H {| ss_userId := "u0"; ss_role := ADMIN; ss_tokenId := "jti1" |}) as [-> _]; [|done].
  exists ownerToken. by vm_compute.
Defined.

(** The screen's token is checked, then its owner is revoked and the kill message reaches
    the instance, and only then is the socket filed: it stays open, although its token is
    on the deny list and any later handshake with it is refused. *)
Theorem revoked_screen_stays :
  let after := turns evening [0; 0; 1; 1; 2; 0]%nat in
  size (ha_kds (fl_state after)) = 1%nat ∧
  (runAlone (isRevoked "u0" "jti1") (ha_identity (fl_state after))).2 = Ok true ∧
  (runAlone (kdsConnect "s2" (Some ownerToken) None) (fl_state after)).2 = Err UNAUTHORIZED ∧
  answered after 1 = Some (reply (R := result AppError unit) (Ok tt)) ∧
  answered after 2 = Some (reply tt).
Proof. by vm_compute. Qed.
End Bar.
