(* ===== verification/Connections.v ===== *)
(** * Connections: the process's Redis clients and what an outage does to them

    [redis/close-redis.ts], [redis/redis.module.ts], [realtime/socket-io.adapter.ts] and the
    connection of [realtime/revocation-subscriber.service.ts]. A process holds clients, each with
    the status ioredis gives it; what ioredis and the Socket.IO adapter do to them is a sequence
    of events. Node ends the process on a rejection nobody handles and on an [error] event nobody
    listens to, which is what the code here is about. The second half puts several such processes,
    with their sockets, on one channel. *)

From S2P Require Import Prelude Text IdentityStore Revocations Errors Atoms Sessions Guards Reception Sockets.
From stdpp Require Import functions.

Definition REVOCATION_CHANNEL : string := "cafepos:auth:revoked".

(** ** Clients *)

(** [client.status], as far as the code distinguishes: a client connects, may be connecting
    again, or has ended. *)
Inductive Status := Connecting | Ready | Reconnecting | Ended.

#[export] Instance Status_eq_dec : EqDecision Status.
Proof. solve_decision. Defined.

Record Client := {
  cl_status : Status;
  (** [attachRedisDiagnostics]: failures go to the log, not to the standard error. *)
  cl_diagnosed : bool;
  cl_channels : list string }.

Definition newClient : Client := {| cl_status := Connecting; cl_diagnosed := false; cl_channels := [] |}.

Definition withStatus (status : Status) (c : Client) : Client :=
  {| cl_status := status; cl_diagnosed := cl_diagnosed c;
     cl_channels := match status with Ready => cl_channels c | _ => [] end |}.

Definition attachDiagnostics (c : Client) : Client :=
  {| cl_status := cl_status c; cl_diagnosed := true; cl_channels := cl_channels c |}.

Definition subscribed (channel : string) (c : Client) : Client :=
  {| cl_status := cl_status c; cl_diagnosed := cl_diagnosed c; cl_channels := channel :: cl_channels c |}.

Definition disconnect (c : Client) : Client := withStatus Ended c.

Section closing.
(** [quit]: it succeeds, is rejected, or waits for a connection ([None]). *)
Context (quit : Client → option bool).

(** [None] where the call never returns. *)
Definition closeRedis (client : Client) : option Client :=
  if bool_decide (cl_status client = Ready) then
    quitted ← quit client;
    Some (if (quitted : bool) then withStatus Ended client else disconnect client)
  else Some (disconnect client).

End closing.

(** ** Promises *)

(** What a client's method returns: a value, or a promise that is rejected or not and that
    somebody handles or nobody does. *)
Inductive Outcome := Value (v : string) | Promise (rejected : bool) (handled : bool).

(** A property of a client: something plain, or a method of the client's arguments. *)
Inductive Property := Plain (v : string) | Method (call : list string → Outcome).

(** A client as an object: its properties by name. *)
Notation Object := (string → Property).

(** [result.catch(() => undefined)] on the promise handed back. *)
Definition attend (o : Outcome) : Outcome :=
  match o with Value v => Value v | Promise rejected _ => Promise rejected true end.

(** [unattended]: the proxy's [get]. *)
Definition unattended (client : Object) : Object := fun property =>
  match client property with
  | Plain v => Plain v
  | Method call => Method (fun args => attend (call args))
  end.

(** Node's rule: a rejected promise nobody handles ends the process. *)
Definition endsProcess (o : Outcome) : bool :=
  match o with Promise true false => true | _ => false end.

(** ** The process *)

(** Who holds a client: [REDIS], [RedisIoAdapter.pub] and [.sub], and
    [RevocationSubscriber.subscriber]. *)
Inductive Owner := Base | Pub | Sub | Subscriber.

#[export] Instance Owner_eq_dec : EqDecision Owner.
Proof. solve_decision. Defined.

Record Process := {
  pr_clients : gmap nat Client;
  pr_next : nat;
  pr_held : Owner → option nat;
  (** The namespaces, and whether their adapter's [error] has a listener. *)
  pr_namespaces : gmap string bool;
  (** [server.on('new_namespace')]. *)
  pr_watching : bool;
  pr_ended : bool;
  pr_log : list string }.

Definition started : Process :=
  {| pr_clients := ∅; pr_next := 0; pr_held := fun _ => None; pr_namespaces := ∅; pr_watching := false;
     pr_ended := false; pr_log := [] |}.

Definition with_clients (clients : gmap nat Client) (p : Process) : Process :=
  {| pr_clients := clients; pr_next := pr_next p; pr_held := pr_held p; pr_namespaces := pr_namespaces p;
     pr_watching := pr_watching p; pr_ended := pr_ended p; pr_log := pr_log p |}.

Definition with_namespaces (namespaces : gmap string bool) (watching : bool) (p : Process) : Process :=
  {| pr_clients := pr_clients p; pr_next := pr_next p; pr_held := pr_held p; pr_namespaces := namespaces;
     pr_watching := watching; pr_ended := pr_ended p; pr_log := pr_log p |}.

Definition releasing (owner : Owner) (p : Process) : Process :=
  {| pr_clients := pr_clients p; pr_next := pr_next p; pr_held := <[owner := None]> (pr_held p);
     pr_namespaces := pr_namespaces p; pr_watching := pr_watching p; pr_ended := pr_ended p; pr_log := pr_log p |}.

Definition logging (line : string) (p : Process) : Process :=
  {| pr_clients := pr_clients p; pr_next := pr_next p; pr_held := pr_held p; pr_namespaces := pr_namespaces p;
     pr_watching := pr_watching p; pr_ended := pr_ended p; pr_log := line :: pr_log p |}.

Definition ending (p : Process) : Process :=
  {| pr_clients := pr_clients p; pr_next := pr_next p; pr_held := pr_held p; pr_namespaces := pr_namespaces p;
     pr_watching := pr_watching p; pr_ended := true; pr_log := pr_log p |}.

(** [new Redis(...)] or [duplicate()], then the diagnostics, kept in a field. *)
Definition connect (owner : Owner) (p : Process) : Process :=
  {| pr_clients := <[pr_next p := attachDiagnostics newClient]> (pr_clients p); pr_next := S (pr_next p);
     pr_held := <[owner := Some (pr_next p)]> (pr_held p); pr_namespaces := pr_namespaces p;
     pr_watching := pr_watching p; pr_ended := pr_ended p; pr_log := pr_log p |}.

(** The factory of [RedisModule]. *)
Definition redisModule (p : Process) : Process := connect Base p.

(** [RevocationSubscriber.onModuleInit]: a connection of its own, which subscribes when it is
    ready ([clientReady]). *)
Definition subscriberInit (p : Process) : Process := connect Subscriber p.

(** The options the Socket.IO server gets: the origins, where there are any, with credentials. *)
Definition serverCors (corsOrigins : list string) : option (list string * bool) :=
  match corsOrigins with [] => None | _ => Some (corsOrigins, true) end.

(** [createIOServer]: the pair, and a listener on the namespace there is and on those to come. *)
Definition createIOServer (p : Process) : Process :=
  let p := connect Sub (connect Pub p) in
  logging "Socket.IO clustered over Redis pub/sub" (with_namespaces (<["/" := true]> (pr_namespaces p)) true p).

(** A gateway registers its namespace. *)
Definition newNamespace (name : string) (p : Process) : Process :=
  with_namespaces (<[name := default (pr_watching p) (pr_namespaces p !! name)]> (pr_namespaces p)) (pr_watching p) p.

Definition degraded (described : string) (p : Process) : Process :=
  logging ("Realtime pub/sub degraded: " +:+ described) p.

(** A namespace's adapter emits [error]; without a listener the emitter throws. *)
Definition adapterError (name described : string) (p : Process) : Process :=
  match pr_namespaces p !! name with
  | Some true => degraded described p
  | Some false => ending p
  | None => p
  end.

(** The adapter calls a method of the client it was handed and drops what it returns. *)
Definition adapterCalls (handed : Object) (property : string) (args : list string) (p : Process) : Process :=
  match handed property with
  | Plain _ => p
  | Method call => if endsProcess (call args) then ending p else p
  end.

Definition onClient (id : nat) (f : Client → Client) (p : Process) : Process :=
  with_clients (alter f id (pr_clients p)) p.

(** [ready]: the subscriber asks for the kill channel, on the first connection and on each
    after it; a refusal is logged and not thrown. *)
Definition clientReady (id : nat) (accepted : bool) (p : Process) : Process :=
  let p := onClient id (withStatus Ready) p in
  if bool_decide (pr_held p Subscriber = Some id) then
    if accepted then onClient id (subscribed REVOCATION_CHANNEL) p
    else logging "Could not subscribe to the kill channel; revocations will not reach this instance until Redis recovers." p
  else p.

(** What happens to a process that has booted. A client that ended stays so. *)
Inductive RedisHappening :=
| NamespaceMade (name : string)
| CameUp (id : nat) (accepted : bool)
| WentDown (id : nat)
| GaveUp (id : nat)
| AdapterCalled (client : Object) (property : string) (args : list string)
| AdapterErred (name described : string).

Definition alive (id : nat) (p : Process) : bool :=
  match pr_clients p !! id with Some c => negb (bool_decide (cl_status c = Ended)) | None => false end.

Definition react (p : Process) (e : RedisHappening) : Process :=
  match e with
  | NamespaceMade name => newNamespace name p
  | CameUp id accepted => if alive id p then clientReady id accepted p else p
  | WentDown id => if alive id p then onClient id (withStatus Reconnecting) p else p
  | GaveUp id => onClient id (withStatus Ended) p
  | AdapterCalled client property args => adapterCalls (unattended client) property args p
  | AdapterErred name described => adapterError name described p
  end.

(** The order of a boot: the modules, then the server the gateways bind to. *)
Definition bootRedis : Process := createIOServer (subscriberInit (redisModule started)).

Definition history : list RedisHappening → Process := foldl react bootRedis.

(** *** Shutting down *)

Section shutdown.
Context (quit : Client → option bool).

(** [stop]: a field's client closed, where it holds one. *)
Definition closeHeld (owner : Owner) (p : Process) : option Process :=
  match pr_held p owner with
  | None => Some p
  | Some id =>
      match pr_clients p !! id with
      | None => Some p
      | Some c => c ← closeRedis quit c; Some (with_clients (<[id := c]> (pr_clients p)) p)
      end
  end.

(** [RedisIoAdapter.dispose]. *)
Definition dispose (p : Process) : option Process :=
  p ← closeHeld Pub p;
  p ← closeHeld Sub p;
  Some (releasing Sub (releasing Pub p)).

End shutdown.

(** ** An outage is survived *)

(** What every event keeps: the process runs, its namespaces are listened to and those to come
    will be, its clients are watched, and each field holds the client it was given. *)
Record sound (p : Process) : Prop := {
  so_running : pr_ended p = false;
  so_watching : pr_watching p = true;
  so_listened : map_Forall (fun _ listened => listened = true) (pr_namespaces p);
  so_held : pr_held p = pr_held bootRedis;
  so_clients : dom (pr_clients p) = dom (pr_clients bootRedis);
  so_diagnosed : map_Forall (fun _ c => cl_diagnosed c = true) (pr_clients p);
  so_channels : map_Forall (fun id c => cl_channels c ≠ [] →
    pr_held bootRedis Subscriber = Some id ∧ cl_status c = Ready) (pr_clients p) }.

Lemma sound_boot : sound bootRedis.
Proof. split; try done; apply (bool_decide_unpack _); by vm_compute. Qed.

Lemma sound_logging line p : sound p → sound (logging line p).
Proof. by intros []. Qed.

(** Changing one client, to one that is watched and hears of nothing it should not. *)
Lemma sound_onClient id f p :
  (∀ c, cl_diagnosed (f c) = cl_diagnosed c) →
  (∀ c, pr_clients p !! id = Some c → cl_channels (f c) ≠ [] →
    pr_held bootRedis Subscriber = Some id ∧ cl_status (f c) = Ready) →
  sound p → sound (onClient id f p).
Proof.
  intros Hd Hc []. split; try done.
  - cbn. by rewrite dom_alter_L.
  - intros j c. cbn. destruct (decide (id = j)) as [<-|]; [rewrite lookup_alter_eq|rewrite lookup_alter_ne by done; eauto].
    intros (c0 & Hc0 & ->)%fmap_Some. rewrite Hd. by eapply so_diagnosed0.
  - intros j c. cbn. destruct (decide (id = j)) as [<-|]; [rewrite lookup_alter_eq|rewrite lookup_alter_ne by done; eauto].
    intros (c0 & Hc0 & ->)%fmap_Some. by apply Hc.
Qed.

Lemma sound_status id status p : status ≠ Ready → sound p → sound (onClient id (withStatus status) p).
Proof. intros Hne. apply sound_onClient; [done|]. intros c _ H. by destruct status. Qed.

Lemma sound_ready id p : sound p → sound (onClient id (withStatus Ready) p).
Proof.
  intros Hs. apply sound_onClient; [done| |done]. intros c Hc Hch. cbn in *. split; [|done].
  by eapply (so_channels p Hs).
Qed.

Lemma sound_clientReady id accepted p : sound p → sound (clientReady id accepted p).
Proof.
  intros Hs%(sound_ready id). unfold clientReady. case_bool_decide as Hh; [|done].
  rewrite (so_held _ Hs) in Hh. destruct accepted; [|by apply sound_logging].
  apply sound_onClient; [done| |done]. intros c Hc _. split; [done|]. cbn in Hc. rewrite lookup_alter_eq in Hc.
  by apply fmap_Some in Hc as (c0 & _ & ->).
Qed.

Lemma unattended_safe client property call args :
  unattended client property = Method call → endsProcess (call args) = false.
Proof.
  unfold unattended. destruct (client property) as [v|call']; [done|]. intros [= <-].
  by destruct (call' args) as [|[] []].
Qed.

Lemma sound_react p e : sound p → sound (react p e).
Proof.
  intros Hs. destruct e as [name|id ok|id|id|client property args|name described]; cbn [react].
  - destruct Hs. split; try done. unfold newNamespace. cbn. apply map_Forall_insert_2; [|done].
    destruct (pr_namespaces p !! name) eqn:E; [by apply (so_listened0 name)|done].
  - destruct (alive id p); [by apply sound_clientReady|done].
  - destruct (alive id p); [by apply sound_status|done].
  - by apply sound_status.
  - unfold adapterCalls. destruct (unattended client property) as [|call] eqn:E; [done|].
    by rewrite (unattended_safe _ _ _ args E).
  - unfold adapterError. destruct (pr_namespaces p !! name) as [[]|] eqn:E; [by apply sound_logging| |done].
    by apply (so_listened p Hs) in E.
Qed.

Lemma sound_history events : sound (history events).
Proof.
  assert (∀ p, sound p → sound (foldl react p events)) as H; [|apply H, sound_boot].
  induction events as [|e events IH]; intros p Hp; [done|]. cbn. by apply IH, sound_react.
Qed.

(** The instance hears of revocations. *)
Definition hearsRevocations (p : Process) : Prop :=
  ∃ id c, pr_held p Subscriber = Some id ∧ pr_clients p !! id = Some c ∧ cl_status c = Ready ∧
    REVOCATION_CHANNEL ∈ cl_channels c.

(** A subscriber's client that is back and has its subscription taken hears again. *)
Lemma sound_resubscribes p : sound p →
  ∃ id, pr_held p Subscriber = Some id ∧ (alive id p = true → hearsRevocations (react p (CameUp id true))).
Proof.
  intros Hs. exists 1%nat. assert (pr_held p Subscriber = Some 1%nat) as Hh by by rewrite (so_held _ Hs). split; [done|].
  intros Ha. cbn. rewrite Ha. unfold clientReady. rewrite bool_decide_eq_true_2 by done.
  unfold alive in Ha. destruct (pr_clients p !! 1%nat) as [c|] eqn:E; [|done].
  exists 1%nat, (subscribed REVOCATION_CHANNEL (withStatus Ready c)). split; [done|]. cbn.
  rewrite !lookup_alter_eq, E. split; [done|]. split; [done|]. set_solver.
Qed.

(** Whatever Redis and the adapter do, the process goes on: no command the adapter drops and no
    [error] of a namespace ends it, every client's failures go to the log, no client but the
    subscriber's ever enters subscriber mode, and the kill channel is heard again the moment the
    subscriber's client is back and its subscription taken, however it was lost. *)
Theorem outage_survived events :
  let p := history events in
  pr_ended p = false ∧
  map_Forall (fun _ c => cl_diagnosed c = true) (pr_clients p) ∧
  (∀ id c, pr_clients p !! id = Some c → pr_held p Subscriber ≠ Some id → cl_channels c = []) ∧
  ∃ id, pr_held p Subscriber = Some id ∧ (alive id p = true → hearsRevocations (react p (CameUp id true))).
Proof.
  cbv zeta. pose proof (sound_history events) as Hs. set (p := history events) in *. clearbody p.
  split; [apply Hs|]. split; [apply Hs|]. split.
  - intros id c Hc Hne. destruct (cl_channels c) eqn:E; [done|]. exfalso. apply Hne. rewrite (so_held _ Hs).
    apply (so_channels _ Hs id c Hc). by rewrite E.
  - by apply sound_resubscribes.
Qed.

(** The proxy changes nothing the adapter can see: a value is the same value, and a promise is
    the same promise with one handler more. *)
Theorem unattended_transparent client property :
  match client property, unattended client property with
  | Plain v, Plain w => v = w
  | Method call, Method call' => ∀ args,
      match call args, call' args with
      | Value v, Value w => v = w
      | Promise rejected _, Promise rejected' handled => rejected' = rejected ∧ handled = true
      | _, _ => False
      end
  | _, _ => False
  end.
Proof. unfold unattended. destruct (client property) as [v|call]; [done|]. intros args. by destruct (call args). Qed.

(** ** A shutdown ends *)


Section ends.
Context (quit : Client → option bool).

(** The [QUIT] a close may wait for is answered, or there is none. *)
Definition answers (c : Client) : Prop := cl_status c = Ready → is_Some (quit c).

Lemma closeRedis_ends c c' : closeRedis quit c = Some c' → c' = withStatus Ended c.
Proof.
  unfold closeRedis. case_bool_decide; [|by intros [= <-]].
  destruct (quit c) as [[]|]; cbn; [by intros [= <-]..|done].
Qed.

Lemma closeRedis_returns c : is_Some (closeRedis quit c) ↔ answers c.
Proof.
  unfold closeRedis, answers. case_bool_decide; [|by split; [|eauto]].
  destruct (quit c); cbn; split; [eauto|eauto|by intros [? ?]|]. intros Ha. by destruct (Ha H) as [? ?].
Qed.

Lemma closeHeld_client owner p id c :
  pr_held p owner = Some id → pr_clients p !! id = Some c →
  closeHeld quit owner p = c' ← closeRedis quit c; Some (with_clients (<[id := c']> (pr_clients p)) p).
Proof. intros Hh Hc. unfold closeHeld. by rewrite Hh, Hc. Qed.

(** Two fields' clients closed one after the other. *)
Lemma closeTwo first second p i j ci cj :
  pr_held p first = Some i → pr_held p second = Some j → i ≠ j →
  pr_clients p !! i = Some ci → pr_clients p !! j = Some cj →
  let closed := p1 ← closeHeld quit first p; closeHeld quit second p1 in
  (is_Some closed ↔ answers ci ∧ answers cj) ∧
  ∀ p', closed = Some p' →
    p' = with_clients (<[j := withStatus Ended cj]> (<[i := withStatus Ended ci]> (pr_clients p))) p.
Proof.
  intros Hi Hj Hne Hci Hcj. cbv zeta. rewrite (closeHeld_client first p i ci Hi Hci), <-!closeRedis_returns.
  destruct (closeRedis quit ci) as [ci'|] eqn:Ei; cbn.
  2: { split; [|done]. split; [by intros [? ?]|by intros [[? ?] _]]. }
  rewrite (closeHeld_client second _ j cj) by (done || (cbn; by rewrite lookup_insert_ne)).
  destruct (closeRedis quit cj) as [cj'|] eqn:Ej; cbn.
  - split; [by split; eauto|]. intros p' [= <-]. apply closeRedis_ends in Ei as ->, Ej as ->. done.
  - split; [|done]. split; [by intros [? ?]|by intros [_ [? ?]]].
Qed.


(** The adapter's own [dispose] ends the pair in the same way, and lets go of it. *)
Theorem dispose_closes_pair p i j ci cj :
  pr_held p Pub = Some i → pr_held p Sub = Some j → i ≠ j →
  pr_clients p !! i = Some ci → pr_clients p !! j = Some cj →
  (is_Some (dispose quit p) ↔ answers ci ∧ answers cj) ∧
  ∀ p', dispose quit p = Some p' → pr_held p' Pub = None ∧ pr_held p' Sub = None ∧
    map_Forall (fun id c => id = i ∨ id = j → cl_status c = Ended) (pr_clients p').
Proof.
  intros Hi Hj Hne Hci Hcj. pose proof (closeTwo Pub Sub p i j ci cj Hi Hj Hne Hci Hcj) as [Hret Hend].
  cbv zeta in *. unfold dispose.
  destruct (closeHeld quit Pub p) as [p1|]; cbn in *; [|by split].
  destruct (closeHeld quit Sub p1) as [p2|]; cbn in *; [|by split].
  split; [rewrite <-Hret; split; eauto|]. intros p' [= <-]. rewrite (Hend p2 eq_refl).
  split_and!; [done|done|]. cbn. intros id c [[<- <-]|[? Hc]]%lookup_insert_Some Hor; [done|].
  apply lookup_insert_Some in Hc as [[<- <-]|[? Hc]]; [done|]. naive_solver.
Qed.
End ends.

(** ** A bad night *)

Module Night.
(** ioredis: a client with a connection answers, one without queues the command. *)
Definition quit (c : Client) : option bool :=
  match cl_status c with Ready => Some true | Ended => Some false | _ => None end.

(** A client whose every command is refused, with nobody handling it. *)
Definition dead : Object := fun _ => Method (fun _ => Promise true false).

Definition events : list RedisHappening :=
  [NamespaceMade "/kds"; CameUp 0 true; CameUp 1 true; CameUp 2 true; CameUp 3 true;
   WentDown 1; WentDown 2; AdapterCalled dead "psubscribe" ["socket.io#/kds#*"]; AdapterErred "/kds" "Connection is closed.";
   GaveUp 3].

(** The pair as the night left it, disposed of: the subscriber of the two had given up. *)
Lemma dispose_closes_pair_witness :
  ∃ ci cj, (is_Some (dispose quit (history events)) ↔ answers quit ci ∧ answers quit cj) ∧
    cl_status ci = Reconnecting ∧ cl_status cj = Ended.
Proof.
  eexists _, _. split; [|split].
  - exact (proj1 (dispose_closes_pair quit (history events) 2 3 _ _ ltac:(vm_compute; reflexivity)
      ltac:(vm_compute; reflexivity) ltac:(done) ltac:(vm_compute; reflexivity) ltac:(vm_compute; reflexivity))).
  - vm_compute. reflexivity.
  - vm_compute. reflexivity.
Defined.

(** The same night with the client handed over bare ends the process, and waiting for [quit]
    on a client that is reconnecting never returns. *)
Example bare_client_ends :
  pr_ended (adapterCalls dead "psubscribe" [] (history events)) = true ∧
  pr_ended (adapterCalls (unattended dead) "psubscribe" [] (history events)) = false ∧
  quit {| cl_status := Reconnecting; cl_diagnosed := true; cl_channels := [] |} = None.
Proof. by vm_compute. Qed.
End Night.

(** ** Several instances behind one Redis

    The instances of a deployment share the identity tables and Redis ([IdentityStore.Identity]);
    each has its own connections ([Connections.Process]) and its own sockets ([Sockets.Hall]).
    Everything an instance does to its sockets, everything Redis does to its connections and
    the kill channel's messages interleave. A message on the channel reaches the instances that
    are subscribed when it is sent, which is all Redis promises. *)

Record Instance := {
  in_process : Process;
  in_kds : gmap string KdsSocket;
  in_kiosk : gmap string KioskSocket }.

Record Fleet := { fe_identity : Identity; fe_instances : nat → Instance }.

Definition hallOf (identity : Identity) (i : Instance) : Hall :=
  {| ha_identity := identity; ha_kds := in_kds i; ha_kiosk := in_kiosk i |}.

(** An instance's sockets after something it did, and the tables with it. *)
Definition putHall (n : nat) (h : Hall) (f : Fleet) : Fleet :=
  {| fe_identity := ha_identity h;
     fe_instances := <[n := {| in_process := in_process (fe_instances f n); in_kds := ha_kds h; in_kiosk := ha_kiosk h |}]>
       (fe_instances f) |}.

Fixpoint atInstance (n : nat) {R} (p : handler Hall R) : handler Fleet R :=
  match p with
  | Answer r => Answer r
  | Act t k => Act (fun f => let h := hallOf (fe_identity f) (fe_instances f n) in (putHall n (t h).1 f, (t h).2))
                   (fun x => atInstance n (k x))
  end.

(** Something happens to an instance's connections. *)
Definition reacts (n : nat) (e : RedisHappening) (f : Fleet) : Fleet :=
  let i := fe_instances f n in
  {| fe_identity := fe_identity f;
     fe_instances := <[n := {| in_process := react (in_process i) e; in_kds := in_kds i; in_kiosk := in_kiosk i |}]>
       (fe_instances f) |}.

(** Whether the instance is subscribed to the kill channel. *)
Definition hears (p : Process) : bool :=
  match pr_held p Subscriber with
  | Some id =>
      match pr_clients p !! id with
      | Some c => bool_decide (cl_status c = Ready ∧ REVOCATION_CHANNEL ∈ cl_channels c)
      | None => false
      end
  | None => false
  end.

(** A message published on the channel, at one instance. *)
Definition receive (identity : Identity) (raw : string) (i : Instance) : Instance :=
  if hears (in_process i) then
    let h := onMessage raw (hallOf identity i) in
    {| in_process := in_process i; in_kds := ha_kds h; in_kiosk := ha_kiosk h |}
  else i.

(** And at all of them. *)
Definition published (raw : string) (f : Fleet) : Fleet :=
  {| fe_identity := fe_identity f; fe_instances := fun n => receive (fe_identity f) raw (fe_instances f n) |}.

Definition fleetTask {R : Type} (p : handler Fleet R) : task Fleet := existT R p.

Inductive fleetRequest `{!Jwt} (sha256 : string → string) : task Fleet → Prop :=
| fleet_hall n th : hallRequest sha256 th → fleetRequest sha256 (fleetTask (atInstance n (projT2 th)))
| fleet_redis n e : fleetRequest sha256 (fleetTask (Act (fun f => (reacts n e f, tt)) Answer))
| fleet_publish raw : fleetRequest sha256 (fleetTask (Act (fun f => (published raw f, tt)) Answer)).

Definition booted : Instance := {| in_process := bootRedis; in_kds := ∅; in_kiosk := ∅ |}.

(** ** What every instance keeps *)

Definition orderly (f : Fleet) : Prop :=
  ∀ n, filed (hallOf (fe_identity f) (fe_instances f n)) ∧ sound (in_process (fe_instances f n)).

(** The rooms say nothing about the tables. *)
Lemma filed_identity s h : filed h → filed {| ha_identity := s; ha_kds := ha_kds h; ha_kiosk := ha_kiosk h |}.
Proof. by intros []. Qed.

Lemma orderly_put n h f : filed h → orderly f → orderly (putHall n h f).
Proof.
  intros Hh Hf m. destruct (decide (m = n)) as [->|Hne]; cbn.
  - rewrite fn_lookup_insert. split; [by destruct h|]. apply Hf.
  - rewrite fn_lookup_insert_ne by done. split; [apply (filed_identity _ _ (proj1 (Hf m)))|apply Hf].
Qed.

Lemma always_atInstance n {R} (p : handler Hall R) : always filed p → always orderly (atInstance n p).
Proof.
  induction p as [r|X t k IH]; [done|]. cbn. intros Hp f Hf.
  destruct (Hp _ (proj1 (Hf n))) as [Ht Hk]. split; [by apply orderly_put|]. by apply IH.
Qed.

Lemma fleetRequest_orderly `{!Jwt} sha256 th : fleetRequest sha256 th → always orderly (projT2 th).
Proof.
  destruct 1 as [n th Hth|n e|raw]; cbn [projT2 fleetTask].
  - by apply always_atInstance, (hallRequest_filed sha256).
  - intros f Hf. split; [|done]. intros m. unfold reacts. cbn. destruct (decide (m = n)) as [->|Hne].
    + rewrite fn_lookup_insert. cbn. split; [apply (filed_identity _ _ (proj1 (Hf n)))|]. apply sound_react, Hf.
    + rewrite fn_lookup_insert_ne by done. apply Hf.
  - intros f Hf. split; [|done]. intros m. unfold published, receive. cbn. destruct (hears _); [|apply Hf]. cbn.
    split; [|apply Hf]. apply (filed_identity _ _), onMessage_filed, Hf.
Qed.

(** C22. In a fleet of any number of instances, however their sockets, requests, outages and earlier
    messages interleaved, a revocation that is published closes exactly the sockets of the
    principal it names, on every instance that is subscribed at that moment and on no other;
    no instance was ended by its connections, and one that missed the message is subscribed
    again as soon as its client is back. *)
Theorem fleet_revocation `{!Jwt} sha256 identity tasks fl message :
  Forall (fleetRequest sha256) tasks →
  rtc astep {| fl_state := {| fe_identity := identity; fe_instances := fun _ => booted |}; fl_tasks := tasks |} fl →
  (match message with RevokeUser x | RevokeToken x | RevokeDevice x => x ≠ "" end) →
  let f := fl_state fl in ∀ n,
  let i := fe_instances f n in
  fe_instances (published (printRevocation message) f) n =
    (if hears (in_process i) then
       {| in_process := in_process i;
          in_kds := filter (fun e => ¬ namesStaff message (ks_principal e.2)) (in_kds i);
          in_kiosk := filter (fun e => message ≠ RevokeDevice (kk_deviceId e.2)) (in_kiosk i) |}
     else i) ∧
  pr_ended (in_process i) = false ∧
  ∃ id, pr_held (in_process i) Subscriber = Some id ∧
    (alive id (in_process i) = true → hears (react (in_process i) (CameUp id true)) = true).
Proof.
  intros Htasks Hs Hname f n i.
  assert (orderly f) as Hf.
  { eapply (always_flight orderly); [exact Hs| |].
    - intros m. split; [split; apply map_Forall_empty|apply sound_boot].
    - rewrite Forall_forall in Htasks |- *. intros th Hth. by eapply fleetRequest_orderly, Htasks. }
  destruct (Hf n) as [Hfiled Hsound]. split; [|split; [apply Hsound|]].
  - cbn. fold i. unfold receive. destruct (hears (in_process i)); [|done].
    by rewrite (onMessage_exact message) by done.
  - destruct (sound_resubscribes _ Hsound) as (id & Hid & Hup). exists id. split; [done|]. intros Ha.
    destruct (Hup Ha) as (id' & c & E1 & E2 & E3 & E4). unfold hears. subst i. rewrite E1, E2. by apply bool_decide_eq_true_2.
Qed.

(** ** Two instances *)

Module Pair.
#[local] Instance jwt : Jwt := Bar.jwt.

Definition upHere (n : nat) : task Fleet := fleetTask (Act (fun f => (reacts n (CameUp 1 true) f, tt)) Answer).

(** The owner's screen on each instance; only the first has its subscription. *)
Definition tasks : list (task Fleet) :=
  [fleetTask (atInstance 0 (projT2 Bar.connect)); fleetTask (atInstance 1 (projT2 Bar.connect)); upHere 0].

Definition evening : Flight Fleet :=
  turns {| fl_state := {| fe_identity := opening; fe_instances := fun _ => booted |}; fl_tasks := tasks |} [0; 0; 0; 1; 1; 1; 2]%nat.

Lemma fleet_revocation_witness :
  let after := published (printRevocation (RevokeUser "u0")) (fl_state evening) in
  size (in_kds (fe_instances (fl_state evening) 0)) = 1%nat ∧ in_kds (fe_instances after 0) = ∅ ∧
  size (in_kds (fe_instances after 1)) = 1%nat.
Proof.
  assert (Forall (fleetRequest plain) tasks) as Ht by (repeat constructor).
  split; [by vm_compute|].
  destruct (fleet_revocation plain opening tasks evening (RevokeUser "u0") Ht (turns_reach _ _) ltac:(done) 0%nat) as [E0 _].
  destruct (fleet_revocation plain opening tasks evening (RevokeUser "u0") Ht (turns_reach _ _) ltac:(done) 1%nat) as [E1 _].
  rewrite E0, E1.
  assert (hears (in_process (fe_instances (fl_state evening) 0)) = true) as -> by (vm_compute; reflexivity).
  assert (hears (in_process (fe_instances (fl_state evening) 1)) = false) as -> by (vm_compute; reflexivity).
  cbn [in_kds]. split; vm_compute; reflexivity.
Defined.
End Pair.
