(* ===== verification/Catalog.v ===== *)
(** * Catalog: menu administration

    [catalog/categories/categories.service.ts], [catalog/items/items.service.ts],
    [catalog/items/item-option-groups.service.ts] and
    [catalog/option-groups/option-groups.service.ts] over the tables of
    [database/schema/catalog.ts], whose constraints are the statements' own: a row
    is checked, then its unique indexes, then its foreign keys. A service method is a
    [prog] whose statements are steps, so any number of them interleave. The order of text in an
    [ORDER BY] is the database's collation, a parameter. *)

From S2P Require Import Prelude Text Schema Errors Program CreateOrder OrdersRead.

(** ** The database's side *)

(** The collation of the database: a deterministic one, in which no two texts tie. *)
Class Collation := {
  collate : relation string;
  collate_dec :: ∀ s t, Decision (collate s t);
  collate_trans :: Transitive collate;
  collate_total :: Total collate;
  collate_antisymm :: AntiSymm eq collate
}.

(** A [uuid] column keeps the digits of the text it is given, in lower case. *)
Definition uuid (text : string) : string := lowerText text.

(** What drizzle's [set] refuses to send. *)
Definition NO_VALUES : AppError := JsError "No values to set".

(** ** Categories ([categories.service.ts]) *)

Record Category := {
  c_id : string; c_name : string; c_sortOrder : Z; c_isActive : bool }.

Record CreateCategoryInput := {
  nc_name : string; nc_sortOrder : option Z; nc_isActive : option bool }.

Record UpdateCategoryInput := {
  uc_name : option string; uc_sortOrder : option Z; uc_isActive : option bool }.

(** [PUBLIC_COLUMNS]. *)
Definition publicCategory (id : string) (row : CategoryRow) : Category :=
  {| c_id := id; c_name := cat_name row; c_sortOrder := cat_sortOrder row;
     c_isActive := cat_isActive row |}.

(** [name text unique]: another row has the name. *)
Definition categoryNameTaken (id name : string) (db : Database) : bool :=
  existsb (fun '(other, row) => negb (bool_decide (other = id)) && bool_decide (cat_name row = name))
    (map_to_list (categories db)).

Definition putCategory (id : string) (row : CategoryRow) : txM Category :=
  taken ← reads (categoryNameTaken id (cat_name row));
  if negb (int4 (cat_sortOrder row)) then throw (DbError OUT_OF_RANGE)
  else if (taken : bool) then throw (DbError UNIQUE_VIOLATION)
  else
    _ ← writes (fun db => with_categories (<[id := row]> (categories db)) db);
    mret (publicCategory id row).

Definition insertCategory (id : string) (input : CreateCategoryInput) : txM Category :=
  let row := {| cat_name := nc_name input; cat_sortOrder := default 0 (nc_sortOrder input);
                cat_isActive := default true (nc_isActive input) |} in
  exists_ ← reads (fun db => bool_decide (is_Some (categories db !! id)));
  if exists_ && int4 (cat_sortOrder row) then throw (DbError UNIQUE_VIOLATION)
  else putCategory id row.

(** [UPDATE categories SET changes WHERE id = id RETURNING ...]: the row, if there is one. *)
Definition changeCategory (changes : UpdateCategoryInput) (row : CategoryRow) : CategoryRow :=
  {| cat_name := default (cat_name row) (uc_name changes);
     cat_sortOrder := default (cat_sortOrder row) (uc_sortOrder changes);
     cat_isActive := default (cat_isActive row) (uc_isActive changes) |}.

Definition updateCategoryRow (id : string) (changes : UpdateCategoryInput) : txM (option Category) :=
  match changes with
  | {| uc_name := None; uc_sortOrder := None; uc_isActive := None |} => throw NO_VALUES
  | _ =>
      found ← reads (fun db => categories db !! uuid id);
      match found with
      | None => mret None
      | Some row => updated ← putCategory (uuid id) (changeCategory changes row); mret (Some updated)
      end
  end.

Definition createCategory (id : string) (input : CreateCategoryInput) : prog Category :=
  after (db_transaction (insertCategory id input)) (fun r =>
    match r with
    | Ok created => Return created
    | Err e =>
        if isUniqueViolation e then Throw (CategoryNameExistsError (nc_name input)) else Throw e
    end).

Definition updateCategory (id : string) (changes : UpdateCategoryInput) : prog Category :=
  after (db_transaction (updateCategoryRow id changes)) (fun r =>
    match r with
    | Ok (Some updated) => Return updated
    | Ok None => Throw (ResourceNotFoundError "category" id)
    | Err e =>
        match uc_name changes with
        | Some name => if isUniqueViolation e then Throw (CategoryNameExistsError name) else Throw e
        | None => Throw e
        end
    end).

(** ** Items ([items.service.ts]) *)

Record MenuItem := {
  m_id : string; m_categoryId : string; m_name : string; m_description : option string;
  m_basePriceMinor : Z; m_imageUrl : option string; m_isAvailable : bool; m_sortOrder : Z }.

(** An optional column that may also be sent as [null]: [Some None] clears it. *)
Record CreateItemInput := {
  ni_categoryId : string; ni_name : string; ni_description : option (option string);
  ni_basePriceMinor : Z; ni_imageUrl : option (option string); ni_sortOrder : option Z;
  ni_isAvailable : option bool }.

Record UpdateItemInput := {
  ui_categoryId : option string; ui_name : option string;
  ui_description : option (option string); ui_basePriceMinor : option Z;
  ui_imageUrl : option (option string); ui_sortOrder : option Z }.

Definition publicItem (id : string) (row : MenuItemRow) : MenuItem :=
  {| m_id := id; m_categoryId := mi_categoryId row; m_name := mi_name row;
     m_description := mi_description row; m_basePriceMinor := mi_basePriceMinor row;
     m_imageUrl := mi_imageUrl row; m_isAvailable := mi_isAvailable row;
     m_sortOrder := mi_sortOrder row |}.

(** The columns' range, [menu_items_base_price_check], then [category_id]'s reference. *)
Definition itemRefused (row : MenuItemRow) (db : Database) : option AppError :=
  if negb (int4 (mi_basePriceMinor row) && int4 (mi_sortOrder row)) then Some (DbError OUT_OF_RANGE)
  else if mi_basePriceMinor row <? 0 then Some (DbError CHECK_VIOLATION)
  else if bool_decide (categories db !! mi_categoryId row = None)
  then Some (DbError FOREIGN_KEY_VIOLATION)
  else None.

Definition putItem (id : string) (row : MenuItemRow) : txM MenuItem :=
  refused ← reads (itemRefused row);
  match refused with
  | Some e => throw e
  | None =>
      _ ← writes (fun db => with_menuItems (<[id := row]> (menuItems db)) db);
      mret (publicItem id row)
  end.

Definition insertItem (id : string) (input : CreateItemInput) : txM MenuItem :=
  let row := {| mi_categoryId := uuid (ni_categoryId input); mi_name := ni_name input;
                mi_description := default None (ni_description input);
                mi_basePriceMinor := ni_basePriceMinor input;
                mi_imageUrl := default None (ni_imageUrl input);
                mi_isAvailable := default true (ni_isAvailable input);
                mi_sortOrder := default 0 (ni_sortOrder input) |} in
  exists_ ← reads (fun db => bool_decide (is_Some (menuItems db !! id)));
  if exists_ && int4 (mi_basePriceMinor row) && int4 (mi_sortOrder row)
     && (0 <=? mi_basePriceMinor row) then throw (DbError UNIQUE_VIOLATION)
  else putItem id row.

Definition changeItem (changes : UpdateItemInput) (row : MenuItemRow) : MenuItemRow :=
  {| mi_categoryId := default (mi_categoryId row) (uuid <$> ui_categoryId changes);
     mi_name := default (mi_name row) (ui_name changes);
     mi_description := default (mi_description row) (ui_description changes);
     mi_basePriceMinor := default (mi_basePriceMinor row) (ui_basePriceMinor changes);
     mi_imageUrl := default (mi_imageUrl row) (ui_imageUrl changes);
     mi_isAvailable := mi_isAvailable row;
     mi_sortOrder := default (mi_sortOrder row) (ui_sortOrder changes) |}.

(** [UPDATE menu_items SET ... WHERE id = id RETURNING ...]. *)
Definition updateItemRow (id : string) (change : MenuItemRow → MenuItemRow) : txM (option MenuItem) :=
  found ← reads (fun db => menuItems db !! uuid id);
  match found with
  | None => mret None
  | Some row => updated ← putItem (uuid id) (change row); mret (Some updated)
  end.

Definition createItem (id : string) (input : CreateItemInput) : prog MenuItem :=
  after (db_transaction (insertItem id input)) (fun r =>
    match r with
    | Ok created => Return created
    | Err e =>
        if isForeignKeyViolation e then Throw (CategoryUnknownError (ni_categoryId input)) else Throw e
    end).

Definition setItem (changes : UpdateItemInput) (id : string) : txM (option MenuItem) :=
  match changes with
  | {| ui_categoryId := None; ui_name := None; ui_description := None; ui_basePriceMinor := None;
       ui_imageUrl := None; ui_sortOrder := None |} => throw NO_VALUES
  | _ => updateItemRow id (changeItem changes)
  end.

Definition updateItem (id : string) (changes : UpdateItemInput) : prog MenuItem :=
  after (db_transaction (setItem changes id)) (fun r =>
    match r with
    | Ok (Some updated) => Return updated
    | Ok None => Throw (ResourceNotFoundError "menu item" id)
    | Err e =>
        match ui_categoryId changes with
        | Some categoryId =>
            if isForeignKeyViolation e then Throw (CategoryUnknownError categoryId) else Throw e
        | None => Throw e
        end
    end).

Definition withAvailability (isAvailable : bool) (row : MenuItemRow) : MenuItemRow :=
  {| mi_categoryId := mi_categoryId row; mi_name := mi_name row;
     mi_description := mi_description row; mi_basePriceMinor := mi_basePriceMinor row;
     mi_imageUrl := mi_imageUrl row; mi_isAvailable := isAvailable;
     mi_sortOrder := mi_sortOrder row |}.

Definition setItemAvailability (id : string) (isAvailable : bool) : prog MenuItem :=
  after (db_transaction (updateItemRow id (withAvailability isAvailable))) (fun r =>
    match r with
    | Ok (Some updated) => Return updated
    | Ok None => Throw (ResourceNotFoundError "menu item" id)
    | Err e => Throw e
    end).

(** ** Which groups an item offers ([item-option-groups.service.ts]) *)

Record AttachedOptionGroup := {
  ag_id : string; ag_name : string; ag_minSelect : Z; ag_maxSelect : Z; ag_sortOrder : Z }.

Definition linksOf (itemId : string) (db : Database) : list ItemGroupLink :=
  filter (fun l => lk_menuItemId l = itemId) (menuItemOptionGroups db).

(** [optionGroupIds.map((optionGroupId, index) => ...)]. *)
Definition newLinks (itemId : string) (optionGroupIds : list string) : list ItemGroupLink :=
  imap (fun index optionGroupId =>
    {| lk_menuItemId := uuid itemId; lk_optionGroupId := uuid optionGroupId;
       lk_sortOrder := Z.of_nat index |}) optionGroupIds.

Definition sameLink (a b : ItemGroupLink) : bool :=
  bool_decide (lk_menuItemId a = lk_menuItemId b)
  && bool_decide (lk_optionGroupId a = lk_optionGroupId b).

(** One row of the insert: its primary key, then its references. *)
Definition insertLink (link : ItemGroupLink) : txM unit :=
  taken ← reads (fun db => existsb (sameLink link) (menuItemOptionGroups db));
  if (taken : bool) then throw (DbError UNIQUE_VIOLATION)
  else
    dangling ← reads (fun db => bool_decide (menuItems db !! lk_menuItemId link = None)
                                || bool_decide (optionGroups db !! lk_optionGroupId link = None));
    if (dangling : bool) then throw (DbError FOREIGN_KEY_VIOLATION)
    else writes (fun db => with_menuItemOptionGroups (menuItemOptionGroups db ++ [link]) db).

Fixpoint insertLinks (links : list ItemGroupLink) : txM unit :=
  match links with
  | [] => mret tt
  | link :: rest => _ ← insertLink link; insertLinks rest
  end.

#[export] Instance bySortOrder_trans : Transitive bySortOrder.
Proof. unfold bySortOrder. intros ???. lia. Qed.
#[export] Instance bySortOrder_total : Total bySortOrder.
Proof. unfold bySortOrder. intros ??. lia. Qed.

(** The read back, joined and ordered. *)
Definition attachedGroups (itemId : string) (db : Database) : list AttachedOptionGroup :=
  omap (fun l =>
    g ← optionGroups db !! lk_optionGroupId l;
    Some {| ag_id := lk_optionGroupId l; ag_name := og_name g; ag_minSelect := og_minSelect g;
            ag_maxSelect := og_maxSelect g; ag_sortOrder := lk_sortOrder l |})
    (merge_sort bySortOrder (linksOf itemId db)).

(** The transaction's writes: [seen] is what the delete's snapshot holds. A row it holds that
    another transaction has deleted since is skipped, a row inserted since is not seen. *)
Definition replaceLinks (itemId : string) (optionGroupIds : list string) (seen : list ItemGroupLink)
    : txM (list AttachedOptionGroup) :=
  _ ← writes (fun db => with_menuItemOptionGroups
    (filter (fun l => existsb (sameLink l) seen = false) (menuItemOptionGroups db)) db);
  _ ← insertLinks (newLinks itemId optionGroupIds);
  reads (attachedGroups (uuid itemId)).

(** [unknown]: the ids as sent are compared with the ids as stored. *)
Definition unknownGroups (optionGroupIds : list string) (db : Database) : list string :=
  let known := filter (fun id => is_Some (optionGroups db !! id)) (map uuid optionGroupIds) in
  filter (fun id => id ∉ known) optionGroupIds.

(** Under READ COMMITTED every statement before the delete's row locks has a snapshot of
    its own, and so does the delete: each is a step. *)
Definition setForItem (itemId : string) (optionGroupIds : list string)
    : prog (list AttachedOptionGroup) :=
  Read (fun db => menuItems db !! uuid itemId) (fun item =>
    match item with
    | None => Throw (ResourceNotFoundError "menu item" itemId)
    | Some _ =>
        Read (unknownGroups optionGroupIds) (fun unknown =>
          match unknown with
          | _ :: _ => Throw (OptionGroupUnknownError unknown)
          | [] =>
              Read (linksOf (uuid itemId)) (fun seen =>
                db_transaction (replaceLinks itemId optionGroupIds seen))
          end)
    end).

(** ** Option groups and options ([option-groups.service.ts]) *)

Record Option := {
  op_id : string; op_optionGroupId : string; op_name : string; op_priceDeltaMinor : Z;
  op_isDefault : bool; op_isAvailable : bool }.

Record OptionGroup := { gr_id : string; gr_name : string; gr_minSelect : Z; gr_maxSelect : Z }.

Record OptionGroupWithOptions := { gw_group : OptionGroup; gw_options : list Option }.

Record CreateOptionGroupInput := {
  ng_name : string; ng_minSelect : option Z; ng_maxSelect : option Z }.

Record UpdateOptionGroupInput := {
  ug_name : option string; ug_minSelect : option Z; ug_maxSelect : option Z }.

Record CreateOptionInput := {
  no_name : string; no_priceDeltaMinor : option Z; no_isDefault : option bool;
  no_isAvailable : option bool }.

Record UpdateOptionInput := {
  uo_name : option string; uo_priceDeltaMinor : option Z; uo_isDefault : option bool }.

(** [GROUP_COLUMNS] and [OPTION_COLUMNS]. *)
Definition publicGroup (id : string) (row : OptionGroupRow) : OptionGroup :=
  {| gr_id := id; gr_name := og_name row; gr_minSelect := og_minSelect row;
     gr_maxSelect := og_maxSelect row |}.

Definition publicOption (id : string) (row : OptionRow) : Option :=
  {| op_id := id; op_optionGroupId := opt_optionGroupId row; op_name := opt_name row;
     op_priceDeltaMinor := opt_priceDeltaMinor row; op_isDefault := opt_isDefault row;
     op_isAvailable := opt_isAvailable row |}.

(** [option_groups_minmax_check]. *)
Definition boundsOk (row : OptionGroupRow) : bool :=
  (0 <=? og_minSelect row) && (og_minSelect row <=? og_maxSelect row).

Definition putGroup (id : string) (row : OptionGroupRow) : txM OptionGroup :=
  if negb (int4 (og_minSelect row) && int4 (og_maxSelect row)) then throw (DbError OUT_OF_RANGE)
  else if boundsOk row then
    _ ← writes (fun db => with_optionGroups (<[id := row]> (optionGroups db)) db);
    mret (publicGroup id row)
  else throw (DbError CHECK_VIOLATION).

Definition insertGroup (id : string) (input : CreateOptionGroupInput) : txM OptionGroup :=
  let row := {| og_name := ng_name input; og_minSelect := default 0 (ng_minSelect input);
                og_maxSelect := default 1 (ng_maxSelect input) |} in
  exists_ ← reads (fun db => bool_decide (is_Some (optionGroups db !! id)));
  if exists_ && int4 (og_minSelect row) && int4 (og_maxSelect row) && boundsOk row then throw (DbError UNIQUE_VIOLATION) else putGroup id row.

Definition changeGroup (changes : UpdateOptionGroupInput) (row : OptionGroupRow) : OptionGroupRow :=
  {| og_name := default (og_name row) (ug_name changes);
     og_minSelect := default (og_minSelect row) (ug_minSelect changes);
     og_maxSelect := default (og_maxSelect row) (ug_maxSelect changes) |}.

Definition updateGroupRow (id : string) (changes : UpdateOptionGroupInput) : txM (option OptionGroup) :=
  match changes with
  | {| ug_name := None; ug_minSelect := None; ug_maxSelect := None |} => throw NO_VALUES
  | _ =>
      found ← reads (fun db => optionGroups db !! uuid id);
      match found with
      | None => mret None
      | Some row => updated ← putGroup (uuid id) (changeGroup changes row); mret (Some updated)
      end
  end.

Definition createGroup (id : string) (input : CreateOptionGroupInput) : prog OptionGroup :=
  after (db_transaction (insertGroup id input)) (fun r =>
    match r with
    | Ok created => Return created
    | Err e => if isCheckViolation e then Throw OptionGroupMinMaxInvalidError else Throw e
    end).

Definition updateGroup (id : string) (changes : UpdateOptionGroupInput) : prog OptionGroup :=
  after (db_transaction (updateGroupRow id changes)) (fun r =>
    match r with
    | Ok (Some updated) => Return updated
    | Ok None => Throw (ResourceNotFoundError "option group" id)
    | Err e => if isCheckViolation e then Throw OptionGroupMinMaxInvalidError else Throw e
    end).

Definition insertOption (id optionGroupId : string) (input : CreateOptionInput) : txM Option :=
  let row := {| opt_optionGroupId := uuid optionGroupId; opt_name := no_name input;
                opt_priceDeltaMinor := default 0 (no_priceDeltaMinor input);
                opt_isDefault := default false (no_isDefault input);
                opt_isAvailable := default true (no_isAvailable input) |} in
  exists_ ← reads (fun db => bool_decide (is_Some (options db !! id)));
  if negb (int4 (opt_priceDeltaMinor row)) then throw (DbError OUT_OF_RANGE)
  else if (exists_ : bool) then throw (DbError UNIQUE_VIOLATION)
  else
    dangling ← reads (fun db => bool_decide (optionGroups db !! uuid optionGroupId = None));
    if (dangling : bool) then throw (DbError FOREIGN_KEY_VIOLATION)
    else
      _ ← writes (fun db => with_options (<[id := row]> (options db)) db);
      mret (publicOption id row).

Definition createOption (id optionGroupId : string) (input : CreateOptionInput) : prog Option :=
  after (db_transaction (insertOption id optionGroupId input)) (fun r =>
    match r with
    | Ok created => Return created
    | Err e =>
        if isForeignKeyViolation e then Throw (ResourceNotFoundError "option group" optionGroupId)
        else Throw e
    end).

Definition updateOptionRow (id : string) (change : OptionRow → OptionRow) : txM (option Option) :=
  found ← reads (fun db => options db !! uuid id);
  match found with
  | None => mret None
  | Some row =>
      if negb (int4 (opt_priceDeltaMinor (change row))) then throw (DbError OUT_OF_RANGE)
      else
        _ ← writes (fun db => with_options (<[uuid id := change row]> (options db)) db);
        mret (Some (publicOption (uuid id) (change row)))
  end.

(** [if (!updated) throw ...]. *)
Definition orNoOption (id : string) (work : txM (option Option)) : prog Option :=
  after (db_transaction work) (fun r =>
    match r with
    | Ok (Some updated) => Return updated
    | Ok None => Throw (ResourceNotFoundError "option" id)
    | Err e => Throw e
    end).

Definition changeOption (changes : UpdateOptionInput) (row : OptionRow) : OptionRow :=
  {| opt_optionGroupId := opt_optionGroupId row;
     opt_name := default (opt_name row) (uo_name changes);
     opt_priceDeltaMinor := default (opt_priceDeltaMinor row) (uo_priceDeltaMinor changes);
     opt_isDefault := default (opt_isDefault row) (uo_isDefault changes);
     opt_isAvailable := opt_isAvailable row |}.

Definition updateOption (id : string) (changes : UpdateOptionInput) : prog Option :=
  orNoOption id
    match changes with
    | {| uo_name := None; uo_priceDeltaMinor := None; uo_isDefault := None |} => throw NO_VALUES
    | _ => updateOptionRow id (changeOption changes)
    end.

Definition optionAvailability (isAvailable : bool) (row : OptionRow) : OptionRow :=
  {| opt_optionGroupId := opt_optionGroupId row; opt_name := opt_name row;
     opt_priceDeltaMinor := opt_priceDeltaMinor row; opt_isDefault := opt_isDefault row;
     opt_isAvailable := isAvailable |}.

Definition setOptionAvailability (id : string) (isAvailable : bool) : prog Option :=
  orNoOption id (updateOptionRow id (optionAvailability isAvailable)).

(** ** The lists *)

Section lists.
Context `{!Collation}.

(** [ORDER BY sort_order, name] of (id, sort order, name, row). *)
Definition placeLe {A} (place : A → Z * string) (a b : A) : Prop :=
  (place a).1 < (place b).1 ∨ ((place a).1 = (place b).1 ∧ collate (place a).2 (place b).2).

#[export] Instance placeLe_dec {A} (place : A → Z * string) a b : Decision (placeLe place a b).
Proof. unfold placeLe. apply _. Defined.
#[export] Instance placeLe_trans {A} (place : A → Z * string) : Transitive (placeLe place).
Proof.
  unfold placeLe. intros a b c [?|[? ?]] [?|[? ?]]; [left; lia|left; lia|left; lia|].
  right. split; [lia|by etrans].
Qed.
#[export] Instance placeLe_total {A} (place : A → Z * string) : Total (placeLe place).
Proof.
  unfold placeLe. intros a b. destruct (Z.lt_trichotomy (place a).1 (place b).1) as [?|[E|?]]; auto.
  destruct (total collate (place a).2 (place b).2); auto.
Qed.

Definition listCategories (db : Database) : list Category :=
  map (fun '(id, row) => publicCategory id row)
    (merge_sort (placeLe (fun e => (cat_sortOrder e.2, cat_name e.2))) (map_to_list (categories db))).

Definition listItems (db : Database) : list MenuItem :=
  map (fun '(id, row) => publicItem id row)
    (merge_sort (placeLe (fun e => (mi_sortOrder e.2, mi_name e.2))) (map_to_list (menuItems db))).

(** The options of a group, [ORDER BY name]. *)
Definition optionsOf (groupId : string) (db : Database) : list (string * OptionRow) :=
  merge_sort (placeLe (fun e => (0, opt_name e.2)))
    (filter (fun e => opt_optionGroupId e.2 = groupId) (map_to_list (options db))).

Definition listGroups (db : Database) : list OptionGroupWithOptions :=
  map (fun '(id, row) =>
    {| gw_group := publicGroup id row;
       gw_options := map (fun '(oid, o) => publicOption oid o) (optionsOf id db) |})
    (merge_sort (placeLe (fun e => (0, og_name e.2))) (map_to_list (optionGroups db))).
End lists.
