(* ===== verification/ItemImage.v ===== *)
(** * ItemImage: item photos

    [catalog/items/item-image.service.ts] and the [put] and boot check of
    [storage/object-storage.service.ts]. A buffer is the text of its bytes. The
    decoder (sharp), the hash and the object store's answers are parameters. *)

From S2P Require Import Prelude Text Schema Errors Program Idempotency JsonText OrdersRead Catalog.
From Stdlib Require Import Ascii.

Definition MAX_UPLOAD_BYTES : Z := 5 * 1024 * 1024.

Definition ACCEPTED_IMAGE_TYPES : list string := ["image/jpeg"; "image/png"; "image/webp"].
Definition UNSTATED_CONTENT_TYPES : list string := [""; "application/octet-stream"].

(** [Buffer.from([...])]. *)
Definition bytes (l : list N) : string := foldr (fun n s => String (ascii_of_N n) s) "" l.

Definition JPEG_MAGIC : string := bytes [255; 216; 255]%N.
Definition PNG_MAGIC : string := bytes [137; 80; 78; 71; 13; 10; 26; 10]%N.
Definition RIFF_MAGIC : string := "RIFF".
Definition WEBP_MAGIC : string := "WEBP".

(** [buffer.subarray(from, to).equals(magic)] on a buffer that long. *)
Definition holdsAt (buffer : string) (from : nat) (magic : string) : bool :=
  bool_decide (String.substring from (String.length magic) buffer = magic).

Definition sniffImageType (buffer : string) : option string :=
  if (3 <=? String.length buffer)%nat && holdsAt buffer 0 JPEG_MAGIC then Some "image/jpeg"
  else if (8 <=? String.length buffer)%nat && holdsAt buffer 0 PNG_MAGIC then Some "image/png"
  else if (12 <=? String.length buffer)%nat && holdsAt buffer 0 RIFF_MAGIC
          && holdsAt buffer 8 WEBP_MAGIC then Some "image/webp"
  else None.

Record UploadedImage := { up_mimetype : string; up_buffer : string }.

Section images.
(** What the decoder renders a buffer to, if it can; the hash; the CDN's origin. *)
Context (sharp : string → option string) (sha256 : string → string) (publicBaseUrl : string).

(** The declared type can refuse, the bytes decide, and what comes out is the decoder's. *)
Definition reencode (file : UploadedImage) : result AppError string :=
  let declared := lowerText (trim (up_mimetype file)) in
  if negb (bool_decide (declared ∈ UNSTATED_CONTENT_TYPES))
     && negb (bool_decide (declared ∈ ACCEPTED_IMAGE_TYPES))
  then Err (ImageTypeUnsupportedError ACCEPTED_IMAGE_TYPES)
  else match sniffImageType (up_buffer file) with
  | None => Err (ImageTypeUnsupportedError ACCEPTED_IMAGE_TYPES)
  | Some _ =>
      match sharp (up_buffer file) with
      | Some image => Ok image
      | None => Err ImageUnprocessableError
      end
  end.

Definition imageKey (image : string) : string := "items/" +:+ sha256 image +:+ ".webp".

(** [ObjectStorageService.put]: where a stored object is read from. *)
Definition urlOf (key : string) : string := publicBaseUrl +:+ "/" +:+ key.

Definition imageChange (url : string) : UpdateItemInput :=
  {| ui_categoryId := None; ui_name := None; ui_description := None; ui_basePriceMinor := None;
     ui_imageUrl := Some (Some url); ui_sortOrder := None |}.

(** [stored key image]: what the store answers to this [put]. *)
Definition replaceImage (stored : string → string → result AppError unit) (itemId : string)
    (file : UploadedImage) : prog MenuItem :=
  Read (fun db => menuItems db !! uuid itemId) (fun item =>
    match item with
    | None => Throw (ResourceNotFoundError "menu item" itemId)
    | Some _ =>
        match reencode file with
        | Err e => Throw e
        | Ok image =>
            match stored (imageKey image) image with
            | Err e => Throw e
            | Ok _ => updateItem itemId (imageChange (urlOf (imageKey image)))
            end
        end
    end).
End images.

(** ** The bucket at boot *)

Definition READINESS_ATTEMPTS : nat := 5.
Definition READINESS_DELAY_MS : Z := 1000.

(** The commands the boot check sends, and what a store answers to each. *)
Inductive StorageCommand := HeadBucket | CreateBucket | PutBucketPolicy.

Definition isBucketAlreadyOwned (name : string) : bool :=
  bool_decide (name = "BucketAlreadyOwnedByYou") || bool_decide (name = "BucketAlreadyExists").

(** A store takes a command and answers it, or fails it with an error's name. *)
Definition Store (S : Type) : Type := StorageCommand → S → S * result string unit.

Section boot.
Context {S : Type} (store : Store S) (autoCreateBucket : bool).

Definition ensureBucket (s : S) : S * result string unit :=
  match store HeadBucket s with
  | (s, Ok _) => (s, Ok tt)
  | (s, Err e) =>
      if autoCreateBucket then
        match store CreateBucket s with
        | (s, Ok _) => store PutBucketPolicy s
        | (s, Err name) => if isBucketAlreadyOwned name then store PutBucketPolicy s else (s, Err name)
        end
      else (s, Err e)
  end.

(** [onModuleInit]: the attempts left, and the store after each delay between two. *)
Fixpoint bootAttempts (wait : S → S) (attempts : nat) (s : S) : S * result string unit :=
  match attempts with
  | 0%nat => (s, Err "not reachable")
  | Datatypes.S rest =>
      match ensureBucket s with
      | (s, Ok _) => (s, Ok tt)
      | (s, Err _) =>
          match rest with
          | 0%nat => (s, Err "not reachable")
          | _ => bootAttempts wait rest (wait s)
          end
      end
  end.

Definition onModuleInit (wait : S → S) (s : S) : S * result string unit :=
  bootAttempts wait READINESS_ATTEMPTS s.
End boot.

(** ** Which bytes are taken for what *)

Lemma text_app_cons c (s t : string) : String c s +:+ t = String c (s +:+ t).
Proof. done. Qed.

Lemma substring_app (s t : string) : String.substring 0 (String.length s) (s +:+ t) = s.
Proof. induction s as [|c s IH]; [by destruct t|]. rewrite text_app_cons. cbn. by rewrite IH. Qed.

Lemma substring_prefix (magic s : string) :
  String.substring 0 (String.length magic) s = magic → ∃ t, s = magic +:+ t.
Proof.
  revert s. induction magic as [|c magic IH]; intros s H; [by exists s|].
  destruct s as [|d s]; cbn in H; [done|]. injection H as -> H. destruct (IH s H) as [t ->]. by exists t.
Qed.

Lemma holdsAt_prefix magic s : holdsAt s 0 magic = true ↔ ∃ t, s = magic +:+ t.
Proof.
  unfold holdsAt. rewrite bool_decide_eq_true. split; [apply substring_prefix|].
  intros [t ->]. apply substring_app.
Qed.

(** Files that begin with another byte are not of a format. *)
Lemma holdsAt_other c s d magic : c ≠ d → holdsAt (String c s) 0 (String d magic) = false.
Proof. intros Hne. apply not_true_iff_false. rewrite holdsAt_prefix. intros [t [=]]. done. Qed.

(** The three formats, by how a file of each begins. *)
Inductive begins : string → string → Prop :=
| begins_jpeg rest : begins "image/jpeg" (JPEG_MAGIC +:+ rest)
| begins_png rest : begins "image/png" (PNG_MAGIC +:+ rest)
| begins_webp size rest : String.length size = 4%nat →
    begins "image/webp" (RIFF_MAGIC +:+ size +:+ WEBP_MAGIC +:+ rest).

Lemma substring_skip (s t : string) n : String.substring (String.length s) n (s +:+ t) = String.substring 0 n t.
Proof. induction s as [|c s IH]; [done|]. rewrite text_app_cons. cbn. apply IH. Qed.

Lemma split_text (s : string) n : (n <= String.length s)%nat → ∃ a b, s = a +:+ b ∧ String.length a = n.
Proof.
  revert s. induction n as [|n IH]; intros s Hn; [by exists "", s|].
  destruct s as [|c s]; cbn in Hn; [lia|]. destruct (IH s ltac:(lia)) as (a & b & -> & <-). by exists (String c a), b.
Qed.

Lemma text_app_assoc (a b c : string) : (a +:+ b) +:+ c = a +:+ (b +:+ c).
Proof. induction a as [|x a IH]; [done|]. by rewrite !text_app_cons, IH. Qed.

(** The sniffer recognises exactly the files that begin as one of the three formats does. *)
Theorem sniff_exact buffer type : sniffImageType buffer = Some type ↔ begins type buffer.
Proof.
  unfold sniffImageType. split.
  - destruct (_ && _) eqn:E1; [|destruct (_ && holdsAt buffer 0 PNG_MAGIC) eqn:E2;
      [|destruct (_ && holdsAt buffer 0 RIFF_MAGIC && _) eqn:E3; [|done]]]; intros [= <-].
    + apply andb_true_iff in E1 as [_ [t ->]%holdsAt_prefix]. constructor.
    + apply andb_true_iff in E2 as [_ [t ->]%holdsAt_prefix]. constructor.
    + apply andb_true_iff in E3 as [[Hl [t ->]%holdsAt_prefix]%andb_true_iff Hw].
      apply Nat.leb_le in Hl. rewrite string_length_app in Hl. change (String.length RIFF_MAGIC) with 4%nat in Hl.
      destruct (split_text t 4 ltac:(lia)) as (a & b & -> & Ha).
      unfold holdsAt in Hw. apply bool_decide_eq_true in Hw.
      change 8%nat with (String.length RIFF_MAGIC + 4)%nat in Hw. rewrite <-Ha, <-string_length_app in Hw.
      rewrite <-text_app_assoc, substring_skip in Hw. apply substring_prefix in Hw as [r ->]. by constructor.
  - intros [rest|rest|size rest Hs].
    + assert (holdsAt (JPEG_MAGIC +:+ rest) 0 JPEG_MAGIC = true) as -> by (apply holdsAt_prefix; eauto).
      by rewrite string_length_app.
    + assert (holdsAt (PNG_MAGIC +:+ rest) 0 PNG_MAGIC = true) as -> by (apply holdsAt_prefix; eauto).
      assert (holdsAt (PNG_MAGIC +:+ rest) 0 JPEG_MAGIC = false) as -> by by apply holdsAt_other.
      by rewrite string_length_app.
    + rewrite !string_length_app, Hs.
      assert (holdsAt (RIFF_MAGIC +:+ size +:+ WEBP_MAGIC +:+ rest) 0 RIFF_MAGIC = true) as ->
        by (apply holdsAt_prefix; eauto).
      assert (holdsAt (RIFF_MAGIC +:+ size +:+ WEBP_MAGIC +:+ rest) 8 WEBP_MAGIC = true) as ->.
      { apply bool_decide_eq_true. change 8%nat with (String.length RIFF_MAGIC + 4)%nat.
        rewrite <-Hs, <-string_length_app, <-text_app_assoc, substring_skip. apply substring_app. }
      assert (holdsAt (RIFF_MAGIC +:+ size +:+ WEBP_MAGIC +:+ rest) 0 JPEG_MAGIC = false) as -> by by apply holdsAt_other.
      assert (holdsAt (RIFF_MAGIC +:+ size +:+ WEBP_MAGIC +:+ rest) 0 PNG_MAGIC = false) as -> by by apply holdsAt_other.
      by rewrite !andb_false_r.
Qed.

(** ** What an upload leaves *)

Lemma putItem_Ok id row s item s' :
  putItem id row s = Ok (item, s') →
  item = publicItem id row ∧ tx_db s' = with_menuItems (<[id := row]> (menuItems (tx_db s))) (tx_db s).
Proof. unfold putItem. intros H. tx_inv. done. Qed.

Lemma updateItemRow_Ok id change s r s' :
  updateItemRow id change s = Ok (r, s') →
  match r with
  | None => s' = s
  | Some item => ∃ row, menuItems (tx_db s) !! uuid id = Some row ∧ item = publicItem (uuid id) (change row) ∧
      tx_db s' = with_menuItems (<[uuid id := change row]> (menuItems (tx_db s))) (tx_db s)
  end.
Proof.
  unfold updateItemRow. intros H. apply txM_bind_Ok in H as (o & s1 & [-> ->]%reads_Ok & H).
  destruct (menuItems (tx_db s) !! uuid id) as [row|] eqn:E.
  - apply txM_bind_Ok in H as (item & s2 & [-> Hdb]%putItem_Ok & [-> ->]%mret_Ok). eauto.
  - by apply mret_Ok in H as [-> ->].
Qed.

Lemma setImage_run gw id url db :
  match run gw (updateItem id (imageChange url)) db with
  | (db', _, Err _) => db' = db
  | (db', _, Ok item) => ∃ row, menuItems db !! uuid id = Some row ∧
      item = publicItem (uuid id) (changeItem (imageChange url) row) ∧
      db' = with_menuItems (<[uuid id := changeItem (imageChange url) row]> (menuItems db)) db
  end.
Proof.
  unfold updateItem, db_transaction, inTransaction, transaction.
  change (setItem (imageChange url) id) with (updateItemRow id (changeItem (imageChange url))).
  cbn [Program.after run].
  destruct (updateItemRow id (changeItem (imageChange url)) (mkTx db [])) as [[[item|] s]|e] eqn:E; [| |done].
  - apply updateItemRow_Ok in E as (row & Hr & -> & Hdb). exists row. done.
  - by apply updateItemRow_Ok in E as ->.
Qed.

(** What an upload stores is what the decoder rendered, under its own hash: a
    successful upload's bytes begin as a JPEG, PNG or WebP does, the object put is the
    decoder's output under the key of its hash, and the item's image is that key's address,
    with nothing else of the database changed. An upload that fails changes nothing. *)
Theorem upload_stores_rendering sharp sha256 publicBaseUrl stored gw db id file :
  match run gw (replaceImage sharp sha256 publicBaseUrl stored id file) db with
  | (db', _, Err _) => db' = db
  | (db', _, Ok item) =>
      ∃ type image row, begins type (up_buffer file) ∧ sharp (up_buffer file) = Some image ∧
        stored (imageKey sha256 image) image = Ok tt ∧ menuItems db !! uuid id = Some row ∧
        let url := publicBaseUrl +:+ "/items/" +:+ sha256 image +:+ ".webp" in
        m_imageUrl item = Some url ∧
        db' = with_menuItems (<[uuid id := changeItem (imageChange url) row]> (menuItems db)) db
  end.
Proof.
  unfold replaceImage, Read. cbn [run fst snd]. destruct (menuItems db !! uuid id) as [row0|] eqn:E0; [|done].
  unfold reencode. destruct (_ && _); [done|].
  destruct (sniffImageType _) as [type|] eqn:Es; [|done]. destruct (sharp _) as [image|] eqn:Ei; [|done].
  destruct (stored _ _) as [[]|] eqn:Ep; [|done].
  pose proof (setImage_run gw id (urlOf publicBaseUrl (imageKey sha256 image)) db) as Hr.
  destruct (run _ _ _) as [[db' log] [item|e]]; [|done]. destruct Hr as (row & Hrow & -> & ->).
  exists type, image, row. split; [by apply sniff_exact|]. do 2 (split; [done|]). split; [congruence|].
  assert (publicBaseUrl +:+ "/items/" +:+ sha256 image +:+ ".webp" = urlOf publicBaseUrl (imageKey sha256 image))
    as -> by reflexivity.
  split; reflexivity.
Qed.

(** ** What a boot does to the store *)

Section boot_facts.
Context {S : Type} (store : Store S).

(** A store that also keeps the commands it was sent, newest first. *)
Definition logged : Store (S * list StorageCommand) :=
  fun command '(s, sent) => let '(s, answer) := store command s in ((s, command :: sent), answer).

Lemma ensure_logged s sent : ensureBucket logged false (s, sent) =
  ((store HeadBucket s).1, HeadBucket :: sent, (store HeadBucket s).2).
Proof. unfold ensureBucket, logged. by destruct (store HeadBucket s) as [s1 [[]|e]]. Qed.

(** The boot check gives the store five chances and no more: it succeeds exactly when
    one of the first five checks does, each on the store as the last left it a delay later;
    and unless it was told to create the bucket, it asks for it and sends nothing else. *)
Theorem boot_checks_bucket autoCreateBucket wait s :
  ((onModuleInit store autoCreateBucket wait s).2 = Ok tt ↔
   ∃ n, (n < READINESS_ATTEMPTS)%nat ∧
     (ensureBucket store autoCreateBucket
        (Nat.iter n (fun s => wait (ensureBucket store autoCreateBucket s).1) s)).2 = Ok tt) ∧
  let sent := (onModuleInit logged false (fun s => (wait s.1, s.2)) (s, [])).1.2 in
  Forall (eq HeadBucket) sent ∧ (1 <= length sent <= READINESS_ATTEMPTS)%nat.
Proof.
  split.
  - unfold onModuleInit. assert (0 < READINESS_ATTEMPTS)%nat as Hp by (vm_compute; lia).
    revert Hp s. generalize READINESS_ATTEMPTS as n. induction n as [|n IH]; intros Hp s; [lia|].
    cbn [bootAttempts]. destruct (ensureBucket store autoCreateBucket s) as [s1 [[]|e]] eqn:E.
    + cbn. split; [|done]. intros _. exists 0%nat. split; [lia|]. cbn. by rewrite E.
    + assert ((∃ m, (m < Datatypes.S n)%nat ∧ (ensureBucket store autoCreateBucket
          (Nat.iter m (fun s => wait (ensureBucket store autoCreateBucket s).1) s)).2 = Ok tt)
        ↔ ∃ m, (m < n)%nat ∧ (ensureBucket store autoCreateBucket
          (Nat.iter m (fun s => wait (ensureBucket store autoCreateBucket s).1) (wait s1))).2 = Ok tt) as ->.
      { split; intros (m & Hm & Hk).
        - destruct m as [|m]; [cbn in Hk; by rewrite E in Hk|]. exists m. split; [lia|].
          rewrite Nat.iter_succ_r, E in Hk. done.
        - exists (Datatypes.S m). split; [lia|]. by rewrite Nat.iter_succ_r, E. }
      destruct n as [|n]; [cbn; split; [done|]; intros (m & ? & _); lia|]. apply IH. lia.
  - unfold onModuleInit.
    enough (∀ n s sent, Forall (eq HeadBucket) sent →
      let sent' := (bootAttempts logged false (fun s => (wait s.1, s.2)) n (s, sent)).1.2 in
      Forall (eq HeadBucket) sent' ∧ (length sent <= length sent' <= length sent + n)%nat ∧
      ((0 < n)%nat → (length sent < length sent')%nat)) as H.
    { destruct (H READINESS_ATTEMPTS s [] ltac:(constructor)) as (H1 & H2 & H3). split; [done|].
      cbn [length Nat.add] in *. split; [apply H3; vm_compute; lia|lia]. }
    clear s. induction n as [|n IH]; intros s sent Hs; [cbn; split_and!; [done|lia|lia|lia]|].
    cbn [bootAttempts]. rewrite ensure_logged.
    destruct (store HeadBucket s) as [s1 [[]|e]]; cbn; [split_and!; [by constructor|lia..]|].
    destruct n as [|n]; [cbn; split_and!; [by constructor|lia..]|].
    destruct (IH (wait s1) (HeadBucket :: sent) ltac:(by constructor)) as (H1 & H2 & H3). cbn [length] in *.
    split_and!; [done|lia|lia|]. specialize (H3 ltac:(lia)). lia.
Qed.
End boot_facts.
