(* ===== verification/CatalogSafety.v ===== *)
(** * CatalogSafety: what every interleaving of catalog writes keeps

    The routes of the four catalog controllers as one type of write, the invariant of
    the catalog tables, and that any number of writes keep it in any interleaving,
    together with everything [Invariants.v] says of the orders and the money. *)

From S2P Require Import Prelude Text Schema Errors Program CreateOrder Ordering OrdersRead Books Invariants System.
From S2P Require Import BusinessDay Gateway Transition Catalog ItemImage.

(** ** The writes ([*.controller.ts]) *)

Inductive CatalogView :=
| CategoryView (category : Category)
| ItemView (item : MenuItem)
| AttachedView (groups : list AttachedOptionGroup)
| GroupView (group : OptionGroup)
| ChoiceView (option : Option).

(** The ids of the rows a create makes are drawn by the application. *)
Inductive CatalogWrite :=
| PostCategory (id : string) (body : CreateCategoryInput)
| PatchCategory (id : string) (body : UpdateCategoryInput)
| PostItem (id : string) (body : CreateItemInput)
| PatchItem (id : string) (body : UpdateItemInput)
| PatchItemAvailability (id : string) (isAvailable : bool)
| PutItemOptionGroups (id : string) (optionGroupIds : list string)
| PostItemImage (id : string) (file : option UploadedImage)
| PostOptionGroup (id : string) (body : CreateOptionGroupInput)
| PatchOptionGroup (id : string) (body : UpdateOptionGroupInput)
| PostOption (id groupId : string) (body : CreateOptionInput)
| PatchOption (id : string) (body : UpdateOptionInput)
| PatchOptionAvailability (id : string) (isAvailable : bool).

Definition viewOf {A} (view : A → CatalogView) (p : prog A) : prog CatalogView :=
  after p (fun r => Done (view <$> r)).

Section writes.
Context (sharp : string → option string) (sha256 : string → string) (publicBaseUrl : string).
Context (stored : string → string → result AppError unit).

Definition perform (write : CatalogWrite) : prog CatalogView :=
  match write with
  | PostCategory id body => viewOf CategoryView (createCategory id body)
  | PatchCategory id body => viewOf CategoryView (updateCategory id body)
  | PostItem id body => viewOf ItemView (createItem id body)
  | PatchItem id body => viewOf ItemView (updateItem id body)
  | PatchItemAvailability id isAvailable => viewOf ItemView (setItemAvailability id isAvailable)
  | PutItemOptionGroups id groups => viewOf AttachedView (setForItem id groups)
  | PostItemImage id None => Throw ImageFileMissingError
  | PostItemImage id (Some file) =>
      viewOf ItemView (replaceImage sharp sha256 publicBaseUrl stored id file)
  | PostOptionGroup id body => viewOf GroupView (createGroup id body)
  | PatchOptionGroup id body => viewOf GroupView (updateGroup id body)
  | PostOption id groupId body => viewOf ChoiceView (createOption id groupId body)
  | PatchOption id body => viewOf ChoiceView (updateOption id body)
  | PatchOptionAvailability id isAvailable => viewOf ChoiceView (setOptionAvailability id isAvailable)
  end.
End writes.

(** ** The invariant *)

Record CatalogOk (db : Database) : Prop := {
  ok_names : ∀ i j a b, categories db !! i = Some a → categories db !! j = Some b →
    cat_name a = cat_name b → i = j;
  ok_items : map_Forall (fun _ row => 0 ≤ mi_basePriceMinor row ∧
    is_Some (categories db !! mi_categoryId row)) (menuItems db);
  ok_groups : map_Forall (fun _ row => 0 ≤ og_minSelect row ≤ og_maxSelect row) (optionGroups db);
  ok_options : map_Forall (fun _ row => is_Some (optionGroups db !! opt_optionGroupId row)) (options db);
  ok_links : Forall (fun l => is_Some (menuItems db !! lk_menuItemId l) ∧
    is_Some (optionGroups db !! lk_optionGroupId l)) (menuItemOptionGroups db);
  ok_link_keys : NoDup (map (fun l => (lk_menuItemId l, lk_optionGroupId l)) (menuItemOptionGroups db))
}.

(** The tables the catalog never touches. *)
Definition sameBooks (db db' : Database) : Prop :=
  (kioskDevices db', orders db', orderItems db', orderItemOptions db', orderStatusHistory db') =
    (kioskDevices db, orders db, orderItems db, orderItemOptions db, orderStatusHistory db) ∧
  (orderNumberCounters db', payments db', refunds db', paymentEvents db', idempotencyKeys db') =
    (orderNumberCounters db, payments db, refunds db, paymentEvents db, idempotencyKeys db).

#[export] Instance sameBooks_preorder : PreOrder sameBooks.
Proof. split; [done|]. intros a b c [H1 H2] [H3 H4]. split; congruence. Qed.

(** Nothing is ever deleted from the four entity tables. *)
Record grown (db db' : Database) : Prop := {
  gr_cats : dom (categories db) ⊆ dom (categories db');
  gr_its : dom (menuItems db) ⊆ dom (menuItems db');
  gr_grps : dom (optionGroups db) ⊆ dom (optionGroups db');
  gr_opts : dom (options db) ⊆ dom (options db')
}.

#[export] Instance grown_preorder : PreOrder grown.
Proof. split; [split; done|]. intros a b c [] []. split; etrans; done. Qed.

Definition catalogMove (db db' : Database) : Prop :=
  (CatalogOk db → CatalogOk db') ∧ sameBooks db db' ∧ grown db db'.

#[export] Instance catalogMove_preorder : PreOrder catalogMove.
Proof.
  split; [intros db; split_and!; done|].
  intros a b c (H1 & H2 & H3) (H4 & H5 & H6). split_and!; [auto|by etrans|by etrans].
Qed.

Definition moves {A} (work : txM A) : Prop :=
  ∀ s a s', work s = Ok (a, s') → catalogMove (tx_db s) (tx_db s').

Lemma moves_ret {A} (a : A) : moves (mret a).
Proof. intros s b s' [_ ->]%mret_Ok. done. Qed.
Lemma moves_throw {A} e : moves (throw (A:=A) e).
Proof. by intros s b s' ?. Qed.
Lemma moves_reads {A} (f : Database → A) : moves (reads f).
Proof. intros s b s' [_ ->]%reads_Ok. done. Qed.
Lemma moves_bind {A B} (m : txM A) (k : A → txM B) : moves m → (∀ a, moves (k a)) → moves (m ≫= k).
Proof.
  intros Hm Hk s b s' (a & s1 & H1 & H2)%txM_bind_Ok. etrans; [by eapply Hm|by eapply Hk].
Qed.

Create HintDb catalog.
#[export] Hint Resolve moves_ret moves_throw moves_reads : catalog.

(** ** The writes keep it *)

Lemma subseteq_dom_insert {A} (m : gmap string A) k x : dom m ⊆ dom (<[k:=x]> m).
Proof. set_solver. Qed.
#[export] Hint Resolve subseteq_dom_insert : catalog.

Lemma is_Some_insert {A} (m : gmap string A) k x j : is_Some (m !! j) → is_Some (<[k:=x]> m !! j).
Proof. intros. destruct (decide (j = k)) as [->|]; [rewrite lookup_insert_eq|rewrite lookup_insert_ne by done]; eauto. Qed.
#[export] Hint Resolve is_Some_insert : catalog.

Lemma taken_false id name db j row :
  categoryNameTaken id name db = false → categories db !! j = Some row → cat_name row = name → j = id.
Proof.
  intros H Hj Hn. destruct (decide (j = id)); [done|].
  enough (categoryNameTaken id name db = true) by congruence.
  apply existsb_exists. exists (j, row). split; [by apply list_elem_of_In, elem_of_map_to_list|].
  by rewrite bool_decide_false, bool_decide_true.
Qed.

(** Putting a category row whose name no other row has. *)
Lemma put_category db id row :
  categoryNameTaken id (cat_name row) db = false →
  catalogMove db (with_categories (<[id := row]> (categories db)) db).
Proof.
  intros Ht. split_and!; [|done|split; cbn; auto with catalog].
  intros [Hn Hi Hg Ho Hl Hk]. split; cbn; [|..|done|done|done|done].
  - intros i j a b [[-> <-]|[? Ha]]%lookup_insert_Some [[-> <-]|[? Hb]]%lookup_insert_Some E; [done|..|by eapply Hn].
    + symmetry. by eapply taken_false.
    + by eapply taken_false.
  - intros i r Hr. destruct (Hi i r Hr). split; auto with catalog.
Qed.

Lemma put_item db id row :
  itemRefused row db = None → catalogMove db (with_menuItems (<[id := row]> (menuItems db)) db).
Proof.
  unfold itemRefused. intros Hr. destruct (negb _); [done|]. destruct (_ <? _) eqn:Ep; [done|].
  destruct (categories db !! mi_categoryId row) eqn:Ec; [|by rewrite bool_decide_true in Hr].
  split_and!; [|done|split; cbn; auto with catalog].
  intros [Hn Hi Hg Ho Hl Hk]. split; cbn; [done| |done|done| |done].
  - apply map_Forall_insert_2; [split; [lia|rewrite Ec; eauto]|done].
  - eapply Forall_impl; [exact Hl|]. intros l []. auto with catalog.
Qed.

Lemma put_group db id row :
  boundsOk row = true → catalogMove db (with_optionGroups (<[id := row]> (optionGroups db)) db).
Proof.
  unfold boundsOk. intros Hb. split_and!; [|done|split; cbn; auto with catalog].
  intros [Hn Hi Hg Ho Hl Hk]. split; cbn; [done|done| | | |done].
  - apply map_Forall_insert_2; [lia|done].
  - eapply map_Forall_impl; [exact Ho|]. eauto with catalog.
  - eapply Forall_impl; [exact Hl|]. intros l []. auto with catalog.
Qed.

Lemma put_option db id row :
  (CatalogOk db → is_Some (optionGroups db !! opt_optionGroupId row)) →
  catalogMove db (with_options (<[id := row]> (options db)) db).
Proof.
  intros Hg'. split_and!; [|done|split; cbn; auto with catalog].
  intros HC. specialize (Hg' HC). destruct HC as [Hn Hi Hg Ho Hl Hk].
  split; cbn; [done..| |done|done]. by apply map_Forall_insert_2.
Qed.

Lemma moves_putItem id row : moves (putItem id row).
Proof.
  intros s a s' H. unfold putItem in H. tx_inv. by apply put_item.
Qed.

Lemma moves_putGroup id row : moves (putGroup id row).
Proof. intros s a s' H. unfold putGroup in H. tx_inv. by apply put_group. Qed.

Lemma moves_insertLink link : moves (insertLink link).
Proof.
  intros s a s' H. unfold insertLink in H. tx_inv. rename Heqb into Et, Heqb0 into Ed.
  apply orb_false_iff in Ed as [Ei%bool_decide_eq_false_1 Eg%bool_decide_eq_false_1].
  apply not_eq_None_Some in Ei, Eg. split_and!; [|done|done].
  intros [Hn Hi Hg Ho Hl Hk]. split; cbn; [done..| |].
  - apply Forall_app. split; [done|]. by repeat constructor.
  - rewrite map_app. apply NoDup_app. split_and!; [done| |apply NoDup_singleton].
    intros [i g] (l & E & Hl')%list_elem_of_fmap Hin%list_elem_of_singleton.
    assert (existsb (sameLink link) (menuItemOptionGroups (tx_db s)) = true); [|congruence].
    apply existsb_exists. exists l. split; [by apply list_elem_of_In|]. unfold sameLink.
    injection E as -> ->. injection Hin as -> ->. by rewrite !bool_decide_true.
Qed.

Lemma moves_insertLinks links : moves (insertLinks links).
Proof.
  induction links as [|l links IH]; cbn; [auto with catalog|].
  apply moves_bind; [apply moves_insertLink|done].
Qed.

Lemma NoDup_map_filter {A B} (f : A → B) (P : A → Prop) `{∀ x, Decision (P x)} (l : list A) :
  NoDup (map f l) → NoDup (map f (filter P l)).
Proof.
  induction l as [|x l IH]; intros Hn; [constructor|]. apply NoDup_cons in Hn as [Hx Hn].
  rewrite filter_cons. case_decide; [|auto]. cbn. constructor; [|auto].
  intros (y & E & [_ Hy]%list_elem_of_filter)%list_elem_of_fmap. apply Hx. rewrite E. by apply list_elem_of_fmap_2.
Qed.

Lemma moves_replaceLinks itemId ids seen : moves (replaceLinks itemId ids seen).
Proof.
  unfold replaceLinks. apply moves_bind.
  - intros s a s' [_ ->]%writes_Ok. cbn. split_and!; [|done|done].
    intros [Hn Hi Hg Ho Hl Hk]. split; cbn; [done..| |by apply NoDup_map_filter].
    apply Forall_forall. intros l [_ Hin]%list_elem_of_filter. by eapply Forall_forall in Hl.
  - intros _. apply moves_bind; [apply moves_insertLinks|auto with catalog].
Qed.

Lemma moves_putCategory id row : moves (putCategory id row).
Proof. intros s a s' H. unfold putCategory in H. tx_inv. by apply put_category. Qed.

Lemma moves_insertCategory id input : moves (insertCategory id input).
Proof.
  apply moves_bind; [auto with catalog|]. intros b. destruct (_ && _); [auto with catalog|apply moves_putCategory].
Qed.

Lemma moves_updateCategoryRow id changes : moves (updateCategoryRow id changes).
Proof.
  destruct changes as [[] [] []]; unfold updateCategoryRow; try apply moves_throw;
    (apply moves_bind; [auto with catalog|]; intros [row|]; [|auto with catalog];
     apply moves_bind; [apply moves_putCategory|auto with catalog]).
Qed.

Lemma moves_updateItemRow id change : moves (updateItemRow id change).
Proof.
  apply moves_bind; [auto with catalog|]. intros [row|]; [|auto with catalog].
  apply moves_bind; [apply moves_putItem|auto with catalog].
Qed.

Lemma moves_setItem changes id : moves (setItem changes id).
Proof.
  destruct changes as [[] [] [] [] [] []]; unfold setItem;
    first [apply moves_updateItemRow|apply moves_throw].
Qed.

Lemma moves_insertItem id input : moves (insertItem id input).
Proof.
  apply moves_bind; [auto with catalog|]. intros b. destruct (_ && _); [auto with catalog|apply moves_putItem].
Qed.

Lemma moves_insertGroup id input : moves (insertGroup id input).
Proof.
  apply moves_bind; [auto with catalog|]. intros b. destruct (_ && _); [auto with catalog|apply moves_putGroup].
Qed.

Lemma moves_updateGroupRow id changes : moves (updateGroupRow id changes).
Proof.
  destruct changes as [[] [] []]; unfold updateGroupRow; try apply moves_throw;
    (apply moves_bind; [auto with catalog|]; intros [row|]; [|auto with catalog];
     apply moves_bind; [apply moves_putGroup|auto with catalog]).
Qed.

Lemma moves_insertOption id groupId input : moves (insertOption id groupId input).
Proof.
  intros s a s' H. unfold insertOption in H. tx_inv. apply put_option. intros _.
  apply not_eq_None_Some. by eapply bool_decide_eq_false_1.
Qed.

(** A change that leaves an option in its group. *)
Lemma moves_updateOptionRow id change :
  (∀ row, opt_optionGroupId (change row) = opt_optionGroupId row) → moves (updateOptionRow id change).
Proof.
  intros Hc s a s' H. unfold updateOptionRow in H. tx_inv; [|done]. apply put_option.
  intros [_ _ _ Ho _ _]. rewrite Hc. by eapply Ho.
Qed.

Lemma moves_updateOptionChange id changes :
  moves match changes with
        | {| uo_name := None; uo_priceDeltaMinor := None; uo_isDefault := None |} => throw NO_VALUES
        | _ => updateOptionRow id (changeOption changes)
        end.
Proof. destruct changes as [[] [] []]; first [by apply moves_updateOptionRow|apply moves_throw]. Qed.

(** Every step of a handler moves the catalog. *)
Fixpoint catalogProg {R} (p : prog R) : Prop :=
  match p with
  | Done _ => True
  | Step t k => (∀ db, catalogMove db (t db).1) ∧ ∀ x, catalogProg (k x)
  | Ask call k => ∀ a, catalogProg (k a)
  | Emit _ k => catalogProg k
  end.

Lemma catalogProg_after {A B} (p : prog A) (k : result AppError A → prog B) :
  catalogProg p → (∀ r, catalogProg (k r)) → catalogProg (after p k).
Proof.
  intros Hp Hk. induction p as [r|X t f IH|call f IH|e f IH]; cbn in *; [apply Hk| |auto|auto].
  destruct Hp as [? ?]. split; auto.
Qed.

Lemma catalogProg_read {R X} (f : Database → X) (k : X → prog R) :
  (∀ x, catalogProg (k x)) → catalogProg (Read f k).
Proof. by split. Qed.

Lemma catalogProg_transaction {A} (work : txM A) : moves work → catalogProg (db_transaction work).
Proof.
  intros Hw. split; [|by intros [[]|]]. intros db. unfold transaction.
  destruct (work _) as [[a s]|e] eqn:E; [by apply Hw in E|done].
Qed.

(** A service method: one statement, and an answer that depends on how it went. *)
Lemma catalogProg_method {A B} (work : txM A) (k : result AppError A → prog B) :
  moves work → (∀ r, ∃ b, k r = Done b) → catalogProg (after (db_transaction work) k).
Proof.
  intros Hw Hk. apply catalogProg_after; [by apply catalogProg_transaction|].
  intros r. by destruct (Hk r) as [b ->].
Qed.

(** The answer of a method is one [Done] on every path. *)
Ltac answers := intros r; repeat case_match; eexists; reflexivity.

Lemma updateItem_moves id changes : catalogProg (updateItem id changes).
Proof. apply catalogProg_method; [apply moves_setItem|answers]. Qed.

Lemma setForItem_moves id ids : catalogProg (setForItem id ids).
Proof.
  apply catalogProg_read. intros [item|]; [|done]. apply catalogProg_read. intros [|]; [|done].
  apply catalogProg_read. intros seen. apply catalogProg_transaction, moves_replaceLinks.
Qed.

Lemma perform_moves sharp sha256 url stored write : catalogProg (perform sharp sha256 url stored write).
Proof.
  destruct write as [| | | | | |id [file|]| | | | |]; try done;
    unfold perform, viewOf; (apply catalogProg_after; [|done]).
  - apply catalogProg_method; [apply moves_insertCategory|answers].
  - apply catalogProg_method; [apply moves_updateCategoryRow|answers].
  - apply catalogProg_method; [apply moves_insertItem|answers].
  - apply updateItem_moves.
  - apply catalogProg_method; [apply moves_updateItemRow|answers].
  - apply setForItem_moves.
  - apply catalogProg_read. intros [item|]; [|done]. destruct (reencode _ _) as [image|]; [|done].
    destruct (stored _ _); [apply updateItem_moves|done].
  - apply catalogProg_method; [apply moves_insertGroup|answers].
  - apply catalogProg_method; [apply moves_updateGroupRow|answers].
  - apply catalogProg_method; [apply moves_insertOption|answers].
  - apply catalogProg_method; [apply moves_updateOptionChange|answers].
  - apply catalogProg_method; [by apply moves_updateOptionRow|answers].
Qed.

Lemma catalog_run {R} gw (p : prog R) db : catalogProg p → catalogMove db (run gw p db).1.1.
Proof.
  revert db. induction p as [r|X t k IH|call k IH|e k IH]; intros db Hp; cbn in *; [done| |auto|].
  - destruct Hp as [Ht Hk]. etrans; [apply Ht|]. by apply IH.
  - specialize (IH db Hp). by destruct (run gw k db) as [[] ?].
Qed.

(** ** Every interleaving *)

(** A handler of another part of the system: it leaves the catalog tables as they are. *)
Fixpoint handsOff {R} (p : prog R) : Prop :=
  match p with
  | Done _ => True
  | Step t k => (∀ db,
      (categories (t db).1, menuItems (t db).1, optionGroups (t db).1, options (t db).1,
       menuItemOptionGroups (t db).1) =
      (categories db, menuItems db, optionGroups db, options db, menuItemOptionGroups db)) ∧
      ∀ x, handsOff (k x)
  | Ask call k => ∀ a, handsOff (k a)
  | Emit _ k => handsOff k
  end.

Lemma catalog_rg {R} (p : prog R) P : catalogProg p → rg CatalogOk grown P p.
Proof.
  revert P. induction p as [r|X t k IH|call k IH|e k IH]; intros P Hp; [done| |intros a; by apply IH|by apply IH].
  destruct Hp as [Ht Hk]. intros db HC HP. destruct (Ht db) as (HC' & _ & Hg).
  split_and!; [auto|done|]. exists (fun _ => True). split_and!; [done..|]. by apply IH.
Qed.

Lemma handsOff_rg {R} (p : prog R) P : handsOff p → rg CatalogOk grown P p.
Proof.
  revert P. induction p as [r|X t k IH|call k IH|e k IH]; intros P Hp; [done| |intros a; by apply IH|by apply IH].
  destruct Hp as [Ht Hk]. intros db [Hn Hi Hg Ho Hl Hk'] HP. specialize (Ht db). injection Ht as E1 E2 E3 E4 E5.
  split_and!.
  - split; rewrite ?E1, ?E2, ?E3, ?E4, ?E5; done.
  - split; rewrite ?E1, ?E2, ?E3, ?E4; done.
  - exists (fun _ => True). split_and!; [done..|]. by apply IH.
Qed.

Section everything.
Context `{port : PaymentPort}.

(** A catalog step is one the order system can have between any two of its own. *)
Lemma sameBooks_inv db db' : sameBooks db db' → Inv db → Inv db' ∧ Ev db db'.
Proof.
  intros [[= HD HO HOI HX HH] [= HC HP HR HPE HK]] [[H1 H2 H3 H4 H5 H6] H7]. split.
  - split; [split|]; rewrite ?HO, ?HOI, ?HH, ?HC, ?HP, ?HR, ?HPE, ?HK; done.
  - split; [split|]; unfold counterOf;
      rewrite ?HO, ?HOI, ?HX, ?HH, ?HC, ?HP, ?HR, ?HPE, ?HK; reflexivity.
Qed.

Lemma catalog_rg_books {R} (p : prog R) P : catalogProg p → rg Inv Ev P p.
Proof.
  revert P. induction p as [r|X t k IH|call k IH|e k IH]; intros P Hp; [done| |intros a; by apply IH|by apply IH].
  destruct Hp as [Ht Hk]. intros db HI HP. destruct (Ht db) as (_ & Hs & _).
  destruct (sameBooks_inv _ _ Hs HI). split_and!; [done..|]. exists (fun _ => True). split_and!; [done..|].
  by apply IH.
Qed.

Context (config : Config) (tzOffset : string → Z → Z) (sha256 : string → string).
Context (sharp : string → option string) (publicBaseUrl : string).

Definition catalogThread (th : thread) : Prop :=
  ∃ stored write, th = thread_of (perform sharp sha256 publicBaseUrl stored write).

(** Catalog writes among handlers of the other parts. *)
Definition catalogTraffic (th : thread) : Prop := catalogThread th ∨ handsOff (projT2 th).

(** C19. The catalog stays well formed in every interleaving of catalog writes, with any
    handlers that leave its tables alone: category names are unique, every item is filed
    under a category and has a price of at least zero, every group's bounds can be met,
    every option and every attachment refers to rows that exist and no group is attached to
    an item twice; and no category, item, group or option ever disappears. *)
Theorem catalog_well_formed c c' :
  Forall catalogTraffic (pool_threads c) →
  CatalogOk (pool_db c) →
  pool_steps catalogTraffic c c' →
  CatalogOk (pool_db c') ∧ grown (pool_db c) (pool_db c').
Proof using Type.
  intros Hf Hc Hs.
  assert (∀ db th, catalogTraffic th → thread_safe CatalogOk grown db th) as Hsafe.
  { intros db th Hth. exists (fun _ => True). split_and!; [done..|].
    destruct Hth as [(stored & write & ->)|Ho]; [apply catalog_rg, perform_moves|by apply handsOff_rg]. }
  eapply (pool_steps_safe CatalogOk grown) in Hs as [[H1 _] H2]; [done|eauto|].
  split; [done|]. eapply Forall_impl; [exact Hf|]. auto.
Qed.

(** The order system with the catalog's writes in place of its arbitrary administration. *)
Definition traffic (th : thread) : Prop := request config tzOffset sha256 th ∨ catalogThread th.

(** Editing the menu never touches an order, a payment or a refund: with any number of
    catalog writes interleaved with every request and job of the order system, the
    invariant of the books holds and the books only evolve as the order system moves them. *)
Theorem menu_edits_keep_books db0 c c' :
  opening db0 → pool_steps traffic (idle db0) c → pool_steps traffic c c' →
  Inv (pool_db c') ∧ Ev (pool_db c) (pool_db c').
Proof using Type.
  intros Ho H1 H2.
  assert (∀ db th, Inv db → traffic th → thread_safe Inv Ev db th) as Hsafe.
  { intros db th HI [Hr|(stored & write & ->)]; [by eapply request_safe|].
    exists (fun _ => True). split_and!; [done..|]. apply catalog_rg_books, perform_moves. }
  eapply (pool_steps_safe Inv Ev) in H1 as [Hc _]; [|done|].
  - eapply (pool_steps_safe Inv Ev) in H2 as [[? _] ?]; done.
  - split; [by apply opening_inv|constructor].
Qed.
End everything.
