(* ===== verification/CatalogBehaviour.v ===== *)
(** * CatalogBehaviour: what one catalog write does

    [setForItem] run by itself replaces an item's groups and nothing else, and says what is wrong
    with a request it refuses; what the group bounds decide on an update; and two
    behaviours of [setForItem] its comments do not expect. *)

From S2P Require Import Prelude Text Schema Errors Program CreateOrder Ordering OrdersRead.
From S2P Require Import Books Invariants System Gateway Scenario.
From S2P Require Import Catalog ItemImage CatalogSafety.

(** ** Replacing an item's groups *)

Lemma sameLink_spec a b :
  sameLink a b = true ↔ lk_menuItemId a = lk_menuItemId b ∧ lk_optionGroupId a = lk_optionGroupId b.
Proof. unfold sameLink. rewrite andb_true_iff, !bool_decide_eq_true. done. Qed.

Lemma existsb_sameLink link links :
  existsb (sameLink link) links = true ↔
  ∃ l, l ∈ links ∧ lk_menuItemId link = lk_menuItemId l ∧ lk_optionGroupId link = lk_optionGroupId l.
Proof.
  rewrite existsb_exists. split; intros (l & H1 & H2); exists l.
  - by rewrite list_elem_of_In, <-sameLink_spec.
  - by rewrite <-list_elem_of_In, sameLink_spec.
Qed.

(** Deleting what [WHERE menu_item_id = id] sees leaves the links of the other items. *)
Lemma delete_own item links :
  filter (fun l => existsb (sameLink l) (filter (fun l => lk_menuItemId l = item) links) = false) links
  = filter (fun l => lk_menuItemId l ≠ item) links.
Proof.
  apply filter_iff_in. intros l Hl. split.
  - intros Hf E. enough (existsb (sameLink l) (filter (fun l => lk_menuItemId l = item) links) = true) by congruence.
    apply existsb_sameLink. exists l. split; [by apply list_elem_of_filter|done].
  - intros Hne. apply not_true_iff_false. rewrite existsb_sameLink.
    intros (l' & [E _]%list_elem_of_filter & E' & _). congruence.
Qed.

(** A row whose references exist and whose key is free goes in. *)
Lemma insertLink_ok link db pending :
  existsb (sameLink link) (menuItemOptionGroups db) = false →
  is_Some (menuItems db !! lk_menuItemId link) → is_Some (optionGroups db !! lk_optionGroupId link) →
  insertLink link (mkTx db pending)
  = Ok (tt, mkTx (with_menuItemOptionGroups (menuItemOptionGroups db ++ [link]) db) pending).
Proof.
  intros Hf [i Hi] [g Hg]. unfold insertLink. tx_simpl. rewrite Hf. cbn [tx_db].
  by rewrite Hi, Hg.
Qed.

Definition linkKey (l : ItemGroupLink) : string * string := (lk_menuItemId l, lk_optionGroupId l).

Lemma insertLinks_ok links : ∀ db pending,
  NoDup (map linkKey (menuItemOptionGroups db ++ links)) →
  Forall (fun l => is_Some (menuItems db !! lk_menuItemId l) ∧ is_Some (optionGroups db !! lk_optionGroupId l)) links →
  insertLinks links (mkTx db pending)
  = Ok (tt, mkTx (with_menuItemOptionGroups (menuItemOptionGroups db ++ links) db) pending).
Proof.
  induction links as [|l links IH]; intros db pending Hn Hf.
  - cbn. rewrite app_nil_r. by destruct db.
  - apply Forall_cons in Hf as [[Hi Hg] Hf]. cbn [insertLinks]. unfold mbind, txM_bind.
    rewrite insertLink_ok; [| |done|done].
    + rewrite IH; [by cbn; rewrite <-app_assoc|by cbn; rewrite <-app_assoc|done].
    + apply not_true_iff_false. rewrite existsb_sameLink.
      intros (l' & Hl' & E1 & E2). rewrite map_app in Hn. apply NoDup_app in Hn as (_ & Hd & _).
      apply (Hd (linkKey l')); [by apply list_elem_of_fmap_2|]. unfold linkKey. rewrite <-E1, <-E2.
      apply list_elem_of_here.
Qed.

(** A repeated key stops the insert, and with it the transaction. *)
Lemma insertLinks_repeated links : ∀ db pending,
  NoDup (map linkKey (menuItemOptionGroups db)) → ¬ NoDup (map linkKey (menuItemOptionGroups db ++ links)) →
  Forall (fun l => is_Some (menuItems db !! lk_menuItemId l) ∧ is_Some (optionGroups db !! lk_optionGroupId l)) links →
  insertLinks links (mkTx db pending) = Err (DbError UNIQUE_VIOLATION).
Proof.
  induction links as [|l links IH]; intros db pending Hok Hn Hf.
  - rewrite app_nil_r in Hn. done.
  - apply Forall_cons in Hf as [[Hi Hg] Hf]. cbn [insertLinks]. unfold mbind, txM_bind.
    destruct (existsb (sameLink l) (menuItemOptionGroups db)) eqn:E.
    + unfold insertLink. tx_simpl. by rewrite E.
    + rewrite insertLink_ok by done. apply IH; [|by cbn; rewrite <-app_assoc|done].
      cbn. rewrite map_app. apply NoDup_app. split_and!; [done| |apply NoDup_singleton].
      intros k (l' & -> & Hl')%list_elem_of_fmap Hk%list_elem_of_singleton.
      injection Hk as E1 E2. apply not_true_iff_false in E. apply E, existsb_sameLink. by exists l'.
Qed.

Lemma newLinks_keys itemId ids : map linkKey (newLinks itemId ids) = map (fun g => (uuid itemId, uuid g)) ids.
Proof.
  unfold newLinks. generalize 0%nat as n.
  enough (∀ (f : nat → nat), map linkKey (imap (fun index optionGroupId => {| lk_menuItemId := uuid itemId;
    lk_optionGroupId := uuid optionGroupId; lk_sortOrder := Z.of_nat (f index) |}) ids)
    = map (fun g => (uuid itemId, uuid g)) ids) as H by (intros _; apply (H (fun n => n))).
  induction ids as [|g ids IH]; intros f; [done|]. cbn. f_equal. apply (IH (fun n => f (S n))).
Qed.

(** The links [setForItem] leaves: the other items', then the new ones. *)
Definition replaced (itemId : string) (ids : list string) (db : Database) : Database :=
  with_menuItemOptionGroups
    (filter (fun l => lk_menuItemId l ≠ uuid itemId) (menuItemOptionGroups db) ++ newLinks itemId ids) db.

Lemma elem_of_newLinks itemId ids l :
  l ∈ newLinks itemId ids → lk_menuItemId l = uuid itemId ∧ ∃ g, g ∈ ids ∧ lk_optionGroupId l = uuid g.
Proof.
  unfold newLinks. rewrite elem_of_lookup_imap. intros (i & g & -> & Hg). cbn. split; [done|].
  exists g. split; [by eapply list_elem_of_lookup_2|done].
Qed.

(** Its own links are the new ones: no other row is of the item. *)
Lemma linksOf_replaced itemId ids db : linksOf (uuid itemId) (replaced itemId ids db) = newLinks itemId ids.
Proof.
  unfold linksOf, replaced. cbn. rewrite filter_app, filter_none, filter_all; [done| |].
  - intros l Hl. by apply elem_of_newLinks in Hl as [? _].
  - intros l [? _]%list_elem_of_filter. done.
Qed.

Lemma newLinks_sorted itemId ids : StronglySorted bySortOrder (newLinks itemId ids).
Proof.
  unfold newLinks.
  enough (∀ n, StronglySorted bySortOrder (imap (fun index g => {| lk_menuItemId := uuid itemId;
    lk_optionGroupId := uuid g; lk_sortOrder := Z.of_nat (n + index) |}) ids)) as H by apply (H 0%nat).
  induction ids as [|g ids IH]; intros n; cbn; [constructor|]. constructor.
  - eapply (iff_refl (StronglySorted _ _)). erewrite imap_ext; [apply (IH (S n))|].
    intros i x _. cbn. do 2 f_equal. lia.
  - apply Forall_forall. intros l. rewrite elem_of_lookup_imap. intros (i & x & -> & _). unfold bySortOrder. cbn. lia.
Qed.

Lemma newLinks_untied itemId ids : untied bySortOrder (newLinks itemId ids).
Proof.
  intros a b. unfold newLinks, bySortOrder. rewrite !elem_of_lookup_imap.
  intros (i & x & -> & Hx) (j & y & -> & Hy). cbn. intros H1 H2.
  assert (i = j) as -> by lia. by simplify_eq.
Qed.

Lemma sort_newLinks itemId ids : merge_sort bySortOrder (newLinks itemId ids) = newLinks itemId ids.
Proof.
  symmetry. apply (sorted_unique bySortOrder); [apply newLinks_untied|apply newLinks_sorted| |].
  - by apply StronglySorted_merge_sort; [apply bySortOrder_trans|apply bySortOrder_total].
  - symmetry. apply merge_sort_Permutation.
Qed.

(** ** The reference: what a [PUT] promises *)

(** The groups of a body, in its order. *)
Definition offered (db : Database) (ids : list string) : list AttachedOptionGroup :=
  omap (fun '(index, id) =>
    g ← optionGroups db !! id;
    Some {| ag_id := id; ag_name := og_name g; ag_minSelect := og_minSelect g;
            ag_maxSelect := og_maxSelect g; ag_sortOrder := Z.of_nat index |})
    (imap (fun index id => (index, id)) ids).

(** Canonical ids, as the API hands them out. *)
Definition canonical (ids : list string) : Prop := Forall (fun id => uuid id = id) ids.

Definition putGroups (itemId : string) (ids : list string) (db : Database)
    : Database * result AppError (list AttachedOptionGroup) :=
  match menuItems db !! uuid itemId with
  | None => (db, Err (ResourceNotFoundError "menu item" itemId))
  | Some _ =>
      match filter (fun id => optionGroups db !! id = None) ids with
      | (_ :: _) as unknown => (db, Err (OptionGroupUnknownError unknown))
      | [] =>
          if decide (NoDup ids) then (replaced itemId ids db, Ok (offered db ids))
          else (db, Err (DbError UNIQUE_VIOLATION))
      end
  end.

Lemma canonical_map ids : canonical ids → map uuid ids = ids.
Proof. intros H. induction H as [|id ids Hid H IH]; cbn; [done|]. by rewrite Hid, IH. Qed.

Lemma unknownGroups_canonical ids db :
  canonical ids → unknownGroups ids db = filter (fun id => optionGroups db !! id = None) ids.
Proof.
  intros Hc. unfold unknownGroups. rewrite canonical_map by done. apply filter_iff_in. intros id Hid.
  rewrite list_elem_of_filter. destruct (optionGroups db !! id) eqn:E; [|naive_solver].
  split; [|done]. intros Hn. exfalso. apply Hn. eauto.
Qed.

Lemma attached_offered itemId ids db : canonical ids →
  attachedGroups (uuid itemId) (replaced itemId ids db) = offered db ids.
Proof.
  intros Hc. unfold attachedGroups. rewrite linksOf_replaced, sort_newLinks. unfold newLinks, offered.
  cbn [replaced with_menuItemOptionGroups optionGroups].
  enough (∀ (f : nat → nat),
    omap (fun l => g ← optionGroups db !! lk_optionGroupId l;
       Some {| ag_id := lk_optionGroupId l; ag_name := og_name g; ag_minSelect := og_minSelect g;
               ag_maxSelect := og_maxSelect g; ag_sortOrder := lk_sortOrder l |})
      (imap (fun index g => {| lk_menuItemId := uuid itemId; lk_optionGroupId := uuid g;
                               lk_sortOrder := Z.of_nat (f index) |}) ids)
    = omap (fun '(index, id) => g ← optionGroups db !! id;
       Some {| ag_id := id; ag_name := og_name g; ag_minSelect := og_minSelect g;
               ag_maxSelect := og_maxSelect g; ag_sortOrder := Z.of_nat index |})
      (imap (fun index id => (f index, id)) ids)) as H by apply (H (fun n => n)).
  induction Hc as [|id ids Hid Hc IH]; intros f; [done|]. cbn [imap omap list_omap lk_optionGroupId lk_sortOrder].
  rewrite Hid. specialize (IH (f ∘ S)). destruct (optionGroups db !! id); cbn; [f_equal|]; apply IH.
Qed.

Lemma newLinks_fit itemId ids db :
  is_Some (menuItems db !! uuid itemId) → canonical ids → filter (fun id => optionGroups db !! id = None) ids = [] →
  Forall (fun l => is_Some (menuItems db !! lk_menuItemId l) ∧ is_Some (optionGroups db !! lk_optionGroupId l))
    (newLinks itemId ids).
Proof.
  intros Hi Hc Hu. apply Forall_forall. intros l (E & g & Hg & Eg)%elem_of_newLinks. rewrite E, Eg. split; [done|].
  unfold canonical in Hc. rewrite Forall_forall in Hc. rewrite (Hc g Hg).
  destruct (optionGroups db !! g) eqn:El; [eauto|]. exfalso.
  assert (g ∈ filter (fun id => optionGroups db !! id = None) ids) as Hin by by apply list_elem_of_filter.
  rewrite Hu in Hin. by apply not_elem_of_nil in Hin.
Qed.

(** The keys of the rows that stay and of the new ones clash exactly when the body repeats. *)
Lemma replaced_keys itemId ids db : CatalogOk db → canonical ids →
  NoDup (map linkKey (filter (fun l => lk_menuItemId l ≠ uuid itemId) (menuItemOptionGroups db) ++ newLinks itemId ids))
  ↔ NoDup ids.
Proof.
  intros HC Hc. rewrite map_app, newLinks_keys, NoDup_app.
  assert (map (fun g => (uuid itemId, uuid g)) ids = pair (uuid itemId) <$> ids) as ->.
  { transitivity (map (pair (uuid itemId)) (map uuid ids)); [by rewrite map_map|by rewrite canonical_map]. }
  split.
  - intros (_ & _ & H). by apply NoDup_fmap_1 in H.
  - intros Hn. split_and!.
    + apply NoDup_map_filter, HC.
    + intros k (l & -> & [Hne _]%list_elem_of_filter)%list_elem_of_fmap (g & E & _)%list_elem_of_fmap.
      by injection E.
    + apply NoDup_fmap_2; [by intros ?? [=]|done].
Qed.

(** The transaction of a request whose item and groups exist. *)
Lemma replaceLinks_runs db itemId ids :
  CatalogOk db → canonical ids → is_Some (menuItems db !! uuid itemId) →
  filter (fun id => optionGroups db !! id = None) ids = [] →
  transaction (replaceLinks itemId ids (linksOf (uuid itemId) db)) db
  = if decide (NoDup ids) then (replaced itemId ids db, Ok (offered db ids, []))
    else (db, Err (DbError UNIQUE_VIOLATION)).
Proof.
  intros HC Hc Hi Hu. pose proof (newLinks_fit itemId ids db Hi Hc Hu) as Hfit.
  unfold transaction, replaceLinks, linksOf.
  unfold writes at 1, mbind at 1 2, txM_bind at 1 2. cbn [tx_db tx_pending]. rewrite delete_own.
  case_decide as Hn.
  - rewrite (insertLinks_ok (newLinks itemId ids) (with_menuItemOptionGroups _ db)); [|by apply replaced_keys|done].
    rewrite <-(attached_offered itemId ids db Hc). reflexivity.
  - rewrite (insertLinks_repeated (newLinks itemId ids) (with_menuItemOptionGroups _ db)); [done| | |done].
    + apply NoDup_map_filter, HC.
    + by rewrite (replaced_keys itemId ids db).
Qed.

(** C27. Replacing an item's option groups does what the route promises. By itself, on ids
    as the API issues them: an unknown item is a 404; every unknown group is named at once, and
    nothing changes; otherwise the item offers exactly the groups sent, in the order sent,
    the answer describes them as stored, and no other row of any table changes. *)
Theorem set_groups_replaces gw db itemId ids :
  CatalogOk db → canonical ids →
  run gw (setForItem itemId ids) db = ((putGroups itemId ids db).1, [], (putGroups itemId ids db).2).
Proof.
  intros HC Hc. unfold setForItem, putGroups, Read. cbn [run fst snd].
  destruct (menuItems db !! uuid itemId) as [item|] eqn:Ei; [|done]. cbn [run fst snd].
  rewrite unknownGroups_canonical by done.
  destruct (filter _ ids) as [|u us] eqn:Eu; [|done]. cbn [run fst snd].
  unfold db_transaction, inTransaction. cbn [run]. rewrite replaceLinks_runs by (rewrite ?Ei; eauto).
  by case_decide.
Qed.

(** Saying it twice says it once. *)
Lemma replaced_twice itemId ids db : replaced itemId ids (replaced itemId ids db) = replaced itemId ids db.
Proof.
  unfold replaced. cbn [menuItemOptionGroups with_menuItemOptionGroups].
  rewrite filter_app, (filter_none _ (newLinks itemId ids)), app_nil_r, filter_all; [done| |].
  - intros l [? _]%list_elem_of_filter. done.
  - intros l [E _]%elem_of_newLinks. tauto.
Qed.

Lemma putGroups_twice itemId ids db :
  putGroups itemId ids (putGroups itemId ids db).1 = putGroups itemId ids db.
Proof.
  unfold putGroups at 2 3. destruct (menuItems db !! uuid itemId) eqn:Ei; cbn [fst].
  2:{ unfold putGroups. by rewrite Ei. }
  destruct (filter _ ids) as [|u us] eqn:Eu; cbn [fst].
  2:{ unfold putGroups. by rewrite Ei, Eu. }
  case_decide as Hn; cbn [fst].
  2:{ unfold putGroups. rewrite Ei, Eu. by rewrite decide_False. }
  unfold putGroups. change (menuItems (replaced itemId ids db)) with (menuItems db).
  change (optionGroups (replaced itemId ids db)) with (optionGroups db). rewrite Ei, Eu, decide_True by done.
  by rewrite replaced_twice.
Qed.

(** Replacing an item's groups is idempotent: the same body sent again by itself leaves
    the database as the first left it and answers the same, whatever it answered. *)
Theorem set_groups_idempotent gw db itemId ids :
  CatalogOk db → canonical ids →
  let first := run gw (setForItem itemId ids) db in
  run gw (setForItem itemId ids) first.1.1 = first.
Proof.
  intros HC Hc first. subst first. rewrite (set_groups_replaces gw db) by done. cbn [fst snd].
  assert (CatalogOk (putGroups itemId ids db).1) as HC'.
  { pose proof (set_groups_replaces gw db itemId ids HC Hc) as E.
    assert (catalogMove db (run gw (setForItem itemId ids) db).1.1) as (HC' & _).
    { apply catalog_run, setForItem_moves. }
    rewrite E in HC'. by apply HC'. }
  rewrite set_groups_replaces by done. by rewrite putGroups_twice.
Qed.

(** ** Selection bounds *)

Lemma putGroup_run id row db :
  int4 (og_minSelect row) && int4 (og_maxSelect row) = true →
  putGroup id row (mkTx db []) =
    if boundsOk row then Ok (publicGroup id row, mkTx (with_optionGroups (<[id := row]> (optionGroups db)) db) [])
    else Err (DbError CHECK_VIOLATION).
Proof. intros Hi. unfold putGroup. rewrite Hi. cbn [negb]. by destruct (boundsOk row). Qed.

(** A PATCH on an option group is judged against the row it changes: the bounds that
    result are the ones checked, whichever half the body carries; bounds nothing can satisfy are
    the documented 422 and change nothing, an unknown group is a 404, and otherwise exactly that
    row takes the fields sent. *)
Theorem group_bounds_checked gw db id changes :
  changes ≠ {| ug_name := None; ug_minSelect := None; ug_maxSelect := None |} →
  (∀ n, ug_minSelect changes = Some n ∨ ug_maxSelect changes = Some n → int4 n = true) →
  map_Forall (fun _ row => int4 (og_minSelect row) = true ∧ int4 (og_maxSelect row) = true) (optionGroups db) →
  run gw (updateGroup id changes) db =
  match optionGroups db !! uuid id with
  | None => (db, [], Err (ResourceNotFoundError "option group" id))
  | Some row =>
      let row' := changeGroup changes row in
      if bool_decide (0 ≤ og_minSelect row' ∧ og_minSelect row' ≤ og_maxSelect row')
      then (with_optionGroups (<[uuid id := row']> (optionGroups db)) db, [], Ok (publicGroup (uuid id) row'))
      else (db, [], Err OptionGroupMinMaxInvalidError)
  end.
Proof.
  intros Hne Hb Hok.
  assert (∀ row, optionGroups db !! uuid id = Some row →
    int4 (og_minSelect (changeGroup changes row)) && int4 (og_maxSelect (changeGroup changes row)) = true) as Hint.
  { intros row Hr. destruct (Hok _ _ Hr). apply andb_true_iff. destruct changes as [n [m|] [M|]];
    cbn [changeGroup og_minSelect og_maxSelect ug_minSelect ug_maxSelect default] in *; naive_solver. }
  assert (updateGroupRow id changes = (found ← reads (fun db => optionGroups db !! uuid id);
      match found with
      | None => mret None
      | Some row => updated ← putGroup (uuid id) (changeGroup changes row); mret (Some updated)
      end)) as E by by destruct changes as [[] [] []].
  unfold updateGroup, db_transaction, inTransaction, transaction. rewrite E. cbn [after run].
  unfold mbind, txM_bind, reads. cbn [tx_db].
  destruct (optionGroups db !! uuid id) as [row|] eqn:Er; [|done].
  rewrite putGroup_run by auto. unfold boundsOk. case_bool_decide as Hbd.
  - destruct (_ && _) eqn:Eb; [done|lia].
  - destruct (_ && _) eqn:Eb; [lia|done].
Qed.

(** ** A catalog to try it on *)

Module Corner.
Definition drinks : string := "0198c0de-0000-7000-8000-0000000000d1".
Definition latte : string := "0198c0de-0000-7000-8000-0000000000a1".
Definition milk : string := "0198c0de-0000-7000-8000-0000000000b1".
Definition size : string := "0198c0de-0000-7000-8000-0000000000b2".

Definition menuCategory : CategoryRow := {| cat_name := "Drinks"; cat_sortOrder := 0; cat_isActive := true |}.

Definition menu : Database := with_optionGroups {[
    milk := {| og_name := "Milk"; og_minSelect := 0; og_maxSelect := 1 |};
    size := {| og_name := "Size"; og_minSelect := 1; og_maxSelect := 1 |} ]}
  (with_menuItems {[ latte := {| mi_categoryId := drinks; mi_name := "Latte"; mi_description := None;
      mi_basePriceMinor := 10000; mi_imageUrl := None; mi_isAvailable := true; mi_sortOrder := 0 |} ]}
  (with_categories {[ drinks := menuCategory ]}
  empty_db)).

Definition gw : Gateway := fun call =>
  match call with
  | createIntent _ _ _ _ => Err (GatewayFault None "down")
  | cancelIntent _ => Err (GatewayFault None "down")
  | clientSecretFor _ => Err (GatewayFault None "down")
  | resolveMethod _ => None
  | capturedTotalFor _ => Err (GatewayFault None "down")
  end.

Lemma menu_ok : CatalogOk menu.
Proof.
  split.
  - intros i j a b Ha Hb _. change (categories menu) with ({[drinks := menuCategory]} : gmap string CategoryRow) in Ha, Hb.
    apply lookup_singleton_Some in Ha as [<- _], Hb as [<- _]. done.
  - apply map_Forall_singleton. split; [done|]. by eexists.
  - apply map_Forall_insert; [by vm_compute|]. split; [done|]. apply map_Forall_singleton. done.
  - apply map_Forall_empty.
  - constructor.
  - constructor.
Qed.

Definition put (ids : list string) : CatalogWrite := PutItemOptionGroups latte ids.
Definition serve (write : CatalogWrite) : prog CatalogView :=
  perform (fun b => Some b) (fun s => s) "https://cdn" (fun _ _ => Ok tt) write.

(** The pool after the handler in a place takes its next step. *)
Definition poolTurn (c : Pool) (i : nat) : Pool :=
  match pool_threads c !! i with
  | Some (existT R (Step t k)) =>
      {| pool_db := (t (pool_db c)).1;
         pool_threads := <[i := thread_of (k (t (pool_db c)).2)]> (pool_threads c);
         pool_log := pool_log c |}
  | _ => c
  end.

Lemma poolTurns_steps admissible turns : ∀ c, pool_steps admissible c (foldl poolTurn c turns).
Proof.
  induction turns as [|i turns IH]; intros c; [apply rtc_refl|]. cbn. etrans; [|apply IH]. unfold poolTurn.
  destruct (pool_threads c !! i) as [[R [r|X t k|call k|e k]]|] eqn:E; try apply rtc_refl. apply rtc_once.
  destruct c as [db ths log]. cbn in *. rewrite (insert_take_drop _ _ _ (lookup_lt_Some _ _ _ E)).
  rewrite <-(take_drop_middle _ _ _ E) at 1. apply pool_db_step.
Qed.

(** Two managers set the latte's groups at once: one to milk, one to size. *)
Definition together : Pool :=
  {| pool_db := menu; pool_threads := [thread_of (serve (put [milk])); thread_of (serve (put [size]))];
     pool_log := [] |}.
Definition after_both : Pool := foldl poolTurn together [0; 0; 0; 1; 1; 1; 0; 1]%nat.
End Corner.

Lemma set_groups_replaces_witness :
  CatalogOk Corner.menu ∧ canonical [Corner.size; Corner.milk] ∧
  run Corner.gw (setForItem Corner.latte [Corner.size; Corner.milk]) Corner.menu =
    ((putGroups Corner.latte [Corner.size; Corner.milk] Corner.menu).1, [],
     (putGroups Corner.latte [Corner.size; Corner.milk] Corner.menu).2) ∧
  is_ok (putGroups Corner.latte [Corner.size; Corner.milk] Corner.menu).2 = true.
Proof.
  assert (canonical [Corner.size; Corner.milk]) as Hc by (repeat constructor).
  split; [apply Corner.menu_ok|]. split; [exact Hc|]. split; [|vm_compute; reflexivity].
  exact (set_groups_replaces Corner.gw Corner.menu Corner.latte [Corner.size; Corner.milk] Corner.menu_ok Hc).
Defined.

Lemma set_groups_idempotent_witness :
  let first := run Corner.gw (setForItem Corner.latte [Corner.milk]) Corner.menu in
  run Corner.gw (setForItem Corner.latte [Corner.milk]) first.1.1 = first.
Proof.
  apply (set_groups_idempotent Corner.gw Corner.menu Corner.latte [Corner.milk] Corner.menu_ok).
  repeat constructor.
Defined.

Definition lowerMax : UpdateOptionGroupInput := {| ug_name := None; ug_minSelect := None; ug_maxSelect := Some 0 |}.

Lemma group_bounds_checked_witness :
  run Corner.gw (updateGroup Corner.size lowerMax) Corner.menu
  = (Corner.menu, [], Err OptionGroupMinMaxInvalidError).
Proof.
  rewrite (group_bounds_checked Corner.gw Corner.menu Corner.size lowerMax).
  - vm_compute. reflexivity.
  - discriminate.
  - intros n [H|H]; [discriminate H|]. injection H as <-. reflexivity.
  - apply map_Forall_insert; [vm_compute; reflexivity|]. split; [done|]. by apply map_Forall_singleton.
Defined.

Lemma catalog_well_formed_witness :
  CatalogOk (pool_db Corner.after_both) ∧ grown Corner.menu (pool_db Corner.after_both).
Proof.
  apply (catalog_well_formed (fun s => s) (fun b => Some b) "https://cdn" Corner.together Corner.after_both).
  - do 2 (constructor; [left; exists (fun _ _ => Ok tt); eexists; reflexivity|]). constructor.
  - apply Corner.menu_ok.
  - apply Corner.poolTurns_steps.
Defined.

(** The scenario's shop, where a manager renames the latte before the first order. *)
Definition rename : CatalogWrite := PatchItem "latte" {| ui_categoryId := None; ui_name := Some "Flat white";
  ui_description := None; ui_basePriceMinor := None; ui_imageUrl := None; ui_sortOrder := None |}.
Definition renaming : Pool :=
  {| pool_db := Shop.morning; pool_threads := [thread_of (Corner.serve rename)]; pool_log := [] |}.
Definition renamed : Pool := foldl Corner.poolTurn renaming [0%nat].

Lemma menu_edits_keep_books_witness :
  (mi_name <$> menuItems (pool_db renamed) !! "latte") = Some "Flat white" ∧
  @Inv stripePort (pool_db renamed) ∧ Ev Shop.morning (pool_db renamed).
Proof.
  split; [vm_compute; reflexivity|].
  apply (menu_edits_keep_books (port := stripePort) Shop.config Shop.tzOffset (fun s => s)
    (fun b => Some b) "https://cdn" Shop.morning (idle Shop.morning) renamed).
  - repeat split.
  - apply rtc_refl.
  - eapply rtc_l; [|apply (Corner.poolTurns_steps _ [0%nat] renaming)].
    apply (pool_spawn _ _ _ [] (thread_of (Corner.serve rename))).
    right. exists (fun _ _ => Ok tt), rename. reflexivity.
Defined.

(** ** What the comments do not expect *)

(** Two replacements of one item's groups at the same time can both succeed and leave
    neither set: the second delete's snapshot does not hold the rows the first inserts, so the
    item offers both groups, both in place 0. *)
Theorem concurrent_replacements_merge :
  ∃ c, pool_steps (fun _ => False) Corner.together c ∧
    (∀ i th, pool_threads c !! i = Some th → ∃ v, th = thread_of (Return (AttachedView v))) ∧
    map (fun l => (lk_optionGroupId l, lk_sortOrder l)) (linksOf Corner.latte (pool_db c))
    = [(Corner.milk, 0); (Corner.size, 0)].
Proof.
  exists Corner.after_both. split; [apply Corner.poolTurns_steps|]. split; [|vm_compute; reflexivity].
  intros [|[|i]] th H; vm_compute in H; try discriminate H; injection H as <-; eexists; reflexivity.
Qed.

(** An option group named by its id in upper case, which the schema and the database both
    take for that group, is refused as unknown: the ids are compared as text. *)
Theorem upper_case_group_unknown :
  ∃ id, uuid id = Corner.milk ∧ is_Some (optionGroups Corner.menu !! uuid id) ∧
    run Corner.gw (setForItem Corner.latte [id]) Corner.menu
    = (Corner.menu, [], Err (OptionGroupUnknownError [id])).
Proof.
  exists "0198C0DE-0000-7000-8000-0000000000B1". split; [vm_compute; reflexivity|].
  split; [by eexists|vm_compute; reflexivity].
Qed.
