(* ===== verification/Zod.v ===== *)
(** * Zod: the validators the request schemas are built from

    A schema reads a JSON value ([None] is an absent property) and answers what it hands on, or
    refuses. [ZodValidationPipe] ([common/validation/zod-validation.pipe.ts]) runs the schema of a
    route's body, query or parameters before its handler. The library's own patterns
    (a uuid, an email, a URL, a date) and the value of a number's text are parameters. *)

From S2P Require Import Prelude Text Schema Idempotency JsonText.

Class ZodPatterns := {
  z_uuid : string → bool;          (* [z.uuid()] *)
  z_email : string → bool;         (* [z.email()] *)
  z_url : string → bool;           (* [z.url()] *)
  z_int : string → option Z        (* [z.int()] of a number's text: a safe integer *)
}.

Definition parser (A : Type) : Type := option JsonValue → option A.

(** ** Primitives *)

Definition zString : parser string := asString.

Definition zBoolean : parser bool := fun v => match v with Some (VBool b) => Some b | _ => None end.

Definition refine {A} (p : parser A) (test : A → bool) : parser A := fun v =>
  a ← p v; if test a then Some a else None.

Definition transform {A B} (p : parser A) (f : A → B) : parser B := fun v => f <$> p v.

(** [.min(least).max(most)] of a text. *)
Definition lengthWithin (least most : nat) (s : string) : bool :=
  (least <=? jsLength s)%nat && (jsLength s <=? most)%nat.

(** [z.string().trim().min(least).max(most)]. *)
Definition trimmedText (least most : nat) : parser string :=
  refine (transform zString trimText) (lengthWithin least most).

Definition zEnum {A} (values : list A) (text : A → string) : parser A := fun v =>
  s ← zString v; find (fun a => bool_decide (text a = s)) values.

(** ** Structure *)

Definition optional {A} (p : parser A) : parser (option A) := fun v =>
  match v with None => Some None | Some _ => Some <$> p v end.

Definition nullable {A} (p : parser A) : parser (option A) := fun v =>
  match v with Some VNull => Some None | _ => Some <$> p v end.

Definition zDefault {A} (p : parser A) (a : A) : parser A := fun v =>
  match v with None => Some a | Some _ => p v end.

Definition zArray {A} (p : parser A) : parser (list A) := fun v =>
  match v with Some (VArr elems) => mapM (fun e => p (Some e)) elems | _ => None end.

Definition atMost {A} (n : nat) (l : list A) : bool := (length l <=? n)%nat.

(** [z.strictObject]: an object with no key outside the shape. *)
Definition strictObject {A} (keys : list string) (shape : (string → option JsonValue) → option A)
    : parser A := fun v =>
  match v with
  | Some (VObj members as body) =>
      if forallb (fun '(k, _) => bool_decide (k ∈ keys)) members
      then shape (fun key => property key body) else None
  | _ => None
  end.

(** [.refine((body) => Object.keys(body).length > 0)] on a partial object. *)
Definition someKey {A} (p : parser A) : parser A := fun v =>
  match v with
  | Some (VObj []) => None
  | _ => p v
  end.

Section patterns.
Context `{!ZodPatterns}.

Definition zUuid : parser string := refine zString z_uuid.

Definition zInt : parser Z := fun v => match v with Some (VNum lexeme) => z_int lexeme | _ => None end.

(** [z.int().min(low).max(high)]. *)
Definition intWithin (low high : Z) : parser Z := refine zInt (fun n => (low <=? n) && (n <=? high)).

Definition positiveInt : parser Z := refine zInt (fun n => 0 <? n).

(** [z.strictObject({ id: z.uuid() })]. *)
Definition idParam : parser string := strictObject ["id"] (fun field => zUuid (field "id")).
End patterns.

(** ** What the validators promise *)

Lemma refine_Some {A} (p : parser A) test v a : refine p test v = Some a ↔ p v = Some a ∧ test a = true.
Proof.
  unfold refine. destruct (p v) as [b|]; cbn; [|split; [done|by intros []]].
  destruct (test b) eqn:E; split; [by intros [= <-]|by intros [[= <-] _]|done|intros [[= <-] ?]; congruence].
Qed.

Lemma trimmedText_Some least most v s :
  trimmedText least most v = Some s → (least <= jsLength s <= most)%nat.
Proof.
  unfold trimmedText, lengthWithin. rewrite refine_Some. intros [_ H].
  apply andb_true_iff in H as [?%Nat.leb_le ?%Nat.leb_le]. lia.
Qed.

Lemma intWithin_Some `{!ZodPatterns} low high v n : intWithin low high v = Some n → low ≤ n ≤ high.
Proof. unfold intWithin. rewrite refine_Some. intros [_ Hn]. lia. Qed.

Lemma optional_Some {A} (p : parser A) v a : optional p v = Some (Some a) → p v = Some a.
Proof. unfold optional. destruct v; [|done]. destruct (p _); cbn; congruence. Qed.

Lemma nullable_Some {A} (p : parser A) v a : nullable p v = Some (Some a) → p v = Some a.
Proof. unfold nullable. destruct v as [[]|]; try done; destruct (p _); cbn; congruence. Qed.

(** The body of a PATCH has a key, and is what its schema makes of it. *)
Lemma someKey_Some {A} (p : parser A) v a : someKey p v = Some a → p v = Some a ∧ v ≠ Some (VObj []).
Proof. unfold someKey. destruct v as [[| | | | |[|]]|]; done. Qed.

Lemma strictObject_Some {A} keys (shape : (string → option JsonValue) → option A) v a :
  strictObject keys shape v = Some a →
  ∃ members, v = Some (VObj members) ∧ Forall (fun m => m.1 ∈ keys) members ∧
    shape (fun key => property key (VObj members)) = Some a.
Proof.
  unfold strictObject. destruct v as [[]|]; try done. destruct (forallb _ _) eqn:E; [|done].
  intros H. eexists. split_and!; [done| |done]. apply Forall_forall. intros [k w] Hin.
  rewrite forallb_forall in E. apply list_elem_of_In, E in Hin. by apply bool_decide_eq_true in Hin.
Qed.
