(* ===== verification/Bodies.v ===== *)
(** * Bodies: the request schemas

    [catalog/*/*.dto.ts], [orders/orders.dto.ts], [payments/*/*.dto.ts] and
    [identity/*/*.dto.ts]: what a body must be, and the input its handler is given. *)

From S2P Require Import Prelude Text Schema Errors Idempotency JsonText Pricing CreateOrder.
From S2P Require Import CreatePayment Refunds Ordering OrdersRead OrdersQueryDto IdentityStore Sessions Accounts Devices BusinessDay Rollup Reports.
From S2P Require Import Catalog Zod.
From Stdlib Require Import Ascii.

Section bodies.
Context `{!ZodPatterns}.

(** ** Categories ([categories.dto.ts]) *)

Definition MAX_CATEGORY_NAME : nat := 60.
Definition MAX_SORT_ORDER : Z := 10000.

Definition sortOrderField : parser Z := intWithin 0 MAX_SORT_ORDER.
Definition categoryName : parser string := trimmedText 1 MAX_CATEGORY_NAME.

Definition CreateCategorySchema : parser CreateCategoryInput :=
  strictObject ["name"; "sortOrder"; "isActive"] (fun field =>
    name ← categoryName (field "name");
    sortOrder ← optional sortOrderField (field "sortOrder");
    isActive ← optional zBoolean (field "isActive");
    Some {| nc_name := name; nc_sortOrder := sortOrder; nc_isActive := isActive |}).

Definition UpdateCategorySchema : parser UpdateCategoryInput :=
  someKey (strictObject ["name"; "sortOrder"; "isActive"] (fun field =>
    name ← optional categoryName (field "name");
    sortOrder ← optional sortOrderField (field "sortOrder");
    isActive ← optional zBoolean (field "isActive");
    Some {| uc_name := name; uc_sortOrder := sortOrder; uc_isActive := isActive |})).

(** ** Items ([items.dto.ts], [item-option-groups.dto.ts]) *)

Definition MAX_ITEM_NAME : nat := 120.
Definition MAX_DESCRIPTION_LENGTH : nat := 500.
Definition MAX_IMAGE_URL_LENGTH : nat := 2048.
Definition MAX_BASE_PRICE_MINOR : Z := 1000000.

Definition itemName : parser string := trimmedText 1 MAX_ITEM_NAME.
Definition descriptionField : parser string := trimmedText 0 MAX_DESCRIPTION_LENGTH.
Definition basePriceField : parser Z := intWithin 0 MAX_BASE_PRICE_MINOR.

(** [value.startsWith('https://')]. *)
Definition startsWith (prefix s : string) : bool := String.prefix prefix s.

Definition imageUrlField : parser string :=
  refine (refine (trimmedText 0 MAX_IMAGE_URL_LENGTH) z_url) (startsWith "https://").

Definition CreateItemSchema : parser CreateItemInput :=
  strictObject ["categoryId"; "name"; "description"; "basePriceMinor"; "imageUrl"; "sortOrder"; "isAvailable"]
    (fun field =>
    categoryId ← zUuid (field "categoryId");
    name ← itemName (field "name");
    description ← optional (nullable descriptionField) (field "description");
    basePriceMinor ← basePriceField (field "basePriceMinor");
    imageUrl ← optional (nullable imageUrlField) (field "imageUrl");
    sortOrder ← optional sortOrderField (field "sortOrder");
    isAvailable ← optional zBoolean (field "isAvailable");
    Some {| ni_categoryId := categoryId; ni_name := name; ni_description := description;
            ni_basePriceMinor := basePriceMinor; ni_imageUrl := imageUrl; ni_sortOrder := sortOrder;
            ni_isAvailable := isAvailable |}).

Definition UpdateItemSchema : parser UpdateItemInput :=
  someKey (strictObject ["categoryId"; "name"; "description"; "basePriceMinor"; "imageUrl"; "sortOrder"]
    (fun field =>
    categoryId ← optional zUuid (field "categoryId");
    name ← optional itemName (field "name");
    description ← optional (nullable descriptionField) (field "description");
    basePriceMinor ← optional basePriceField (field "basePriceMinor");
    imageUrl ← optional (nullable imageUrlField) (field "imageUrl");
    sortOrder ← optional sortOrderField (field "sortOrder");
    Some {| ui_categoryId := categoryId; ui_name := name; ui_description := description;
            ui_basePriceMinor := basePriceMinor; ui_imageUrl := imageUrl; ui_sortOrder := sortOrder |})).

(** [SetItemAvailabilitySchema], [SetOptionAvailabilitySchema]. *)
Definition SetAvailabilitySchema : parser bool :=
  strictObject ["isAvailable"] (fun field => zBoolean (field "isAvailable")).

Definition MAX_GROUPS_PER_ITEM : nat := 20.

Definition SetItemOptionGroupsSchema : parser (list string) :=
  strictObject ["optionGroupIds"] (fun field =>
    refine (refine (zArray zUuid) (atMost MAX_GROUPS_PER_ITEM)) (fun ids => bool_decide (NoDup ids))
      (field "optionGroupIds")).

(** ** Option groups ([option-groups.dto.ts]) *)

Definition MAX_OPTION_NAME : nat := 60.
Definition MAX_SELECT : Z := 50.
Definition MAX_PRICE_DELTA_MINOR : Z := 100000.
Definition DEFAULT_MIN_SELECT : Z := 0.
Definition DEFAULT_MAX_SELECT : Z := 1.

Definition optionName : parser string := trimmedText 1 MAX_OPTION_NAME.
Definition selectField : parser Z := intWithin 0 MAX_SELECT.
Definition priceDeltaField : parser Z := intWithin (- MAX_PRICE_DELTA_MINOR) MAX_PRICE_DELTA_MINOR.

Definition CreateOptionGroupSchema : parser CreateOptionGroupInput :=
  refine (strictObject ["name"; "minSelect"; "maxSelect"] (fun field =>
    name ← optionName (field "name");
    minSelect ← optional selectField (field "minSelect");
    maxSelect ← optional selectField (field "maxSelect");
    Some {| ng_name := name; ng_minSelect := minSelect; ng_maxSelect := maxSelect |}))
  (fun body => default DEFAULT_MIN_SELECT (ng_minSelect body) <=? default DEFAULT_MAX_SELECT (ng_maxSelect body)).

Definition UpdateOptionGroupSchema : parser UpdateOptionGroupInput :=
  refine (someKey (strictObject ["name"; "minSelect"; "maxSelect"] (fun field =>
    name ← optional optionName (field "name");
    minSelect ← optional selectField (field "minSelect");
    maxSelect ← optional selectField (field "maxSelect");
    Some {| ug_name := name; ug_minSelect := minSelect; ug_maxSelect := maxSelect |})))
  (fun body =>
     match ug_minSelect body, ug_maxSelect body with
     | Some least, Some most => least <=? most
     | _, _ => true
     end).

Definition CreateOptionSchema : parser CreateOptionInput :=
  strictObject ["name"; "priceDeltaMinor"; "isDefault"; "isAvailable"] (fun field =>
    name ← optionName (field "name");
    priceDeltaMinor ← optional priceDeltaField (field "priceDeltaMinor");
    isDefault ← optional zBoolean (field "isDefault");
    isAvailable ← optional zBoolean (field "isAvailable");
    Some {| no_name := name; no_priceDeltaMinor := priceDeltaMinor; no_isDefault := isDefault;
            no_isAvailable := isAvailable |}).

Definition UpdateOptionSchema : parser UpdateOptionInput :=
  someKey (strictObject ["name"; "priceDeltaMinor"; "isDefault"] (fun field =>
    name ← optional optionName (field "name");
    priceDeltaMinor ← optional priceDeltaField (field "priceDeltaMinor");
    isDefault ← optional zBoolean (field "isDefault");
    Some {| uo_name := name; uo_priceDeltaMinor := priceDeltaMinor; uo_isDefault := isDefault |})).

(** ** Orders ([orders.dto.ts]) *)

Definition MAX_ITEMS_PER_ORDER : nat := 30.
Definition MAX_QUANTITY_PER_ITEM : Z := 50.
Definition MAX_OPTIONS_PER_ITEM : nat := 15.
Definition MAX_NOTES_LENGTH : nat := 140.
Definition MAX_CUSTOMER_NAME_LENGTH : nat := 40.
Definition MAX_EXPECTED_TOTAL_MINOR : Z := 10000000.

Definition notesField : parser string := trimmedText 0 MAX_NOTES_LENGTH.

Definition OrderItemSchema : parser RequestedItem :=
  strictObject ["menuItemId"; "quantity"; "optionIds"; "notes"] (fun field =>
    menuItemId ← zUuid (field "menuItemId");
    quantity ← intWithin 1 MAX_QUANTITY_PER_ITEM (field "quantity");
    optionIds ← zDefault (refine (zArray zUuid) (atMost MAX_OPTIONS_PER_ITEM)) [] (field "optionIds");
    notes ← optional (nullable notesField) (field "notes");
    Some {| ri_menuItemId := menuItemId; ri_quantity := quantity; ri_optionIds := optionIds;
            ri_notes := notes |}).

Definition CreateOrderSchema : parser CreateOrderInput :=
  strictObject ["channel"; "items"; "customerName"; "expectedTotalMinor"; "draft"] (fun field =>
    channel ← zEnum orderChannels orderChannelText (field "channel");
    items ← refine (refine (zArray OrderItemSchema) (fun items => negb (bool_decide (items = []))))
      (atMost MAX_ITEMS_PER_ORDER) (field "items");
    customerName ← optional (nullable (trimmedText 1 MAX_CUSTOMER_NAME_LENGTH)) (field "customerName");
    expectedTotalMinor ← optional (intWithin 0 MAX_EXPECTED_TOTAL_MINOR) (field "expectedTotalMinor");
    draft ← optional zBoolean (field "draft");
    Some {| in_channel := channel; in_items := items; in_customerName := customerName;
            in_expectedTotalMinor := expectedTotalMinor; in_draft := draft |}).

Definition TransitionOrderSchema : parser OrderStatus :=
  strictObject ["to"] (fun field => zEnum orderStatuses orderStatusText (field "to")).

Definition CancelOrderSchema : parser (option (option string)) :=
  strictObject ["reason"] (fun field => optional (nullable (trimmedText 1 200)) (field "reason")).

(** ** Payments ([create-payment.dto.ts], [create-refund.dto.ts]) *)

Definition CreatePaymentSchema : parser CreatePaymentInput :=
  refine (refine (strictObject ["method"; "cashTenderedMinor"] (fun field =>
    method ← zEnum paymentMethods paymentMethodText (field "method");
    cashTenderedMinor ← optional positiveInt (field "cashTenderedMinor");
    Some {| cp_method := method; cp_cashTenderedMinor := cashTenderedMinor |}))
  (fun body => negb (bool_decide (cp_method body = CASH)) || negb (bool_decide (cp_cashTenderedMinor body = None))))
  (fun body => bool_decide (cp_method body = CASH) || bool_decide (cp_cashTenderedMinor body = None)).

Definition CreateRefundSchema : parser CreateRefundInput :=
  strictObject ["amountMinor"; "reason"] (fun field =>
    amountMinor ← positiveInt (field "amountMinor");
    reason ← trimmedText 1 200 (field "reason");
    Some {| cr_amountMinor := amountMinor; cr_reason := reason |}).

(** ** Identity ([auth.dto.ts], [users.dto.ts], [devices.dto.ts]) *)

Definition MAX_EMAIL_LENGTH : nat := 254.
Definition MIN_PASSWORD_LENGTH : nat := 10.
Definition MAX_PASSWORD_LENGTH : nat := 200.
Definition MAX_DISPLAY_NAME_LENGTH : nat := 80.
Definition MAX_DEVICE_NAME_LENGTH : nat := 60.

Definition emailField : parser string := refine (trimmedText 0 MAX_EMAIL_LENGTH) z_email.

(** [z.string().min(least).max(most)], untrimmed. *)
Definition secretText (least most : nat) : parser string := refine zString (lengthWithin least most).

Definition LoginSchema : parser (string * string) :=
  strictObject ["email"; "password"] (fun field =>
    email ← emailField (field "email");
    password ← secretText 1 MAX_PASSWORD_LENGTH (field "password");
    Some (email, password)).

Definition RefreshSchema : parser string :=
  strictObject ["refreshToken"] (fun field => secretText 1 512 (field "refreshToken")).

Definition userRoles : list UserRole := [ADMIN; MANAGER; CASHIER; BARISTA].

Definition displayNameField : parser string := trimmedText 1 MAX_DISPLAY_NAME_LENGTH.

Definition CreateUserSchema : parser CreateUserInput :=
  strictObject ["email"; "displayName"; "role"; "password"] (fun field =>
    email ← emailField (field "email");
    displayName ← displayNameField (field "displayName");
    role ← zEnum userRoles roleText (field "role");
    password ← secretText MIN_PASSWORD_LENGTH MAX_PASSWORD_LENGTH (field "password");
    Some {| cu_email := email; cu_displayName := displayName; cu_role := role; cu_password := password |}).

Definition UpdateUserSchema : parser UpdateUserInput :=
  someKey (strictObject ["displayName"; "role"; "isActive"] (fun field =>
    displayName ← optional displayNameField (field "displayName");
    role ← optional (zEnum userRoles roleText) (field "role");
    isActive ← optional zBoolean (field "isActive");
    Some {| uu_displayName := displayName; uu_role := role; uu_isActive := isActive |})).

Definition deviceName : parser string := trimmedText 1 MAX_DEVICE_NAME_LENGTH.

Definition CreateDeviceSchema : parser string :=
  strictObject ["name"] (fun field => deviceName (field "name")).

(** [pairingCode: ...trim().toUpperCase().pipe(...)] of the body. *)
Definition ActivateDeviceBody : parser string :=
  strictObject ["pairingCode"] (fun field => text ← zString (field "pairingCode"); ActivateDeviceSchema text).

(** The two states a PATCH may ask for: [true] is PAUSED. *)
Definition UpdateDeviceSchema : parser UpdateDeviceInput :=
  someKey (strictObject ["name"; "status"] (fun field =>
    name ← optional deviceName (field "name");
    paused ← optional (zEnum [false; true] (fun paused : bool => if paused then "PAUSED" else "ACTIVE"))
      (field "status");
    Some {| ud_name := name; ud_paused := paused |})).
End bodies.

(** ** Report queries ([reports.dto.ts]) *)

Section reports.
(** [z.iso.date()] and [z.coerce.number().int()]. *)
Context (isoDate : string → bool) (coerceInt : string → option Z).

Definition MAX_DAY_RANGE_DAYS : Z := 366.
Definition MAX_HOUR_RANGE_DAYS : Z := 31.
Definition DEFAULT_TOP_ITEMS_LIMIT : Z := 10.
Definition MAX_TOP_ITEMS_LIMIT : Z := 50.

(** A field that must be there, once. *)
Definition requiredField {A} (raw : gmap string (list string)) (key : string) (parse : string → option A)
    : option A :=
  match raw !! key with Some [value] => parse value | _ => None end.

Definition businessDayField (raw : gmap string (list string)) (key : string) : option string :=
  requiredField raw key (fun s => if isoDate s then Some s else None).

(** The day numbers of the two midnights; [NaN] when a day does not parse, and then no
    comparison with it holds. *)
Definition spanInDays (from to : string) : option Z :=
  '(y, m, d) ← parseDay from;
  '(y', m', d') ← parseDay to;
  Some (makeDay y' m' d' - makeDay y m d + 1).

Definition spanWithin (from to : string) (limit : Z) : bool :=
  match spanInDays from to with Some days => days <=? limit | None => false end.

Definition SalesQuerySchema (raw : gmap string (list string)) : option (string * string * GroupBy) :=
  from ← businessDayField raw "from";
  to ← businessDayField raw "to";
  group ← optionalField raw "groupBy" (enumValue [by_day; by_hour]
    (fun g => match g with by_day => "day" | by_hour => "hour" end));
  let groupBy := default by_day group in
  if bool_decide (textLe from to)
     && spanWithin from to match groupBy with by_hour => MAX_HOUR_RANGE_DAYS | by_day => MAX_DAY_RANGE_DAYS end
  then Some (from, to, groupBy) else None.

Definition TopItemsQuerySchema (raw : gmap string (list string)) : option (string * string * Z) :=
  from ← businessDayField raw "from";
  to ← businessDayField raw "to";
  limit ← optionalField raw "limit" (fun s =>
    n ← coerceInt s; if (1 <=? n) && (n <=? MAX_TOP_ITEMS_LIMIT) then Some n else None);
  if bool_decide (textLe from to) && spanWithin from to MAX_DAY_RANGE_DAYS
  then Some (from, to, default DEFAULT_TOP_ITEMS_LIMIT limit) else None.

Definition ZReportQuerySchema (raw : gmap string (list string)) : option string :=
  businessDayField raw "businessDay".
End reports.
