(* ===== verification/Intake.v ===== *)
(** * Intake: what the request schemas let in

    The bounds a validated body meets, that they reach the menu (no write that passed its schema
    takes a price out of range), and so what a priced order can come to. *)

From S2P Require Import Prelude Text Schema Errors Program Idempotency JsonText Pricing CreateOrder.
From S2P Require Import CreatePayment Refunds Ordering OrdersRead OrdersQueryDto IdentityStore Accounts Devices.
From S2P Require Import Cursor Reports Catalog ItemImage CatalogSafety CatalogBehaviour Zod Bodies.
From Stdlib Require Import Ascii.

(** ** One field at a time *)

(** Takes the fields of a parsed object apart. *)
Ltac fields :=
  repeat match goal with
  | H : refine _ _ _ = Some _ |- _ => apply refine_Some in H as [H ?]
  | H : someKey _ _ = Some _ |- _ => apply someKey_Some in H as [H _]
  | H : strictObject _ _ _ = Some _ |- _ =>
      let m := fresh "members" in apply strictObject_Some in H as (m & -> & _ & H); cbv beta in H
  | H : match ?v with _ => _ end = Some _ |- _ => destruct v eqn:?; try discriminate H
  | H : (?m ≫= _) = Some _ |- _ =>
      let E := fresh "E" in destruct m eqn:E; [cbn [mbind option_bind] in H|discriminate H]
  | H : Some _ = Some _ |- _ => injection H as <-
  end.

Section intake.
Context `{!ZodPatterns}.

Lemma optional_within p low high v n :
  (∀ w m, p w = Some m → low ≤ m ≤ high) → optional p v = Some (Some n) → low ≤ n ≤ high.
Proof. intros Hp Hv%optional_Some. eauto. Qed.

Lemma zArray_Some {A} (p : parser A) v l :
  zArray p v = Some l → Forall (fun a => ∃ w, p w = Some a) l.
Proof.
  unfold zArray. destruct v as [[]|]; try done. intros Hm%mapM_Some_1.
  apply Forall_forall. intros a Ha. apply list_elem_of_lookup in Ha as [i Hi].
  destruct (Forall2_lookup_r _ _ _ _ _ Hm Hi) as (w & _ & Hw). eauto.
Qed.

(** ** Orders *)

(** A line within the limits of the menu's screens. *)
Definition lineOk (l : RequestedItem) : Prop :=
  1 ≤ ri_quantity l ≤ 50 ∧ (length (ri_optionIds l) <= 15)%nat ∧
  ∀ n, ri_notes l = Some (Some n) → (jsLength n <= 140)%nat.

Lemma OrderItemSchema_within v item : OrderItemSchema v = Some item → lineOk item.
Proof.
  unfold OrderItemSchema, lineOk. intros Hv. fields. cbn [ri_quantity ri_optionIds ri_notes].
  split; [by eapply intWithin_Some|]. split.
  2:{ intros n ->. by apply optional_Some, nullable_Some, trimmedText_Some in E2 as [_ ?]. }
  unfold zDefault in E1. destruct (property "optionIds" _) eqn:Eo; [|by injection E1 as <-; cbn; lia].
  fields. unfold atMost in *. by apply Nat.leb_le.
Qed.

(** An order the schema lets in is one the counter could ring up: between 1 and 30
    lines, each of 1 to 50 pieces with at most 15 options and notes of at most 140 characters, a
    customer name of 1 to 40 characters, and an expected total between 0 and 10,000,000. *)
Theorem order_body_bounded v input :
  CreateOrderSchema v = Some input →
  (1 <= length (in_items input) <= 30)%nat ∧
  Forall lineOk (in_items input) ∧
  (∀ name, in_customerName input = Some (Some name) → (1 <= jsLength name <= 40)%nat) ∧
  (∀ t, in_expectedTotalMinor input = Some t → 0 ≤ t ≤ 10000000).
Proof.
  unfold CreateOrderSchema. intros Hv. fields. cbn [in_items in_customerName in_expectedTotalMinor].
  match goal with H : atMost _ _ = true |- _ => unfold atMost in H; apply Nat.leb_le in H end.
  split_and!.
  - destruct l; cbn in *; [done|lia].
  - done.
  - apply zArray_Some in E0. eapply Forall_impl; [exact E0|]. intros item [w Hw]. by eapply OrderItemSchema_within.
  - intros name ->. by apply optional_Some, nullable_Some, trimmedText_Some in E1.
  - intros t ->. eapply optional_within; [|exact E2]. by apply intWithin_Some.
Qed.

(** ** Payments *)

(** A payment body names a tender exactly when it pays in cash, and the tender is
    positive: a till cannot open a card payment believing it took cash, nor take cash without
    saying how much. *)
Theorem payment_body_tender v input :
  CreatePaymentSchema v = Some input →
  (cp_method input = CASH ↔ is_Some (cp_cashTenderedMinor input)) ∧
  ∀ tender, cp_cashTenderedMinor input = Some tender → 0 < tender.
Proof.
  unfold CreatePaymentSchema. intros Hv. fields. cbn [cp_method cp_cashTenderedMinor] in *. split.
  - destruct p, o as [t|]; cbn in *; try discriminate; split; try done; eauto; by intros [].
  - intros t ->. apply optional_Some in E0. unfold positiveInt in E0. apply refine_Some in E0 as [_ ?]. lia.
Qed.

(** ** The menu *)

(** The bounds of the catalog's schemas, as the stored rows have them. *)
Record menuWithin (db : Database) : Prop := {
  mw_items : map_Forall (fun _ row => 0 ≤ mi_basePriceMinor row ≤ 1000000) (menuItems db);
  mw_options : map_Forall (fun _ row => -100000 ≤ opt_priceDeltaMinor row ≤ 100000) (options db)
}.

(** A write whose body passed the schema of its route. *)
Inductive validated : CatalogWrite → Prop :=
| v_postCategory id v body : CreateCategorySchema v = Some body → validated (PostCategory id body)
| v_patchCategory id v body : UpdateCategorySchema v = Some body → validated (PatchCategory id body)
| v_postItem id v body : CreateItemSchema v = Some body → validated (PostItem id body)
| v_patchItem id v body : UpdateItemSchema v = Some body → validated (PatchItem id body)
| v_itemAvailability id v b : SetAvailabilitySchema v = Some b → validated (PatchItemAvailability id b)
| v_itemGroups id v ids : SetItemOptionGroupsSchema v = Some ids → validated (PutItemOptionGroups id ids)
| v_itemImage id file : validated (PostItemImage id file)
| v_postGroup id v body : CreateOptionGroupSchema v = Some body → validated (PostOptionGroup id body)
| v_patchGroup id v body : UpdateOptionGroupSchema v = Some body → validated (PatchOptionGroup id body)
| v_postOption id groupId v body : CreateOptionSchema v = Some body → validated (PostOption id groupId body)
| v_patchOption id v body : UpdateOptionSchema v = Some body → validated (PatchOption id body)
| v_optionAvailability id v b : SetAvailabilitySchema v = Some b → validated (PatchOptionAvailability id b).

(** A statement, and a handler, that keep the menu within bounds. *)
Definition txWithin {A} (work : txM A) : Prop :=
  ∀ s a s', work s = Ok (a, s') → menuWithin (tx_db s) → menuWithin (tx_db s').

Fixpoint progWithin {R} (p : prog R) : Prop :=
  match p with
  | Done _ => True
  | Step t k => (∀ db, menuWithin db → menuWithin (t db).1) ∧ ∀ x, progWithin (k x)
  | Ask call k => ∀ a, progWithin (k a)
  | Emit _ k => progWithin k
  end.

Lemma txWithin_bind {A B} (m : txM A) (k : A → txM B) :
  txWithin m → (∀ a, txWithin (k a)) → txWithin (m ≫= k).
Proof. intros Hm Hk s b s' (a & s1 & H1 & H2)%txM_bind_Ok HI. eapply Hk; [done|by eapply Hm]. Qed.

Lemma txWithin_ret {A} (a : A) : txWithin (mret a).
Proof. by intros s b s' [_ ->]%mret_Ok. Qed.
Lemma txWithin_throw {A} e : txWithin (throw (A:=A) e).
Proof. by intros s b s' ?. Qed.
Lemma txWithin_reads {A} (f : Database → A) : txWithin (reads f).
Proof. by intros s b s' [_ ->]%reads_Ok. Qed.
Lemma txWithin_writes f : (∀ db, menuWithin db → menuWithin (f db)) → txWithin (writes f).
Proof. intros Hf s b s' [_ ->]%writes_Ok. apply Hf. Qed.
Hint Resolve txWithin_ret txWithin_throw txWithin_reads : core.

(** A row inside the bounds goes in; the other tables have none. *)
Lemma putItem_within id row :
  0 ≤ mi_basePriceMinor row ≤ 1000000 → txWithin (putItem id row).
Proof.
  intros Hr s a s' Hp [HI HO]. apply putItem_Ok in Hp as [_ ->]. split; [|done]. by apply map_Forall_insert_2.
Qed.

Lemma updateItemRow_within id change :
  (∀ row, 0 ≤ mi_basePriceMinor row ≤ 1000000 → 0 ≤ mi_basePriceMinor (change row) ≤ 1000000) →
  txWithin (updateItemRow id change).
Proof.
  intros Hc s [item|] s' Hu HM; apply updateItemRow_Ok in Hu; [|by subst].
  destruct Hu as (row & Hr & _ & ->). destruct HM as [HI HO]. split; [|done].
  apply map_Forall_insert_2; [|done]. eapply Hc, HI, Hr.
Qed.

Lemma updateOptionRow_within id change :
  (∀ row, -100000 ≤ opt_priceDeltaMinor row ≤ 100000 →
     -100000 ≤ opt_priceDeltaMinor (change row) ≤ 100000) →
  txWithin (updateOptionRow id change).
Proof.
  intros Hc s a s' Hu [HI HO]. unfold updateOptionRow in Hu. tx_inv; [|done]. split; [done|].
  apply map_Forall_insert_2; [|done]. eapply Hc, HO. done.
Qed.

Lemma putCategory_within id row : txWithin (putCategory id row).
Proof. intros s a s' Hp [HI HO]. unfold putCategory in Hp. tx_inv. by split. Qed.

Lemma putGroup_within id row : txWithin (putGroup id row).
Proof. intros s a s' Hp [HI HO]. unfold putGroup in Hp. tx_inv. by split. Qed.

Lemma insertLinks_within links : txWithin (insertLinks links).
Proof.
  induction links as [|l links IH]; cbn; [done|]. apply txWithin_bind; [|done].
  intros s a s' Hp [HI HO]. unfold insertLink in Hp. tx_inv. by split.
Qed.

Lemma replaceLinks_within itemId ids seen : txWithin (replaceLinks itemId ids seen).
Proof.
  apply txWithin_bind; [by apply txWithin_writes; intros db [HI HO]|]. intros _.
  apply txWithin_bind; [apply insertLinks_within|done].
Qed.

Lemma progWithin_method {A B} (work : txM A) (k : result AppError A → prog B) :
  txWithin work → (∀ r, ∃ b, k r = Done b) → progWithin (Program.after (db_transaction work) k).
Proof.
  intros Hw Hk. split.
  - intros db HM. unfold transaction. destruct (work _) as [[a s]|e] eqn:E; [by eapply Hw|done].
  - intros r. destruct r as [[a l]|e]; cbn [Program.after]; [destruct (Hk (Ok a)) as [b E]|destruct (Hk (Err e)) as [b E]];
      cbn; by rewrite E.
Qed.

Lemma progWithin_view {A} (view : A → CatalogView) (p : prog A) : progWithin p → progWithin (viewOf view p).
Proof.
  unfold viewOf. induction p as [r|X t k IH|call k IH|e k IH]; intros Hp; cbn in *; [done| |auto|auto].
  destruct Hp. split; auto.
Qed.

(** The answer of a method is one [Done] on every path. *)
Ltac answers := intros r; repeat case_match; eexists; reflexivity.

Lemma updateItem_within id changes :
  (∀ n, ui_basePriceMinor changes = Some n → 0 ≤ n ≤ 1000000) → progWithin (updateItem id changes).
Proof.
  intros Hb. apply progWithin_method; [|answers].
  assert (txWithin (updateItemRow id (changeItem changes))) as Hu.
  { apply updateItemRow_within. intros row Hr. cbn. destruct (ui_basePriceMinor changes); cbn; [by apply Hb|done]. }
  destruct changes as [[] [] [] [] [] []]; first [exact Hu|apply txWithin_throw].
Qed.

Lemma setForItem_within id ids : progWithin (setForItem id ids).
Proof.
  split; [done|]. intros [item|]; [|done]. split; [done|]. intros [|]; [|done]. split; [done|]. intros seen.
  split; [|by intros [[]|]]. intros db HM. unfold transaction.
  destruct (replaceLinks _ _ _ _) as [[a s]|e] eqn:E; [by eapply replaceLinks_within|done].
Qed.

(** The ranges the catalog's schemas leave to the two money columns. *)
Lemma createItem_price v body : CreateItemSchema v = Some body → 0 ≤ ni_basePriceMinor body ≤ 1000000.
Proof. unfold CreateItemSchema. intros Hv. fields. cbn. by eapply intWithin_Some. Qed.

Lemma updateItem_price v body n :
  UpdateItemSchema v = Some body → ui_basePriceMinor body = Some n → 0 ≤ n ≤ 1000000.
Proof.
  unfold UpdateItemSchema. intros Hv. fields; cbn; intros ->; (eapply optional_within; [|eassumption]; by apply intWithin_Some).
Qed.

Lemma createOption_delta v body n :
  CreateOptionSchema v = Some body → no_priceDeltaMinor body = Some n → -100000 ≤ n ≤ 100000.
Proof.
  unfold CreateOptionSchema. intros Hv. fields; cbn; intros ->; (eapply optional_within; [|eassumption]; by apply intWithin_Some).
Qed.

Lemma updateOption_delta v body n :
  UpdateOptionSchema v = Some body → uo_priceDeltaMinor body = Some n → -100000 ≤ n ≤ 100000.
Proof.
  unfold UpdateOptionSchema. intros Hv. fields; cbn; intros ->; (eapply optional_within; [|eassumption]; by apply intWithin_Some).
Qed.

Lemma insertOption_within id groupId body :
  (∀ n, no_priceDeltaMinor body = Some n → -100000 ≤ n ≤ 100000) → txWithin (insertOption id groupId body).
Proof.
  intros Hb s a s' Hp [HI HO]. unfold insertOption in Hp. tx_inv. split; [done|].
  apply map_Forall_insert_2; [|done]. cbn. destruct (no_priceDeltaMinor body); cbn; [by apply Hb|done].
Qed.

Lemma perform_within sharp sha256 url stored write :
  validated write → progWithin (perform sharp sha256 url stored write).
Proof.
  intros [id v body Hv|id v body Hv|id v body Hv|id v body Hv|id v b Hv|id v ids Hv|id [file|]|id v body Hv
    |id v body Hv|id groupId v body Hv|id v body Hv|id v b Hv]; cbn [perform]; try done; apply progWithin_view.
  - apply progWithin_method; [|answers]. apply txWithin_bind; [done|]. intros b.
    destruct (_ && _); [done|apply putCategory_within].
  - apply progWithin_method; [|answers]. destruct body as [[] [] []]; unfold updateCategoryRow; try done;
      (apply txWithin_bind; [done|]; intros [row|]; [|done]; apply txWithin_bind; [apply putCategory_within|done]).
  - apply progWithin_method; [|answers]. apply txWithin_bind; [done|]. intros b.
    destruct (_ && _); [done|]. apply putItem_within. by eapply createItem_price.
  - apply updateItem_within. intros n. by eapply updateItem_price.
  - apply progWithin_method; [|answers]. by apply updateItemRow_within.
  - apply setForItem_within.
  - split; [done|]. intros [item|]; [|done]. destruct (reencode _ _); [|done]. destruct (stored _ _); [|done].
    by apply updateItem_within.
  - apply progWithin_method; [|answers]. apply txWithin_bind; [done|]. intros b.
    destruct (_ && _); [done|apply putGroup_within].
  - apply progWithin_method; [|answers]. destruct body as [[] [] []]; unfold updateGroupRow; try done;
      (apply txWithin_bind; [done|]; intros [row|]; [|done]; apply txWithin_bind; [apply putGroup_within|done]).
  - apply progWithin_method; [|answers]. apply insertOption_within. intros n. by eapply createOption_delta.
  - apply progWithin_method; [|answers].
    assert (txWithin (updateOptionRow id (changeOption body))) as Hu.
    { apply updateOptionRow_within. intros row Hr. cbn. destruct (uo_priceDeltaMinor body) eqn:E; cbn; [|done].
      by eapply updateOption_delta. }
    destruct body as [[] [] []]; first [exact Hu|apply txWithin_throw].
  - apply progWithin_method; [|answers]. by apply updateOptionRow_within.
Qed.

(** Nothing is asked of how the database moves. *)
Definition anyhow (_ _ : Database) : Prop := True.

#[export] Instance anyhow_preorder : PreOrder anyhow.
Proof. by split. Qed.

Lemma progWithin_rg {R} (p : prog R) P : progWithin p → rg menuWithin anyhow P p.
Proof.
  revert P. induction p as [r|X t k IH|call k IH|e k IH]; intros P Hp; [done| |intros a; by apply IH|by apply IH].
  destruct Hp as [Ht Hk]. intros db HM HP. split_and!; [auto|done|]. exists (fun _ => True). split_and!; [done..|].
  by apply IH.
Qed.

Lemma handsOff_within {R} (p : prog R) : handsOff p → progWithin p.
Proof.
  induction p as [r|X t k IH|call k IH|e k IH]; intros Hp; cbn in *; [done| |auto|auto].
  destruct Hp as [Ht Hk]. split; [|auto]. intros db [HI HO]. specialize (Ht db). injection Ht as E1 E2 E3 E4 E5.
  split; by rewrite ?E2, ?E4.
Qed.

(** ** What pricing reads *)

Lemma readCatalog_Some db ids id item : readCatalog db ids !! id = Some item → readItem db id = Some item.
Proof.
  induction ids as [|i ids IH]; cbn; [by rewrite lookup_empty|]. destruct (readItem db i) eqn:E; [|done].
  destruct (decide (i = id)) as [->|]; [by rewrite lookup_insert_eq, E|by rewrite lookup_insert_ne].
Qed.

Lemma menuWithin_limits db input :
  menuWithin db → Forall lineOk (in_items input) → (length (in_items input) <= 30)%nat →
  within_limits (readCatalog db (ri_menuItemId <$> in_items input)) (in_items input).
Proof.
  intros [HI HO] Hl Hn. split; [lia| | |].
  - eapply Forall_impl; [exact Hl|]. intros l (? & ? & _). split; [done|lia].
  - intros id item Hi%readCatalog_Some. unfold readItem in Hi. destruct (menuItems db !! id) eqn:E; [|done].
    cbn in Hi. destruct (categories db !! _); [|done]. injection Hi as <-. by eapply HI.
  - intros id item g o Hi%readCatalog_Some Hg Ho. unfold readItem in Hi. destruct (menuItems db !! id); [|done].
    cbn in Hi. destruct (categories db !! _); [|done]. injection Hi as <-. cbn in Hg.
    apply list_elem_of_omap in Hg as (link & _ & Hg). destruct (optionGroups db !! _); [|done].
    injection Hg as <-. cbn in Ho. unfold readOptions in Ho. rewrite merge_sort_Permutation in Ho.
    apply list_elem_of_fmap in Ho as ([oid row] & -> & [_ Hin]%list_elem_of_filter).
    apply elem_of_map_to_list in Hin. by eapply HO in Hin.
Qed.

Context (sharp : string → option string) (sha256 : string → string) (publicBaseUrl : string).

(** Catalog writes that passed their schemas, among handlers that leave the catalog alone. *)
Definition validatedTraffic (th : thread) : Prop :=
  (∃ stored write, validated write ∧ th = thread_of (perform sharp sha256 publicBaseUrl stored write)) ∨
  handsOff (projT2 th).

(** C13. From the edge to the till: whatever menu edits have passed their schemas, in any
    interleaving, and whatever order body passed its own, an order that prices has lines between 0
    and 125,000,000 and a total between 0 and 3,750,000,000 minor units, with the VAT inside the
    total, so every amount is exact in a JavaScript number. *)
Theorem validated_amounts c c' v input vat p :
  Forall validatedTraffic (pool_threads c) → menuWithin (pool_db c) →
  pool_steps validatedTraffic c c' →
  CreateOrderSchema v = Some input → 0 ≤ vat →
  priceOrder (in_items input) (readCatalog (pool_db c') (ri_menuItemId <$> in_items input)) vat = Ok p →
  Forall (fun l => 0 ≤ pl_lineTotalMinor l ≤ 125000000) (po_lines p) ∧
  0 ≤ po_vatMinor p ≤ po_totalMinor p ∧ po_totalMinor p ≤ 3750000000.
Proof.
  intros Hf HM Hs Hin Hvat Hp.
  assert (∀ db th, validatedTraffic th → thread_safe menuWithin anyhow db th) as Hsafe.
  { intros db th Hth. exists (fun _ => True). split_and!; [done..|].
    destruct Hth as [(stored & write & Hw & ->)|Ho]; apply progWithin_rg;
      [by apply perform_within|by apply handsOff_within]. }
  eapply (pool_steps_safe menuWithin anyhow) in Hs as [[HM' _] _]; [|by eauto|].
  2:{ split; [done|]. eapply Forall_impl; [exact Hf|]. auto. }
  destruct (order_body_bounded _ _ Hin) as (Hn & Hl & _).
  edestruct priceOrder_bounds as (H1 & H2 & H3); [by apply menuWithin_limits; [exact HM'|exact Hl|lia]|done|exact Hp|].
  split_and!; [|lia..]. eapply Forall_impl; [exact H1|]. by intros l [_ ?].
Qed.
End intake.

(** ** A body, a PATCH and a basket *)

Module Basket.
#[export] Instance patterns : ZodPatterns := {|
  z_uuid := isUuid; z_email := fun s => negb (no_char "@"%char s); z_url := startsWith "http"; z_int := signedNumber |}.

Definition reprice : JsonValue := VObj [("basePriceMinor", VNum "12500")].
Definition repriced : UpdateItemInput := {| ui_categoryId := None; ui_name := None; ui_description := None;
  ui_basePriceMinor := Some 12500; ui_imageUrl := None; ui_sortOrder := None |}.

Definition order : JsonValue := VObj [("channel", VStr "COUNTER");
  ("items", VArr [VObj [("menuItemId", VStr Corner.latte); ("quantity", VNum "2"); ("notes", VStr " less sweet ")]])].
Definition input : CreateOrderInput := {| in_channel := COUNTER;
  in_items := [{| ri_menuItemId := Corner.latte; ri_quantity := 2; ri_optionIds := [];
                  ri_notes := Some (Some "less sweet") |}];
  in_customerName := None; in_expectedTotalMinor := None; in_draft := None |}.

Lemma order_parses : CreateOrderSchema (Some order) = Some input.
Proof. vm_compute. reflexivity. Qed.

Definition write : CatalogWrite := PatchItem Corner.latte repriced.
Definition before : Pool :=
  {| pool_db := Corner.menu; pool_threads := [thread_of (Corner.serve write)]; pool_log := [] |}.
Definition later : Pool := foldl Corner.poolTurn before [0%nat].

Definition priced : result AppError PricedOrder := Eval vm_compute in
  priceOrder (in_items input) (readCatalog (pool_db later) (ri_menuItemId <$> in_items input)) 700.
End Basket.

#[local] Existing Instance Basket.patterns.

Lemma order_body_bounded_witness : (1 <= length (in_items Basket.input) <= 30)%nat.
Proof. exact (proj1 (order_body_bounded (Some Basket.order) Basket.input Basket.order_parses)). Defined.

Lemma payment_body_tender_witness :
  CreatePaymentSchema (Some (VObj [("method", VStr "CASH"); ("cashTenderedMinor", VNum "5000")]))
    = Some {| cp_method := CASH; cp_cashTenderedMinor := Some 5000 |} ∧ 0 < 5000.
Proof.
  split; [vm_compute; reflexivity|].
  refine (proj2 (payment_body_tender (Some (VObj [("method", VStr "CASH"); ("cashTenderedMinor", VNum "5000")]))
    {| cp_method := CASH; cp_cashTenderedMinor := Some 5000 |} _) 5000 _).
  - vm_compute. reflexivity.
  - reflexivity.
Defined.

Lemma validated_amounts_witness :
  ∃ p, Basket.priced = Ok p ∧ po_totalMinor p = 25000 ∧ po_totalMinor p ≤ 3750000000.
Proof.
  eexists. split; [reflexivity|]. split; [reflexivity|].
  refine (proj2 (proj2 (validated_amounts (fun b => Some b) (fun s => s) "https://cdn" Basket.before Basket.later
    (Some Basket.order) Basket.input 700 _ _ _ _ Basket.order_parses _ _))).
  - constructor; [|constructor]. left. exists (fun _ _ => Ok tt), Basket.write. split; [|reflexivity].
    apply (v_patchItem _ (Some Basket.reprice)). vm_compute. reflexivity.
  - split; [|apply map_Forall_empty]. apply map_Forall_singleton. cbn. lia.
  - apply Corner.poolTurns_steps.
  - lia.
  - vm_compute. reflexivity.
Defined.
