(* ===== verification/MenuService.v ===== *)
(** * MenuService: the composite menu

    [MenuService.build] of [catalog/menu/menu.service.ts]: the active categories with their
    items, each item's groups and each group's options, and the document it is rendered to. *)

From S2P Require Import Prelude Text Schema Errors Program Idempotency Pricing CreateOrder Fingerprint.
From S2P Require Import JsonText Ordering OrdersRead Catalog.

(** ** The document *)

Record MenuOption := {
  mo_id : string; mo_name : string; mo_priceDeltaMinor : Z; mo_isDefault : bool; mo_isAvailable : bool }.

Record MenuOptionGroup := {
  mg_id : string; mg_name : string; mg_minSelect : Z; mg_maxSelect : Z; mg_sortOrder : Z;
  mg_options : list MenuOption }.

(** [MenuItem] of the menu, which the back office's [MenuItem] is not. *)
Record MenuEntry := {
  me_id : string; me_name : string; me_description : option string; me_basePriceMinor : Z;
  me_imageUrl : option string; me_isAvailable : bool; me_sortOrder : Z;
  me_optionGroups : list MenuOptionGroup }.

Record MenuCategory := {
  mc_id : string; mc_name : string; mc_sortOrder : Z; mc_items : list MenuEntry }.

Record Menu := { menu_categories : list MenuCategory }.

Section build.
Context `{!Collation}.

Definition menuOption (e : string * OptionRow) : MenuOption :=
  {| mo_id := e.1; mo_name := opt_name e.2; mo_priceDeltaMinor := opt_priceDeltaMinor e.2;
     mo_isDefault := opt_isDefault e.2; mo_isAvailable := opt_isAvailable e.2 |}.

(** The links of an item in their order, each flattened into the group it names. *)
Definition menuGroups (db : Database) (itemId : string) : list MenuOptionGroup :=
  omap (fun link =>
    g ← optionGroups db !! lk_optionGroupId link;
    Some {| mg_id := lk_optionGroupId link; mg_name := og_name g; mg_minSelect := og_minSelect g;
            mg_maxSelect := og_maxSelect g; mg_sortOrder := lk_sortOrder link;
            mg_options := map menuOption (optionsOf (lk_optionGroupId link) db) |})
    (merge_sort bySortOrder (linksOf itemId db)).

Definition menuEntry (db : Database) (e : string * MenuItemRow) : MenuEntry :=
  {| me_id := e.1; me_name := mi_name e.2; me_description := mi_description e.2;
     me_basePriceMinor := mi_basePriceMinor e.2; me_imageUrl := mi_imageUrl e.2;
     me_isAvailable := mi_isAvailable e.2; me_sortOrder := mi_sortOrder e.2;
     me_optionGroups := menuGroups db e.1 |}.

(** Items of a category, sold out or not. *)
Definition itemsOf (db : Database) (categoryId : string) : list (string * MenuItemRow) :=
  merge_sort (placeLe (fun e => (mi_sortOrder e.2, mi_name e.2)))
    (filter (fun e => mi_categoryId e.2 = categoryId) (map_to_list (menuItems db))).

Definition activeCategories (db : Database) : list (string * CategoryRow) :=
  merge_sort (placeLe (fun e => (cat_sortOrder e.2, cat_name e.2)))
    (filter (fun e => cat_isActive e.2 = true) (map_to_list (categories db))).

Definition buildMenu (db : Database) : Menu :=
  {| menu_categories := map (fun e =>
       {| mc_id := e.1; mc_name := cat_name e.2; mc_sortOrder := cat_sortOrder e.2;
          mc_items := map (menuEntry db) (itemsOf db e.1) |}) (activeCategories db) |}.

(** ** [JSON.stringify] *)

Definition orNull (s : option string) : Json := match s with Some t => JStr t | None => JNull end.

Definition optionJson (o : MenuOption) : Json := JObj [
  ("id", JStr (mo_id o)); ("name", JStr (mo_name o)); ("priceDeltaMinor", JNum (mo_priceDeltaMinor o));
  ("isDefault", JBool (mo_isDefault o)); ("isAvailable", JBool (mo_isAvailable o))].

Definition groupJson (g : MenuOptionGroup) : Json := JObj [
  ("id", JStr (mg_id g)); ("name", JStr (mg_name g)); ("minSelect", JNum (mg_minSelect g));
  ("maxSelect", JNum (mg_maxSelect g)); ("sortOrder", JNum (mg_sortOrder g));
  ("options", JArr (map optionJson (mg_options g)))].

Definition entryJson (e : MenuEntry) : Json := JObj [
  ("id", JStr (me_id e)); ("name", JStr (me_name e)); ("description", orNull (me_description e));
  ("basePriceMinor", JNum (me_basePriceMinor e)); ("imageUrl", orNull (me_imageUrl e));
  ("isAvailable", JBool (me_isAvailable e)); ("sortOrder", JNum (me_sortOrder e));
  ("optionGroups", JArr (map groupJson (me_optionGroups e)))].

Definition categoryJson (c : MenuCategory) : Json := JObj [
  ("id", JStr (mc_id c)); ("name", JStr (mc_name c)); ("sortOrder", JNum (mc_sortOrder c));
  ("items", JArr (map entryJson (mc_items c)))].

Definition menuJson (m : Menu) : Json := JObj [("categories", JArr (map categoryJson (menu_categories m)))].

(** [JSON.stringify(await this.build())]. *)
Definition render (db : Database) : string := print (menuJson (buildMenu db)).
End build.

#[global] Arguments render {_} db : simpl never.

(** ** What is on the menu *)

Section facts.
Context `{!Collation}.

Lemma elem_of_itemsOf db cid id row :
  (id, row) ∈ itemsOf db cid ↔ menuItems db !! id = Some row ∧ mi_categoryId row = cid.
Proof.
  unfold itemsOf. rewrite merge_sort_Permutation, list_elem_of_filter, elem_of_map_to_list. cbn. tauto.
Qed.

Lemma elem_of_activeCategories db id cat :
  (id, cat) ∈ activeCategories db ↔ categories db !! id = Some cat ∧ cat_isActive cat = true.
Proof.
  unfold activeCategories. rewrite merge_sort_Permutation, list_elem_of_filter, elem_of_map_to_list. cbn. tauto.
Qed.

(** Every entry of the menu, category by category. *)
Definition entries (m : Menu) : list MenuEntry := concat (map mc_items (menu_categories m)).

Lemma elem_of_entries db e :
  e ∈ entries (buildMenu db) ↔
  ∃ id row cat, menuItems db !! id = Some row ∧ categories db !! mi_categoryId row = Some cat ∧
    cat_isActive cat = true ∧ e = menuEntry db (id, row).
Proof.
  unfold entries, buildMenu. cbn. rewrite map_map. cbn. rewrite list_elem_of_In, in_concat. split.
  - intros (l & Hl & He). apply in_map_iff in Hl as ([cid cat] & <- & Hc). cbn in He.
    apply in_map_iff in He as ([id row] & <- & Hi).
    apply list_elem_of_In, elem_of_activeCategories in Hc as [Hc Ha].
    apply list_elem_of_In, elem_of_itemsOf in Hi as [Hi <-]. eauto 10.
  - intros (id & row & cat & Hi & Hc & Ha & ->). eexists. split.
    + apply in_map_iff. exists (mi_categoryId row, cat). split; [done|].
      by apply list_elem_of_In, elem_of_activeCategories.
    + cbn. apply in_map. by apply list_elem_of_In, elem_of_itemsOf.
Qed.

Lemma NoDup_ids_filter {A} (m : gmap string A) (P : string * A → Prop) `{∀ e, Decision (P e)} :
  NoDup (filter P (map_to_list m)).*1.
Proof.
  eapply (sublist_NoDup _ (map_to_list m).*1); [apply NoDup_fst_map_to_list|].
  apply fmap_sublist, sublist_filter.
Qed.

Lemma NoDup_concat_map {A B} (f : A → list B) (l : list A) :
  NoDup l → (∀ a, a ∈ l → NoDup (f a)) →
  (∀ a b x, a ∈ l → b ∈ l → x ∈ f a → x ∈ f b → a = b) → NoDup (concat (map f l)).
Proof.
  induction l as [|a l IH]; intros Hl Hf Hd; cbn; [constructor|]. apply NoDup_cons in Hl as [Ha Hl].
  apply NoDup_app. split_and!.
  - apply Hf, list_elem_of_here.
  - intros x Hx (k & Hk & Hxk)%list_elem_of_In%in_concat. apply in_map_iff in Hk as (b & <- & Hb).
    apply Ha. rewrite (Hd a b x); [by apply list_elem_of_In|apply list_elem_of_here| |done|by apply list_elem_of_In].
    apply list_elem_of_further. by apply list_elem_of_In.
  - apply IH; [done| |]; intros; [apply Hf|eapply Hd]; try apply list_elem_of_further; eauto.
Qed.

Lemma entries_NoDup db : NoDup (map me_id (entries (buildMenu db))).
Proof.
  unfold entries, buildMenu. cbn. rewrite map_map, concat_map, map_map. cbn.
  apply NoDup_concat_map.
  - eapply NoDup_fmap_1. unfold activeCategories. rewrite merge_sort_Permutation. apply NoDup_ids_filter.
  - intros [cid cat] _. cbn. rewrite map_map. cbn. unfold itemsOf.
    change (NoDup (fst <$> merge_sort (placeLe (fun e : string * MenuItemRow => (mi_sortOrder e.2, mi_name e.2)))
      (filter (fun e => mi_categoryId e.2 = cid) (map_to_list (menuItems db))))).
    rewrite merge_sort_Permutation. apply NoDup_ids_filter.
  - intros [c1 k1] [c2 k2] id H1 H2. cbn. rewrite !map_map. cbn.
    intros ([i1 r1] & -> & Hi1)%list_elem_of_fmap ([i2 r2] & E & Hi2)%list_elem_of_fmap. cbn in E. subst i2.
    apply elem_of_itemsOf in Hi1 as [Hr1 <-], Hi2 as [Hr2 <-]. assert (r1 = r2) as <- by congruence.
    apply elem_of_activeCategories in H1 as [H1 _], H2 as [H2 _]. congruence.
Qed.

(** ** What the till reads *)

(** A group on the menu and the group pricing reads are the same offer. *)
Definition sameOffer (g : CatalogOptionGroup) (m : MenuOptionGroup) : Prop :=
  cg_id g = mg_id m ∧ cg_name g = mg_name m ∧ cg_minSelect g = mg_minSelect m ∧ cg_maxSelect g = mg_maxSelect m ∧
  ((fun o => (co_id o, co_name o, co_priceDeltaMinor o, co_isAvailable o)) <$> cg_options g)
    ≡ₚ ((fun o => (mo_id o, mo_name o, mo_priceDeltaMinor o, mo_isAvailable o)) <$> mg_options m).

Lemma sameOffer_groups db itemId : Forall2 sameOffer (readGroups db itemId) (menuGroups db itemId).
Proof.
  unfold readGroups, menuGroups, linksOf.
  induction (merge_sort bySortOrder (filter (fun l => lk_menuItemId l = itemId) (menuItemOptionGroups db)))
    as [|link links IH]; [constructor|]. cbn [omap list_omap].
  destruct (optionGroups db !! lk_optionGroupId link) as [g|]; cbn; [|done]. constructor; [|done].
  split_and!; [done..|]. cbn. unfold readOptions, optionsOf. change (map menuOption ?l) with (menuOption <$> l).
  rewrite !merge_sort_Permutation, <-!list_fmap_compose. done.
Qed.

(** C15. The menu is what the till charges. An item is on it, once, exactly when its category
    is active; and the order system, reading the same database, finds that item with the name,
    the base price, the availability, the groups, the bounds and the option prices the menu
    shows, in the same group order. *)
Theorem menu_is_charged db :
  NoDup (map me_id (entries (buildMenu db))) ∧
  (∀ id, (∃ e, e ∈ entries (buildMenu db) ∧ me_id e = id) ↔
     ∃ row cat, menuItems db !! id = Some row ∧ categories db !! mi_categoryId row = Some cat ∧
       cat_isActive cat = true) ∧
  ∀ e, e ∈ entries (buildMenu db) →
    ∃ item, readItem db (me_id e) = Some item ∧ ci_name item = me_name e ∧
      ci_basePriceMinor item = me_basePriceMinor e ∧ ci_isAvailable item = me_isAvailable e ∧
      Forall2 sameOffer (ci_optionGroups item) (me_optionGroups e).
Proof.
  split_and!; [apply entries_NoDup| |].
  - intros id. split.
    + intros (e & (i & row & cat & Hi & Hc & Ha & ->)%elem_of_entries & <-). eauto.
    + intros (row & cat & Hi & Hc & Ha). exists (menuEntry db (id, row)). split; [|done].
      apply elem_of_entries. eauto 10.
  - intros e (id & row & cat & Hi & Hc & Ha & ->)%elem_of_entries. unfold readItem. cbn. rewrite Hi. cbn.
    rewrite Hc. cbn. eexists. split; [done|]. cbn. rewrite Ha, andb_true_r. split_and!; [done..|].
    apply sameOffer_groups.
Qed.

(** ** What a client reads back *)

Lemma forallb_map_true {A} (f : A → Json) (l : list A) :
  (∀ a, defined (f a) = true) → forallb defined (map f l) = true.
Proof. intros Hf. induction l as [|a l IH]; cbn; [done|]. by rewrite Hf, IH. Qed.

Lemma menuJson_defined m : defined (menuJson m) = true.
Proof.
  cbn. rewrite forallb_map_true; [done|]. intros c. cbn. rewrite forallb_map_true; [done|]. intros e. cbn.
  rewrite forallb_map_true; [by destruct (me_description e), (me_imageUrl e)|]. intros g. cbn.
  by rewrite forallb_map_true.
Qed.

(** The document parses, to the menu it was rendered from. *)
Theorem document_reads_back db : jsonParse (render db) = Some (ofJson (menuJson (buildMenu db))).
Proof. apply parse_print, menuJson_defined. Qed.
End facts.
