(* ===== verification/MenuCache.v ===== *)
(** * MenuCache: serving the menu while it is being edited

    [catalog/menu/menu-cache.service.ts], [catalog/menu/menu.controller.ts],
    [MenuService.document] and [catalog/menu/catalog-write.interceptor.ts]. The state is the database, the
    keys of Redis and whether Redis can be reached; a command, a query or a transaction is one
    action, and any number of requests interleave. Two fields are bookkeeping: the
    databases there have been, and how many there had been when each version became current. *)

From S2P Require Import Prelude Text Schema Errors Program Idempotency Fingerprint JsonText Ordering OrdersRead.
From S2P Require Import Atoms Catalog ItemImage CatalogSafety MenuService.
From Stdlib Require Import Ascii.

(** ** The state *)

(** Redis answers; or refuses; or carries a command out and loses the reply. *)
Inductive Link := Working | Refusing | Mute.

Record Front := {
  fr_db : Database;
  fr_link : Link;
  fr_redis : gmap string string;
  fr_past : list Database;      (* every database so far, the current one last *)
  fr_floor : gmap Z nat }.      (* how long the past was when a version became current *)

Definition VERSION_KEY : string := "catalog:version".
Definition DOCUMENT_KEY_PREFIX : string := "catalog:menu:v".
Definition DOCUMENT_TTL_SECONDS : Z := 3600.

Definition documentKey (version : string) : string := DOCUMENT_KEY_PREFIX +:+ version.

(** A command: what it does to the keys, and what its caller learns ([None] is a rejection). *)
Definition command {X} (f : Front → Front * X) (s : Front) : Front * option X :=
  match fr_link s with
  | Working => let '(s', x) := f s in (s', Some x)
  | Refusing => (s, None)
  | Mute => ((f s).1, None)
  end.

Definition with_redis (redis : gmap string string) (s : Front) : Front :=
  {| fr_db := fr_db s; fr_link := fr_link s; fr_redis := redis; fr_past := fr_past s; fr_floor := fr_floor s |}.

Definition redisGet (key : string) (s : Front) : Front * option string := (s, fr_redis s !! key).

Definition redisSet (key value : string) (s : Front) : Front * unit :=
  (with_redis (<[key := value]> (fr_redis s)) s, tt).

(** [INCR catalog:version]: a missing counter counts from zero. *)
Definition versionNumber (s : Front) : Z := default 0 (fr_redis s !! VERSION_KEY ≫= js_Number).

Definition incrVersion (s : Front) : Front * Z :=
  let next := versionNumber s + 1 in
  ({| fr_db := fr_db s; fr_link := fr_link s; fr_redis := <[VERSION_KEY := pretty next]> (fr_redis s);
      fr_past := fr_past s; fr_floor := <[next := length (fr_past s)]> (fr_floor s) |}, next).

Definition commit (db : Database) (s : Front) : Front :=
  {| fr_db := db; fr_link := fr_link s; fr_redis := fr_redis s; fr_past := fr_past s ++ [db]; fr_floor := fr_floor s |}.

(** ** [MenuCacheService]: every method fails open *)

Definition currentVersion : handler Front (option string) :=
  Act (command (redisGet VERSION_KEY)) (fun answer =>
    match answer with
    | None => Answer None
    | Some (Some version) => Answer (Some version)
    | Some None => Act (command incrVersion) (fun counted => Answer (pretty <$> counted))
    end).

Definition cacheRead (version : string) : handler Front (option string) :=
  Act (command (redisGet (documentKey version))) (fun answer => Answer (default None answer)).

Definition cacheWrite (version document : string) : handler Front unit :=
  Act (command (redisSet (documentKey version) document)) (fun _ => Answer tt).

Definition bump : handler Front unit := Act (command incrVersion) (fun _ => Answer tt).

(** ** [GET /menu] *)

Definition QUOTE : string := String (Ascii.ascii_of_nat 34) "".
Definition etagFor (version : string) : string := "W/" +:+ QUOTE +:+ "catalog-" +:+ version +:+ QUOTE.

Definition matchesEtag (header : option string) (etag : string) : bool :=
  match header with
  | None => false
  | Some h => bool_decide (trim h = "*") || existsb (fun candidate => bool_decide (trim candidate = etag)) (split_on ","%char h)
  end.

Inductive MenuResponse :=
| NotModified (etag : string)
| MenuBody (etag : option string) (document : string).

Section serving.
Context `{!Collation}.

Definition build : handler Front string := Act (fun s => (s, render (fr_db s))) Answer.

(** [MenuService.document]. *)
Definition menuDocument (version : option string) : handler Front string :=
  match version with
  | None => build
  | Some v =>
      andThen (cacheRead v) (fun cached =>
        match cached with
        | Some document => Answer document
        | None => andThen build (fun document => andThen (cacheWrite v document) (fun _ => Answer document))
        end)
  end.

Definition getMenu (ifNoneMatch : option string) : handler Front MenuResponse :=
  andThen currentVersion (fun version =>
    match version with
    | None => andThen (menuDocument None) (fun document => Answer (MenuBody None document))
    | Some v =>
        if matchesEtag ifNoneMatch (etagFor v) then Answer (NotModified (etagFor v))
        else andThen (menuDocument (Some v)) (fun document => Answer (MenuBody (Some (etagFor v)) document))
    end).

(** ** Writes ([CatalogWriteInterceptor]) *)

(** A handler of the database, here: its answer, with how many databases there had been when it
    last touched one. *)
Fixpoint onDatabase {R} (gw : Gateway) (at_ : nat) (p : prog R) : handler Front (result AppError R * nat) :=
  match p with
  | Done r => Answer (r, at_)
  | Step t k => Act (fun s => (commit (t (fr_db s)).1 s, ((t (fr_db s)).2, length (fr_past s) + 1)%nat))
      (fun x => onDatabase gw x.2 (k x.1))
  | Ask call k => onDatabase gw at_ (k (gw call))
  | Emit _ k => onDatabase gw at_ k
  end.

(** What the handlers of a round answer. *)
Inductive FrontReply :=
| GotMenu (response : MenuResponse)
| Wrote (result : result AppError CatalogView) (at_ : nat)
| Nothing.

(** The route's handler, then the bump if it returned a value, then the response. *)
Definition catalogRoute (gw : Gateway) (handle : prog CatalogView) : handler Front FrontReply :=
  andThen (onDatabase gw 0 handle) (fun '(outcome, at_) =>
    match outcome with
    | Ok body => andThen bump (fun _ => Answer (Wrote (Ok body) at_))
    | Err e => Answer (Wrote (Err e) at_)
    end).

Definition menuRoute (ifNoneMatch : option string) : handler Front FrontReply :=
  andThen (getMenu ifNoneMatch) (fun response => Answer (GotMenu response)).

(** Any other request, which may change the database. *)
Definition otherRoute {R} (gw : Gateway) (p : prog R) : handler Front FrontReply :=
  andThen (onDatabase gw 0 p) (fun _ => Answer Nothing).

(** ** The world outside *)

(** A document's time to live runs out; Redis is lost, found, or loses replies. *)
Definition expire (version : string) : handler Front FrontReply :=
  Act (fun s => (with_redis (delete (documentKey version) (fr_redis s)) s, tt)) (fun _ => Answer Nothing).

Definition relink (link : Link) : handler Front FrontReply :=
  Act (fun s => ({| fr_db := fr_db s; fr_link := link; fr_redis := fr_redis s; fr_past := fr_past s;
                    fr_floor := fr_floor s |}, tt)) (fun _ => Answer Nothing).

(** Redis comes back without its keys. *)
Definition wipe : handler Front FrontReply :=
  Act (fun s => (with_redis ∅ s, tt)) (fun _ => Answer Nothing).

(** The requests, and what may happen to Redis short of losing its keys. *)
Inductive frontRequest (gw : Gateway) : handler Front FrontReply → Prop :=
| fr_write handle : frontRequest gw (catalogRoute gw handle)
| fr_menu header : frontRequest gw (menuRoute header)
| fr_other R (p : prog R) : frontRequest gw (otherRoute gw p)
| fr_expire version : frontRequest gw (expire version)
| fr_relink link : frontRequest gw (relink link).

Definition fresh (db : Database) : Front :=
  {| fr_db := db; fr_link := Working; fr_redis := ∅; fr_past := [db]; fr_floor := ∅ |}.
End serving.
