(* ===== verification/MenuFresh.v ===== *)
(** * MenuFresh: a menu read after a write shows it

    The invariant of the cache, the promise of [GET /menu] under any interleaving with
    writes, outages and expiring documents, and what is left of it when Redis loses its keys. *)

From S2P Require Import Prelude Text Schema Errors Program Idempotency Fingerprint JsonText Ordering OrdersRead.
From S2P Require Import Atoms Catalog ItemImage CatalogSafety CatalogBehaviour MenuService MenuCache.

Section fresh.
Context `{!Collation}.

(** ** The invariant *)

Record validFront (s : Front) : Prop := {
  vf_last : last (fr_past s) = Some (fr_db s);
  vf_version : match fr_redis s !! VERSION_KEY with
    | None => fr_floor s = ∅
    | Some text => ∃ v n, text = pretty v ∧ 0 ≤ v ∧ fr_floor s !! v = Some n ∧ (n <= length (fr_past s))%nat ∧
        ∀ v' n', fr_floor s !! v' = Some n' → v' ≤ v ∧ (n' <= n)%nat
    end;
  vf_documents : ∀ v doc, fr_redis s !! documentKey (pretty v) = Some doc →
    ∃ n i db, fr_floor s !! v = Some n ∧ fr_past s !! i = Some db ∧ (n <= S i)%nat ∧ doc = render db
}.

(** The past grows, a version keeps its floor, and a new one's is where the past then was. *)
Record moved (s s' : Front) : Prop := {
  mv_past : fr_past s `prefix_of` fr_past s';
  mv_floor : fr_floor s ⊆ fr_floor s';
  mv_new : ∀ v n, fr_floor s' !! v = Some n → fr_floor s !! v = None → (length (fr_past s) <= n)%nat
}.

#[export] Instance moved_preorder : PreOrder moved.
Proof.
  split.
  - intros s. split; [done|done|]. congruence.
  - intros a b c [Hp1 Hf1 Hn1] [Hp2 Hf2 Hn2]. split; [by etrans|by etrans|].
    intros v n Hc Ha. destruct (fr_floor b !! v) as [m|] eqn:Eb.
    + assert (m = n) as <-; [|by eapply Hn1]. eapply lookup_weaken in Hf2; [|exact Eb]. congruence.
    + apply prefix_length in Hp1. specialize (Hn2 v n Hc Eb). lia.
Qed.

Lemma moved_floor s s' v n : moved s s' → fr_floor s !! v = Some n → fr_floor s' !! v = Some n.
Proof. intros [_ Hf _] Hv. by eapply lookup_weaken. Qed.

Lemma moved_past s s' i db : moved s s' → fr_past s !! i = Some db → fr_past s' !! i = Some db.
Proof. intros [Hp _ _] Hi. by eapply prefix_lookup_Some. Qed.

Lemma moved_length s s' : moved s s' → (length (fr_past s) <= length (fr_past s'))%nat.
Proof. intros [Hp _ _]. by apply prefix_length. Qed.

(** ** The actions keep it *)

Definition keepsFront {X} (t : Front → Front * X) : Prop :=
  ∀ s, validFront s → validFront (t s).1 ∧ moved s (t s).1.

Lemma keepsFront_command {X} (f : Front → Front * X) : keepsFront f → keepsFront (command f).
Proof.
  intros Hf s Hv. unfold command. specialize (Hf s Hv). destruct (fr_link s); [by destruct (f s)|by split|done].
Qed.

Lemma documentKey_inj v w : documentKey (pretty (v : Z)) = documentKey (pretty (w : Z)) → v = w.
Proof. intros E. by apply (inj (String.append _)), (inj pretty) in E. Qed.

Lemma documentKey_not_version t : documentKey t ≠ VERSION_KEY.
Proof. intros E. apply (f_equal (String.get 8)) in E. discriminate E. Qed.

Lemma incrVersion_keeps : keepsFront incrVersion.
Proof.
  intros s [Hl Hv Hd]. unfold incrVersion, versionNumber. cbn [fst].
  assert (∃ v, default 0 (fr_redis s !! VERSION_KEY ≫= js_Number) = v ∧ 0 ≤ v ∧
    ∀ w n, fr_floor s !! w = Some n → w ≤ v ∧ (n <= length (fr_past s))%nat) as (v & -> & H0 & Hmax).
  { destruct (fr_redis s !! VERSION_KEY) as [text|].
    - destruct Hv as (v & n & -> & H0 & Hn & Hle & Hmax). exists v. cbn. rewrite js_Number_pretty by done.
      split_and!; [done..|]. intros w m Hw. destruct (Hmax w m Hw). split; lia.
    - exists 0. split_and!; [done..|]. intros w m. by rewrite Hv, lookup_empty. }
  assert (fr_floor s !! (v + 1) = None) as Hnew.
  { destruct (fr_floor s !! (v + 1)) eqn:E; [|done]. apply Hmax in E as [? _]. lia. }
  split; split; cbn.
  - done.
  - rewrite lookup_insert_eq. exists (v + 1), (length (fr_past s)). split_and!; [done|lia|by rewrite lookup_insert_eq|done|].
    intros w m [[<- <-]|[_ Hw]]%lookup_insert_Some; [lia|]. destruct (Hmax w m Hw). lia.
  - intros w doc. rewrite lookup_insert_ne by apply not_eq_sym, documentKey_not_version. intros Hdoc.
    destruct (Hd w doc Hdoc) as (n & i & db & Hn & ?). exists n, i, db. split; [|done].
    rewrite lookup_insert_ne; [done|]. congruence.
  - done.
  - by apply insert_subseteq.
  - intros w m [[<- <-]|[_ Hw]]%lookup_insert_Some; [lia|]. congruence.
Qed.

Lemma redisGet_keeps key : keepsFront (redisGet key).
Proof. by split. Qed.

Lemma commit_keeps s db : validFront s → validFront (commit db s) ∧ moved s (commit db s).
Proof.
  intros [Hl Hv Hd]. split; split; cbn.
  - by rewrite last_snoc.
  - destruct (fr_redis s !! VERSION_KEY) as [text|]; [|done]. destruct Hv as (v & n & ? & ? & ? & ? & ?).
    exists v, n. split_and!; try done. rewrite length_app. cbn. lia.
  - intros v doc Hdoc. destruct (Hd v doc Hdoc) as (n & i & d & Hn & Hi & Hle & Hr). exists n, i, d.
    split; [done|]. split; [by apply lookup_app_l_Some|done].
  - by apply prefix_app_r.
  - done.
  - congruence.
Qed.

(** Caching a document that a version's readers may see. *)
Lemma redisSet_keeps s v n i db :
  validFront s → fr_floor s !! v = Some n → fr_past s !! i = Some db → (n <= S i)%nat →
  validFront (redisSet (documentKey (pretty v)) (render db) s).1 ∧
  moved s (redisSet (documentKey (pretty v)) (render db) s).1.
Proof.
  intros [Hl Hv Hd] Hn Hi Hle. split; [|by split; cbn; [done|done|congruence]]. split; cbn; [done| |].
  - rewrite lookup_insert_ne by apply documentKey_not_version. done.
  - intros w doc [[E <-]|[_ Hw]]%lookup_insert_Some; [|by apply Hd].
    apply documentKey_inj in E as <-. eauto 10.
Qed.

(** ** The promises *)

(** From here on a reader is served a menu of place [n] or later: the current version's floor is
    that far, or there is no version yet and the past is. *)
Definition settled (n : nat) (s : Front) : Prop :=
  (n <= length (fr_past s))%nat ∧
  match fr_redis s !! VERSION_KEY with
  | None => True
  | Some text => ∃ v m, text = pretty v ∧ fr_floor s !! v = Some m ∧ (n <= m)%nat
  end.

Lemma settled_later n s s' : validFront s → validFront s' → moved s s' → settled n s → settled n s'.
Proof.
  intros Hs Hs' Hm [Hn Ht]. pose proof (moved_length _ _ Hm). split; [lia|].
  destruct (fr_redis s' !! VERSION_KEY) as [text|] eqn:E'; [|done].
  destruct Hs' as [_ Hv' _]. rewrite E' in Hv'. destruct Hv' as (v & m & -> & _ & Hm' & _ & Hmax).
  exists v, m. split_and!; [done..|].
  destruct (fr_redis s !! VERSION_KEY) as [text0|] eqn:E.
  - destruct Ht as (v0 & m0 & _ & Hm0 & Hn0). pose proof (moved_floor _ _ _ _ Hm Hm0) as Hm0'.
    apply Hmax in Hm0' as [_ ?]. lia.
  - destruct Hs as [_ Hv _]. rewrite E in Hv. destruct Hm as [_ _ Hnew].
    assert (length (fr_past s) <= m)%nat; [|lia]. eapply Hnew; [done|]. by rewrite Hv, lookup_empty.
Qed.

(** A document of place [n] or later. *)
Definition shows (n : nat) (s : Front) (document : string) : Prop :=
  ∃ i db, fr_past s !! i = Some db ∧ (n <= S i)%nat ∧ document = render db.

(** A version whose documents are of place [n] or later. *)
Definition carries (n : nat) (s : Front) (etag : string) : Prop :=
  ∃ v m, etag = etagFor (pretty (v : Z)) ∧ fr_floor s !! v = Some m ∧ (n <= m)%nat.

Definition served (n : nat) (s : Front) (response : MenuResponse) : Prop :=
  match response with
  | NotModified etag => carries n s etag
  | MenuBody None document => shows n s document
  | MenuBody (Some etag) document =>
      ∃ v m, etag = etagFor (pretty (v : Z)) ∧ fr_floor s !! v = Some m ∧ (n <= m)%nat ∧ shows m s document
  end.

Lemma shows_later n s s' d : moved s s' → shows n s d → shows n s' d.
Proof. intros Hm (i & db & Hi & ?). exists i, db. split; [by eapply moved_past|done]. Qed.

Lemma served_later n s s' response : moved s s' → served n s response → served n s' response.
Proof.
  intros Hm. destruct response as [etag|[etag|] d]; cbn.
  - intros (v & m & ? & ? & ?). exists v, m. split_and!; [done|by eapply moved_floor|done].
  - intros (v & m & ? & ? & ? & ?). exists v, m. split_and!; [done|by eapply moved_floor|done|by eapply shows_later].
  - by apply shows_later.
Qed.

Notation ensures := (ensures validFront moved).

(** The version a reader is given: none, or one whose floor is far enough. *)
Definition versioned (n : nat) (s : Front) (version : option string) : Prop :=
  validFront s ∧ (n <= length (fr_past s))%nat ∧
  match version with
  | None => True
  | Some text => ∃ v m, text = pretty (v : Z) ∧ fr_floor s !! v = Some m ∧ (n <= m)%nat
  end.

Lemma currentVersion_ensures n seen :
  validFront seen → settled n seen → ensures (versioned n) seen currentVersion.
Proof.
  intros Hseen Hset s Hm Hs. assert (settled n s) as [Hn Ht] by exact (settled_later n seen s Hseen Hs Hm Hset).
  destruct (keepsFront_command _ (redisGet_keeps VERSION_KEY) s Hs) as [Hv' Hm']. (split; [done|]; split; [done|]).
  unfold versioned, command, redisGet in *. destruct (fr_link s); cbn in *; [|by split_and!..].
  destruct (fr_redis s !! VERSION_KEY) as [text|] eqn:E; cbn; [by split_and!|].
  intros s1 Hm1 Hs1. destruct (keepsFront_command _ incrVersion_keeps s1 Hs1) as [Hv2 Hm2]. (split; [done|]; split; [done|]).
  pose proof (moved_length _ _ Hm1). unfold command, incrVersion in *.
  destruct (fr_link s1); cbn in *; [|split_and!; [done|cbn; lia|done]..].
  split_and!; [done|cbn; lia|]. exists (versionNumber s1 + 1), (length (fr_past s1)).
  split_and!; [done|by rewrite lookup_insert_eq|lia].
Qed.

(** What a fresh build shows is the present. *)
Lemma build_ensures n seen : (n <= length (fr_past seen))%nat →
  ensures (fun s d => validFront s ∧ shows n s d ∧ moved seen s) seen build.
Proof.
  intros Hn s Hm Hs. cbn. do 2 (split; [done|]). split; [done|]. split; [|done].
  pose proof (moved_length _ _ Hm). pose proof (vf_last _ Hs) as Hl.
  rewrite last_lookup in Hl. exists (pred (length (fr_past s))), (fr_db s). split_and!; [done|lia|done].
Qed.

Lemma menuDocument_ensures v m seen :
  fr_floor seen !! v = Some m → (m <= length (fr_past seen))%nat →
  ensures (fun s d => shows m s d ∧ moved seen s) seen (menuDocument (Some (pretty (v : Z)))).
Proof.
  intros Hf Hlen. unfold menuDocument. eapply ensures_andThen with (Q := fun s o => validFront s ∧ moved seen s ∧
    match o with Some d => shows m s d | None => True end).
  - intros s Hm Hs. destruct (keepsFront_command _ (redisGet_keeps (documentKey (pretty v))) s Hs) as [Hv' Hm'].
    (split; [done|]; split; [done|]). unfold command, redisGet in *. destruct (fr_link s); cbn in *; [|by split_and!..].
    (split; [done|]; split; [done|]). destruct (fr_redis s !! documentKey (pretty v)) as [d|] eqn:E; [|done].
    destruct (vf_documents _ Hs v d E) as (n & i & db & Hn & Hi & Hle & ->). exists i, db.
    pose proof (moved_floor _ _ _ _ Hm Hf). split_and!; [done|congruence|done].
  - intros s [d|] (Hs & Hm & Hd); [by split|]. eapply ensures_andThen.
    + apply (build_ensures m). pose proof (moved_length _ _ Hm). lia.
    + intros s1 d (Hs1 & (i & db & Hi & Hle & ->) & Hm1) s2 Hm2 Hs2.
      assert (moved seen s2) as Hm02 by (etrans; [exact Hm|]; by etrans).
      assert (validFront (command (redisSet (documentKey (pretty v)) (render db)) s2).1 ∧
        moved s2 (command (redisSet (documentKey (pretty v)) (render db)) s2).1) as [Hv3 Hm3].
      { pose proof (moved_floor _ _ _ _ Hm02 Hf). pose proof (moved_past _ _ _ _ Hm2 Hi).
        destruct (redisSet_keeps s2 v m i db) as [? ?]; [done..|].
        unfold command. by destruct (fr_link s2). }
      (split; [done|]; split; [done|]). cbn. split; [|by etrans]. exists i, db. split_and!; [|done..].
      apply (moved_past s1); [|done]. etrans; [exact Hm2|exact Hm3].
Qed.

Lemma menuRoute_ensures n seen header : validFront seen → settled n seen →
  ensures (fun s r => ∃ response, r = GotMenu response ∧ served n s response) seen (menuRoute header).
Proof.
  intros Hv Hs. unfold menuRoute, getMenu.
  eapply ensures_andThen with (Q := fun s response => served n s response); [|by intros s a ?; exists a].
  eapply ensures_andThen; [by apply (currentVersion_ensures n)|].
  intros s [text|] (Hvs & Hn & Hversion).
  - destruct Hversion as (v & m & -> & Hf & Hnm). case_match; [by exists v, m|].
    eapply ensures_andThen; [eapply (menuDocument_ensures v m); [done|]|].
    + pose proof (vf_version _ Hvs) as Ht. destruct (fr_redis s !! VERSION_KEY) as [text|].
      * destruct Ht as (w & k & _ & _ & _ & Hk & Hmax). apply Hmax in Hf as [_ ?]. lia.
      * by rewrite Ht, lookup_empty in Hf.
    + intros s1 d [Hd Hm]. cbn. exists v, m. split_and!; [done|by eapply moved_floor|done|done].
  - eapply ensures_andThen; [by apply (build_ensures n)|]. by intros s1 d (_ & Hd & _).
Qed.

Lemma onDatabase_ensures {R} gw (p : prog R) : ∀ n seen, validFront seen → (n <= length (fr_past seen))%nat →
  ensures (fun s answer => validFront s ∧ (answer.2 <= length (fr_past s))%nat) seen (onDatabase gw n p).
Proof.
  induction p as [r|X t k IH|call k IH|e k IH]; intros n seen Hs Hn; cbn; [done| |by apply IH|by apply IH].
  intros s Hm Hv. destruct (commit_keeps s (t (fr_db s)).1 Hv) as [Hv' Hm']. split; [done|]. split; [done|].
  apply IH; [done|]. cbn. rewrite length_app. cbn. lia.
Qed.

Lemma bump_ensures n seen : (n <= length (fr_past seen))%nat → ensures (fun s _ => True) seen bump.
Proof.
  intros Hn s Hm Hv. destruct (keepsFront_command _ incrVersion_keeps s Hv). done.
Qed.

Lemma expire_keeps version s : validFront s →
  validFront (with_redis (delete (documentKey version) (fr_redis s)) s) ∧
  moved s (with_redis (delete (documentKey version) (fr_redis s)) s).
Proof.
  intros [Hl Hv Hd]. split; [|by split; cbn; [done|done|congruence]]. split; cbn; [done| |].
  - by rewrite lookup_delete_ne by apply documentKey_not_version.
  - intros v doc [_ Hdoc]%lookup_delete_Some. by apply Hd.
Qed.

(** Every request keeps the invariant, and every reader gets a document of its version's floor
    or later. *)
Definition anyReply (s : Front) (r : FrontReply) : Prop :=
  match r with GotMenu response => served 0 s response | _ => True end.

Lemma anyReply_lasting : lasting moved anyReply.
Proof. intros s s' [response| |] Hm; cbn; [by apply served_later|done..]. Qed.

Lemma settled_0 s : validFront s → settled 0 s.
Proof.
  intros [_ Hv _]. split; [lia|]. destruct (fr_redis s !! VERSION_KEY); [|done].
  destruct Hv as (v & n & ? & _ & ? & _). exists v, n. split_and!; [done..|lia].
Qed.

Lemma frontRequest_ensures gw p seen : validFront seen → frontRequest gw p → ensures anyReply seen p.
Proof.
  intros Hv [handle|header|R q|version|link].
  - eapply ensures_andThen; [by apply (onDatabase_ensures gw handle 0); [|lia]|].
    intros s [[body|e] n] [Hs Hn]; [|done]. eapply ensures_andThen; [by eapply bump_ensures|done].
  - eapply ensures_impl; [|by apply (menuRoute_ensures 0), settled_0].
    by intros s r (response & -> & ?).
  - eapply ensures_andThen; [by apply (onDatabase_ensures gw q 0); [|lia]|done].
  - intros s Hm Hs. destruct (expire_keeps version s Hs). done.
  - intros s Hm [Hl Hs Hd]. split; [by split|]. by split; [split; cbn; [done|done|congruence]|].
Qed.

Lemma fresh_valid db : validFront (fresh db).
Proof.
  split; [done| |]; change (fr_redis (fresh db)) with (∅ : gmap string string); [by rewrite lookup_empty|].
  intros v doc. by rewrite lookup_empty.
Qed.

(** Where a reader who begins now is guaranteed to be served from: the floor of the current
    version, or the present when there is none. *)
Definition baseline (s : Front) : nat :=
  match fr_redis s !! VERSION_KEY ≫= js_Number with
  | Some v => default 0%nat (fr_floor s !! v)
  | None => length (fr_past s)
  end.

Lemma settled_baseline s : validFront s → settled (baseline s) s.
Proof.
  intros [_ Hv _]. unfold baseline, settled. destruct (fr_redis s !! VERSION_KEY) as [text|]; cbn; [|done].
  destruct Hv as (v & n & -> & H0 & Hn & Hle & _). rewrite js_Number_pretty by done. rewrite Hn. cbn.
  split; [done|]. by exists v, n.
Qed.

(** Every handler of the round is some way through keeping its promise. *)
Lemma round_promised gw db tasks order :
  Forall (frontRequest gw) tasks →
  promised validFront moved (fun _ => anyReply) (takeTurns {| ro_state := fresh db; ro_tasks := tasks |} order).
Proof.
  intros Hf. apply (promised_turns validFront moved); [intros _; apply anyReply_lasting|].
  split; [apply fresh_valid|]. intros i p Hi. apply (frontRequest_ensures gw); [apply fresh_valid|].
  by eapply Forall_lookup_1 in Hf.
Qed.

(** One reader with a promise of its own. *)
Lemma reader_served n r order j header response :
  promised validFront moved (fun _ => anyReply) r → settled n (ro_state r) →
  ro_tasks r !! j = Some (menuRoute header) →
  ro_tasks (takeTurns r order) !! j = Some (Answer (GotMenu response)) →
  served n (ro_state (takeTurns r order)) response.
Proof.
  intros [Hv Hp] Hn Hj Hr.
  set (Q := fun i s a => if decide (i = j) then match a with GotMenu response => served n s response | _ => True end
                         else anyReply s a).
  assert (∀ i, lasting moved (Q i)) as HQ.
  { intros i s s' a Hm. unfold Q. case_decide; [|by apply anyReply_lasting].
    destruct a as [resp| |]; [by apply served_later|done..]. }
  destruct (promised_turns validFront moved Q order r HQ) as [[_ Hp'] _].
  - split; [done|]. intros i p Hi. unfold Q. case_decide as E.
    + subst i. rewrite Hj in Hi. injection Hi as <-. eapply ensures_impl; [|by apply (menuRoute_ensures n)].
      by intros s r' (resp & -> & ?).
    + by apply (Hp i).
  - specialize (Hp' j _ Hr). cbn in Hp'. unfold Q in Hp'. rewrite decide_True in Hp' by done. exact Hp'.
Qed.

(** The menu is never older than its last invalidation, whatever fails. From any database
    and in any interleaving of menu reads, catalog writes, other requests, expiring documents
    and outages of Redis (commands refused, or carried out with the reply lost), a
    [GET /menu] answers either a document rendered from the database as it was when the version
    current at its start was made or later, or a 304 whose ETag names such a version. *)
Theorem menu_after_invalidation gw db tasks o1 o2 j header response :
  Forall (frontRequest gw) tasks →
  let r1 := takeTurns {| ro_state := fresh db; ro_tasks := tasks |} o1 in
  let r2 := takeTurns r1 o2 in
  ro_tasks r1 !! j = Some (menuRoute header) →
  ro_tasks r2 !! j = Some (Answer (GotMenu response)) →
  match response with
  | NotModified etag => carries (baseline (ro_state r1)) (ro_state r2) etag
  | MenuBody _ document => shows (baseline (ro_state r1)) (ro_state r2) document
  end.
Proof.
  intros Hf r1 r2 Hj Hr. pose proof (round_promised gw db tasks o1 Hf) as Hp. fold r1 in Hp.
  pose proof (reader_served (baseline (ro_state r1)) r1 o2 j header response Hp
    (settled_baseline _ (proj1 Hp)) Hj Hr) as Hs. fold r2 in Hs.
  destruct response as [etag|[etag|] d]; [done| |done].
  destruct Hs as (v & m & _ & _ & Hle & i & db' & ? & ? & ?). exists i, db'. split_and!; [done|lia|done].
Qed.

(** ** While Redis answers *)

(** The requests and events of a shop whose Redis is not lost. *)
Inductive steadyRequest (gw : Gateway) : handler Front FrontReply → Prop :=
| st_write handle : steadyRequest gw (catalogRoute gw handle)
| st_menu header : steadyRequest gw (menuRoute header)
| st_other R (p : prog R) : steadyRequest gw (otherRoute gw p)
| st_expire version : steadyRequest gw (expire version).

Lemma steady_front gw p : steadyRequest gw p → frontRequest gw p.
Proof. intros []; constructor. Qed.

Definition working (s : Front) : Prop := fr_link s = Working.

Lemma command_working {X} (f : Front → Front * X) s :
  (∀ s, fr_link (f s).1 = fr_link s) → working s → working (command f s).1.
Proof.
  unfold working, command. intros Hf Hw. rewrite Hw. specialize (Hf s). destruct (f s). cbn in *. congruence.
Qed.

Lemma onDatabase_always {R} gw (p : prog R) : ∀ n, always working (onDatabase gw n p).
Proof.
  induction p as [r|X t k IH|call k IH|e k IH]; intros n; cbn; [done| |apply IH|apply IH].
  intros s Hs. split; [done|apply IH].
Qed.

Lemma menuDocument_always version : always working (menuDocument version).
Proof.
  destruct version as [v|]; cbn; [|by intros s Hs]. intros s Hs. split; [by apply command_working|].
  destruct (default None _); [done|]. intros s1 Hs1. split; [done|]. intros s2 Hs2. split; [|done].
  by apply command_working.
Qed.

Lemma menuRoute_always header : always working (menuRoute header).
Proof.
  apply always_andThen; [|done]. apply always_andThen.
  - intros s Hs. split; [by apply command_working|]. destruct (command _ s).2 as [[|]|]; [done| |done].
    intros s1 Hs1. split; [by apply command_working|done].
  - intros [v|]; [case_match; [done|]|]; (apply always_andThen; [apply menuDocument_always|done]).
Qed.

Lemma steady_always gw p : steadyRequest gw p → always working p.
Proof.
  intros [handle|header|R q|version].
  - apply always_andThen; [apply onDatabase_always|]. intros [[body|e] n]; [|done].
    intros s Hs. split; [by apply command_working|done].
  - apply menuRoute_always.
  - apply always_andThen; [apply onDatabase_always|done].
  - by intros s Hs.
Qed.

(** A write that has been answered has moved the version past what it wrote. *)
Definition invalidated (s : Front) (r : FrontReply) : Prop :=
  match r with
  | Wrote (Ok _) n => ∃ v m, fr_floor s !! v = Some m ∧ (n <= m)%nat
  | _ => anyReply s r
  end.

Lemma invalidated_lasting : lasting moved invalidated.
Proof.
  intros s s' [response|[view|e] n|] Hm; try done; [by apply anyReply_lasting|].
  intros (v & m & Hf & Hle). exists v, m. split; [by eapply moved_floor|done].
Qed.

Lemma bump_marks n seen : (n <= length (fr_past seen))%nat →
  Atoms.ensures (fun s => validFront s ∧ working s) moved
    (fun s _ => ∃ v m, fr_floor s !! v = Some m ∧ (n <= m)%nat) seen bump.
Proof.
  intros Hn s Hm [Hv Hw]. destruct (keepsFront_command _ incrVersion_keeps s Hv) as [Hv' Hm'].
  split; [split; [done|by apply command_working]|]. split; [done|]. unfold command. rewrite Hw. cbn.
  eexists _, _. rewrite lookup_insert_eq. split; [done|]. pose proof (moved_length _ _ Hm). lia.
Qed.

Lemma catalogRoute_marks gw handle seen : validFront seen →
  Atoms.ensures (fun s => validFront s ∧ working s) moved invalidated seen (catalogRoute gw handle).
Proof.
  intros Hv. unfold catalogRoute. eapply ensures_andThen.
  - apply ensures_always; [by apply (onDatabase_ensures gw handle 0); [|lia]|apply onDatabase_always].
  - intros s [[body|e] n] [Hs Hn]; [|done]. eapply ensures_andThen; [by apply (bump_marks n)|done].
Qed.

Lemma steady_ensures gw p seen : validFront seen → steadyRequest gw p →
  Atoms.ensures (fun s => validFront s ∧ working s) moved invalidated seen p.
Proof.
  intros Hv Hp. destruct Hp as [handle|header|R q|version]; [by apply catalogRoute_marks|..].
  - apply ensures_always; [|apply menuRoute_always].
    eapply ensures_impl; [|by apply (menuRoute_ensures 0), settled_0]. by intros s r (response & -> & ?).
  - eapply ensures_andThen; [|done].
    apply ensures_always; [by apply (onDatabase_ensures gw q 0); [|lia]|apply onDatabase_always].
  - intros s Hm [Hs Hw]. by destruct (expire_keeps version s Hs).
Qed.

Lemma etagFor_inj v w : etagFor (pretty (v : Z)) = etagFor (pretty (w : Z)) → v = w.
Proof.
  unfold etagFor. intros E. do 3 apply (inj (String.append _)) in E.
  apply (inj pretty). revert E. generalize (pretty v) as a, (pretty w) as b.
  induction a as [|c a IH]; intros [|d b] E; [done|..].
  - injection E as E1 E2. by destruct b.
  - injection E as E1 E2. by destruct a.
  - injection E as -> E2. f_equal. by apply IH.
Qed.

(** C14. Read your writes: while Redis answers, once a catalog write has been answered every
    [GET /menu] that begins afterwards shows it. In any interleaving of any number of writes,
    reads, other requests and expiring documents, the document answered is rendered from the
    database the write committed or a later one; and if the answer is a 304, so is every
    copy the API has ever handed out under the ETag it confirms. *)
Theorem menu_shows_writes gw db tasks o1 o2 i j view n header response :
  Forall (steadyRequest gw) tasks →
  let r1 := takeTurns {| ro_state := fresh db; ro_tasks := tasks |} o1 in
  let r2 := takeTurns r1 o2 in
  ro_tasks r1 !! i = Some (Answer (Wrote (Ok view) n)) →
  ro_tasks r1 !! j = Some (menuRoute header) →
  ro_tasks r2 !! j = Some (Answer (GotMenu response)) →
  match response with
  | MenuBody _ document => shows n (ro_state r2) document
  | NotModified etag => ∀ k document,
      ro_tasks r2 !! k = Some (Answer (GotMenu (MenuBody (Some etag) document))) →
      shows n (ro_state r2) document
  end.
Proof.
  intros Hf r1 r2 Hi Hj Hr.
  assert (Forall (frontRequest gw) tasks) as Hff by (eapply Forall_impl; [exact Hf|apply steady_front]).
  pose proof (round_promised gw db tasks o1 Hff) as Hp. fold r1 in Hp.
  assert (settled n (ro_state r1)) as Hn.
  { destruct (promised_turns (fun s => validFront s ∧ working s) moved (fun _ => invalidated) o1
      {| ro_state := fresh db; ro_tasks := tasks |}) as [[[Hv _] Hpi] _]; [intros _; apply invalidated_lasting| |].
    - split; [split; [apply fresh_valid|done]|]. intros k p Hk. apply (steady_ensures gw); [apply fresh_valid|].
      by eapply Forall_lookup_1 in Hf.
    - specialize (Hpi i _ Hi). cbn in Hpi. destruct Hpi as (v & m & Hm & Hle). fold r1 in Hv, Hm.
      destruct Hv as [_ Hver _]. destruct (fr_redis (ro_state r1) !! VERSION_KEY) as [text|] eqn:E.
      + destruct Hver as (w & k & -> & _ & Hk & Hkl & Hmax). destruct (Hmax _ _ Hm). split; [lia|].
        rewrite E. exists w, k. split_and!; [done..|lia].
      + by rewrite Hver, lookup_empty in Hm. }
  pose proof (reader_served n r1 o2 j header response Hp Hn Hj Hr) as Hs. fold r2 in Hs.
  destruct response as [etag|[etag|] d]; [| |done].
  - destruct Hs as (v & m & -> & Hm & Hle). intros k d Hk.
    pose proof (round_promised gw db tasks (o1 ++ o2) Hff) as [_ Hall]. rewrite takeTurns_app in Hall.
    specialize (Hall k _ Hk). cbn in Hall. destruct Hall as (w & m' & E%etagFor_inj & Hm' & _ & (x & db' & Hx & Hlx & ->)).
    subst w. fold r1 r2 in Hm', Hx. assert (m' = m) as -> by congruence. exists x, db'. split_and!; [done|lia|done].
  - destruct Hs as (v & m & _ & _ & Hle & (x & db' & Hx & Hlx & ->)). exists x, db'. split_and!; [done|lia|done].
Qed.
End fresh.

(** ** A window on the street *)

Lemma untouched {S R} (r : Round S R) order j : j ∉ order → ro_tasks (takeTurns r order) !! j = ro_tasks r !! j.
Proof.
  revert r. induction order as [|i order IH]; intros r Hj; [done|]. apply not_elem_of_cons in Hj as [Hne Hj].
  cbn. rewrite IH by done. unfold takeTurn. destruct (ro_tasks r !! i) as [[]|]; [done| |done]. cbn.
  by rewrite list_lookup_insert_ne.
Qed.

Module Window.
(** The [C] collation. *)
#[export] Instance byBytes : Collation := {| collate := textLe |}.

Definition renameLatte : prog CatalogView := Corner.serve (PatchItem Corner.latte {|
  ui_categoryId := None; ui_name := Some "Flat white"; ui_description := None; ui_basePriceMinor := None;
  ui_imageUrl := None; ui_sortOrder := None |}).

Definition tasks : list (handler Front FrontReply) := [catalogRoute Corner.gw renameLatte; menuRoute None].
Definition start : Round Front FrontReply := {| ro_state := fresh Corner.menu; ro_tasks := tasks |}.
Definition written : Round Front FrontReply := takeTurns start [0; 0]%nat.
Definition polled : Round Front FrontReply := takeTurns written [1; 1; 1; 1]%nat.

Definition body : option FrontReply := Eval vm_compute in
  match ro_tasks polled !! 1%nat with Some (Answer r) => Some r | _ => None end.
Definition view : option FrontReply := Eval vm_compute in
  match ro_tasks written !! 0%nat with Some (Answer r) => Some r | _ => None end.
End Window.

#[local] Existing Instance Window.byBytes.

Lemma menu_shows_writes_witness :
  ∃ etag document, Window.body = Some (GotMenu (MenuBody (Some etag) document)) ∧
    shows 2 (ro_state Window.polled) document.
Proof.
  eexists _, _. split; [reflexivity|].
  refine (menu_shows_writes Corner.gw Corner.menu Window.tasks [0; 0]%nat [1; 1; 1; 1]%nat 0 1 _ 2 None
    (MenuBody (Some _) _) _ _ _ _).
  - repeat constructor.
  - vm_compute. reflexivity.
  - exact (untouched Window.start [0; 0]%nat 1 ltac:(set_solver)).
  - vm_compute. reflexivity.
Defined.

Lemma menu_after_invalidation_witness :
  ∃ etag document, Window.body = Some (GotMenu (MenuBody (Some etag) document)) ∧
    baseline (ro_state Window.written) = 2%nat ∧ shows (baseline (ro_state Window.written)) (ro_state Window.polled) document.
Proof.
  eexists _, _. split; [reflexivity|]. split; [vm_compute; reflexivity|].
  refine (menu_after_invalidation Corner.gw Corner.menu Window.tasks [0; 0]%nat [1; 1; 1; 1]%nat 1 None
    (MenuBody (Some _) _) _ _ _).
  - repeat constructor.
  - exact (untouched Window.start [0; 0]%nat 1 ltac:(set_solver)).
  - vm_compute. reflexivity.
Defined.

(** ** Redis without its keys *)

Module Wiped.
Definition etag : string := etagFor "1".

(** A kiosk reads, a manager renames the latte, Redis restarts empty, another kiosk reads, and the
    first asks whether its copy is current. *)
Definition day : Round Front FrontReply := takeTurns
  {| ro_state := fresh Corner.menu;
     ro_tasks := [menuRoute None; catalogRoute Corner.gw Window.renameLatte; wipe; menuRoute None;
                  menuRoute (Some etag)] |}
  [0; 0; 0; 0; 0; 1; 1; 2; 3; 3; 3; 3; 3; 4]%nat.

Definition answers : list (option FrontReply) := Eval vm_compute in
  map (fun p => match p with Answer r => Some r | _ => None end) (ro_tasks day).
Definition current : string := Eval vm_compute in render (fr_db (ro_state day)).
End Wiped.

(** A counter that is lost starts again at 1, and the numbers it hands out then are ETags
    kiosks already hold: a kiosk's copy from before a write is confirmed as current, and stays
    so until the next write. *)
Theorem lost_counter_confirms_stale_copy :
  ∃ old view n, Wiped.answers !! 0%nat = Some (Some (GotMenu (MenuBody (Some Wiped.etag) old))) ∧
    Wiped.answers !! 1%nat = Some (Some (Wrote (Ok view) n)) ∧
    Wiped.answers !! 4%nat = Some (Some (GotMenu (NotModified Wiped.etag))) ∧ old ≠ Wiped.current.
Proof.
  eexists _, _, _. split; [vm_compute; reflexivity|]. split; [reflexivity|]. split; [vm_compute; reflexivity|].
  vm_compute. discriminate.
Qed.
