(* ===== verification/Problems.v ===== *)
(** * Problems: what a client is told

    Every exception as the problem document it becomes: the exception classes of
    [orders/errors], [payments/errors], [identity/errors], [catalog/errors], [reporting/errors],
    [common/errors], [orders/query/cursor.ts] and [orders/idempotency/idempotency-key.ts] with
    their titles, details and meta, and [AllExceptionsFilter]
    ([common/filters/all-exceptions.filter.ts]), which every thrown value goes through. *)

From S2P Require Import Prelude Text Schema Errors Idempotency OrdersRead OrdersQueryDto.
From Stdlib Require Import Ascii.

(** ** The envelope ([problem-details.ts], [app.exception.ts]) *)

Record ValidationErrorItem := { ve_field : string; ve_rule : string; ve_message : string }.

Record ProblemDetails := {
  pd_type : string; pd_title : string; pd_status : Z; pd_code : string; pd_detail : string;
  pd_requestId : string; pd_errors : option (list ValidationErrorItem); pd_meta : option Json }.

(** What an [AppException] carries. *)
Record AppException := {
  ax_code : string; ax_status : Z; ax_title : string; ax_detail : string; ax_meta : option Json;
  ax_errors : option (list ValidationErrorItem) }.

(** [code.toLowerCase().replace(/_/g, '-')]. *)
Fixpoint dashed (s : string) : string :=
  match s with
  | EmptyString => ""
  | String c rest => String (if (c =? "_")%char then "-"%char else c) (dashed rest)
  end.

Definition errorType (code : string) : string :=
  "https://cafepos.dev/errors/" +:+ dashed (lowerText code).

(** ** Identity ([identity.errors.ts]) *)

Definition plain (code : string) (status : Z) (title detail : string) : option AppException :=
  Some {| ax_code := code; ax_status := status; ax_title := title; ax_detail := detail; ax_meta := None;
          ax_errors := None |}.

Definition withMeta (meta : list (string * Json)) (x : option AppException) : option AppException :=
  (fun x => {| ax_code := ax_code x; ax_status := ax_status x; ax_title := ax_title x; ax_detail := ax_detail x;
               ax_meta := Some (JObj meta); ax_errors := ax_errors x |}) <$> x.

Definition withErrors (items : list ValidationErrorItem) (x : option AppException) : option AppException :=
  (fun x => {| ax_code := ax_code x; ax_status := ax_status x; ax_title := ax_title x; ax_detail := ax_detail x;
               ax_meta := ax_meta x; ax_errors := Some items |}) <$> x.

Definition texts (l : list string) : Json := JArr (map JStr l).

(** Sessions and roles. *)
Definition sessionException (e : AppError) : option AppException :=
  match e with
  | InvalidCredentialsError => plain "AUTH_INVALID_CREDENTIALS" 401 "Invalid credentials"
      "The credentials provided were not accepted."
  | TokenExpiredError => plain "AUTH_TOKEN_EXPIRED" 401 "Token expired" "The access token has expired."
  | TokenInvalidError => plain "AUTH_TOKEN_INVALID" 401 "Token invalid"
      "The token provided could not be verified."
  | RefreshTokenReusedError => plain "AUTH_REFRESH_REUSED" 401 "Refresh token reused"
      "This refresh token was already used. The session has been revoked; sign in again."
  | ForbiddenRoleError requiredRoles => withMeta [("requiredRoles", texts requiredRoles)]
      (plain "FORBIDDEN_ROLE" 403 "Forbidden" "This role may not perform that action.")
  | _ => None
  end.

(** Devices and accounts. *)
Definition deviceException (e : AppError) : option AppException :=
  match e with
  | PairingCodeInvalidError => plain "DEVICE_PAIRING_INVALID" 401 "Pairing code invalid"
      "That pairing code is not valid."
  | PairingCodeExpiredError => plain "DEVICE_PAIRING_INVALID" 410 "Pairing code expired"
      "That pairing code has expired. Generate a new one."
  | DeviceRevokedError => plain "DEVICE_REVOKED" 401 "Device revoked" "This device has been revoked."
  | DevicePausedError => plain "DEVICE_PAUSED" 409 "Device paused" "Ordering is paused on this device."
  | DeviceNotPairedError => plain "CONFLICT" 409 "Device not paired"
      "This device has not completed pairing, so its status cannot be changed."
  | UserEmailExistsError email => withMeta [("email", JStr email)]
      (plain "USER_EMAIL_EXISTS" 409 "Email already registered" "A staff account with that email already exists.")
  | LastAdminError => plain "USER_LAST_ADMIN" 422 "Last administrator"
      "This is the last active administrator; demoting or deactivating it would lock everyone out."
  | _ => None
  end.

(** ** Orders ([orders.errors.ts], [cursor.ts], [idempotency-key.ts]) *)

Definition violationJson (v : OptionSelectionViolation) : Json :=
  JObj (("itemIndex", JNum (Z.of_nat (viol_itemIndex v))) ::
  match viol_rule v with
  | DUPLICATE_OPTION ids => [("rule", JStr "DUPLICATE_OPTION"); ("optionIds", texts ids)]
  | UNKNOWN_OPTION ids => [("rule", JStr "UNKNOWN_OPTION"); ("optionIds", texts ids)]
  | MIN_SELECT g name selected least most =>
      [("rule", JStr "MIN_SELECT"); ("optionGroupId", JStr g); ("optionGroupName", JStr name);
       ("selected", JNum selected); ("allowed", JObj [("minSelect", JNum least); ("maxSelect", JNum most)])]
  | MAX_SELECT g name selected least most =>
      [("rule", JStr "MAX_SELECT"); ("optionGroupId", JStr g); ("optionGroupName", JStr name);
       ("selected", JNum selected); ("allowed", JObj [("minSelect", JNum least); ("maxSelect", JNum most)])]
  end).

Definition orderException (e : AppError) : option AppException :=
  match e with
  | OrderInvalidTransitionError current requested =>
      withMeta [("currentStatus", JStr (orderStatusText current)); ("requested", JStr (orderStatusText requested))]
      (plain "ORDER_INVALID_TRANSITION" 409 "Invalid order transition"
        ("Order is " +:+ orderStatusText current +:+ "; cannot transition to " +:+ orderStatusText requested +:+ "."))
  | OrderChannelMismatchError submitted expected =>
      withErrors [{| ve_field := "channel"; ve_rule := "principal";
                     ve_message := "must be " +:+ orderChannelText expected +:+ " for this credential" |}]
      (plain "VALIDATION_FAILED" 422 "Channel does not match the caller"
        ("This credential places " +:+ orderChannelText expected +:+ " orders; the request said "
          +:+ orderChannelText submitted +:+ "."))
  | OrderDraftNotAllowedError =>
      withErrors [{| ve_field := "draft"; ve_rule := "principal";
                     ve_message := "must be false or absent for a kiosk device" |}]
      (plain "VALIDATION_FAILED" 422 "Kiosks cannot park orders"
        "A draft is a counter hold; a kiosk basket lives on the tablet until checkout.")
  | OrderItemUnavailableError itemIds optionIds =>
      withMeta [("itemIds", texts itemIds); ("optionIds", texts optionIds)]
      (plain "ORDER_ITEM_UNAVAILABLE" 409 "Item unavailable"
        "One or more items or options in this order cannot be sold.")
  | OptionSelectionInvalidError violations =>
      withMeta [("violations", JArr (map violationJson violations))]
      (plain "OPTION_SELECTION_INVALID" 422 "Invalid option selection"
        "One or more items have option selections the menu does not allow.")
  | IdempotencyConflictError => plain "IDEMPOTENCY_CONFLICT" 409 "Idempotency key reused"
      "That Idempotency-Key was already used for a different request. Use a new key for a new order."
  | PriceMismatchError expected actual =>
      withMeta [("expectedTotalMinor", JNum expected); ("actualTotalMinor", JNum actual)]
      (plain "PRICE_MISMATCH" 409 "Price mismatch"
        "The order total has changed since the menu was loaded. Re-price the basket and submit again.")
  | _ => None
  end.

Definition cursorException (e : AppError) : option AppException :=
  match e with
  | CursorInvalidError =>
      withErrors [{| ve_field := "cursor"; ve_rule := "format";
                     ve_message := "must be a cursor returned by this endpoint for this sort" |}]
      (plain "VALIDATION_FAILED" 422 "Invalid cursor"
        "That cursor is not one this endpoint issued for this sort. Request the first page without a cursor.")
  | _ => None
  end.

(** A character in double quotes. *)
Definition quoted (s : string) : string := String (ascii_of_nat 34) (s +:+ String (ascii_of_nat 34) "").

Definition idempotencyException (e : AppError) : option AppException :=
  match e with
  | IdempotencyKeyInvalidError =>
      withErrors [{| ve_field := "Idempotency-Key"; ve_rule := "format";
                     ve_message := "must be an opaque token, ideally a UUID" |}]
      (plain "VALIDATION_FAILED" 422 "Invalid idempotency key"
        ("Idempotency-Key must be " +:+ pretty MIN_LENGTH +:+ "-" +:+ pretty MAX_LENGTH
          +:+ " characters of letters, digits, and " +:+ quoted "." +:+ ", " +:+ quoted "_" +:+ ", " +:+ quoted ":"
          +:+ " or " +:+ quoted "-" +:+ "."))
  | _ => None
  end.

(** ** Payments ([payments.errors.ts]) *)

Definition paymentException (e : AppError) : option AppException :=
  match e with
  | PaymentAlreadyActiveError active => withMeta [("activePaymentId", JStr active)]
      (plain "PAYMENT_ALREADY_ACTIVE" 409 "A payment is already in progress"
        "This order already has a payment awaiting completion. Cancel it before starting another.")
  | OrderNotPayableError current => withMeta [("currentStatus", JStr (orderStatusText current))]
      (plain "ORDER_NOT_PAYABLE" 409 "Order cannot be paid"
        ("Order is " +:+ orderStatusText current +:+ "; only a PENDING_PAYMENT order accepts a payment."))
  | OrderExpiredError => plain "ORDER_EXPIRED" 409 "Order expired"
      "This order held its queue number too long and has expired. Please order again."
  | WebhookSignatureInvalidError => plain "WEBHOOK_SIGNATURE_INVALID" 400 "Invalid webhook signature"
      "The request signature could not be verified."
  | OrderAlreadyPaidError => plain "ORDER_ALREADY_PAID" 409 "Payment already went through"
      "This order was paid while the cancellation was being processed. It will be marked paid shortly."
  | _ => None
  end.

(** Cash and refunds. *)
Definition tillException (e : AppError) : option AppException :=
  match e with
  | CashTenderInsufficientError tendered required =>
      withMeta [("tenderedMinor", JNum tendered); ("requiredMinor", JNum required)]
      (plain "CASH_TENDER_INSUFFICIENT" 422 "Cash tendered is less than the total"
        ("Tendered " +:+ pretty tendered +:+ ", but the order comes to " +:+ pretty required +:+ "."))
  | RefundExceedsRemainingError requested remaining =>
      withMeta [("requestedMinor", JNum requested); ("remainingMinor", JNum remaining)]
      (plain "REFUND_EXCEEDS_REMAINING" 422 "Refund is larger than what is left"
        ("Requested " +:+ pretty requested +:+ ", but only " +:+ pretty remaining
          +:+ " of this payment has not been refunded."))
  | PaymentNotRefundableError reason => plain "PAYMENT_NOT_REFUNDABLE" 409 "Payment cannot be refunded" reason
  | CashPaymentNotAllowedError => plain "FORBIDDEN_ROLE" 403 "Cash is a counter payment"
      "Cash can only be taken at the counter by a cashier or above."
  | _ => None
  end.

(** ** Catalog ([catalog.errors.ts]) *)

Definition catalogException (e : AppError) : option AppException :=
  match e with
  | CategoryNameExistsError name => withMeta [("name", JStr name)]
      (plain "CATEGORY_NAME_EXISTS" 409 "Category name taken" "A category with that name already exists.")
  | CategoryUnknownError categoryId => withMeta [("categoryId", JStr categoryId)]
      (plain "CATEGORY_UNKNOWN" 422 "Unknown category" "No category with that id exists.")
  | OptionGroupMinMaxInvalidError => plain "OPTION_GROUP_MINMAX_INVALID" 422 "Invalid selection bounds"
      "An option group needs 0 <= minSelect <= maxSelect; this change would leave bounds nothing can satisfy."
  | OptionGroupUnknownError ids => withMeta [("optionGroupIds", texts ids)]
      (plain "OPTION_GROUP_UNKNOWN" 422 "Unknown option group"
        "No option group exists for one or more of the ids provided.")
  | ImageFileMissingError => plain "IMAGE_FILE_MISSING" 422 "No file uploaded"
      ("Send the image as a multipart form field named " +:+ quoted "file" +:+ ".")
  | ImageTypeUnsupportedError accepted => withMeta [("accepted", texts accepted)]
      (plain "IMAGE_TYPE_UNSUPPORTED" 415 "Unsupported image type" "That file is not an accepted image format.")
  | ImageUnprocessableError => plain "IMAGE_UNPROCESSABLE" 422 "Image could not be processed"
      "That image could not be read. It may be corrupt or too large."
  | _ => None
  end.

(** ** Reporting and the shared errors *)

Definition reportingException (e : AppError) : option AppException :=
  match e with
  | UnprocessableRangeError field current => plain "VALIDATION_FAILED" 422 "Unprocessable range"
      (field +:+ " must not be after the current business day (" +:+ current +:+ ")")
  | _ => None
  end.

(** [rate-limited.error.ts], [resource-not-found.error.ts], [dependency-unavailable.error.ts]. *)
Definition rateLimitedException (e : AppError) : option AppException :=
  match e with
  | RateLimitedError retryAfterSeconds => withMeta [("retryAfterSeconds", JNum (Z.max 1 retryAfterSeconds))]
      (plain "RATE_LIMITED" 429 "Too many requests" "Too many requests. Try again shortly.")
  | _ => None
  end.

Definition notFoundException (e : AppError) : option AppException :=
  match e with
  | ResourceNotFoundError resource id => withMeta [("resource", JStr resource); ("id", JStr id)]
      (plain "RESOURCE_NOT_FOUND" 404 "Not found" ("No such " +:+ resource +:+ "."))
  | _ => None
  end.

Definition outageException (e : AppError) : option AppException :=
  match e with
  | DependencyUnavailableError detail => plain "DEPENDENCY_UNAVAILABLE" 503 "Service unavailable" detail
  | _ => None
  end.

(** The [AppException] an error is, if it is one. *)
Fixpoint firstOf (parts : list (AppError → option AppException)) (e : AppError) : option AppException :=
  match parts with
  | [] => None
  | part :: rest => match part e with Some x => Some x | None => firstOf rest e end
  end.

Definition appException : AppError → option AppException := firstOf [
  sessionException; deviceException; orderException; cursorException; idempotencyException; paymentException;
  tillException; catalogException; reportingException; rateLimitedException; notFoundException; outageException].

(** ** The filter ([all-exceptions.filter.ts]) *)

Record ZodIssue := { zi_path : list string; zi_code : string; zi_message : string }.

(** The response a Nest [HttpException] was made with. *)
Inductive HttpResponse :=
| ResponseText (text : string)
| ResponseMessages (messages : list string)
| ResponseMessage (message : string)
| ResponseOther.

(** A thrown value. [Other] is any error that is none of the three classes, with the four
    properties the filter looks at. *)
Inductive Thrown :=
| App (x : AppException)
| Zod (issues : list ZodIssue)
| Http (status : Z) (response : HttpResponse) (message : string)
| Other (name code status statusCode : Json) (message : string).

(** An error of the services, as the filter receives it: an error of the gateway's SDK carries
    [statusCode], a driver's its SQLSTATE. *)
Definition thrown (e : AppError) (message : string) : Thrown :=
  match appException e with
  | Some x => App x
  | None => Other (JStr "Error")
      match e with DbError state => JStr state | _ => JUndefined end JUndefined
      match e with GatewayFault (Some status) _ => JNum status | _ => JUndefined end message
  end.

Definition HTTP_STATUS_MAP (status : Z) : option (string * string) :=
  match status with
  | 400 => Some ("BAD_REQUEST", "Bad request")
  | 401 => Some ("AUTH_TOKEN_INVALID", "Unauthorized")
  | 403 => Some ("FORBIDDEN_ROLE", "Forbidden")
  | 404 => Some ("RESOURCE_NOT_FOUND", "Not found")
  | 409 => Some ("CONFLICT", "Conflict")
  | 413 => Some ("PAYLOAD_TOO_LARGE", "Payload too large")
  | 422 => Some ("VALIDATION_FAILED", "Validation failed")
  | 429 => Some ("RATE_LIMITED", "Too many requests")
  | 503 => Some ("DEPENDENCY_UNAVAILABLE", "Service unavailable")
  | _ => None
  end.

Definition MAX_DETAIL_LENGTH : nat := 200.

(** [detail.slice(0, units)] of a text in code units: a character whose second half falls
    outside is cut in two, and what is left of it prints as U+FFFD. *)
Fixpoint sliceUnits (units : nat) (s : string) : string :=
  match s with
  | EmptyString => ""
  | String c rest =>
      match codeUnits c with
      | 0%nat => String c (sliceUnits units rest)
      | 1%nat => match units with 0%nat => "" | S more => String c (sliceUnits more rest) end
      | _ => match units with
             | 0%nat => ""
             | 1%nat => "�"
             | S (S more) => String c (sliceUnits more rest)
             end
      end
  end.

Definition truncate (detail : string) : string :=
  if (MAX_DETAIL_LENGTH <? jsLength detail)%nat
  then sliceUnits (MAX_DETAIL_LENGTH - 1) detail +:+ "…" else detail.

Definition problem (code : string) (status : Z) (title detail requestId : string)
    (errors : option (list ValidationErrorItem)) (meta : option Json) : ProblemDetails :=
  {| pd_type := errorType code; pd_title := title; pd_status := status; pd_code := code;
     pd_detail := detail; pd_requestId := requestId; pd_errors := errors; pd_meta := meta |}.

Definition clientProblem (status : Z) (detail requestId : string) : ProblemDetails :=
  let '(code, title) := default ("BAD_REQUEST", "Bad request") (HTTP_STATUS_MAP status) in
  problem code status title (truncate detail) requestId None None.

Definition internal (requestId : string) : ProblemDetails :=
  problem "INTERNAL" 500 "Internal server error" "An unexpected error occurred." requestId None None.

Definition multerStatusOf (name code : Json) : option Z :=
  match name with
  | JStr n => if bool_decide (n = "MulterError")
              then Some match code with
                        | JStr c => if bool_decide (c = "LIMIT_FILE_SIZE") then 413 else 400
                        | _ => 400
                        end
              else None
  | _ => None
  end.

(** [candidate?.status ?? candidate?.statusCode], if it is a number. *)
Definition httpStatusOf (status statusCode : Json) : option Z :=
  match match status with JUndefined | JNull => statusCode | _ => status end with
  | JNum n => Some n
  | _ => None
  end.

Definition extractHttpDetail (response : HttpResponse) (message : string) : string :=
  match response with
  | ResponseText text => text
  | ResponseMessages messages => String.concat "; " messages
  | ResponseMessage text => text
  | ResponseOther => message
  end.

(** [issue.path.join('.') || '(root)']. *)
Definition issueField (path : list string) : string :=
  let joined := String.concat "." path in if bool_decide (joined = "") then "(root)" else joined.

Definition toProblem (exception : Thrown) (requestId : string) : ProblemDetails :=
  match exception with
  | App x => problem (ax_code x) (ax_status x) (ax_title x) (ax_detail x) requestId (ax_errors x) (ax_meta x)
  | Zod issues =>
      problem "VALIDATION_FAILED" 422 "Validation failed" "One or more fields are invalid." requestId
        (Some (map (fun i => {| ve_field := issueField (zi_path i); ve_rule := zi_code i;
                                ve_message := zi_message i |}) issues)) None
  | Http status response message =>
      if 500 <=? status then internal requestId
      else clientProblem status (extractHttpDetail response message) requestId
  | Other name code status statusCode message =>
      match multerStatusOf name code with
      | Some s => clientProblem s message requestId
      | None =>
          match httpStatusOf status statusCode with
          | Some s => if (400 <=? s) && (s <? 500) then clientProblem s message requestId else internal requestId
          | None => internal requestId
          end
      end
  end.

(** What [catch] does besides replying: a warning for an outage, an error line and a report
    for anything else that is ours. *)
Inductive Noted := Quiet | Warned | Reported.

Definition catchException (exception : Thrown) (requestId : string) : ProblemDetails * Noted :=
  let p := toProblem exception requestId in
  (p, if bool_decide (pd_code p = "DEPENDENCY_UNAVAILABLE") then Warned
      else if 500 <=? pd_status p then Reported else Quiet).

(** ** What the filter promises *)

Lemma jsLength_app (s t : string) : jsLength (s +:+ t) = (jsLength s + jsLength t)%nat.
Proof.
  induction s as [|c s IH]; [done|]. change (jsLength (String c (s +:+ t)) = jsLength (String c s) + jsLength t)%nat.
  cbn. rewrite IH. lia.
Qed.

Lemma codeUnits_cases c : codeUnits c = 0%nat ∨ codeUnits c = 1%nat ∨ codeUnits c = 2%nat.
Proof. unfold codeUnits. repeat case_match; auto. Qed.

Lemma sliceUnits_length s : ∀ n, (jsLength (sliceUnits n s) <= n)%nat.
Proof.
  induction s as [|c s IH]; intros n; cbn [sliceUnits]; [cbn; lia|].
  destruct (codeUnits_cases c) as [E|[E|E]]; rewrite E.
  - cbn. rewrite E. apply IH.
  - destruct n as [|n]; [cbn; lia|]. cbn. rewrite E. specialize (IH n). lia.
  - destruct n as [|[|n]]; [cbn; lia|vm_compute; lia|]. cbn. rewrite E. specialize (IH n). lia.
Qed.

Lemma truncate_length detail : (jsLength (truncate detail) <= 200)%nat.
Proof.
  unfold truncate. destruct (_ <? _)%nat eqn:E.
  - rewrite jsLength_app. change (jsLength "…") with 1%nat.
    pose proof (sliceUnits_length detail (MAX_DETAIL_LENGTH - 1)) as Hs. unfold MAX_DETAIL_LENGTH in *. lia.
  - by apply Nat.ltb_ge in E.
Qed.

(** The HTTP status of the answer to an error. *)
Definition httpStatus (e : AppError) : Z := pd_status (toProblem (thrown e "") "").

(** *** The catalog of codes (DESIGN.md 9.2, and the notable errors of 5.2) *)

Definition errorCatalog : list (string * list Z) :=
  [("VALIDATION_FAILED", [422]); ("AUTH_INVALID_CREDENTIALS", [401]); ("AUTH_TOKEN_EXPIRED", [401]);
   ("AUTH_TOKEN_INVALID", [401]); ("AUTH_REFRESH_REUSED", [401]); ("FORBIDDEN_ROLE", [403]);
   ("DEVICE_PAIRING_INVALID", [401; 410]); ("DEVICE_REVOKED", [401]); ("DEVICE_PAUSED", [409]);
   ("RESOURCE_NOT_FOUND", [404]); ("ORDER_ITEM_UNAVAILABLE", [409]); ("PRICE_MISMATCH", [409]);
   ("OPTION_SELECTION_INVALID", [422]); ("ORDER_INVALID_TRANSITION", [409]); ("ORDER_EXPIRED", [409]);
   ("PAYMENT_ALREADY_ACTIVE", [409]); ("ORDER_NOT_PAYABLE", [409]); ("REFUND_EXCEEDS_REMAINING", [422]);
   ("PAYMENT_NOT_REFUNDABLE", [409]); ("CASH_TENDER_INSUFFICIENT", [422]); ("ORDER_ALREADY_PAID", [409]);
   ("IDEMPOTENCY_CONFLICT", [409]); ("WEBHOOK_SIGNATURE_INVALID", [400]); ("PAYLOAD_TOO_LARGE", [413]);
   ("RATE_LIMITED", [429]); ("INTERNAL", [500]); ("DEPENDENCY_UNAVAILABLE", [503]);
   ("USER_EMAIL_EXISTS", [409]); ("USER_LAST_ADMIN", [422]); ("CATEGORY_NAME_EXISTS", [409]);
   ("OPTION_GROUP_UNKNOWN", [422]); ("OPTION_GROUP_MINMAX_INVALID", [422])].

(** Codes the application sends that neither section lists. *)
Definition uncataloguedCodes : list string :=
  ["CONFLICT"; "CATEGORY_UNKNOWN"; "IMAGE_FILE_MISSING"; "IMAGE_TYPE_UNSUPPORTED"; "IMAGE_UNPROCESSABLE"].

Definition documented (code : string) (status : Z) : bool :=
  match find (fun entry => bool_decide (entry.1 = code)) errorCatalog with
  | Some entry => bool_decide (status ∈ entry.2)
  | None => bool_decide (code ∈ uncataloguedCodes)
  end.

(** The status a fault carries that the filter takes for a client's mistake. *)
Definition refusedWith (e : AppError) : option Z :=
  match e with
  | GatewayFault (Some status) _ => if (400 <=? status) && (status <? 500) then Some status else None
  | _ => None
  end.

(** What an application exception answers with: never a 5xx but for an outage. *)
Lemma appException_answered e x :
  appException e = Some x →
  documented (ax_code x) (ax_status x) = true ∧
  (bool_decide (ax_code x = "DEPENDENCY_UNAVAILABLE") = true ↔ ∃ detail, e = DependencyUnavailableError detail) ∧
  (400 ≤ ax_status x < 500 ∨ ax_code x = "DEPENDENCY_UNAVAILABLE").
Proof.
  intros H. destruct e; cbn in H; try discriminate H; injection H as <-; cbn [ax_code ax_status];
    (split; [vm_compute; reflexivity|]);
    (split; [first [by (split; [eauto|]; intros _; vm_compute)|split; [discriminate|by intros [? ?]]]|]);
    first [left; lia|by right].
Qed.

Lemma clientProblem_quiet status detail requestId :
  400 ≤ status < 500 →
  pd_status (clientProblem status detail requestId) = status ∧
  pd_requestId (clientProblem status detail requestId) = requestId ∧
  pd_code (clientProblem status detail requestId) ≠ "DEPENDENCY_UNAVAILABLE".
Proof.
  intros Hs. unfold clientProblem. destruct (HTTP_STATUS_MAP status) as [[code title]|] eqn:E; cbn; [|done].
  split_and!; [done..|]. unfold HTTP_STATUS_MAP in E. repeat case_match; simplify_eq; first [done|lia].
Qed.

(** C23. Every error a service throws is answered in one of three ways. An application exception
    is answered with the code, status, title, detail and meta its class declares, whatever the
    message of the fault; the code goes with the status the design's catalog gives it, or is one
    of five the catalog does not list, and only an unreachable dependency, which is a warning, is
    a 5xx. An error of the gateway's SDK that carries a 4xx is answered as that client error,
    quoting the SDK's text, and nobody is told. Any other fault is the same opaque 500, whatever
    its message, and is reported. *)
Theorem service_errors_answered e message requestId :
  let '(p, noted) := catchException (thrown e message) requestId in
  match appException e, refusedWith e with
  | Some x, _ =>
      p = problem (ax_code x) (ax_status x) (ax_title x) (ax_detail x) requestId (ax_errors x) (ax_meta x) ∧
      documented (ax_code x) (ax_status x) = true ∧
      (noted = Warned ↔ ∃ detail, e = DependencyUnavailableError detail) ∧
      (noted = Quiet ↔ 400 ≤ ax_status x < 500) ∧ noted ≠ Reported
  | None, Some status =>
      p = clientProblem status message requestId ∧ pd_status p = status ∧ pd_requestId p = requestId ∧ noted = Quiet
  | None, None => p = internal requestId ∧ noted = Reported
  end.
Proof.
  unfold catchException, thrown. destruct (appException e) as [x|] eqn:E.
  - destruct (appException_answered e x E) as (Hd & Hw & Hs). cbn [toProblem problem pd_code pd_status].
    split; [done|]. split; [done|]. rewrite <-Hw. case_bool_decide as Hc.
    + split; [done|]. split; [|done]. split; [discriminate|]. intros Hst. exfalso.
      rewrite Hc in Hd. unfold documented in Hd. cbn in Hd. apply bool_decide_eq_true in Hd. set_solver by lia.
    + destruct Hs as [Hs|Hs]; [|done]. destruct (Z.leb_spec 500 (ax_status x)); [lia|]. done.
  - destruct e; try discriminate E; try done.
    destruct statusCode as [status|]; [|done]. unfold refusedWith. cbn [toProblem multerStatusOf httpStatusOf].
    rewrite bool_decide_eq_false_2 by done.
    destruct ((400 <=? status) && (status <? 500)) eqn:Hr; [|done].
    apply andb_true_iff in Hr as [H4%Z.leb_le H5%Z.ltb_lt].
    destruct (clientProblem_quiet status message requestId) as (Hs & Hi & Hc); [lia|].
    rewrite bool_decide_eq_false_2 by done. rewrite Hs. destruct (Z.leb_spec 500 status); [lia|done].
Qed.

(** Nothing a framework or library threw is quoted at length or out of place: an answer
    of status 500 or more to anything but the application's own exceptions is the same
    opaque document; an answer below it quotes at most 200 characters; and an error that is not an
    HTTP answer by its class, its name or its status is always that opaque document. *)
Theorem framework_errors_contained exception requestId :
  match exception with
  | App _ => True
  | _ =>
      let p := toProblem exception requestId in
      (jsLength (pd_detail p) <= 200)%nat ∧ (500 ≤ pd_status p → p = internal requestId) ∧
      match exception with
      | Other name code status statusCode message =>
          multerStatusOf name code = None → httpStatusOf status statusCode = None → p = internal requestId
      | _ => True
      end
  end.
Proof.
  assert (∀ status detail, (jsLength (pd_detail (clientProblem status detail requestId)) <= 200)%nat ∧
    pd_status (clientProblem status detail requestId) = status) as Hc.
  { intros status detail. unfold clientProblem. destruct (default _ _) as [code title]. cbn.
    split; [apply truncate_length|done]. }
  assert (jsLength (pd_detail (internal requestId)) <= 200)%nat as Hi by (vm_compute; lia).
  destruct exception as [x|issues|status response message|name code status statusCode message]; [done|..]; cbn [toProblem].
  - split_and!; [vm_compute; lia| |done]. cbn. lia.
  - destruct (500 <=? status) eqn:E; [done|]. destruct (Hc status (extractHttpDetail response message)) as [? Hs].
    split_and!; [done| |done]. rewrite Hs. lia.
  - destruct (multerStatusOf name code) as [s|] eqn:Em.
    + destruct (Hc s message) as [? Hs]. split_and!; [done| |done]. rewrite Hs. intros H5. exfalso.
      unfold multerStatusOf in Em. repeat case_match; simplify_eq; lia.
    + destruct (httpStatusOf status statusCode) as [s|] eqn:Eh; [|done].
      destruct (_ && _) eqn:E; [|done]. destruct (Hc s message) as [? Hs]. split_and!; [done| |done]. rewrite Hs. lia.
Qed.

(** A refusal by the payment gateway, which the adapter lets through as a fault to look at,
    carries the status the gateway answered with, so it leaves as a client error with the
    gateway's own text: a wrong API key tells a kiosk that its own token is invalid, and
    nothing is logged or reported. *)
Theorem gateway_refusal_blames_client requestId :
  let '(p, noted) := catchException (thrown (GatewayFault (Some 401) "refused") "Invalid API Key provided") requestId in
  pd_status p = 401 ∧ pd_code p = "AUTH_TOKEN_INVALID" ∧ pd_detail p = "Invalid API Key provided" ∧ noted = Quiet.
Proof. vm_compute. done. Qed.
