(* ===== verification/Environment.v ===== *)
(** * Environment: [config/env.validation.ts]

    The environment schema, field by field, the rules that span two variables, and
    [validateEnv], which a process runs once and does not start without. The environment is the
    text of its variables. The number coercion, the URL parser, [z.url()] and the time zone
    database are parameters. *)

From S2P Require Import Prelude Text Schema Errors Idempotency BusinessDay Zod Bodies.
From Stdlib Require Import Ascii.

Inductive NodeEnv := development | production | test.
Inductive StripeMode := test_mode | live_mode.

#[export] Instance NodeEnv_eq_dec : EqDecision NodeEnv.
Proof. solve_decision. Defined.
#[export] Instance StripeMode_eq_dec : EqDecision StripeMode.
Proof. solve_decision. Defined.

Definition nodeEnvText (e : NodeEnv) : string :=
  match e with development => "development" | production => "production" | test => "test" end.
Definition stripeModeText (m : StripeMode) : string := match m with test_mode => "test" | live_mode => "live" end.

Record Env := {
  env_NODE_ENV : NodeEnv;
  env_PORT : Z;
  env_METRICS_PORT : Z;
  env_SHUTDOWN_DRAIN_SECONDS : Z;
  env_DATABASE_URL : string;
  env_REDIS_URL : string;
  env_JWT_SECRET : string;
  env_ACCESS_TOKEN_TTL_SECONDS : Z;
  env_REFRESH_TOKEN_TTL_SECONDS : Z;
  env_PAIRING_CODE_TTL_SECONDS : Z;
  env_CORS_ORIGINS : list string;
  env_BUSINESS_TIMEZONE : string;
  env_BUSINESS_DAY_START_HOUR : Z;
  env_VAT_BASIS_POINTS : Z;
  env_CURRENCY : string;
  env_ORDER_EXPIRY_SECONDS : Z;
  env_BUSINESS_OPEN_TIME : string;
  env_BUSINESS_CLOSE_TIME : string;
  env_S3_BUCKET : string;
  env_S3_REGION : string;
  env_S3_ACCESS_KEY_ID : string;
  env_S3_SECRET_ACCESS_KEY : string;
  env_S3_ENDPOINT : option string;
  env_S3_PUBLIC_BASE_URL : string;
  env_S3_AUTO_CREATE_BUCKET : bool;
  env_STRIPE_SECRET_KEY : string;
  env_STRIPE_MODE : StripeMode;
  env_SENTRY_DSN : option string;
  env_STRIPE_API_BASE : option string;
  env_STRIPE_WEBHOOK_SECRETS : list string
}.

(** ** Text rules *)

(** [value.split(',').map((s) => s.trim()).filter(Boolean)]. *)
Definition splitSecrets (value : string) : list string :=
  filter (fun s => s ≠ "") (map trimText (split_on ","%char value)).

(** [value.replace(/\/+$/, '')]. *)
Fixpoint withoutSlashes (s : string) : string :=
  match s with
  | EmptyString => ""
  | String c rest =>
      match withoutSlashes rest with
      | EmptyString => if (c =? "/")%char then "" else String c ""
      | t => String c t
      end
  end.

Definition alnum (c : ascii) : bool := inBytes 65 90 c || inBytes 97 122 c || inBytes 48 57 c.

(** [/^(sk|rk)_(test|live)_[A-Za-z0-9]+$/], with the mode it names. *)
Definition stripeKey (s : string) : option StripeMode :=
  match s with
  | String k (String "k" (String "_" (String a (String b (String c (String d (String "_" rest))))))) =>
      if ((k =? "s")%char || (k =? "r")%char) && negb (bool_decide (rest = "")) && allChars alnum rest then
        let mode := String a (String b (String c (String d ""))) in
        if bool_decide (mode = "test") then Some test_mode
        else if bool_decide (mode = "live") then Some live_mode else None
      else None
  | _ => None
  end.

(** [/^[A-Z]{3}$/]. *)
Definition isCurrency (s : string) : bool := (String.length s =? 3)%nat && allChars (inBytes 65 90) s.

Definition LOCAL_HOSTS : list string := ["localhost"; "127.0.0.1"; "::1"; "minio"].

Section environment.
(** [z.coerce.number().int()]; [new URL(value)] as its protocol and host name; [z.url()];
    whether [Intl.DateTimeFormat] knows the zone. *)
Context (coerceInt : string → option Z) (parseUrl : string → option (string * string)).
Context (isUrl isKnownTimeZone : string → bool).

Definition isSecureOrLocal (value : string) : bool :=
  match parseUrl value with
  | Some (protocol, hostname) =>
      bool_decide (protocol = "https:")
      || bool_decide (protocol = "http:") && bool_decide (hostname ∈ LOCAL_HOSTS)
  | None => false
  end.

(** ** Fields *)

Notation Raw := (gmap string string).

Definition must {A} (raw : Raw) (key : string) (parse : string → option A) : option A := raw !! key ≫= parse.

Definition orElse {A} (raw : Raw) (key : string) (parse : string → option A) (fallback : A) : option A :=
  match raw !! key with Some value => parse value | None => Some fallback end.

Definition maybe {A} (raw : Raw) (key : string) (parse : string → option A) : option (option A) :=
  match raw !! key with Some value => Some <$> parse value | None => Some None end.

Definition check {A} (test : A → bool) (o : option A) : option A := a ← o; if test a then Some a else None.

Definition atLeast (n : nat) (s : string) : bool := (n <=? jsLength s)%nat.
Definition nonEmpty (s : string) : option string := check (atLeast 1) (Some s).
Definition positive (s : string) : option Z := check (fun n => 0 <? n) (coerceInt s).
Definition between (low high : Z) (s : string) : option Z :=
  check (fun n => (low <=? n) && (n <=? high)) (coerceInt s).
Definition url (s : string) : option string := check isUrl (Some s).
Definition clock (s : string) : option string := check (fun s => bool_decide (is_Some (clockTime s))) (Some s).
Definition oneOf {A} (values : list A) (text : A → string) (s : string) : option A :=
  find (fun v => bool_decide (text v = s)) values.

(** [z.string().trim().toUpperCase().pipe(...)]. *)
Definition currencyCode (s : string) : option string := check isCurrency (Some (upperText (trimText s))).

Definition publicBase (s : string) : option string :=
  withoutSlashes <$> check isSecureOrLocal (nonEmpty s).

Definition webhookSecrets (s : string) : option (list string) :=
  splitSecrets <$> check (fun s => negb (bool_decide (splitSecrets s = []))
    && forallb (startsWith "whsec_") (splitSecrets s)) (nonEmpty s).

Definition envSchema (raw : Raw) : option Env :=
  nodeEnv ← orElse raw "NODE_ENV" (oneOf [development; production; test] nodeEnvText) development;
  port ← orElse raw "PORT" positive 3000;
  metricsPort ← orElse raw "METRICS_PORT" (between 1 65535) 9464;
  drain ← orElse raw "SHUTDOWN_DRAIN_SECONDS" (between 0 30) 0;
  databaseUrl ← must raw "DATABASE_URL" nonEmpty;
  redisUrl ← must raw "REDIS_URL" nonEmpty;
  jwtSecret ← must raw "JWT_SECRET" (fun s => check (atLeast 32) (Some s));
  accessTtl ← orElse raw "ACCESS_TOKEN_TTL_SECONDS" positive (15 * 60);
  refreshTtl ← orElse raw "REFRESH_TOKEN_TTL_SECONDS" positive (14 * 24 * 60 * 60);
  pairingTtl ← orElse raw "PAIRING_CODE_TTL_SECONDS" positive (10 * 60);
  let corsOrigins := splitSecrets (default "" (raw !! "CORS_ORIGINS")) in
  timeZone ← check isKnownTimeZone (orElse raw "BUSINESS_TIMEZONE" nonEmpty "Asia/Bangkok");
  startHour ← orElse raw "BUSINESS_DAY_START_HOUR" (between 0 23) 5;
  vat ← orElse raw "VAT_BASIS_POINTS" (between 0 10000) 700;
  currency ← orElse raw "CURRENCY" currencyCode "THB";
  expiry ← orElse raw "ORDER_EXPIRY_SECONDS" positive (10 * 60);
  opens ← orElse raw "BUSINESS_OPEN_TIME" clock "07:00";
  closes ← orElse raw "BUSINESS_CLOSE_TIME" clock "20:00";
  bucket ← must raw "S3_BUCKET" nonEmpty;
  region ← orElse raw "S3_REGION" nonEmpty "us-east-1";
  accessKeyId ← must raw "S3_ACCESS_KEY_ID" nonEmpty;
  secretAccessKey ← must raw "S3_SECRET_ACCESS_KEY" nonEmpty;
  endpoint ← maybe raw "S3_ENDPOINT" url;
  publicBaseUrl ← must raw "S3_PUBLIC_BASE_URL" publicBase;
  autoCreate ← orElse raw "S3_AUTO_CREATE_BUCKET"
    (oneOf [true; false] (fun b : bool => if b then "true" else "false")) false;
  secretKey ← must raw "STRIPE_SECRET_KEY" (fun s => check (fun s => bool_decide (is_Some (stripeKey s))) (Some s));
  stripeMode ← orElse raw "STRIPE_MODE" (oneOf [test_mode; live_mode] stripeModeText) test_mode;
  sentryDsn ← maybe raw "SENTRY_DSN" url;
  apiBase ← maybe raw "STRIPE_API_BASE" url;
  secrets ← must raw "STRIPE_WEBHOOK_SECRETS" webhookSecrets;
  Some {| env_NODE_ENV := nodeEnv; env_PORT := port; env_METRICS_PORT := metricsPort;
    env_SHUTDOWN_DRAIN_SECONDS := drain; env_DATABASE_URL := databaseUrl; env_REDIS_URL := redisUrl;
    env_JWT_SECRET := jwtSecret; env_ACCESS_TOKEN_TTL_SECONDS := accessTtl;
    env_REFRESH_TOKEN_TTL_SECONDS := refreshTtl; env_PAIRING_CODE_TTL_SECONDS := pairingTtl;
    env_CORS_ORIGINS := corsOrigins; env_BUSINESS_TIMEZONE := timeZone;
    env_BUSINESS_DAY_START_HOUR := startHour; env_VAT_BASIS_POINTS := vat; env_CURRENCY := currency;
    env_ORDER_EXPIRY_SECONDS := expiry; env_BUSINESS_OPEN_TIME := opens; env_BUSINESS_CLOSE_TIME := closes;
    env_S3_BUCKET := bucket; env_S3_REGION := region; env_S3_ACCESS_KEY_ID := accessKeyId;
    env_S3_SECRET_ACCESS_KEY := secretAccessKey; env_S3_ENDPOINT := endpoint;
    env_S3_PUBLIC_BASE_URL := publicBaseUrl; env_S3_AUTO_CREATE_BUCKET := autoCreate;
    env_STRIPE_SECRET_KEY := secretKey; env_STRIPE_MODE := stripeMode; env_SENTRY_DSN := sentryDsn;
    env_STRIPE_API_BASE := apiBase; env_STRIPE_WEBHOOK_SECRETS := secrets |}.

(** ** Rules that span two variables *)

Definition conflictsIn (env : Env) : list string :=
  let keyMode := default "undefined" (split_on "_" (env_STRIPE_SECRET_KEY env) !! 1%nat) in
  let mode := stripeModeText (env_STRIPE_MODE env) in
  (if env_METRICS_PORT env =? env_PORT env then
     ["METRICS_PORT: must differ from PORT, or /metrics and the API would contend for one listener"]
   else [])
  ++ (if bool_decide (keyMode ≠ mode) then
        ["STRIPE_SECRET_KEY: is a " +:+ keyMode +:+ " key but STRIPE_MODE is " +:+ mode
           +:+ "; live and test keys must not cross"]
      else [])
  ++ (if bool_decide (env_STRIPE_MODE env = live_mode) && bool_decide (env_NODE_ENV env ≠ production) then
        ["STRIPE_MODE: live is for production only, and NODE_ENV is " +:+ nodeEnvText (env_NODE_ENV env)]
      else [])
  ++ (if bool_decide (env_STRIPE_MODE env = live_mode) && bool_decide (env_STRIPE_API_BASE env ≠ None) then
        ["STRIPE_API_BASE: must be unset in live mode; a live key goes to Stripe and nowhere else"]
      else [])
  ++ (if bool_decide (env_BUSINESS_OPEN_TIME env = env_BUSINESS_CLOSE_TIME env) then
        ["BUSINESS_CLOSE_TIME: must differ from BUSINESS_OPEN_TIME; a window that opens and closes on the same minute has no single meaning"]
      else []).

Definition newline : string := String "010"%char "".

Definition invalidEnv (lines : list string) : string :=
  "Invalid environment variables:" +:+ newline +:+ String.concat newline (map (fun line => "  - " +:+ line) lines).

(** The issues the schema reports are its library's; which variables it accepts is [envSchema]. *)
Inductive EnvError := SchemaIssues | EnvConflicts (message : string).

Definition validateEnv (raw : Raw) : result EnvError Env :=
  match envSchema raw with
  | None => Err SchemaIssues
  | Some env =>
      match conflictsIn env with
      | [] => Ok env
      | conflicts => Err (EnvConflicts (invalidEnv conflicts))
      end
  end.
End environment.

(** What the order and payment services read of it. *)
Definition configOf (env : Env) : Config :=
  {| VAT_BASIS_POINTS := env_VAT_BASIS_POINTS env; BUSINESS_TIMEZONE := env_BUSINESS_TIMEZONE env;
     BUSINESS_DAY_START_HOUR := env_BUSINESS_DAY_START_HOUR env;
     ORDER_EXPIRY_SECONDS := env_ORDER_EXPIRY_SECONDS env; CURRENCY := env_CURRENCY env |}.

(** ** Stripe keys *)

Lemma alnum_no_underscore s : allChars alnum s = true → no_char "_" s = true.
Proof.
  induction s as [|c s IH]; [done|]. cbn. intros [Hc Hs]%andb_true_iff. rewrite (IH Hs), andb_true_r.
  apply negb_true_iff, bool_decide_eq_false_2. by intros ->.
Qed.

Lemma stripeKey_shape s m :
  stripeKey s = Some m →
  ∃ k rest, (k = "s"%char ∨ k = "r"%char) ∧
    s = String k "k" +:+ String "_" (stripeModeText m +:+ String "_" rest).
Proof.
  unfold stripeKey. intros Hs.
  repeat match type of Hs with
  | match ?x with EmptyString => _ | String _ _ => _ end = _ => destruct x as [|? ?]; try discriminate Hs
  | match ?x with Ascii _ _ _ _ _ _ _ _ => _ end = _ => destruct x; try discriminate Hs
  | (if ?x then _ else _) = _ =>
      lazymatch x with
      | andb _ _ => destruct x eqn:E; try discriminate Hs
      | bool_decide _ => fail
      | _ => is_var x; destruct x; try discriminate Hs
      end
  end.
  apply andb_true_iff in E as [[E _]%andb_true_iff _].
  exists a, s. split; [by apply orb_true_iff in E as [E%Ascii.eqb_eq|E%Ascii.eqb_eq]; auto|].
  destruct (bool_decide_reflect (String a0 (String a1 (String a2 (String a3 ""))) = "test")) as [Hm|_];
    [by injection Hs as <-; injection Hm as -> -> -> ->|].
  case_bool_decide as Hm; [by injection Hs as <-; injection Hm as -> -> -> ->|done].
Qed.

(** The mode the key's pattern names is the one [split('_')[1]] reads. *)
Lemma keyMode_is_keys s m :
  stripeKey s = Some m → split_on "_" s !! 1%nat = Some (stripeModeText m).
Proof.
  intros (k & rest & Hk & ->)%stripeKey_shape.
  rewrite split_on_app by by destruct Hk as [-> | ->].
  rewrite split_on_app by by destruct m. done.
Qed.

(** ** Clock times *)

Lemma digit_value_inj a b n : digit_value a = Some n → digit_value b = Some n → a = b.
Proof.
  unfold digit_value. destruct (_ && _) eqn:Ea, ((48 <=? N_of_ascii b) && _)%N eqn:Eb; try done.
  intros [= Ha] [= Hb]. rewrite <- (ascii_N_embedding a), <- (ascii_N_embedding b). f_equal.
  apply andb_true_iff in Ea as [Ea%N.leb_le _], Eb as [Eb%N.leb_le _]. lia.
Qed.

Lemma digit_value_lt a n : digit_value a = Some n → (n < 10)%N.
Proof. unfold digit_value. destruct (_ && _) eqn:E; [|done]. intros [= <-].
  apply andb_true_iff in E as [_ E%N.leb_le]. lia. Qed.

Lemma digits2_inj a b a' b' n :
  js_Number (String a (String b "")) = Some n → js_Number (String a' (String b' "")) = Some n →
  a = a' ∧ b = b'.
Proof.
  unfold js_Number. cbn [digits_acc].
  destruct (digit_value a) eqn:Ea, (digit_value b) eqn:Eb, (digit_value a') eqn:Ea', (digit_value b') eqn:Eb';
    try done. cbn. intros [= H1] [= H2].
  pose proof (digit_value_lt _ _ Ea). pose proof (digit_value_lt _ _ Eb).
  pose proof (digit_value_lt _ _ Ea'). pose proof (digit_value_lt _ _ Eb').
  split; eapply digit_value_inj; eauto; rewrite ?Ea', ?Eb'; f_equal; lia.
Qed.

Lemma clockTime_Some s h m :
  clockTime s = Some (h, m) →
  ∃ h1 h2 m1 m2, s = String h1 (String h2 (String ":" (String m1 (String m2 "")))) ∧
    js_Number (String h1 (String h2 "")) = Some h ∧ js_Number (String m1 (String m2 "")) = Some m ∧
    h ≤ 23 ∧ m ≤ 59.
Proof.
  unfold clockTime. intros Hs.
  repeat match type of Hs with
  | match ?x with EmptyString => _ | String _ _ => _ end = _ => destruct x as [|? ?]; try discriminate Hs
  | match ?x with Ascii _ _ _ _ _ _ _ _ => _ end = _ => destruct x; try discriminate Hs
  | (if ?x then _ else _) = _ => is_var x; destruct x; try discriminate Hs
  end.
  destruct (js_Number (String a (String a0 ""))) eqn:E1; [|done].
  destruct (js_Number (String a1 (String a2 ""))) eqn:E2; [|done]. cbn in Hs.
  destruct (_ && _) eqn:E; [|done]. injection Hs as <- <-. exists a, a0, a1, a2.
  split_and!; eauto; lia.
Qed.

Lemma js_Number_nonneg s n : js_Number s = Some n → 0 ≤ n.
Proof. unfold js_Number. destruct (digits_acc s 0); [|done]. intros [= <-]. lia. Qed.

(** Two clock times of the same minute are the same text. *)
Lemma minutesOf_inj s t n : minutesOf s = Some n → minutesOf t = Some n → s = t.
Proof.
  unfold minutesOf. destruct (clockTime s) as [[h m]|] eqn:Es; [|done].
  destruct (clockTime t) as [[h' m']|] eqn:Et; [|done]. cbn. intros [= <-] [= He].
  apply clockTime_Some in Es as (? & ? & ? & ? & -> & Hh & Hm & ? & ?).
  apply clockTime_Some in Et as (? & ? & ? & ? & -> & Hh' & Hm' & ? & ?).
  pose proof (js_Number_nonneg _ _ Hm). pose proof (js_Number_nonneg _ _ Hm').
  assert (h = h' ∧ m = m') as [-> ->] by lia.
  destruct (digits2_inj _ _ _ _ _ Hh Hh') as [-> ->], (digits2_inj _ _ _ _ _ Hm Hm') as [-> ->]. done.
Qed.

(** ** What an accepted environment is *)

Lemma orElse_Some {A} (P : A → Prop) raw key (parse : string → option A) fallback a :
  (∀ s b, parse s = Some b → P b) → P fallback → orElse raw key parse fallback = Some a → P a.
Proof. unfold orElse. destruct (raw !! key); naive_solver. Qed.

Lemma must_Some {A} raw key (parse : string → option A) a :
  must raw key parse = Some a → ∃ s, raw !! key = Some s ∧ parse s = Some a.
Proof. unfold must. destruct (raw !! key); naive_solver. Qed.

Lemma check_Some {A} (test : A → bool) o a : check test o = Some a → o = Some a ∧ test a = true.
Proof. unfold check. destruct o as [b|]; [cbn|done]. destruct (test b) eqn:E; [|done]. by intros [= <-]. Qed.

Lemma withoutSlashes_idemp s : withoutSlashes (withoutSlashes s) = withoutSlashes s.
Proof.
  induction s as [|c s IH]; [done|]. cbn [withoutSlashes].
  destruct (withoutSlashes s) as [|c' t] eqn:E.
  - destruct (c =? "/")%char eqn:Ec; [done|]. cbn. by rewrite Ec.
  - cbn [withoutSlashes] in IH |- *. by rewrite IH.
Qed.

(** The variables of a parsed environment, one at a time. *)
Ltac variables :=
  repeat match goal with
  | H : (?m ≫= _) = Some _ |- _ =>
      let E := fresh "E" in destruct m eqn:E; [cbn [mbind option_bind] in H|discriminate H]
  | H : Some _ = Some _ |- _ => injection H as <-
  end.

Section accepted.
Context (coerceInt : string → option Z) (parseUrl : string → option (string * string)).
Context (isUrl isKnownTimeZone : string → bool).

Notation schema := (envSchema coerceInt parseUrl isUrl isKnownTimeZone).
Notation validate := (validateEnv coerceInt parseUrl isUrl isKnownTimeZone).

Lemma positive_pos s n : positive coerceInt s = Some n → 0 < n.
Proof. unfold positive. intros [_ ?%Z.ltb_lt]%check_Some. done. Qed.

Lemma between_within low high s n : between coerceInt low high s = Some n → low ≤ n ≤ high.
Proof. unfold between. intros [_ [?%Z.leb_le ?%Z.leb_le]%andb_true_iff]%check_Some. lia. Qed.

(** What the schema alone promises of a parsed environment. *)
Record EnvTyped (env : Env) : Prop := {
  et_ports : 0 < env_PORT env ∧ 1 ≤ env_METRICS_PORT env ≤ 65535;
  et_drain : 0 ≤ env_SHUTDOWN_DRAIN_SECONDS env ≤ 30;
  et_secret : (32 <= jsLength (env_JWT_SECRET env))%nat;
  et_lifetimes : 0 < env_ACCESS_TOKEN_TTL_SECONDS env ∧ 0 < env_REFRESH_TOKEN_TTL_SECONDS env ∧
    0 < env_PAIRING_CODE_TTL_SECONDS env ∧ 0 < env_ORDER_EXPIRY_SECONDS env;
  et_zone : isKnownTimeZone (env_BUSINESS_TIMEZONE env) = true;
  et_day : 0 ≤ env_BUSINESS_DAY_START_HOUR env ≤ 23;
  et_vat : 0 ≤ env_VAT_BASIS_POINTS env ≤ 10000;
  et_currency : isCurrency (env_CURRENCY env) = true;
  et_hours : is_Some (clockTime (env_BUSINESS_OPEN_TIME env)) ∧ is_Some (clockTime (env_BUSINESS_CLOSE_TIME env));
  et_base : withoutSlashes (env_S3_PUBLIC_BASE_URL env) = env_S3_PUBLIC_BASE_URL env;
  et_key : is_Some (stripeKey (env_STRIPE_SECRET_KEY env));
  et_webhook : env_STRIPE_WEBHOOK_SECRETS env ≠ [] ∧
    Forall (fun s => startsWith "whsec_" s = true) (env_STRIPE_WEBHOOK_SECRETS env)
}.

Lemma clock_Some s t : clock s = Some t → is_Some (clockTime t).
Proof. unfold clock. intros [_ Hc]%check_Some. by apply bool_decide_eq_true in Hc. Qed.

Lemma currencyCode_Some s c : currencyCode s = Some c → isCurrency c = true.
Proof. unfold currencyCode. by intros [_ Hc]%check_Some. Qed.

Lemma webhookSecrets_Some s l :
  webhookSecrets s = Some l → l ≠ [] ∧ Forall (fun s => startsWith "whsec_" s = true) l.
Proof.
  unfold webhookSecrets. destruct (check _ _) as [v|] eqn:E; [|done]. intros [= <-].
  apply check_Some in E as [_ [Hn Hf]%andb_true_iff]. split.
  - apply negb_true_iff, bool_decide_eq_false in Hn. done.
  - apply Forall_forall. intros x Hx. rewrite forallb_forall in Hf. by apply Hf, list_elem_of_In.
Qed.

Lemma orElse_positive raw key fallback n :
  0 < fallback → orElse raw key (positive coerceInt) fallback = Some n → 0 < n.
Proof. apply (orElse_Some (fun n => 0 < n)), positive_pos. Qed.

Lemma orElse_between raw key low high fallback n :
  low ≤ fallback ≤ high → orElse raw key (between coerceInt low high) fallback = Some n → low ≤ n ≤ high.
Proof. apply (orElse_Some (fun n => low ≤ n ≤ high)), between_within. Qed.

Lemma orElse_clock raw key fallback s :
  is_Some (clockTime fallback) → orElse raw key clock fallback = Some s → is_Some (clockTime s).
Proof. apply (orElse_Some (fun s => is_Some (clockTime s))), clock_Some. Qed.

Lemma publicBase_stripped s t : publicBase parseUrl s = Some t → withoutSlashes t = t.
Proof.
  unfold publicBase. destruct (check _ _); [|done]. intros [= <-]. apply withoutSlashes_idemp.
Qed.

Lemma envSchema_typed raw env : schema raw = Some env → EnvTyped env.
Proof.
  unfold envSchema. intros Hs. variables.
  apply must_Some in E5 as (? & _ & [_ ?]%check_Some), E21 as (? & _ & ?%publicBase_stripped),
    E23 as (? & _ & [_ Hk]%check_Some), E27 as (? & _ & ?%webhookSecrets_Some).
  apply bool_decide_eq_true in Hk. apply check_Some in E9 as [_ ?].
  split; cbn; try done;
    try by (eapply orElse_between; [|eassumption]; lia).
  - split; [by eapply orElse_positive; [|exact E0]|]. by eapply orElse_between; [|exact E1]; lia.
  - by apply Nat.leb_le.
  - split_and!; (eapply orElse_positive; [|eassumption]; lia).
  - by eapply (orElse_Some (fun c => isCurrency c = true)); [apply currencyCode_Some| |exact E12].
  - split; (eapply orElse_clock; [|eassumption]; eexists; reflexivity).
Qed.

Lemma rule_nil {A} (b : bool) (line : A) : (if b then [line] else []) = [] ↔ b = false.
Proof. by destruct b. Qed.

(** No conflict is reported of exactly the environments that break none of the rules. *)
Lemma conflictsIn_nil env m :
  stripeKey (env_STRIPE_SECRET_KEY env) = Some m →
  conflictsIn env = [] ↔
  env_METRICS_PORT env ≠ env_PORT env ∧
  m = env_STRIPE_MODE env ∧
  (env_STRIPE_MODE env = live_mode → env_NODE_ENV env = production ∧ env_STRIPE_API_BASE env = None) ∧
  env_BUSINESS_OPEN_TIME env ≠ env_BUSINESS_CLOSE_TIME env.
Proof.
  intros Hm. unfold conflictsIn. rewrite (keyMode_is_keys _ _ Hm). cbn [default].
  rewrite !app_nil, !rule_nil, !andb_false_iff, Z.eqb_neq, !bool_decide_eq_false.
  assert (stripeModeText m ≠ stripeModeText (env_STRIPE_MODE env) ↔ m ≠ env_STRIPE_MODE env) as ->.
  { by destruct m, (env_STRIPE_MODE env). }
  destruct (decide (m = env_STRIPE_MODE env)), (decide (env_STRIPE_MODE env = live_mode)),
    (decide (env_NODE_ENV env = production)), (decide (env_STRIPE_API_BASE env = None)); naive_solver.
Qed.

(** C34. An environment is accepted exactly when its variables parse, its two ports differ, its
    Stripe key is of the mode it declares, live mode is declared in production only with no other
    address for the gateway, and the cafe does not open and close on one minute. And then it has
    what the other components assume of it: lifetimes are positive, the VAT rate and the hour the
    day starts are in range, the currency is three capitals, the signing secret has 32 characters,
    images are read from an origin with no trailing slash, and there is a webhook secret. *)
Theorem accepted_environments raw env :
  (validate raw = Ok env ↔
    schema raw = Some env ∧
    env_METRICS_PORT env ≠ env_PORT env ∧
    stripeKey (env_STRIPE_SECRET_KEY env) = Some (env_STRIPE_MODE env) ∧
    (env_STRIPE_MODE env = live_mode → env_NODE_ENV env = production ∧ env_STRIPE_API_BASE env = None) ∧
    env_BUSINESS_OPEN_TIME env ≠ env_BUSINESS_CLOSE_TIME env) ∧
  (validate raw = Ok env → EnvTyped env).
Proof.
  unfold validateEnv. destruct (schema raw) as [env'|] eqn:E; [|naive_solver].
  pose proof (envSchema_typed _ _ E) as Ht. destruct (et_key _ Ht) as [m Hm].
  pose proof (conflictsIn_nil env' m Hm) as Hn.
  destruct (conflictsIn env') as [|line lines] eqn:Ec; (split; [split|]).
  - intros [= <-]. destruct Hn as [Hn _]. destruct Hn as (? & -> & ?); [done|]. done.
  - by intros [[= <-] _].
  - by intros [= <-].
  - done.
  - intros ([= <-] & H1 & H2 & H3). assert (line :: lines = []); [apply Hn|done]. split_and!; [done| |apply H3..].
    congruence.
  - done.
Qed.

Lemma isOpenAt_bounds tz instant zone opens closes o c :
  minutesOf opens = Some o → minutesOf closes = Some c → o ≠ c →
  ∃ b, isOpenAt tz instant zone opens closes = Some b ∧
    (minuteOfDay tz instant zone = o → b = true) ∧ (minuteOfDay tz instant zone = c → b = false).
Proof.
  intros Ho Hc Hne. unfold isOpenAt. rewrite Ho, Hc. eexists. split; [reflexivity|].
  destruct (Z.ltb_spec o c); split; intros ->; lia.
Qed.

(** With an accepted environment the opening hours answer at every instant, in any time
    zone: open on the minute the cafe opens, closed on the minute it closes. *)
Theorem opening_hours_answer raw env tz instant :
  validate raw = Ok env →
  ∃ o c b, minutesOf (env_BUSINESS_OPEN_TIME env) = Some o ∧
    minutesOf (env_BUSINESS_CLOSE_TIME env) = Some c ∧
    isOpenAt tz instant (env_BUSINESS_TIMEZONE env) (env_BUSINESS_OPEN_TIME env)
      (env_BUSINESS_CLOSE_TIME env) = Some b ∧
    (minuteOfDay tz instant (env_BUSINESS_TIMEZONE env) = o → b = true) ∧
    (minuteOfDay tz instant (env_BUSINESS_TIMEZONE env) = c → b = false).
Proof.
  unfold validateEnv. destruct (schema raw) as [env'|] eqn:E; [|done].
  pose proof (envSchema_typed _ _ E) as Ht. destruct (et_key _ Ht) as [m Hm].
  pose proof (conflictsIn_nil env' m Hm) as [Hn _].
  destruct (conflictsIn env'); [|done]. intros [= <-]. destruct Hn as (_ & _ & _ & Hne); [done|].
  destruct (et_hours _ Ht) as [[[h1 m1] H1] [[h2 m2] H2]].
  assert (minutesOf (env_BUSINESS_OPEN_TIME env') = Some (h1 * 60 + m1)) as Ho by (unfold minutesOf; by rewrite H1).
  assert (minutesOf (env_BUSINESS_CLOSE_TIME env') = Some (h2 * 60 + m2)) as Hc by (unfold minutesOf; by rewrite H2).
  destruct (isOpenAt_bounds tz instant (env_BUSINESS_TIMEZONE env') _ _ _ _ Ho Hc) as (b & ? & ? & ?).
  { intros He. apply Hne. rewrite He in Ho. by eapply minutesOf_inj. }
  by exists (h1 * 60 + m1), (h2 * 60 + m2), b.
Qed.
End accepted.

(** ** A deployment *)

Module Deployment.

Definition knownUrl (s : string) : option (string * string) :=
  if bool_decide (s = "https://cdn.cafe.test//") then Some ("https:", "cdn.cafe.test")
  else if bool_decide (s = "http://[::1]:9000") then Some ("http:", "[::1]") else None.

Definition bangkok (zone : string) : bool := bool_decide (zone = "Asia/Bangkok").

(** A live shop, through a rotation of its webhook secret. *)
Definition shop : gmap string string := list_to_map
  [("NODE_ENV", "production"); ("PORT", "8080"); ("DATABASE_URL", "postgres://db/cafe");
   ("REDIS_URL", "redis://cache"); ("JWT_SECRET", "0123456789abcdef0123456789abcdef");
   ("CURRENCY", " thb "); ("BUSINESS_OPEN_TIME", "18:00"); ("BUSINESS_CLOSE_TIME", "02:30");
   ("S3_BUCKET", "images"); ("S3_ACCESS_KEY_ID", "id"); ("S3_SECRET_ACCESS_KEY", "secret");
   ("S3_PUBLIC_BASE_URL", "https://cdn.cafe.test//"); ("STRIPE_SECRET_KEY", "rk_live_51Abc");
   ("STRIPE_MODE", "live"); ("STRIPE_WEBHOOK_SECRETS", "whsec_new, whsec_old,")].

Definition validate : gmap string string → result EnvError Env :=
  validateEnv js_Number knownUrl (fun _ => true) bangkok.

Definition shopEnv : Env := Eval vm_compute in
  match validate shop with
  | Ok env => env
  | Err _ => {| env_NODE_ENV := test; env_PORT := 0; env_METRICS_PORT := 0; env_SHUTDOWN_DRAIN_SECONDS := 0;
      env_DATABASE_URL := ""; env_REDIS_URL := ""; env_JWT_SECRET := ""; env_ACCESS_TOKEN_TTL_SECONDS := 0;
      env_REFRESH_TOKEN_TTL_SECONDS := 0; env_PAIRING_CODE_TTL_SECONDS := 0; env_CORS_ORIGINS := [];
      env_BUSINESS_TIMEZONE := ""; env_BUSINESS_DAY_START_HOUR := 0; env_VAT_BASIS_POINTS := 0;
      env_CURRENCY := ""; env_ORDER_EXPIRY_SECONDS := 0; env_BUSINESS_OPEN_TIME := "";
      env_BUSINESS_CLOSE_TIME := ""; env_S3_BUCKET := ""; env_S3_REGION := ""; env_S3_ACCESS_KEY_ID := "";
      env_S3_SECRET_ACCESS_KEY := ""; env_S3_ENDPOINT := None; env_S3_PUBLIC_BASE_URL := "";
      env_S3_AUTO_CREATE_BUCKET := false; env_STRIPE_SECRET_KEY := ""; env_STRIPE_MODE := test_mode;
      env_SENTRY_DSN := None; env_STRIPE_API_BASE := None; env_STRIPE_WEBHOOK_SECRETS := [] |}
  end.

Example shop_reads :
  env_CURRENCY shopEnv = "THB" ∧ env_STRIPE_WEBHOOK_SECRETS shopEnv = ["whsec_new"; "whsec_old"] ∧
  env_S3_PUBLIC_BASE_URL shopEnv = "https://cdn.cafe.test".
Proof. done. Qed.

(** The same shop with a test key, and with both ports and both times alike. *)
Example shop_refused :
  validate (<["STRIPE_SECRET_KEY" := "sk_test_1"]> shop)
  = Err (EnvConflicts (invalidEnv
      ["STRIPE_SECRET_KEY: is a test key but STRIPE_MODE is live; live and test keys must not cross"])) ∧
  validate (<["METRICS_PORT" := "8080"]> (<["BUSINESS_CLOSE_TIME" := "18:00"]> shop))
  = Err (EnvConflicts (invalidEnv
      ["METRICS_PORT: must differ from PORT, or /metrics and the API would contend for one listener";
       "BUSINESS_CLOSE_TIME: must differ from BUSINESS_OPEN_TIME; a window that opens and closes on the same minute has no single meaning"])).
Proof. split; vm_compute; reflexivity. Qed.
End Deployment.

(** The shop boots. *)
Example shop_boots : Deployment.validate Deployment.shop = Ok Deployment.shopEnv.
Proof. vm_compute. reflexivity. Qed.

(** At the epoch, six hours west of UTC, it is six in the evening: the shop has just opened. *)
Lemma opening_hours_answer_witness :
  minuteOfDay (fun _ _ => -21600000) 0 "Asia/Bangkok" = 1080 ∧
  ∃ o c b, minutesOf "18:00" = Some o ∧ minutesOf "02:30" = Some c ∧
    isOpenAt (fun _ _ => -21600000) 0 "Asia/Bangkok" "18:00" "02:30" = Some b ∧
    (minuteOfDay (fun _ _ => -21600000) 0 "Asia/Bangkok" = o → b = true) ∧
    (minuteOfDay (fun _ _ => -21600000) 0 "Asia/Bangkok" = c → b = false).
Proof.
  split; [vm_compute; reflexivity|].
  apply (opening_hours_answer js_Number Deployment.knownUrl (fun _ => true) Deployment.bangkok Deployment.shop
    Deployment.shopEnv (fun _ _ => -21600000) 0).
  vm_compute; reflexivity.
Defined.

(** ** What the schema lets through *)

(** A variable left blank in the environment file is read as the number zero, not as missing: the
    shop boots, starts its day at midnight and charges no VAT. *)
Theorem blank_rate_boots :
  ∃ env, Deployment.validate (<["VAT_BASIS_POINTS" := ""]> (<["BUSINESS_DAY_START_HOUR" := ""]> Deployment.shop)) = Ok env ∧
    env_VAT_BASIS_POINTS env = 0 ∧ env_BUSINESS_DAY_START_HOUR env = 0.
Proof. eexists. split; [vm_compute; reflexivity|]. done. Qed.

(** A URL's host name keeps the brackets of an IPv6 address, so the local host ["::1"] of the
    list never matches and a MinIO on it is refused. *)
Theorem ipv6_loopback_refused :
  isSecureOrLocal Deployment.knownUrl "http://[::1]:9000" = false ∧ "::1" ∈ LOCAL_HOSTS ∧
  Deployment.validate (<["S3_PUBLIC_BASE_URL" := "http://[::1]:9000"]> Deployment.shop) = Err SchemaIssues.
Proof. split_and!; [vm_compute; reflexivity|set_solver|vm_compute; reflexivity]. Qed.
