(* ===== verification/Seed.v ===== *)
(** * Seed: [scripts/seed.ts]

    The development seed: one account per role and a small menu, in one transaction, each row
    matched on its natural key and created only where it is missing. The tables are those of the
    identity and catalog components; the ids and the salts a run draws are parameters. *)

From S2P Require Import Prelude Text Schema Errors Program IdentityStore Sessions Accounts Guards.
From S2P Require Import Catalog CatalogSafety.
From Stdlib Require Import Ascii.

(** ** What is seeded *)

Record Staff := { sf_email : string; sf_displayName : string; sf_role : UserRole }.

Definition STAFF : list Staff :=
  [{| sf_email := "admin@cafepos.local"; sf_displayName := "Ada Admin"; sf_role := ADMIN |};
   {| sf_email := "manager@cafepos.local"; sf_displayName := "Mona Manager"; sf_role := MANAGER |};
   {| sf_email := "cashier@cafepos.local"; sf_displayName := "Cass Cashier"; sf_role := CASHIER |};
   {| sf_email := "barista@cafepos.local"; sf_displayName := "Bo Barista"; sf_role := BARISTA |}].

Record SeedItem := {
  si_name : string; si_basePriceMinor : Z; si_description : option string; si_groups : list string }.

Record SeedCategory := { sc_name : string; sc_sortOrder : Z; sc_items : list SeedItem }.

Definition seedItem (name : string) (price : Z) (description : option string) (groups : list string) : SeedItem :=
  {| si_name := name; si_basePriceMinor := price; si_description := description; si_groups := groups |}.

Definition MENU : list SeedCategory :=
  [{| sc_name := "Coffee"; sc_sortOrder := 0; sc_items :=
        [seedItem "Espresso" 6000 (Some "Double shot.") ["Size"; "Extras"];
         seedItem "Americano" 7000 (Some "Espresso, hot water.") ["Size"; "Extras"];
         seedItem "Latte" 8500 (Some "Espresso, steamed milk.") ["Size"; "Milk"; "Extras"];
         seedItem "Cappuccino" 8500 (Some "Espresso, foam.") ["Size"; "Milk"; "Extras"]] |};
   {| sc_name := "Tea"; sc_sortOrder := 10; sc_items :=
        [seedItem "Thai Iced Tea" 7500 (Some "Condensed milk, over ice.") ["Size"];
         seedItem "Green Tea Latte" 9000 (Some "Matcha, steamed milk.") ["Size"; "Milk"]] |};
   {| sc_name := "Pastries"; sc_sortOrder := 20; sc_items :=
        [seedItem "Butter Croissant" 9000 (Some "Baked this morning.") [];
         seedItem "Chocolate Chip Cookie" 5500 None []] |}].

Record SeedOption := { so_name : string; so_priceDeltaMinor : Z; so_isDefault : bool }.
Record SeedGroup := { sg_name : string; sg_minSelect : Z; sg_maxSelect : Z; sg_options : list SeedOption }.

Definition seedOption (name : string) (delta : Z) (isDefault : bool) : SeedOption :=
  {| so_name := name; so_priceDeltaMinor := delta; so_isDefault := isDefault |}.

Definition OPTION_GROUPS : list SeedGroup :=
  [{| sg_name := "Size"; sg_minSelect := 1; sg_maxSelect := 1; sg_options :=
        [seedOption "Small" (-1000) false; seedOption "Regular" 0 true; seedOption "Large" 1500 false] |};
   {| sg_name := "Milk"; sg_minSelect := 0; sg_maxSelect := 1; sg_options :=
        [seedOption "Whole milk" 0 true; seedOption "Oat milk" 1500 false; seedOption "Soy milk" 1000 false] |};
   {| sg_name := "Extras"; sg_minSelect := 0; sg_maxSelect := 3; sg_options :=
        [seedOption "Extra shot" 2000 false; seedOption "Vanilla syrup" 1000 false;
         seedOption "Whipped cream" 1500 false] |}].

(** ** A run of the script *)

(** The tables, the counters and the lines of [note], and how many ids have been drawn. *)
Record Seeding := {
  sd_identity : Identity; sd_db : Database; sd_created : nat; sd_skipped : nat;
  sd_lines : list string; sd_drawn : nat }.

Definition seedM (A : Type) : Type := Seeding → result AppError (A * Seeding).

#[export] Instance seedM_ret : MRet seedM := fun _ a s => Ok (a, s).
#[export] Instance seedM_bind : MBind seedM := fun _ _ k m s =>
  match m s with Ok (a, s') => k a s' | Err e => Err e end.

Definition fails {A} (e : AppError) : seedM A := fun _ => Err e.
Definition looks {A} (f : Seeding → A) : seedM A := fun s => Ok (f s, s).

Definition with_catalog (db : Database) (s : Seeding) : Seeding :=
  {| sd_identity := sd_identity s; sd_db := db; sd_created := sd_created s; sd_skipped := sd_skipped s;
     sd_lines := sd_lines s; sd_drawn := sd_drawn s |}.
Definition with_identity (identity : Identity) (s : Seeding) : Seeding :=
  {| sd_identity := identity; sd_db := sd_db s; sd_created := sd_created s; sd_skipped := sd_skipped s;
     sd_lines := sd_lines s; sd_drawn := sd_drawn s |}.

(** A statement on the catalog's tables. *)
Definition onCatalog {A} (work : txM A) : seedM A := fun s =>
  match work (mkTx (sd_db s) []) with
  | Ok (a, tx) => Ok (a, with_catalog (tx_db tx) s)
  | Err e => Err e
  end.

Inductive NoteAction := created | exists_.

Definition note (action : NoteAction) (what : string) : seedM unit := fun s =>
  Ok (tt, {| sd_identity := sd_identity s; sd_db := sd_db s;
             sd_created := match action with created => S (sd_created s) | exists_ => sd_created s end;
             sd_skipped := match action with created => sd_skipped s | exists_ => S (sd_skipped s) end;
             sd_lines := sd_lines s ++
               ["  " +:+ match action with created => "+" | exists_ => "=" end +:+ " " +:+ what];
             sd_drawn := sd_drawn s |}).

(** [findFirst({ where })], as the id of the row. *)
Definition firstId {R} (P : R → bool) (table : gmap string R) : option string :=
  fst <$> head (filter (fun e => P e.2 = true) (map_to_list table)).

(** [s.padEnd(width)]. *)
Fixpoint padEnd (width : nat) (s : string) : string :=
  match width, s with
  | O, _ => s
  | S width, EmptyString => String " "%char (padEnd width "")
  | S width, String c s => String c (padEnd width s)
  end.

Definition inQuotes (s : string) : string :=
  String (ascii_of_nat 34) (s +:+ String (ascii_of_nat 34) "").

(** [(minor / 100).toFixed(2)]. *)
Definition toFixed2 (minor : Z) : string :=
  pretty (minor `div` 100) +:+ "." +:+ padStart 2 (pretty (minor `mod` 100)).

(** [for (const [index, a] of l.entries()) await f(index, a)]. *)
Fixpoint each {A} (f : nat → A → seedM unit) (index : nat) (l : list A) : seedM unit :=
  match l with
  | [] => mret tt
  | a :: rest => _ ← f index a; each f (S index) rest
  end.

Section run.
Context `{!Passwords} (SEED_PASSWORD : string) (newId newSalt : nat → string).

Definition draw : seedM (string * string) := fun s =>
  Ok ((newId (sd_drawn s), newSalt (sd_drawn s)),
      {| sd_identity := sd_identity s; sd_db := sd_db s; sd_created := sd_created s;
         sd_skipped := sd_skipped s; sd_lines := sd_lines s; sd_drawn := S (sd_drawn s) |}).

Definition addUser (row : UserRow) : seedM unit := fun s =>
  match insertUser row (sd_identity s) with
  | (identity, Ok _) => Ok (tt, with_identity identity s)
  | (_, Err e) => Err e
  end.

Definition ensureUser (staff : Staff) : seedM unit :=
  let what := padEnd 7 (roleText (sf_role staff)) +:+ " " +:+ sf_email staff in
  existing ← looks (fun s => firstId (fun u => sameEmail (u_email u) (sf_email staff)) (i_users (sd_identity s)));
  match existing with
  | Some _ => note exists_ what
  | None =>
      drawn ← draw;
      _ ← addUser {| u_id := fst drawn; u_email := sf_email staff;
        u_passwordHash := hashPassword (snd drawn) SEED_PASSWORD; u_displayName := sf_displayName staff;
        u_role := sf_role staff; u_isActive := true |};
      note created what
  end.

Definition ensureCategory (category : SeedCategory) : seedM string :=
  let what := "category " +:+ sc_name category in
  existing ← looks (fun s => firstId (fun row => bool_decide (cat_name row = sc_name category)) (categories (sd_db s)));
  match existing with
  | Some id => _ ← note exists_ what; mret id
  | None =>
      drawn ← draw;
      row ← onCatalog (insertCategory (fst drawn)
        {| nc_name := sc_name category; nc_sortOrder := Some (sc_sortOrder category); nc_isActive := None |});
      _ ← note created what;
      mret (c_id row)
  end.

Definition ensureOption (group : SeedGroup) (groupId : string) (option : SeedOption) : seedM unit :=
  let what := "option " +:+ sg_name group +:+ " / " +:+ so_name option in
  found ← looks (fun s => firstId (fun row => bool_decide
    ((opt_optionGroupId row, opt_name row) = (uuid groupId, so_name option))) (options (sd_db s)));
  match found with
  | Some _ => note exists_ what
  | None =>
      drawn ← draw;
      _ ← onCatalog (insertOption (fst drawn) groupId
        {| no_name := so_name option; no_priceDeltaMinor := Some (so_priceDeltaMinor option);
           no_isDefault := Some (so_isDefault option); no_isAvailable := None |});
      note created what
  end.

(** The group itself, without its options. *)
Definition ensureGroupRow (group : SeedGroup) : seedM string :=
  existing ← looks (fun s => firstId (fun row => bool_decide (og_name row = sg_name group)) (optionGroups (sd_db s)));
  match existing with
  | Some id => _ ← note exists_ ("group " +:+ sg_name group); mret id
  | None =>
      drawn ← draw;
      row ← onCatalog (insertGroup (fst drawn)
        {| ng_name := sg_name group; ng_minSelect := Some (sg_minSelect group);
           ng_maxSelect := Some (sg_maxSelect group) |});
      _ ← note created ("group " +:+ sg_name group);
      mret (gr_id row)
  end.

Definition ensureOptionGroup (group : SeedGroup) : seedM string :=
  groupId ← ensureGroupRow group;
  _ ← each (fun _ => ensureOption group groupId) 0 (sg_options group);
  mret groupId.

Definition ensureItem (categoryId : string) (item : SeedItem) (sortOrder : Z) : seedM string :=
  existing ← looks (fun s => firstId (fun row => bool_decide
    ((mi_categoryId row, mi_name row) = (uuid categoryId, si_name item))) (menuItems (sd_db s)));
  match existing with
  | Some id => _ ← note exists_ ("item " +:+ si_name item); mret id
  | None =>
      drawn ← draw;
      row ← onCatalog (insertItem (fst drawn)
        {| ni_categoryId := categoryId; ni_name := si_name item; ni_description := Some (si_description item);
           ni_basePriceMinor := si_basePriceMinor item; ni_imageUrl := None; ni_sortOrder := Some sortOrder;
           ni_isAvailable := None |});
      _ ← note created ("item " +:+ si_name item +:+ " (" +:+ toFixed2 (si_basePriceMinor item) +:+ " THB)");
      mret (m_id row)
  end.

(** [insert(...).onConflictDoNothing()]. *)
Definition linkOnce (link : ItemGroupLink) : txM unit :=
  taken ← reads (fun db => existsb (sameLink link) (menuItemOptionGroups db));
  if (taken : bool) then mret tt else insertLink link.

Definition linkGroup (groupIds : gmap string string) (item : SeedItem) (itemId : string) (position : nat)
    (groupName : string) : seedM unit :=
  match groupIds !! groupName with
  | Some (String _ _ as optionGroupId) =>
      onCatalog (linkOnce {| lk_menuItemId := uuid itemId; lk_optionGroupId := uuid optionGroupId;
                             lk_sortOrder := Z.of_nat position * 10 |})
  | _ => fails (JsError ("item " +:+ inQuotes (si_name item) +:+ " references unknown option group " +:+ inQuotes groupName))
  end.

Definition seedMenuItem (groupIds : gmap string string) (categoryId : string) (index : nat) (item : SeedItem)
    : seedM unit :=
  itemId ← ensureItem categoryId item (Z.of_nat index * 10);
  each (linkGroup groupIds item itemId) 0 (si_groups item).

Fixpoint seedGroups (groupIds : gmap string string) (groups : list SeedGroup) : seedM (gmap string string) :=
  match groups with
  | [] => mret groupIds
  | group :: rest => id ← ensureOptionGroup group; seedGroups (<[sg_name group := id]> groupIds) rest
  end.

(** The body of the transaction. *)
Definition seed : seedM unit :=
  _ ← each (fun _ => ensureUser) 0 STAFF;
  groupIds ← seedGroups ∅ OPTION_GROUPS;
  each (fun _ category =>
    categoryId ← ensureCategory category;
    each (seedMenuItem groupIds categoryId) 0 (sc_items category)) 0 MENU.

Definition emptyText (s : option string) : bool := match s with None | Some EmptyString => true | _ => false end.

(** [main]: a fresh process, one transaction, committed or rolled back. *)
Definition main (nodeEnv databaseUrl : option string) (identity : Identity) (db : Database) (drawn : nat)
    : (Identity * Database) * result AppError (nat * nat) :=
  if bool_decide (nodeEnv = Some "production") then
    ((identity, db), Err (JsError "refusing to seed with NODE_ENV=production"))
  else if emptyText databaseUrl then
    ((identity, db), Err (JsError "DATABASE_URL is not set — copy .env.example to .env first"))
  else
    match seed {| sd_identity := identity; sd_db := db; sd_created := 0; sd_skipped := 0; sd_lines := [];
                  sd_drawn := drawn |} with
    | Ok (_, s) => ((sd_identity s, sd_db s), Ok (sd_created s, sd_skipped s))
    | Err e => ((identity, db), Err e)
    end.
End run.
