(* ===== verification/SeedRerun.v ===== *)
(** * SeedRerun: the seed may be run again

    Every step of the script either finds what it would have made or makes it, so a run on the
    tables a run has left, however they have grown since, changes nothing. *)

From S2P Require Import Prelude Text Schema Errors Program IdentityStore Sessions Accounts Guards.
From S2P Require Import CreateOrder OrdersRead Catalog CatalogSafety Seed.

(** ** Rows with a natural key *)

Section keyed.
Context {R K : Type} `{!EqDecision K} (key : R → K).

Definition keyed (table : gmap string R) : Prop :=
  ∀ i j a b, table !! i = Some a → table !! j = Some b → key a = key b → i = j.

Definition named (k : K) (r : R) : bool := bool_decide (key r = k).

Lemma firstId_Some P (table : gmap string R) id :
  firstId P table = Some id → ∃ r, table !! id = Some r ∧ P r = true.
Proof.
  unfold firstId. destruct (head _) as [[i r]|] eqn:E; [|done]. intros [= <-].
  apply head_Some_elem_of, list_elem_of_filter in E as [HP Hin%elem_of_map_to_list]. eauto.
Qed.

Lemma firstId_None P (table : gmap string R) i r :
  firstId P table = None → table !! i = Some r → P r = false.
Proof.
  unfold firstId. destruct (filter _ _) as [|e l] eqn:E; [|done]. intros _ Hi.
  destruct (P r) eqn:HP; [|done].
  assert ((i, r) ∈ filter (fun e => P e.2 = true) (map_to_list table)) as Hin.
  { apply list_elem_of_filter. split; [done|]. by apply elem_of_map_to_list. }
  rewrite E in Hin. by apply elem_of_nil in Hin.
Qed.

(** A keyed table holds one row of a key, and finds it. *)
Lemma firstId_keyed k table i r :
  keyed table → table !! i = Some r → key r = k → firstId (named k) table = Some i.
Proof.
  intros Hk Hi Hr. destruct (firstId (named k) table) as [j|] eqn:E.
  - apply firstId_Some in E as (r' & Hj & Hr'%bool_decide_eq_true). f_equal.
    eapply Hk; [done..|]. congruence.
  - eapply firstId_None in E; [|done]. unfold named in E. by rewrite bool_decide_true in E.
Qed.

Lemma firstId_grows k table table' i :
  keyed table' → table ⊆ table' → firstId (named k) table = Some i → firstId (named k) table' = Some i.
Proof.
  intros Hk Hsub (r & Hi & Hr%bool_decide_eq_true)%firstId_Some.
  eapply firstId_keyed; [done| |done]. by eapply lookup_weaken.
Qed.

Lemma keyed_added k table i r :
  keyed table → firstId (named k) table = None → key r = k → keyed (<[i := r]> table).
Proof.
  intros Hk Hn Hr a b x y [[-> <-]|[? Ha]]%lookup_insert_Some [[-> <-]|[? Hb]]%lookup_insert_Some E; [done|..].
  - eapply firstId_None in Hn; [|exact Hb]. apply bool_decide_eq_false in Hn. congruence.
  - eapply firstId_None in Hn; [|exact Ha]. apply bool_decide_eq_false in Hn. congruence.
  - by eapply Hk.
Qed.
End keyed.

(** ** The tables of the seed *)

Definition emailKey (u : UserRow) : string := lowerText (u_email u).
Definition optionKey (row : OptionRow) : string * string := (opt_optionGroupId row, opt_name row).
Definition itemKey (row : MenuItemRow) : string * string := (mi_categoryId row, mi_name row).

(** The natural keys name at most one row each. The schema keeps the first two. *)
Record Keys (s : Seeding) : Prop := {
  k_users : keyed emailKey (i_users (sd_identity s));
  k_categories : keyed cat_name (categories (sd_db s));
  k_groups : keyed og_name (optionGroups (sd_db s));
  k_options : keyed optionKey (options (sd_db s));
  k_items : keyed itemKey (menuItems (sd_db s))
}.

(** Rows are added, none is changed or removed, and no other table is touched. *)
Record Grown (s s' : Seeding) : Prop := {
  gw_users : i_users (sd_identity s) ⊆ i_users (sd_identity s');
  gw_categories : categories (sd_db s) ⊆ categories (sd_db s');
  gw_groups : optionGroups (sd_db s) ⊆ optionGroups (sd_db s');
  gw_options : options (sd_db s) ⊆ options (sd_db s');
  gw_items : menuItems (sd_db s) ⊆ menuItems (sd_db s');
  gw_links : menuItemOptionGroups (sd_db s) ⊆ menuItemOptionGroups (sd_db s');
  gw_move : catalogMove (sd_db s) (sd_db s')
}.

#[export] Instance Grown_preorder : PreOrder Grown.
Proof.
  split; [intros s; by split|].
  intros a b c [] []. split; etrans; eauto.
Qed.

(** Nothing but the report of the run differs. *)
Definition quiet (s s' : Seeding) : Prop :=
  sd_identity s' = sd_identity s ∧ sd_db s' = sd_db s ∧ sd_created s' = sd_created s ∧ sd_drawn s' = sd_drawn s.

Lemma quiet_Keys s s' : quiet s s' → Keys s → Keys s'.
Proof. intros (E1 & E2 & _) []. split; rewrite ?E1, ?E2; done. Qed.

Lemma quiet_Grown s s' s'' : quiet s' s'' → Grown s s' → Grown s s''.
Proof. intros (E1 & E2 & _) []. split; rewrite ?E1, ?E2; done. Qed.

#[export] Instance quiet_preorder : PreOrder quiet.
Proof. split; [done|]. intros a b c (?&?&?&?) (?&?&?&?). split_and!; congruence. Qed.

(** A step that grows keyed tables into keyed tables, and has nothing left to do once it has run. *)
Definition settles {A} (m : seedM A) : Prop := ∀ s a s1,
  Keys s → m s = Ok (a, s1) →
  Keys s1 ∧ Grown s s1 ∧
  ∀ s', Keys s' → Grown s1 s' → ∃ s'', m s' = Ok (a, s'') ∧ quiet s' s''.

Lemma seedM_bind_Ok {A B} (m : seedM A) (k : A → seedM B) s b s' :
  (m ≫= k) s = Ok (b, s') ↔ ∃ a s1, m s = Ok (a, s1) ∧ k a s1 = Ok (b, s').
Proof. unfold mbind, seedM_bind. destruct (m s) as [[a s1]|e]; naive_solver. Qed.

Lemma settles_bind {A B} (m : seedM A) (k : A → seedM B) :
  settles m → (∀ a, settles (k a)) → settles (m ≫= k).
Proof.
  intros Hm Hk s b s2 HK (a & s1 & H1 & H2)%seedM_bind_Ok.
  destruct (Hm _ _ _ HK H1) as (HK1 & HG1 & Hq1). destruct (Hk a _ _ _ HK1 H2) as (HK2 & HG2 & Hq2).
  split; [done|]. split; [by etrans|]. intros s' HK' HG'.
  destruct (Hq1 s' HK') as (s'' & E1 & Q1); [by etrans|].
  destruct (Hq2 s'') as (s3 & E2 & Q2); [by eapply quiet_Keys|by eapply quiet_Grown|].
  exists s3. split; [|by etrans]. apply seedM_bind_Ok. eauto.
Qed.

Lemma settles_ret {A} (a : A) : settles (mret a).
Proof. intros s b s1 HK [= <- <-]. split_and!; [done..|]. intros s' _ _. by exists s'. Qed.

Lemma settles_fails {A} e : settles (fails (A:=A) e).
Proof. by intros s b s1 _ H. Qed.

Lemma settles_each {A} (f : nat → A → seedM unit) l : ∀ index,
  (∀ i a, settles (f i a)) → settles (each f index l).
Proof.
  induction l as [|a l IH]; intros index Hf; cbn; [apply settles_ret|].
  apply settles_bind; [done|]. auto.
Qed.

(** Find a row of the key, or make one. *)
Lemma settles_ensure {R K A} `{!EqDecision K} (table : Seeding → gmap string R) (key : R → K) (k : K)
    (val : string → A) (found : string → seedM A) (make : seedM A) :
  (∀ s, Keys s → keyed key (table s)) →
  (∀ s s', Grown s s' → table s ⊆ table s') →
  (∀ id s, ∃ s', found id s = Ok (val id, s') ∧ quiet s s') →
  (∀ s a s1, Keys s → firstId (named key k) (table s) = None → make s = Ok (a, s1) →
    Keys s1 ∧ Grown s s1 ∧ ∃ id, firstId (named key k) (table s1) = Some id ∧ a = val id) →
  settles (existing ← looks (fun s => firstId (named key k) (table s));
           match existing with Some id => found id | None => make end).
Proof.
  intros HK HG Hf Hm s a s1 Hs Hrun.
  apply seedM_bind_Ok in Hrun as (e & s0 & [= <- <-] & Hrun).
  assert (Keys s1 ∧ Grown s s1 ∧ ∃ id, firstId (named key k) (table s1) = Some id ∧ a = val id)
    as (HK1 & HG1 & id & Hid & ->).
  { destruct (firstId (named key k) (table s)) as [id|] eqn:E; [|eauto].
    destruct (Hf id s) as (s' & Hrun' & Hq). rewrite Hrun' in Hrun. injection Hrun as <- <-.
    split; [by eapply quiet_Keys|]. split; [by eapply quiet_Grown|].
    exists id. split; [|done]. eapply firstId_grows; [by apply HK, (quiet_Keys s)| |done].
    by apply HG, (quiet_Grown s s). }
  split; [done|]. split; [done|]. intros s' HK' HG'.
  destruct (Hf id s') as (s'' & Hrun' & Hq). exists s''. split; [|done].
  apply seedM_bind_Ok. exists (Some id), s'. split; [|done]. unfold looks. repeat f_equal.
  eapply firstId_grows; [by apply HK|by apply HG|done].
Qed.

Lemma note_found {A} what (a : A) s : ∃ s', (_ ← note exists_ what; mret a) s = Ok (a, s') ∧ quiet s s'.
Proof. eexists. split; [reflexivity|]. by split_and!. Qed.

Lemma note_quiet what s : ∃ s', note exists_ what s = Ok (tt, s') ∧ quiet s s'.
Proof. eexists. split; [reflexivity|]. by split_and!. Qed.

Lemma onCatalog_Ok {A} (work : txM A) s a s1 :
  onCatalog work s = Ok (a, s1) ↔
  ∃ db pending, work (mkTx (sd_db s) []) = Ok (a, mkTx db pending) ∧ s1 = with_catalog db s.
Proof.
  unfold onCatalog. destruct (work _) as [[b [db pending]]|e]; naive_solver.
Qed.

(** Takes a making step apart: the ids drawn, the statement, the note. *)
Ltac making H :=
  repeat match type of H with
  | (_ ≫= _) _ = Ok _ =>
      let H1 := fresh H in apply seedM_bind_Ok in H as (? & ? & H1 & H);
      lazymatch type of H1 with
      | onCatalog _ _ = _ => apply onCatalog_Ok in H1 as (? & ? & H1 & ->)
      | addUser _ _ = _ => idtac
      | _ => unfold draw, note in H1; simplify_eq
      end
  end; unfold note, mret, seedM_ret in H; simplify_eq.

(** ** What the statements of the catalog insert *)

Lemma insertCategory_Ok id input s c s' :
  insertCategory id input s = Ok (c, s') →
  c_id c = id ∧ categories (tx_db s) !! id = None ∧
  ∃ row, cat_name row = nc_name input ∧
    tx_db s' = with_categories (<[id := row]> (categories (tx_db s))) (tx_db s).
Proof.
  unfold insertCategory, putCategory. intros H. tx_inv. cbn. split; [done|]. split.
  - destruct (categories (tx_db s) !! id) eqn:E; [|done]. rewrite bool_decide_true in Heqb by eauto.
    by destruct (int4 _).
  - eexists. split; [|done]. done.
Qed.

Lemma insertGroup_Ok id input s g s' :
  insertGroup id input s = Ok (g, s') →
  gr_id g = id ∧ optionGroups (tx_db s) !! id = None ∧
  ∃ row, og_name row = ng_name input ∧
    tx_db s' = with_optionGroups (<[id := row]> (optionGroups (tx_db s))) (tx_db s).
Proof.
  unfold insertGroup, putGroup. intros H. tx_inv. cbn. split; [done|]. split.
  - destruct (optionGroups (tx_db s) !! id) eqn:E; [|done]. rewrite bool_decide_true in Heqb by eauto.
    apply negb_false_iff, andb_true_iff in Heqb0 as [H1 H2]. by rewrite H1, H2 in Heqb.
  - eexists. split; [|done]. done.
Qed.

Lemma insertOption_Ok id groupId input s o s' :
  insertOption id groupId input s = Ok (o, s') →
  options (tx_db s) !! id = None ∧
  ∃ row, optionKey row = (uuid groupId, no_name input) ∧
    tx_db s' = with_options (<[id := row]> (options (tx_db s))) (tx_db s).
Proof.
  unfold insertOption. intros H. tx_inv. cbn. split.
  - destruct (options (tx_db s) !! id) eqn:E; [|done]. by rewrite bool_decide_true in Heqb0 by eauto.
  - eexists. split; [|done]. done.
Qed.

Lemma insertItem_Ok id input s m s' :
  insertItem id input s = Ok (m, s') →
  m_id m = id ∧ menuItems (tx_db s) !! id = None ∧
  ∃ row, itemKey row = (uuid (ni_categoryId input), ni_name input) ∧
    tx_db s' = with_menuItems (<[id := row]> (menuItems (tx_db s))) (tx_db s).
Proof.
  unfold insertItem, putItem. intros H. tx_inv. cbn. split; [done|]. split.
  - destruct (menuItems (tx_db s) !! id) eqn:E; [|done]. rewrite bool_decide_true in Heqb by eauto.
    unfold itemRefused in Heqo. destruct (int4 _ && _) eqn:E1; [|done]. cbn in *.
    destruct (_ <? _) eqn:E2; [done|]. apply andb_true_iff in E1 as [E1 E3]. rewrite E1, E3 in Heqb. cbn in Heqb. lia.
  - eexists. split; [|done]. done.
Qed.

(** ** Rows added to one table *)

(** One row under a key of its own, in the table of [key]. *)
#[local] Ltac added key table :=
  intros [Hu Hc Hg Ho Hi] Hn Hk Hid Hm Ed Ei;
  match goal with |- Keys ?s1 ∧ _ =>
    assert (keyed key (table (sd_db s1))) by (rewrite Ed; by eapply keyed_added) end;
  split; [by split; rewrite ?Ei, ?Ed in *|]; split;
  [split; rewrite ?Ei; try done; rewrite Ed; try done; by apply insert_subseteq
  |eapply firstId_keyed; [done| |done]; rewrite Ed; apply lookup_insert_eq].

Lemma grow_users s s1 id row k :
  Keys s → firstId (named emailKey k) (i_users (sd_identity s)) = None →
  i_users (sd_identity s1) = <[id := row]> (i_users (sd_identity s)) → sd_db s1 = sd_db s →
  emailKey row = k → i_users (sd_identity s) !! id = None →
  Keys s1 ∧ Grown s s1 ∧ firstId (named emailKey k) (i_users (sd_identity s1)) = Some id.
Proof.
  intros [Hu Hc Hg Ho Hi] Hn Eu Ed Hk Hid.
  assert (keyed emailKey (i_users (sd_identity s1))) by (rewrite Eu; by eapply keyed_added).
  split; [by split; rewrite ?Ed|]. split.
  - split; rewrite ?Ed; try done. rewrite Eu. by apply insert_subseteq.
  - eapply firstId_keyed; [done| |done]. rewrite Eu. apply lookup_insert_eq.
Qed.

Lemma grow_categories s s1 id row k :
  Keys s → firstId (named cat_name k) (categories (sd_db s)) = None → cat_name row = k →
  categories (sd_db s) !! id = None → catalogMove (sd_db s) (sd_db s1) →
  sd_db s1 = with_categories (<[id := row]> (categories (sd_db s))) (sd_db s) → sd_identity s1 = sd_identity s →
  Keys s1 ∧ Grown s s1 ∧ firstId (named cat_name k) (categories (sd_db s1)) = Some id.
Proof. added cat_name categories. Qed.

Lemma grow_groups s s1 id row k :
  Keys s → firstId (named og_name k) (optionGroups (sd_db s)) = None → og_name row = k →
  optionGroups (sd_db s) !! id = None → catalogMove (sd_db s) (sd_db s1) →
  sd_db s1 = with_optionGroups (<[id := row]> (optionGroups (sd_db s))) (sd_db s) → sd_identity s1 = sd_identity s →
  Keys s1 ∧ Grown s s1 ∧ firstId (named og_name k) (optionGroups (sd_db s1)) = Some id.
Proof. added og_name optionGroups. Qed.

Lemma grow_options s s1 id row k :
  Keys s → firstId (named optionKey k) (options (sd_db s)) = None → optionKey row = k →
  options (sd_db s) !! id = None → catalogMove (sd_db s) (sd_db s1) →
  sd_db s1 = with_options (<[id := row]> (options (sd_db s))) (sd_db s) → sd_identity s1 = sd_identity s →
  Keys s1 ∧ Grown s s1 ∧ firstId (named optionKey k) (options (sd_db s1)) = Some id.
Proof. added optionKey options. Qed.

Lemma grow_items s s1 id row k :
  Keys s → firstId (named itemKey k) (menuItems (sd_db s)) = None → itemKey row = k →
  menuItems (sd_db s) !! id = None → catalogMove (sd_db s) (sd_db s1) →
  sd_db s1 = with_menuItems (<[id := row]> (menuItems (sd_db s))) (sd_db s) → sd_identity s1 = sd_identity s →
  Keys s1 ∧ Grown s s1 ∧ firstId (named itemKey k) (menuItems (sd_db s1)) = Some id.
Proof. added itemKey menuItems. Qed.

(** ** Each step of the script *)

Section steps.
Context `{!Passwords} (SEED_PASSWORD : string) (newId newSalt : nat → string).

Lemma addUser_Ok row s u s1 :
  addUser row s = Ok (u, s1) →
  i_users (sd_identity s) !! u_id row = None ∧ sd_db s1 = sd_db s ∧
  i_users (sd_identity s1) = <[u_id row := row]> (i_users (sd_identity s)).
Proof.
  unfold addUser, insertUser. destruct (_ || _) eqn:E; [done|]. intros [= <- <-].
  apply orb_false_iff in E as [E%bool_decide_eq_false_1 _]. split; [by apply eq_None_not_Some|done].
Qed.

Lemma settles_ensureUser staff : settles (ensureUser SEED_PASSWORD newId newSalt staff).
Proof.
  apply (settles_ensure (fun s => i_users (sd_identity s)) emailKey (lowerText (sf_email staff)) (fun _ => tt));
    [by intros ? []|by intros ?? []|by intros; apply note_quiet|].
  intros s [] s1 HK Hn Hrun. making Hrun. apply addUser_Ok in Hrun0 as (Hid & Ed & Eu).
  match goal with |- Keys ?s1 ∧ _ => destruct (grow_users s s1 _ _ _ HK Hn Eu Ed eq_refl Hid) as (? & ? & ?) end.
  eauto.
Qed.

Lemma settles_ensureCategory category : settles (ensureCategory newId newSalt category).
Proof.
  apply (settles_ensure (fun s => categories (sd_db s)) cat_name (sc_name category) (fun id => id));
    [by intros ? []|by intros ?? []|by intros; apply note_found|].
  intros s a s1 HK Hn Hrun. making Hrun. pose proof (moves_insertCategory _ _ _ _ _ Hrun0) as Hm.
  apply insertCategory_Ok in Hrun0 as (Hc & Hid & row & Hr & Ed).
  match goal with |- Keys ?s1 ∧ _ =>
    destruct (grow_categories s s1 _ _ _ HK Hn Hr Hid Hm Ed eq_refl) as (? & ? & ?) end.
  eauto.
Qed.

Lemma settles_ensureGroupRow group : settles (ensureGroupRow newId newSalt group).
Proof.
  apply (settles_ensure (fun s => optionGroups (sd_db s)) og_name (sg_name group) (fun id => id));
    [by intros ? []|by intros ?? []|by intros; apply note_found|].
  intros s a s1 HK Hn Hrun. making Hrun. pose proof (moves_insertGroup _ _ _ _ _ Hrun0) as Hm.
  apply insertGroup_Ok in Hrun0 as (Hc & Hid & row & Hr & Ed).
  match goal with |- Keys ?s1 ∧ _ =>
    destruct (grow_groups s s1 _ _ _ HK Hn Hr Hid Hm Ed eq_refl) as (? & ? & ?) end.
  eauto.
Qed.

Lemma settles_ensureOption group groupId option : settles (ensureOption newId newSalt group groupId option).
Proof.
  apply (settles_ensure (fun s => options (sd_db s)) optionKey (uuid groupId, so_name option) (fun _ => tt));
    [by intros ? []|by intros ?? []|by intros; apply note_quiet|].
  intros s a s1 HK Hn Hrun. making Hrun. pose proof (moves_insertOption _ _ _ _ _ _ Hrun0) as Hm.
  apply insertOption_Ok in Hrun0 as (Hid & row & Hr & Ed).
  match goal with |- Keys ?s1 ∧ _ =>
    destruct (grow_options s s1 _ _ _ HK Hn Hr Hid Hm Ed eq_refl) as (? & ? & ?) end.
  eauto.
Qed.

Lemma settles_ensureItem categoryId item sortOrder : settles (ensureItem newId newSalt categoryId item sortOrder).
Proof.
  apply (settles_ensure (fun s => menuItems (sd_db s)) itemKey (uuid categoryId, si_name item) (fun id => id));
    [by intros ? []|by intros ?? []|by intros; apply note_found|].
  intros s a s1 HK Hn Hrun. making Hrun. pose proof (moves_insertItem _ _ _ _ _ Hrun0) as Hm.
  apply insertItem_Ok in Hrun0 as (Hc & Hid & row & Hr & Ed).
  match goal with |- Keys ?s1 ∧ _ =>
    destruct (grow_items s s1 _ _ _ HK Hn Hr Hid Hm Ed eq_refl) as (? & ? & ?) end.
  eauto.
Qed.

Lemma moves_linkOnce link : moves (linkOnce link).
Proof.
  unfold linkOnce. apply moves_bind; [apply moves_reads|]. intros []; [apply moves_ret|apply moves_insertLink].
Qed.

(** Whether the pair was linked or not, it is now, and linking it again is nothing. *)
Lemma settles_linkOnce link : settles (onCatalog (linkOnce link)).
Proof.
  intros s [] s1 HK (db & pending & Hrun & ->)%onCatalog_Ok.
  pose proof (moves_linkOnce _ _ _ _ Hrun) as Hm. cbn [tx_db] in Hm.
  assert ((db = sd_db s ∨ db = with_menuItemOptionGroups (menuItemOptionGroups (sd_db s) ++ [link]) (sd_db s)) ∧
    existsb (sameLink link) (menuItemOptionGroups db) = true) as [Hdb Hin].
  { unfold linkOnce, insertLink in Hrun. tx_simpl.
    destruct (existsb _ _) eqn:E in Hrun; [simplify_eq; auto|].
    cbn [tx_db] in Hrun. rewrite E in Hrun. case_match; [done|]. injection Hrun as <- <-. split; [auto|]. cbn.
    rewrite existsb_app. cbn. unfold sameLink at 2. rewrite !bool_decide_true by done. by rewrite !orb_true_r. }
  split; [by destruct HK, Hdb as [-> | ->]; split|]. split.
  { destruct Hdb as [-> | ->]; split; cbn; try done. set_solver. }
  intros s' HK' HG. exists (with_catalog (sd_db s') s'). split; [|by destruct s'].
  apply onCatalog_Ok. exists (sd_db s'), []. split; [|done].
  unfold linkOnce. tx_simpl. replace (existsb _ _) with true; [done|]. symmetry.
  apply existsb_exists in Hin as (l & Hl & Hs). apply existsb_exists. exists l. split; [|done].
  apply list_elem_of_In. by apply (gw_links _ _ HG), list_elem_of_In.
Qed.

Lemma settles_linkGroup groupIds item itemId position groupName :
  settles (linkGroup groupIds item itemId position groupName).
Proof.
  unfold linkGroup. destruct (groupIds !! groupName) as [[|c id]|]; [apply settles_fails| |apply settles_fails].
  apply settles_linkOnce.
Qed.

Lemma settles_seedGroups groups : ∀ groupIds, settles (seedGroups newId newSalt groupIds groups).
Proof.
  induction groups as [|group groups IH]; intros groupIds; cbn; [apply settles_ret|].
  apply settles_bind; [|done]. apply settles_bind; [apply settles_ensureGroupRow|]. intros groupId.
  apply settles_bind; [|intros; apply settles_ret]. apply settles_each. intros _ option. apply settles_ensureOption.
Qed.

Lemma settles_seed : settles (seed SEED_PASSWORD newId newSalt).
Proof.
  unfold seed. apply settles_bind; [by apply settles_each; intros; apply settles_ensureUser|]. intros _.
  apply settles_bind; [apply settles_seedGroups|]. intros groupIds. apply settles_each. intros _ category.
  apply settles_bind; [apply settles_ensureCategory|]. intros categoryId. apply settles_each. intros index item.
  apply settles_bind; [apply settles_ensureItem|]. intros itemId. apply settles_each. intros. apply settles_linkGroup.
Qed.

(** C36. The seed is safe to run again while the names it looks up are unique. On tables in
    which no two accounts share an email and no two categories, option groups, options of a
    group or items of a category share a name (the schema keeps only the first two), a run adds
    rows and changes none, so no account's password is reset, and keeps the names unique; and a
    later run, on what it left or on anything that has grown from it by further rows and in
    which the names are still unique, finds every row, succeeds and changes nothing. Without
    that a rerun may write: [duplicate_group_reseeds]. *)
Theorem seed_reruns s s1 s' :
  Keys s → seed SEED_PASSWORD newId newSalt s = Ok (tt, s1) → Keys s' → Grown s1 s' →
  Grown s s1 ∧ Keys s1 ∧
  ∃ s'', seed SEED_PASSWORD newId newSalt s' = Ok (tt, s'') ∧
    sd_identity s'' = sd_identity s' ∧ sd_db s'' = sd_db s' ∧ sd_created s'' = sd_created s'.
Proof.
  intros HK Hs HK' HG'. destruct (settles_seed _ _ _ HK Hs) as (HK1 & HG & Hq).
  split; [done|]. split; [done|]. destruct (Hq s' HK' HG') as (s'' & Hs'' & ? & ? & ? & _). eauto 10.
Qed.

(** The script never seeds a production database, and leaves the tables as they were
    whenever it fails. *)
Theorem seed_all_or_nothing nodeEnv url identity db drawn after answer :
  main SEED_PASSWORD newId newSalt nodeEnv url identity db drawn = (after, answer) →
  (nodeEnv = Some "production" → ∃ e, answer = Err e) ∧
  (∀ e, answer = Err e → after = (identity, db)).
Proof.
  unfold main. intros Hm. case_bool_decide; [by simplify_eq; eauto|].
  destruct (emptyText url); [simplify_eq; naive_solver|].
  destruct (seed _ _ _ _) as [[[] s]|e]; simplify_eq; naive_solver.
Qed.
End steps.

(** ** A checkout *)

Module Checkout.

Definition plainText : Passwords :=
  {| hashPassword salt password := salt +:+ password; verifyPassword hash password := false |}.
#[local] Existing Instance plainText.

Definition newId (n : nat) : string := "id" +:+ pretty n.
Definition newSalt (n : nat) : string := "salt" +:+ pretty n.

Definition nobody : Identity :=
  {| i_now := 0; i_users := ∅; i_refreshTokens := ∅; i_kioskDevices := ∅; i_redis := ∅; i_redisUp := true;
     i_published := [] |}.

Definition blank : Seeding :=
  {| sd_identity := nobody; sd_db := empty_db; sd_created := 0; sd_skipped := 0; sd_lines := []; sd_drawn := 0 |}.

Definition run (s : Seeding) : result AppError (unit * Seeding) := seed "cafepos-dev-password" newId newSalt s.

Definition seeded : Seeding := Eval vm_compute in match run blank with Ok (_, s) => s | Err _ => blank end.

Lemma blank_Keys : Keys blank.
Proof. split; intros i j a b Hi; by destruct (lookup_empty_Some i a). Qed.

Definition seedMain (nodeEnv : string) (identity : Identity) (db : Database) (drawn : nat) :=
  main "cafepos-dev-password" newId newSalt (Some nodeEnv) (Some "postgres://localhost/cafe") identity db drawn.

(** Twenty-seven rows the first time, none the second. *)
Example counts :
  snd (seedMain "development" nobody empty_db 0) = Ok (27%nat, 0%nat) ∧
  snd (seedMain "development" (sd_identity seeded) (sd_db seeded) 27) = Ok (0%nat, 27%nat) ∧
  nth_error (sd_lines seeded) 17 = Some "  + item Espresso (60.00 THB)".
Proof. split_and!; vm_compute; reflexivity. Qed.

(** A manager made a second group called Size, which the schema allows; it is the one a lookup
    by name comes to first. *)
Definition twoSizes : Seeding :=
  {| sd_identity := sd_identity seeded;
     sd_db := with_optionGroups (<["id40" := {| og_name := "Size"; og_minSelect := 0; og_maxSelect := 1 |}]>
       (optionGroups (sd_db seeded))) (sd_db seeded);
     sd_created := 0; sd_skipped := 0; sd_lines := []; sd_drawn := 27 |}.
End Checkout.

(** The seed takes the first group of the name it finds. Where that is the manager's, running it
    again gives that group the three sizes and hangs it on the items, beside the one they had. *)
Theorem duplicate_group_reseeds :
  match Checkout.run Checkout.twoSizes with
  | Ok (_, s) => sd_created s = 3%nat ∧
      size (options (sd_db s)) = (size (options (sd_db Checkout.twoSizes)) + 3)%nat ∧
      (length (menuItemOptionGroups (sd_db Checkout.twoSizes)) < length (menuItemOptionGroups (sd_db s)))%nat
  | Err _ => False
  end.
Proof. vm_compute. repeat split; lia. Qed.

(** The second run of the checkout. *)
Lemma seed_reruns_witness :
  Checkout.run Checkout.blank = Ok (tt, Checkout.seeded) ∧
  ∃ s'', Checkout.run Checkout.seeded = Ok (tt, s'') ∧ sd_db s'' = sd_db Checkout.seeded.
Proof.
  assert (Checkout.run Checkout.blank = Ok (tt, Checkout.seeded)) as Hs by (vm_compute; reflexivity).
  split; [exact Hs|].
  destruct (@seed_reruns Checkout.plainText "cafepos-dev-password" Checkout.newId Checkout.newSalt
    Checkout.blank Checkout.seeded Checkout.seeded Checkout.blank_Keys Hs) as (_ & _ & s'' & Hr & _ & Hd & _).
  - exact (proj1 (@settles_seed Checkout.plainText _ _ _ _ _ _ Checkout.blank_Keys Hs)).
  - reflexivity.
  - exact (ex_intro _ s'' (conj Hr Hd)).
Defined.

(** A production box is refused. *)
Lemma seed_all_or_nothing_witness :
  (Checkout.seedMain "production" Checkout.nobody empty_db 0).1 = (Checkout.nobody, empty_db).
Proof.
  eapply (@seed_all_or_nothing Checkout.plainText "cafepos-dev-password" Checkout.newId Checkout.newSalt
    (Some "production") (Some "postgres://localhost/cafe") Checkout.nobody empty_db 0); [reflexivity|reflexivity].
Defined.
