(* ===== verification/Diagnostics.v ===== *)
(** * Diagnostics: naming a failure once, and safely

    [common/errors/describe-error.ts] over a heap of error objects that may share and may form
    cycles, [common/logging/log-throttle.ts], [redis/redis.diagnostics.ts] and
    [common/http/request-id.ts]. The detail of an error is searched with fuel; one more unit than
    there are objects is enough, whatever the cycles ([describeError_answers]). *)

From S2P Require Import Prelude Text Idempotency Ordering.
From Stdlib Require Import Ascii.

(** ** Describing an error ([describe-error.ts]) *)

(** A thrown value: text, an object, or neither ([null], [undefined], a number, a function). *)
Inductive JsValue := JsText (s : string) | JsRef (address : nat) | JsOther.

(** [ob_errors] is [None] where [errors] is not an array. *)
Record JsObject := {
  ob_cause : JsValue; ob_errors : option (list JsValue); ob_message : JsValue; ob_name : JsValue }.

Notation Heap := (gmap nat JsObject).

Definition joinWith (sep : string) (l : list string) : string := String.concat sep l.

(** [errors.map((e) => detailOf(e, seen))], with the set the calls share. *)
Fixpoint mapDetail (f : JsValue → gset nat → option (string * gset nat)) (l : list JsValue) (seen : gset nat)
    : option (list string * gset nat) :=
  match l with
  | [] => Some ([], seen)
  | e :: rest =>
      '(text, seen) ← f e seen;
      '(texts, seen) ← mapDetail f rest seen;
      Some (text :: texts, seen)
  end.

(** The text found and the set afterwards; [None] when the fuel runs out. *)
Fixpoint detailOf (fuel : nat) (heap : Heap) (err : JsValue) (seen : gset nat) : option (string * gset nat) :=
  match fuel with
  | O => None
  | S fuel =>
      match err with
      | JsRef a =>
          if decide (a ∈ seen) then Some ("", seen)
          else
            match heap !! a with
            | None => Some ("", seen)
            | Some o =>
                '(fromCause, seen) ← detailOf fuel heap (ob_cause o) ({[a]} ∪ seen);
                if bool_decide (fromCause ≠ "") then Some (fromCause, seen)
                else
                  '(nested, seen) ←
                    match ob_errors o with
                    | Some errors =>
                        '(texts, seen) ← mapDetail (detailOf fuel heap) errors seen;
                        Some (dedupe [] (filter (fun t => t ≠ "") texts), seen)
                    | None => Some ([], seen)
                    end;
                  match nested with
                  | _ :: _ => Some (joinWith "; " nested, seen)
                  | [] => Some (match ob_message o with JsText m => m | _ => "" end, seen)
                  end
            end
      | _ => Some ("", seen)
      end
  end.

Definition fallbackName (heap : Heap) (err : JsValue) : string :=
  match err with
  | JsRef a =>
      match ob_name <$> heap !! a with
      | Some (JsText (String _ _ as name)) => name
      | _ => "unknown error"
      end
  | _ => "unknown error"
  end.

Definition describeError (heap : Heap) (err : JsValue) : option string :=
  '(detail, _) ← detailOf (S (size heap)) heap err ∅;
  Some (if bool_decide (detail ≠ "") then detail else fallbackName heap err).

(** ** One line a window ([log-throttle.ts]) *)

(** [lastLoggedAt] is [None] for minus infinity. *)
Record LogThrottle := { lt_intervalMs : Z; lt_lastLoggedAt : option Z; lt_suppressed : Z }.

Definition newThrottle (intervalMs : Z) : LogThrottle :=
  {| lt_intervalMs := intervalMs; lt_lastLoggedAt := None; lt_suppressed := 0 |}.

Definition suffixOf (suppressed : Z) : string :=
  if 0 <? suppressed then " (suppressed since the last log: " +:+ pretty suppressed +:+ ")" else "".

Definition claim (now : Z) (t : LogThrottle) : option string * LogThrottle :=
  if match lt_lastLoggedAt t with Some last => now - last <? lt_intervalMs t | None => false end then
    (None, {| lt_intervalMs := lt_intervalMs t; lt_lastLoggedAt := lt_lastLoggedAt t;
              lt_suppressed := lt_suppressed t + 1 |})
  else
    (Some (suffixOf (lt_suppressed t)),
     {| lt_intervalMs := lt_intervalMs t; lt_lastLoggedAt := Some now; lt_suppressed := 0 |}).

(** The claims of a run, in turn: the instant and the suffix of each line logged. *)
Fixpoint claims (t : LogThrottle) (instants : list Z) : list (Z * string) * LogThrottle :=
  match instants with
  | [] => ([], t)
  | now :: rest =>
      let '(answer, t) := claim now t in
      let '(logged, t) := claims t rest in
      (match answer with Some suffix => (now, suffix) :: logged | None => logged end, t)
  end.

(** ** Redis outages ([redis.diagnostics.ts]) *)

Definition REDIS_ERROR_LOG_INTERVAL_MS : Z := 30000.

Record RedisWatch := {
  rw_outageStartedAt : option Z; rw_lastLoggedAt : Z; rw_errorsInOutage : Z; rw_suppressedSinceLastLog : Z }.

Definition healthyWatch : RedisWatch :=
  {| rw_outageStartedAt := None; rw_lastLoggedAt := 0; rw_errorsInOutage := 0; rw_suppressedSinceLastLog := 0 |}.

Inductive RedisEvent := RedisErrored (now : Z) (described : string) | RedisReady (now : Z).

Inductive RedisLine := ErrorLine (text : string) | InfoLine (text : string).

Definition onError (now : Z) (described : string) (w : RedisWatch) : list RedisLine * RedisWatch :=
  match rw_outageStartedAt w with
  | None =>
      ([ErrorLine ("Redis connection error: " +:+ described +:+ " — further errors logged at most once per "
          +:+ pretty (REDIS_ERROR_LOG_INTERVAL_MS `div` 1000) +:+ "s")],
       {| rw_outageStartedAt := Some now; rw_lastLoggedAt := now; rw_errorsInOutage := rw_errorsInOutage w + 1;
          rw_suppressedSinceLastLog := rw_suppressedSinceLastLog w |})
  | Some started =>
      if now - rw_lastLoggedAt w <? REDIS_ERROR_LOG_INTERVAL_MS then
        ([], {| rw_outageStartedAt := Some started; rw_lastLoggedAt := rw_lastLoggedAt w;
                rw_errorsInOutage := rw_errorsInOutage w + 1;
                rw_suppressedSinceLastLog := rw_suppressedSinceLastLog w + 1 |})
      else
        ([ErrorLine ("Redis connection error: " +:+ described +:+ " (suppressed since the last log: "
            +:+ pretty (rw_suppressedSinceLastLog w) +:+ ")")],
         {| rw_outageStartedAt := Some started; rw_lastLoggedAt := now;
            rw_errorsInOutage := rw_errorsInOutage w + 1; rw_suppressedSinceLastLog := 0 |})
  end.

(** [Math.round(ms / 1000)]. *)
Definition roundedSeconds (ms : Z) : Z := (ms + 500) `div` 1000.

Definition recoveredLine (ms errors : Z) : RedisLine :=
  InfoLine ("Redis connection recovered after " +:+ pretty (roundedSeconds ms)
    +:+ "s (errors during the outage: " +:+ pretty errors +:+ ")").

Definition onReady (now : Z) (w : RedisWatch) : list RedisLine * RedisWatch :=
  match rw_outageStartedAt w with
  | None => ([], w)
  | Some started =>
      ([recoveredLine (now - started) (rw_errorsInOutage w)],
       {| rw_outageStartedAt := None; rw_lastLoggedAt := rw_lastLoggedAt w; rw_errorsInOutage := 0;
          rw_suppressedSinceLastLog := 0 |})
  end.

Definition onRedisEvent (event : RedisEvent) (w : RedisWatch) : list RedisLine * RedisWatch :=
  match event with RedisErrored now described => onError now described w | RedisReady now => onReady now w end.

Fixpoint watchRedis (w : RedisWatch) (events : list RedisEvent) : list RedisLine * RedisWatch :=
  match events with
  | [] => ([], w)
  | event :: rest =>
      let '(lines, w) := onRedisEvent event w in
      let '(more, w) := watchRedis w rest in (lines ++ more, w)
  end.

(** ** Request ids ([request-id.ts]) *)

Definition MAX_REQUEST_ID_LENGTH : nat := 128.

(** A character of [/^[A-Za-z0-9._-]+$/]. *)
Definition safeChar (c : ascii) : bool :=
  inBytes 65 90 c || inBytes 97 122 c || inBytes 48 57 c || (c =? ".")%char || (c =? "_")%char || (c =? "-")%char.

Definition isUsable (value : string) : bool :=
  (jsLength value <=? MAX_REQUEST_ID_LENGTH)%nat && negb (bool_decide (value = "")) && allChars safeChar value.

(** The [X-Request-Id] header: absent, one value or several. *)
Definition generateRequestId (inbound : list string) (randomUUID : string) : string :=
  match inbound with
  | (String _ _ as candidate) :: _ => if isUsable candidate then candidate else randomUUID
  | _ => randomUUID
  end.

Definition getRequestId (id : option string) : string := default "unknown" id.

(** ** Every error has a description *)

Definition unseen (heap : Heap) (seen : gset nat) : nat := size (dom heap ∖ seen).

Lemma unseen_mono heap seen seen' : seen ⊆ seen' → (unseen heap seen' <= unseen heap seen)%nat.
Proof. intros. apply subseteq_size. set_solver. Qed.

Lemma unseen_visit heap seen a o :
  heap !! a = Some o → a ∉ seen → (unseen heap ({[a]} ∪ seen) < unseen heap seen)%nat.
Proof.
  intros Ha Hs. apply subset_size. apply elem_of_dom_2 in Ha. split; [set_solver|].
  intros Hsub. specialize (Hsub a). set_solver.
Qed.

(** [f] answers from any set that has seen as much as [seen], and only adds to it. *)
Definition answersFrom (f : JsValue → gset nat → option (string * gset nat)) (seen : gset nat) : Prop :=
  ∀ e s, seen ⊆ s → ∃ t s', f e s = Some (t, s') ∧ s ⊆ s'.

Lemma mapDetail_answers f l : ∀ seen s, answersFrom f seen → seen ⊆ s →
  ∃ ts s', mapDetail f l s = Some (ts, s') ∧ s ⊆ s'.
Proof.
  induction l as [|e l IH]; intros seen s Hf Hs; cbn; [by exists [], s|].
  destruct (Hf e s Hs) as (t & s1 & -> & H1). cbn.
  destruct (IH seen s1 Hf) as (ts & s2 & -> & H2); [set_solver|]. cbn.
  exists (t :: ts), s2. split; [done|set_solver].
Qed.

Lemma detailOf_answers heap fuel : ∀ err seen,
  (unseen heap seen < fuel)%nat → ∃ t s', detailOf fuel heap err seen = Some (t, s') ∧ seen ⊆ s'.
Proof.
  induction fuel as [|fuel IH]; intros err seen Hf; [lia|].
  destruct err as [s|a|]; cbn [detailOf]; [by exists "", seen| |by exists "", seen].
  case_decide as Ha; [by exists "", seen|]. destruct (heap !! a) as [o|] eqn:Eo; [|by exists "", seen].
  pose proof (unseen_visit heap seen a o Eo Ha) as Hv.
  destruct (IH (ob_cause o) ({[a]} ∪ seen)) as (t & s1 & -> & H1); [lia|]. cbn.
  case_bool_decide; [by exists t, s1; split; [|set_solver]|].
  assert (answersFrom (detailOf fuel heap) s1) as Hans.
  { intros e s Hs. apply IH. assert ({[a]} ∪ seen ⊆ s) as Hm%(unseen_mono heap) by set_solver. lia. }
  destruct (ob_errors o) as [errors|]; cbn; [|by eexists _, s1; split; [|set_solver]].
  destruct (mapDetail_answers _ errors s1 s1 Hans) as (ts & s2 & -> & H2); [done|]. cbn.
  destruct (dedupe [] _); cbn; eexists _, s2; (split; [done|set_solver]).
Qed.

(** Every thrown value is described: the search ends on every heap of errors, causes that
    loop back and errors shared between aggregates included, and the description is never empty. *)
Theorem describeError_answers heap err :
  ∃ text, describeError heap err = Some text ∧ text ≠ "".
Proof.
  unfold describeError. destruct (detailOf_answers heap (S (size heap)) err ∅) as (t & s' & -> & _).
  { unfold unseen. rewrite difference_empty_L, size_dom. lia. }
  cbn. eexists. split; [done|]. case_bool_decide; [done|].
  unfold fallbackName. destruct err as [|a|]; [done| |done].
  destruct (ob_name <$> heap !! a) as [[[|]| |]|]; done.
Qed.

(** The shapes an outage is met in: a wrapper over an empty aggregate of repeats, and a cycle. *)
Example describes :
  let refused := "connect ECONNREFUSED 127.0.0.1:5499" in
  let plain (m : string) := {| ob_cause := JsOther; ob_errors := None; ob_message := JsText m; ob_name := JsText "Error" |} in
  let heap : Heap := list_to_map [
    (0%nat, {| ob_cause := JsRef 1; ob_errors := None; ob_message := JsText "Failed query: select 1"; ob_name := JsText "Error" |});
    (1%nat, {| ob_cause := JsOther; ob_errors := Some [JsRef 2; JsRef 3]; ob_message := JsText ""; ob_name := JsText "AggregateError" |});
    (2%nat, plain refused); (3%nat, plain refused);
    (4%nat, {| ob_cause := JsRef 4; ob_errors := None; ob_message := JsText "loop"; ob_name := JsText "Error" |});
    (5%nat, {| ob_cause := JsOther; ob_errors := Some []; ob_message := JsText ""; ob_name := JsText "AggregateError" |})] in
  describeError heap (JsRef 0) = Some refused ∧ describeError heap (JsRef 4) = Some "loop" ∧
  describeError heap (JsRef 5) = Some "AggregateError" ∧ describeError heap JsOther = Some "unknown error".
Proof. split_and!; vm_compute; reflexivity. Qed.

(** ** Nothing throttled is lost *)

(** Consecutive lines are a window apart. *)
Fixpoint spaced (interval : Z) (last : option Z) (l : list Z) : Prop :=
  match l with
  | [] => True
  | t :: rest => match last with Some t' => interval ≤ t - t' | None => True end ∧ spaced interval (Some t) rest
  end.

Lemma claims_account instants : ∀ t,
  let '(logged, t') := claims t instants in
  spaced (lt_intervalMs t) (lt_lastLoggedAt t) logged.*1 ∧
  ∃ counts, logged.*2 = suffixOf <$> counts ∧
    lt_suppressed t + Z.of_nat (length instants) =
      Z.of_nat (length logged) + sumZ id counts + lt_suppressed t'.
Proof.
  induction instants as [|now rest IH]; intros t; cbn [claims].
  - split; [done|]. exists []. split; [done|]. cbn. lia.
  - unfold claim. destruct (match lt_lastLoggedAt t with Some _ => _ | None => _ end) eqn:E.
    + match goal with |- context [claims ?t' rest] => specialize (IH t'); destruct (claims t' rest) as [logged t''] end.
      cbn [lt_intervalMs lt_lastLoggedAt lt_suppressed] in *.
      destruct IH as [Hsp (counts & Hc & Hn)]. split; [done|]. exists counts. split; [done|].
      rewrite length_cons, Nat2Z.inj_succ. lia.
    + match goal with |- context [claims ?t' rest] => specialize (IH t'); destruct (claims t' rest) as [logged t''] end.
      cbn [lt_intervalMs lt_lastLoggedAt lt_suppressed] in *.
      destruct IH as [Hsp (counts & Hc & Hn)]. split.
      { split; [|done]. destruct (lt_lastLoggedAt t); [|done]. cbn. lia. }
      exists (lt_suppressed t :: counts). split; [by cbn; rewrite Hc|].
      rewrite sumZ_cons, !length_cons, !Nat2Z.inj_succ. unfold id at 1. lia.
Qed.

(** A throttle loses nothing: over any sequence of calls the first is logged at once with no
    suffix, lines are at least the interval apart, and every call is either a line, in the count
    some later line carries, or still waiting to be counted. *)
Theorem throttle_accounts interval now rest :
  let '(logged, t) := claims (newThrottle interval) (now :: rest) in
  head logged = Some (now, "") ∧ spaced interval None logged.*1 ∧
  ∃ counts, logged.*2 = suffixOf <$> counts ∧
    Z.of_nat (length (now :: rest)) = Z.of_nat (length logged) + sumZ id counts + lt_suppressed t.
Proof.
  pose proof (claims_account (now :: rest) (newThrottle interval)) as H.
  assert (head (claims (newThrottle interval) (now :: rest)).1 = Some (now, "")) as Hh.
  { cbn. by destruct (claims _ rest). }
  destruct (claims (newThrottle interval) (now :: rest)) as [logged t]. cbn in Hh.
  destruct H as [H1 (counts & H2 & H3)]. split; [done|]. split; [done|]. exists counts. split; [done|].
  cbn [lt_suppressed newThrottle] in H3. lia.
Qed.

(** A log of three calls in one window and one after it. *)
Example throttled :
  (claims (newThrottle 60000) [0; 10; 20; 70000]).1 = [(0, ""); (70000, " (suppressed since the last log: 2)")].
Proof. vm_compute. reflexivity. Qed.

(** ** An outage is told from end to end *)

Fixpoint errorsAfter (n : Z) (events : list RedisEvent) : Z :=
  match events with
  | [] => n
  | RedisErrored _ _ :: rest => errorsAfter (n + 1) rest
  | RedisReady _ :: rest => errorsAfter 0 rest
  end.

(** Healthy exactly when no error has come since the last ready. *)
Definition watchOk (w : RedisWatch) : Prop :=
  (rw_outageStartedAt w = None ↔ rw_errorsInOutage w = 0) ∧ 0 ≤ rw_errorsInOutage w ∧
  (rw_outageStartedAt w = None → rw_suppressedSinceLastLog w = 0).

Lemma onRedisEvent_ok event w :
  watchOk w →
  watchOk (onRedisEvent event w).2 ∧
  rw_errorsInOutage (onRedisEvent event w).2 = errorsAfter (rw_errorsInOutage w) [event].
Proof.
  unfold watchOk. destruct event as [now described|now]; cbn; unfold onError, onReady;
    destruct (rw_outageStartedAt w) eqn:E; try destruct (_ <? _); cbn; rewrite ?E; naive_solver lia.
Qed.

Lemma watchRedis_ok events : ∀ w, watchOk w →
  watchOk (watchRedis w events).2 ∧
  rw_errorsInOutage (watchRedis w events).2 = errorsAfter (rw_errorsInOutage w) events.
Proof.
  induction events as [|event events IH]; intros w Hw; [done|]. cbn [watchRedis].
  destruct (onRedisEvent_ok event w Hw) as [H1 H2].
  destruct (onRedisEvent event w) as [lines w']. destruct (IH w' H1) as [H3 H4].
  destruct (watchRedis w' events) as [more w'']. cbn in *. split; [done|]. rewrite H4, H2. by destruct event.
Qed.

(** When Redis is ready again, one line closes the outage with the number of errors since the last
    time it was; if there has been none, nothing is said. *)
Theorem outage_closed events now :
  let w := (watchRedis healthyWatch events).2 in
  let errors := errorsAfter 0 events in
  (onReady now w).1 =
    (if errors =? 0 then [] else [recoveredLine (now - default 0 (rw_outageStartedAt w)) errors]).
Proof.
  destruct (watchRedis_ok events healthyWatch) as [(Hw & _) He]; [by split_and!|].
  cbn [rw_errorsInOutage healthyWatch] in He. cbv zeta. rewrite <- He. unfold onReady.
  destruct (rw_outageStartedAt (watchRedis healthyWatch events).2) eqn:E, (Z.eqb_spec (rw_errorsInOutage (watchRedis healthyWatch events).2) 0);
    cbn; naive_solver.
Qed.

(** ** No caller writes the logs *)

(** The id of a request, which lands in log lines and in a response header, is a bounded token
    whatever header came with it. *)
Theorem request_id_is_a_token inbound randomUUID :
  isUsable randomUUID = true → isUsable (generateRequestId inbound randomUUID) = true.
Proof.
  intros Hu. unfold generateRequestId. destruct inbound as [|[|c s] rest]; [done..|].
  by destruct (isUsable (String c s)) eqn:E.
Qed.

(** Two header values, and a header that would break a log line. *)
Example request_ids :
  generateRequestId ["trace-1"; "trace-2"] "uuid" = "trace-1" ∧
  generateRequestId [String "a"%char (String (ascii_of_nat 10) "b")] "uuid" = "uuid" ∧
  generateRequestId [""] "uuid" = "uuid" ∧ generateRequestId [] "uuid" = "uuid".
Proof. split_and!; vm_compute; reflexivity. Qed.
