(* ===== verification/Monitoring.v ===== *)
(** * Monitoring: readiness, the instruments and the gauges read at scrape time

    [health/health.service.ts], [health/health.controller.ts], [health/shutdown-drain.ts],
    [observability/metrics/metrics.ts], [scraped-gauge.ts], [state-gauges.ts] and
    [http-metrics.ts]. A dependency's probe answers, fails, or is still out when its deadline
    passes. Ages are in milliseconds; the code exports them divided by a thousand. *)

From S2P Require Import Prelude Text Schema BusinessDay OrderDoors IdentityStore Diagnostics.
From Stdlib Require Import Ascii.

(** ** Readiness *)

(** How a probe ends: with a value, with an error of [heap], or not in time. *)
Inductive Probe (A : Type) := Answers (a : A) | Fails (heap : Heap) (err : JsValue) | Late.
Arguments Answers {A}. Arguments Fails {A}. Arguments Late {A}.

Inductive DependencyCheck := Up | Down (error : string).

Record ReadinessResult := { rr_ok : bool; rr_db : DependencyCheck; rr_redis : DependencyCheck }.

Definition CHECK_TIMEOUT_MS : Z := 2000.

(** The description of a failure; there always is one. *)
Definition described (heap : Heap) (err : JsValue) : string := default "unknown error" (describeError heap err).

(** The error [withTimeout] rejects with. *)
Definition timedOut (label : string) : string :=
  label +:+ " check timed out after " +:+ pretty CHECK_TIMEOUT_MS +:+ "ms".

Definition checkDb (probe : Probe unit) : DependencyCheck :=
  match probe with
  | Answers _ => Up
  | Fails heap err => Down (described heap err)
  | Late => Down (timedOut "db")
  end.

Definition checkRedis (probe : Probe string) : DependencyCheck :=
  match probe with
  | Answers pong => if bool_decide (pong = "PONG") then Up else Down "unexpected ping reply"
  | Fails heap err => Down (described heap err)
  | Late => Down (timedOut "redis")
  end.

Definition isUp (c : DependencyCheck) : bool := match c with Up => true | Down _ => false end.

Definition checkReadiness (db : Probe unit) (redis : Probe string) : ReadinessResult :=
  let dbCheck := checkDb db in
  let redisCheck := checkRedis redis in
  {| rr_ok := isUp dbCheck && isUp redisCheck; rr_db := dbCheck; rr_redis := redisCheck |}.

(** [GET /readyz]: the status code, the status text and the checks made. *)
Definition readiness (isDraining : bool) (db : Probe unit) (redis : Probe string)
    : Z * string * option ReadinessResult :=
  if isDraining then (503, "draining", None)
  else
    let result := checkReadiness db redis in
    (if rr_ok result then 200 else 503, if rr_ok result then "ok" else "unavailable", Some result).

(** [ShutdownDrain]: draining from the first moment, then the wait. *)
Record ShutdownDrain := { dr_drainMs : Z; dr_draining : bool }.

Definition newDrain (SHUTDOWN_DRAIN_SECONDS : Z) : ShutdownDrain :=
  {| dr_drainMs := SHUTDOWN_DRAIN_SECONDS * 1000; dr_draining := false |}.

(** What the instance is while it waits, and for how long it does. *)
Definition beforeApplicationShutdown (d : ShutdownDrain) : ShutdownDrain * Z :=
  ({| dr_drainMs := dr_drainMs d; dr_draining := true |}, dr_drainMs d).

(** ** Request labels *)

Definition includesStar (s : string) : bool := negb (no_char "*"%char s).

(** [pattern] is [None] where the route's path is not text. *)
Definition routeLabelOf (baseUrl : string) (pattern : option string) : string :=
  match pattern with
  | Some p => if includesStar p then "unmatched" else baseUrl +:+ p
  | None => "unmatched"
  end.

Definition statusClassOf (statusCode : Z) : string := pretty (statusCode `div` 100) +:+ "xx".

(** ** Instruments *)

Notation Series := (gmap (list string) Z).

Definition inc (labels : list string) (by_ : Z) (series : Series) : Series :=
  <[labels := default 0 (series !! labels) + by_]> series.

Definition TERMINAL_PAYMENTS : list (list string) :=
  [["STRIPE"; "SUCCEEDED"]; ["STRIPE"; "FAILED"]; ["STRIPE"; "CANCELLED"]; ["CASH"; "SUCCEEDED"]].

Record Metrics := {
  mt_ordersCreated : Series; mt_payments : Series; mt_reconciliationRuns : Series;
  mt_rateLimitRejections : Series; mt_rateLimitBackendUnavailable : Series; mt_retentionRows : Series;
  mt_collectorFailures : Series; mt_reconciliationDelta : option Z }.

(** [for (const labels of all) counter.inc(labels, 0)]. *)
Definition atZero (all : list (list string)) : Series := foldl (fun s labels => inc labels 0 s) ∅ all.

Definition singly (l : list string) : list (list string) := map (fun s => [s]) l.

Definition newMetrics (channels rules retained : list string) : Metrics :=
  {| mt_ordersCreated := atZero (singly channels);
     mt_payments := atZero TERMINAL_PAYMENTS;
     mt_reconciliationRuns := atZero (singly ["agreed"; "delta"; "failed"]);
     mt_rateLimitRejections := atZero (singly rules);
     mt_rateLimitBackendUnavailable := atZero (singly ["allow"; "refuse"]);
     mt_retentionRows := atZero (singly retained);
     mt_collectorFailures := atZero (singly ["reconciliation_delta_minor"; "ws_connected"]);
     mt_reconciliationDelta := None |}.

Definition with_reconciliation (runs : Series) (delta : option Z) (m : Metrics) : Metrics :=
  {| mt_ordersCreated := mt_ordersCreated m; mt_payments := mt_payments m; mt_reconciliationRuns := runs;
     mt_rateLimitRejections := mt_rateLimitRejections m;
     mt_rateLimitBackendUnavailable := mt_rateLimitBackendUnavailable m;
     mt_retentionRows := mt_retentionRows m; mt_collectorFailures := mt_collectorFailures m;
     mt_reconciliationDelta := delta |}.

Definition recordReconciliation (deltaMinor : Z) (m : Metrics) : Metrics :=
  with_reconciliation (inc [if deltaMinor =? 0 then "agreed" else "delta"] 1 (mt_reconciliationRuns m))
    (Some deltaMinor) m.

Definition recordReconciliationFailure (m : Metrics) : Metrics :=
  with_reconciliation (inc ["failed"] 1 (mt_reconciliationRuns m)) None m.

(** ** Gauges read at scrape time *)

Record Sample := { sm_labels : list string; sm_value : Z }.

Definition FAILURE_LOG_INTERVAL_MS : Z := 60000.

Record ScrapedGauge := { sg_collector : string; sg_failureLog : LogThrottle }.

(** [get]: the values of this scrape, the failures counted and the line logged, if any. *)
Definition getGauge (now : Z) (read : Probe (list Sample)) (deadlineMs : Z) (g : ScrapedGauge) (failures : Series)
    : list Sample * ScrapedGauge * Series * option string :=
  match read with
  | Answers samples => (samples, g, failures, None)
  | Fails _ _ | Late =>
      let error := match read with
                   | Fails heap err => described heap err
                   | _ => "read exceeded its " +:+ pretty deadlineMs +:+ "ms deadline"
                   end in
      let '(suffix, throttle) := claim now (sg_failureLog g) in
      ([], {| sg_collector := sg_collector g; sg_failureLog := throttle |}, inc [sg_collector g] 1 failures,
       (fun suffix => "Could not read " +:+ sg_collector g +:+ "; exporting no value. " +:+ error +:+ suffix) <$> suffix)
  end.

(** ** The state no event announces ([state-gauges.ts]) *)

Definition oneOrZero (b : bool) : Z := if b then 1 else 0.

(** [business_open]: [None] where the read throws. *)
Definition businessOpen (tzOffset : string → Z → Z) (now : Z) (timeZone opens closes : string) : option (list Sample) :=
  b ← isOpenAt tzOffset now timeZone opens closes; Some [{| sm_labels := []; sm_value := oneOrZero b |}].

Definition dependencyUp (db : Probe unit) (redis : Probe string) : list Sample :=
  let result := checkReadiness db redis in
  [{| sm_labels := ["postgres"]; sm_value := oneOrZero (isUp (rr_db result)) |};
   {| sm_labels := ["redis"]; sm_value := oneOrZero (isUp (rr_redis result)) |}].

(** [coalesce(max(...), 0)] and [coalesce(now - min(...), 0)]. *)
Definition maxOr0 (l : list Z) : Z := match l with [] => 0 | x :: l => foldr Z.max x l end.

Definition isOverdue (now : Z) (o : OrderRow) : Prop :=
  o_status o = PENDING_PAYMENT ∧ match o_expiresAt o with Some t => t <? now | None => false end = true.

#[export] Instance isOverdue_dec now o : Decision (isOverdue now o).
Proof. unfold isOverdue. apply _. Defined.

Definition ordersOverdueMs (now : Z) (db : Database) : Z :=
  maxOr0 (map (fun e => now - default now (o_expiresAt e.2))
    (filter (fun e => isOverdue now e.2) (map_to_list (orders db)))).

Definition inboxOldestMs (now : Z) (db : Database) : Z :=
  maxOr0 (map (fun e => now - pe_receivedAt e.2)
    (filter (fun e => pe_processedAt e.2 = None) (map_to_list (paymentEvents db)))).

Definition kioskLastSeenMs (now : Z) (devices : gmap string DeviceRow) : list Sample :=
  map (fun e => {| sm_labels := [e.1];
                   sm_value := Z.max 0 (now - default (d_createdAt e.2) (d_lastSeenAt e.2)) |})
    (filter (fun e => d_status e.2 = DevACTIVE) (map_to_list devices)).

(** ** What the instruments say *)

(** An instance is reported ready exactly when it is not stopping, the database answered in
    time and Redis answered [PONG] in time; and its two dependency gauges say the same, so the
    probe and the alert cannot disagree. *)
Theorem ready_exactly isDraining db redis :
  ((readiness isDraining db redis).1.1 = 200 ↔
    isDraining = false ∧ (∃ u, db = Answers u) ∧ redis = Answers "PONG") ∧
  (isDraining = false →
    (readiness isDraining db redis).1.1 = 200 ↔ Forall (fun s => sm_value s = 1) (dependencyUp db redis)).
Proof.
  unfold readiness, dependencyUp, checkReadiness.
  assert (isUp (checkDb db) = true ↔ ∃ u, db = Answers u) as Hdb by (destruct db; cbn; naive_solver).
  assert (isUp (checkRedis redis) = true ↔ redis = Answers "PONG") as Hr.
  { destruct redis as [pong| |]; cbn; [case_bool_decide|..]; naive_solver. }
  rewrite <- Hdb, <- Hr. destruct isDraining; cbn;
    destruct (isUp (checkDb db)), (isUp (checkRedis redis)); cbn; rewrite ?Forall_cons; naive_solver.
Qed.

Lemma maxOr0_spec l : Forall (fun x => 0 < x) l →
  Forall (fun x => x ≤ maxOr0 l) l ∧ (maxOr0 l = 0 ↔ l = []) ∧ (l ≠ [] → maxOr0 l ∈ l).
Proof.
  assert (∀ x l, x ≤ foldr Z.max x l ∧ Forall (fun y => y ≤ foldr Z.max x l) l ∧
    (foldr Z.max x l = x ∨ foldr Z.max x l ∈ l)) as Hmax.
  { intros x l'. induction l' as [|y l' (H1 & H2 & H3)]; cbn; [split_and!; [lia|done|auto]|].
    split_and!; [lia|constructor; [lia|eapply Forall_impl; [exact H2|cbn; lia]]|].
    destruct (Z.max_spec y (foldr Z.max x l')) as [[_ ->]|[_ ->]]; [set_solver|set_solver]. }
  destruct l as [|x l]; [done|]. intros [Hx Hl]%Forall_cons. cbn [maxOr0].
  destruct (Hmax x l) as (H1 & H2 & H3). split_and!; [by constructor| |].
  - split; [lia|done].
  - intros _. destruct H3 as [-> | H3]; set_solver.
Qed.

(** The overdue gauge is the expiry job's backlog: it is zero exactly when the job would
    find nothing to expire, and otherwise it is the age past its expiry of the order that has
    waited longest. *)
Theorem overdue_gauge_is_backlog now db :
  (ordersOverdueMs now db = 0 ↔ overdue now db = []) ∧
  (∀ id o t, orders db !! id = Some o → o_status o = PENDING_PAYMENT → o_expiresAt o = Some t → t < now →
    now - t ≤ ordersOverdueMs now db) ∧
  (ordersOverdueMs now db ≠ 0 → ∃ id o t, orders db !! id = Some o ∧ isOverdue now o ∧
    o_expiresAt o = Some t ∧ ordersOverdueMs now db = now - t).
Proof.
  unfold ordersOverdueMs.
  set (late := filter (fun e => isOverdue now e.2) (map_to_list (orders db))).
  assert (∀ e, e ∈ late → orders db !! e.1 = Some e.2 ∧ isOverdue now e.2 ∧
    ∃ t, o_expiresAt e.2 = Some t ∧ t < now) as Hlate.
  { intros [id o] [Ho Hin%elem_of_map_to_list]%list_elem_of_filter. split; [done|]. split; [done|].
    destruct Ho as [_ Ht]. cbn in *. destruct (o_expiresAt o); [|done]. eexists. split; [done|]. lia. }
  destruct (maxOr0_spec (map (fun e => now - default now (o_expiresAt e.2)) late)) as (H1 & H2 & H3).
  { apply Forall_fmap, Forall_forall. intros e (_ & _ & t & Et & ?)%Hlate. cbn. rewrite Et. cbn. lia. }
  split_and!.
  - rewrite H2. change (overdue now db) with (take MAX_PER_TICK (fst <$> late)).
    destruct late as [|e l]; [done|]. split; [done|]. unfold MAX_PER_TICK. done.
  - intros id o t Ho Hs Ht Hlt.
    assert ((id, o) ∈ late) as Hin.
    { apply list_elem_of_filter. split; [|by apply elem_of_map_to_list]. split; [done|]. cbn. rewrite Ht. lia. }
    apply (list_elem_of_fmap_2 (fun e => now - default now (o_expiresAt e.2))) in Hin.
    rewrite Forall_forall in H1. apply H1 in Hin. cbn in Hin. by rewrite Ht in Hin.
  - intros Hne. destruct (decide (late = [])) as [E|E]; [by rewrite E in Hne|].
    apply list_elem_of_fmap in H3 as ([id o] & Ev & Hin); [|by intros ?%fmap_nil_inv].
    destruct (Hlate _ Hin) as (Ho & Hov & t & Et & _). cbn in *. rewrite Et in Ev.
    exists id, o, t. by rewrite Ev.
Qed.

Lemma inc_total labels n series :
  map_fold (fun _ v acc => v + acc) 0 (inc labels n series) = n + map_fold (fun _ v acc => v + acc) 0 series.
Proof.
  unfold inc. destruct (series !! labels) as [v|] eqn:E; cbn.
  - rewrite <- (insert_delete_id series labels v) at 2 by done. rewrite <- insert_delete_eq.
    rewrite !map_fold_insert_L by (lia || apply lookup_delete_eq || (intros; lia)). lia.
  - rewrite map_fold_insert_L by (done || (intros; lia)). lia.
Qed.

(** A night's reconciliation: the delta it found, or that it failed. *)
Definition recordNight (outcome : option Z) (m : Metrics) : Metrics :=
  match outcome with Some delta => recordReconciliation delta m | None => recordReconciliationFailure m end.

(** The reconciliation gauge is never stale: after any nights it exports the delta of the
    last one, or nothing when that one failed or none has run, and the runs counted by outcome
    come to the number of nights. *)
Theorem reconciliation_gauge_current nights channels rules retained :
  let m := foldl (fun m night => recordNight night m) (newMetrics channels rules retained) nights in
  mt_reconciliationDelta m = default None (last nights) ∧
  map_fold (fun _ v acc => v + acc) 0 (mt_reconciliationRuns m) = Z.of_nat (length nights).
Proof.
  induction nights as [|night nights IH] using rev_ind; [by split; vm_compute|].
  cbv zeta in *. rewrite foldl_snoc, last_snoc, length_app. cbn [length default].
  destruct IH as [_ IH]. destruct night as [delta|]; cbn [recordNight recordReconciliation recordReconciliationFailure
    with_reconciliation mt_reconciliationDelta mt_reconciliationRuns]; (split; [done|]);
    rewrite inc_total, IH; lia.
Qed.

(** A scraped gauge exports what this scrape read and nothing else: a read that failed or
    overran exports no value, never a zero or the value of an earlier scrape, and is counted. *)
Theorem gauge_never_invents now read deadlineMs g failures :
  let '(values, g', failures', line) := getGauge now read deadlineMs g failures in
  sg_collector g' = sg_collector g ∧
  match read with
  | Answers samples => values = samples ∧ failures' = failures ∧ line = None
  | _ => values = [] ∧
      failures' !! [sg_collector g] = Some (default 0 (failures !! [sg_collector g]) + 1)
  end.
Proof.
  unfold getGauge. destruct read; [done|..]; destruct (claim now (sg_failureLog g)) as [suffix throttle];
    (split; [done|]); (split; [done|]); apply lookup_insert_eq.
Qed.

(** A draining instance with healthy dependencies, and one whose Redis is wedged. *)
Example probes :
  readiness true (Answers tt) (Answers "PONG") = (503, "draining", None) ∧
  readiness false (Answers tt) Late =
    (503, "unavailable", Some {| rr_ok := false; rr_db := Up; rr_redis := Down "redis check timed out after 2000ms" |}).
Proof. split; vm_compute; reflexivity. Qed.
