(* ===== verification/Routes.v ===== *)
(** * Routes: the controllers' table of endpoints

    Every [*.controller.ts]: the verb and path of each route, its [@Public] or [@Roles], the status
    and headers it declares and whether its handler asks for the principal, in the order
    [app.module.ts] registers them, with the matching of a request against them. The endpoint
    catalog and the permission matrix of DESIGN.md (5.2 and 6.4) are transcribed apart from the
    routes. *)

From S2P Require Import Prelude Text Schema Errors Program Idempotency OrdersRead RateLimit Sessions Guards.
From S2P Require Import CreateOrder CreatePayment Replay.
From Stdlib Require Import Ascii.

Inductive Verb := Get | Post | Patch | Put.
Inductive Segment := Literal (s : string) | Param.

#[export] Instance Verb_eq_dec : EqDecision Verb.
Proof. solve_decision. Defined.
#[export] Instance Segment_eq_dec : EqDecision Segment.
Proof. solve_decision. Defined.

(** The segments of a path: one that begins with a colon is a parameter. *)
Definition segments (path : string) : list Segment :=
  map (fun s => match s with String ":" _ => Param | _ => Literal s end)
    (filter (fun s => s ≠ "") (split_on "/" path)).

Record Endpoint := {
  ep_verb : Verb;
  ep_path : list Segment;
  ep_handler : string;
  ep_route : Route;
  ep_status : Z;
  ep_noStore : bool;
  (** [@CurrentPrincipal()] among the handler's parameters. *)
  ep_principal : bool;
  (** The rule of [@RateLimit], where the route has its own. *)
  ep_rule : option RateLimitRule }.

Definition publicRoute : Route := {| ro_public := true; ro_roles := None |}.
Definition Roles (roles : list string) : Route := {| ro_public := false; ro_roles := Some roles |}.

Definition userRoleNames : list string := map roleText userRoles.
Definition principalRoles : list string := userRoleNames ++ [KIOSK_ROLE].

(** A route of a controller, with the verb's own status; the decorators that are not the default
    follow. *)
Definition endpoint (verb : Verb) (path handler : string) (route : Route) : Endpoint :=
  {| ep_verb := verb; ep_path := segments path; ep_handler := handler; ep_route := route;
     ep_status := match verb with Post => 201 | _ => 200 end; ep_noStore := false; ep_principal := false;
     ep_rule := None |}.

Definition HttpCode (status : Z) (e : Endpoint) : Endpoint :=
  {| ep_verb := ep_verb e; ep_path := ep_path e; ep_handler := ep_handler e; ep_route := ep_route e;
     ep_status := status; ep_noStore := ep_noStore e; ep_principal := ep_principal e; ep_rule := ep_rule e |}.
Definition NoStore (e : Endpoint) : Endpoint :=
  {| ep_verb := ep_verb e; ep_path := ep_path e; ep_handler := ep_handler e; ep_route := ep_route e;
     ep_status := ep_status e; ep_noStore := true; ep_principal := ep_principal e; ep_rule := ep_rule e |}.
Definition CurrentPrincipal (e : Endpoint) : Endpoint :=
  {| ep_verb := ep_verb e; ep_path := ep_path e; ep_handler := ep_handler e; ep_route := ep_route e;
     ep_status := ep_status e; ep_noStore := ep_noStore e; ep_principal := true; ep_rule := ep_rule e |}.
Definition Limited (rule : RateLimitRule) (e : Endpoint) : Endpoint :=
  {| ep_verb := ep_verb e; ep_path := ep_path e; ep_handler := ep_handler e; ep_route := ep_route e;
     ep_status := ep_status e; ep_noStore := ep_noStore e; ep_principal := ep_principal e; ep_rule := Some rule |}.

(** ** The controllers *)

Definition HealthController : list Endpoint :=
  [endpoint Get "healthz" "liveness" publicRoute;
   endpoint Get "readyz" "readiness" publicRoute].

Definition AuthController : list Endpoint :=
  [Limited loginRule (HttpCode 200 (endpoint Post "auth/login" "login" publicRoute));
   HttpCode 200 (endpoint Post "auth/refresh" "refresh" publicRoute);
   CurrentPrincipal (HttpCode 204 (endpoint Post "auth/logout" "logout" (Roles userRoleNames)));
   CurrentPrincipal (endpoint Get "auth/me" "me" (Roles principalRoles))].

Definition DevicesController : list Endpoint :=
  [CurrentPrincipal (endpoint Post "devices" "create" (Roles ["ADMIN"; "MANAGER"]));
   Limited deviceActivation (HttpCode 200 (endpoint Post "devices/activate" "activate" publicRoute));
   endpoint Get "devices" "list" (Roles ["ADMIN"; "MANAGER"]);
   endpoint Patch "devices/:id" "update" (Roles ["ADMIN"; "MANAGER"]);
   HttpCode 204 (endpoint Post "devices/:id/revoke" "revoke" (Roles ["ADMIN"; "MANAGER"]))].

Definition UsersController : list Endpoint :=
  [endpoint Post "users" "create" (Roles ["ADMIN"]);
   endpoint Get "users" "list" (Roles ["ADMIN"; "MANAGER"]);
   endpoint Patch "users/:id" "update" (Roles ["ADMIN"])].

Definition CategoriesController : list Endpoint :=
  [endpoint Post "categories" "create" (Roles ["ADMIN"; "MANAGER"]);
   endpoint Get "categories" "list" (Roles ["ADMIN"; "MANAGER"]);
   endpoint Patch "categories/:id" "update" (Roles ["ADMIN"; "MANAGER"])].

Definition ItemsController : list Endpoint :=
  [endpoint Post "items" "create" (Roles ["ADMIN"; "MANAGER"]);
   endpoint Get "items" "list" (Roles ["ADMIN"; "MANAGER"]);
   endpoint Patch "items/:id" "update" (Roles ["ADMIN"; "MANAGER"]);
   endpoint Patch "items/:id/availability" "setAvailability" (Roles ["ADMIN"; "MANAGER"; "CASHIER"; "BARISTA"]);
   endpoint Put "items/:id/option-groups" "setOptionGroups" (Roles ["ADMIN"; "MANAGER"]);
   HttpCode 200 (endpoint Post "items/:id/image" "uploadImage" (Roles ["ADMIN"; "MANAGER"]))].

Definition OptionGroupsController : list Endpoint :=
  [endpoint Post "option-groups" "create" (Roles ["ADMIN"; "MANAGER"]);
   endpoint Get "option-groups" "list" (Roles ["ADMIN"; "MANAGER"]);
   endpoint Patch "option-groups/:id" "update" (Roles ["ADMIN"; "MANAGER"]);
   endpoint Post "option-groups/:id/options" "createOption" (Roles ["ADMIN"; "MANAGER"])].

Definition OptionsController : list Endpoint :=
  [endpoint Patch "options/:id" "update" (Roles ["ADMIN"; "MANAGER"]);
   endpoint Patch "options/:id/availability" "setAvailability"
     (Roles ["ADMIN"; "MANAGER"; "CASHIER"; "BARISTA"])].

Definition MenuController : list Endpoint :=
  [endpoint Get "menu" "get" (Roles ["ADMIN"; "MANAGER"; "CASHIER"; "BARISTA"; "KIOSK"])].

Definition BoardController : list Endpoint := [NoStore (endpoint Get "orders/board" "snapshot" publicRoute)].

Definition OrdersController : list Endpoint :=
  [CurrentPrincipal (NoStore (endpoint Post "orders" "create" (Roles ["ADMIN"; "MANAGER"; "CASHIER"; "KIOSK"])));
   NoStore (endpoint Get "orders" "list" (Roles ["ADMIN"; "MANAGER"; "CASHIER"; "BARISTA"]));
   CurrentPrincipal (NoStore (endpoint Get "orders/:id" "detail"
     (Roles ["ADMIN"; "MANAGER"; "CASHIER"; "BARISTA"; "KIOSK"])));
   CurrentPrincipal (HttpCode 200 (NoStore (endpoint Post "orders/:id/status" "transition"
     (Roles ["ADMIN"; "MANAGER"; "CASHIER"; "BARISTA"]))));
   CurrentPrincipal (HttpCode 200 (NoStore (endpoint Post "orders/:id/checkout" "checkoutOrder"
     (Roles ["ADMIN"; "MANAGER"; "CASHIER"]))));
   CurrentPrincipal (HttpCode 200 (NoStore (endpoint Post "orders/:id/cancel" "cancel"
     (Roles ["ADMIN"; "MANAGER"; "CASHIER"; "KIOSK"]))))].

Definition StripeWebhookController : list Endpoint :=
  [HttpCode 200 (endpoint Post "webhooks/stripe" "receive" publicRoute)].

Definition CreatePaymentController : list Endpoint :=
  [CurrentPrincipal (HttpCode 201 (NoStore (endpoint Post "orders/:id/payments" "create"
     (Roles ["ADMIN"; "MANAGER"; "CASHIER"; "KIOSK"]))))].

Definition OrderPaymentsController : list Endpoint :=
  [CurrentPrincipal (NoStore (endpoint Get "orders/:id/payments" "list"
     (Roles ["ADMIN"; "MANAGER"; "CASHIER"; "BARISTA"; "KIOSK"])))].

Definition CreateRefundController : list Endpoint :=
  [CurrentPrincipal (HttpCode 201 (NoStore (endpoint Post "payments/:id/refunds" "create"
     (Roles ["ADMIN"; "MANAGER"]))))].

Definition ReportsController : list Endpoint :=
  [NoStore (endpoint Get "reports/sales" "sales" (Roles ["ADMIN"; "MANAGER"]));
   NoStore (endpoint Get "reports/top-items" "topItems" (Roles ["ADMIN"; "MANAGER"]));
   NoStore (endpoint Get "reports/z-report" "zReport" (Roles ["ADMIN"; "MANAGER"]))].

Definition KdsController : list Endpoint :=
  [NoStore (endpoint Get "kds/orders" "snapshot" (Roles ["ADMIN"; "MANAGER"; "CASHIER"; "BARISTA"]))].

(** The application's routes: the board's before the orders'. *)
Definition AppModule : list Endpoint :=
  HealthController ++ AuthController ++ DevicesController ++ UsersController ++ CategoriesController
  ++ ItemsController ++ OptionGroupsController ++ OptionsController ++ MenuController ++ BoardController
  ++ OrdersController ++ StripeWebhookController ++ CreatePaymentController ++ OrderPaymentsController
  ++ CreateRefundController ++ ReportsController ++ KdsController.

(** ** Matching a request *)

(** A parameter takes any one segment; text is compared without its case, as Express does. *)
Fixpoint matches (pattern : list Segment) (path : list string) : bool :=
  match pattern, path with
  | [], [] => true
  | Literal s :: pattern, t :: path => bool_decide (lowerText s = lowerText t) && matches pattern path
  | Param :: pattern, _ :: path => matches pattern path
  | _, _ => false
  end.

Definition dispatch (routes : list Endpoint) (verb : Verb) (path : list string) : option Endpoint :=
  find (fun e => bool_decide (ep_verb e = verb) && matches (ep_path e) path) routes.

(** ** Handlers that set a header *)

Section handlers.
Context (config : Config) (tzOffset : string → Z → Z) (sha256 : string → string).

(** [OrdersController.create]: the response, and its headers. *)
Definition ordersCreate (principal : Principal) (body : CreateOrderInput) (idempotencyKey : option string)
    (now : Z) (ids : NewIds) : prog (ResponseBody * list (string * string)) :=
  match parseIdempotencyKey idempotencyKey with
  | Err e => Throw e
  | Ok key =>
      r ← createOrder config tzOffset sha256 principal body key now ids;
      Return (r.1, if (r.2 : bool) then [("Idempotency-Replayed", "true")] else [])
  end.

(** [CreatePaymentController.create]. *)
Definition paymentsCreate (principal : Principal) (orderId : string) (body : CreatePaymentInput)
    (idempotencyKey : option string) (paymentId : string) (now : Z)
    : prog (ResponseBody * list (string * string)) :=
  match parseIdempotencyKey idempotencyKey with
  | Err e => Throw e
  | Ok key =>
      r ← createPayment sha256 principal orderId body key paymentId now;
      Return (r.1, if (r.2 : bool) then [("Idempotent-Replay", "true")] else [])
  end.
End handlers.

(** ** The endpoint catalog (DESIGN.md 5.2) *)

(** The Roles column: everyone, whoever signs the body, or these roles. *)
Inductive Access := Public | Signature | For (roles : list string).

Definition staffAccess : Access := For ["ADMIN"; "MANAGER"; "CASHIER"; "BARISTA"].
Definition anyAccess : Access := For ["ADMIN"; "MANAGER"; "CASHIER"; "BARISTA"; "KIOSK"].
Definition AM : Access := For ["ADMIN"; "MANAGER"].

(** Its HTTP rows, in its order; a row with two endpoints is two entries. The note beside
    PATCH /options/:id, that its availability is open to cashiers and baristas too, is no
    entry: the application serves that change at an endpoint of its own. *)
Definition catalogue : list (Verb * string * Access) :=
  [ (* Auth & staff *)
   (Post, "auth/login", Public); (Post, "auth/refresh", Public); (Post, "auth/logout", staffAccess);
   (Get, "auth/me", anyAccess); (Post, "users", For ["ADMIN"]); (Get, "users", AM); (Patch, "users/:id", For ["ADMIN"]);
   (* Kiosk devices *)
   (Post, "devices", AM); (Post, "devices/activate", Public); (Get, "devices", AM); (Patch, "devices/:id", AM);
   (Post, "devices/:id/revoke", AM);
   (* Catalog *)
   (Get, "menu", anyAccess); (Post, "categories", AM); (Patch, "categories/:id", AM);
   (Post, "items", AM); (Patch, "items/:id", AM); (Patch, "items/:id/availability", staffAccess);
   (Put, "items/:id/option-groups", AM); (Post, "option-groups", AM); (Patch, "option-groups/:id", AM);
   (Post, "option-groups/:id/options", AM); (Patch, "options/:id", AM);
   (Get, "categories", AM); (Get, "items", AM); (Get, "option-groups", AM);
   (* Orders *)
   (Post, "orders", For ["KIOSK"; "CASHIER"; "MANAGER"; "ADMIN"]); (Get, "orders", staffAccess);
   (Get, "orders/:id", anyAccess); (Post, "orders/:id/checkout", For ["CASHIER"; "MANAGER"; "ADMIN"]);
   (Post, "orders/:id/status", staffAccess); (Post, "orders/:id/cancel", For ["KIOSK"; "CASHIER"; "MANAGER"; "ADMIN"]);
   (Get, "orders/board", Public);
   (* Payments *)
   (Post, "orders/:id/payments", For ["KIOSK"; "CASHIER"; "MANAGER"; "ADMIN"]); (Get, "orders/:id/payments", anyAccess);
   (Post, "payments/:id/refunds", AM); (Post, "webhooks/stripe", Signature);
   (* KDS, reporting *)
   (Get, "kds/orders", staffAccess);
   (Get, "reports/sales", AM); (Get, "reports/top-items", AM); (Get, "reports/z-report", AM)].

(** What the application serves besides. *)
Definition uncatalogued : list (Verb * string * Access) :=
  [(Get, "healthz", Public); (Get, "readyz", Public); (Post, "items/:id/image", AM);
   (Patch, "options/:id/availability", staffAccess)].

(** ** The permission matrix (DESIGN.md 6.4) *)

(** Its rows, in its order. *)
Inductive Capability :=
| StaffAccounts | DevicePairing | MenuEditing | AvailabilityToggle | ReadMenu | PlaceOrder | ReadOrders
| DraftCheckout | KitchenMoves | HandOver | CancelPrePayment | CashPayment | GatewayIntent | RefundPayment
| Reporting | KdsSnapshot | PublicBoard.

(** A cell: a tick, a tick with a restriction (read, own, activate only), a dash, or public. *)
Inductive Cell := Tick | Restricted | Dash | Open.

#[export] Instance Cell_eq_dec : EqDecision Cell.
Proof. solve_decision. Defined.

(** Its columns are ADMIN, MANAGER, CASHIER, BARISTA, KIOSK. *)
Definition matrix (c : Capability) : list Cell :=
  match c with
  | StaffAccounts      => [Tick; Restricted; Dash; Dash; Dash]
  | DevicePairing      => [Tick; Tick; Dash; Dash; Restricted]
  | MenuEditing        => [Tick; Tick; Dash; Dash; Dash]
  | AvailabilityToggle => [Tick; Tick; Tick; Tick; Dash]
  | ReadMenu           => [Tick; Tick; Tick; Tick; Tick]
  | PlaceOrder         => [Tick; Tick; Tick; Dash; Restricted]
  | ReadOrders         => [Tick; Tick; Tick; Tick; Restricted]
  | DraftCheckout      => [Tick; Tick; Tick; Dash; Dash]
  | KitchenMoves       => [Tick; Tick; Tick; Tick; Dash]
  | HandOver           => [Tick; Tick; Tick; Tick; Dash]
  | CancelPrePayment   => [Tick; Tick; Tick; Dash; Restricted]
  | CashPayment        => [Tick; Tick; Tick; Dash; Dash]
  | GatewayIntent      => [Tick; Tick; Tick; Dash; Restricted]
  | RefundPayment      => [Tick; Tick; Dash; Dash; Dash]
  | Reporting          => [Tick; Tick; Dash; Dash; Dash]
  | KdsSnapshot        => [Tick; Tick; Tick; Tick; Dash]
  | PublicBoard        => [Open; Open; Open; Open; Open]
  end.

(** The roles a row gives a use to that a restricted tick covers, or does not. *)
Definition rolesOf (c : Capability) (restrictedToo : bool) : Access :=
  if bool_decide (matrix c = replicate 5 Open) then Public
  else For (filter (fun r => r ≠ "") (zip_with (fun role cell =>
         match cell with
         | Tick => role
         | Restricted => if restrictedToo then role else ""
         | _ => ""
         end) principalRoles (matrix c))).

(** The endpoints a capability is used at, and whether a restricted tick covers that use: a
    manager's read of the accounts, a tablet's own order. A tablet's part of the pairing row,
    activation, is public. Cash is apart: its endpoint is the gateway payment's. *)
Definition uses : list (Capability * Verb * string * bool) :=
  [(StaffAccounts, Post, "users", false); (StaffAccounts, Patch, "users/:id", false); (StaffAccounts, Get, "users", true);
   (DevicePairing, Post, "devices", false); (DevicePairing, Get, "devices", false);
   (DevicePairing, Patch, "devices/:id", false); (DevicePairing, Post, "devices/:id/revoke", false);
   (MenuEditing, Post, "categories", false); (MenuEditing, Patch, "categories/:id", false);
   (MenuEditing, Get, "categories", false); (MenuEditing, Post, "items", false); (MenuEditing, Patch, "items/:id", false);
   (MenuEditing, Get, "items", false); (MenuEditing, Put, "items/:id/option-groups", false);
   (MenuEditing, Post, "items/:id/image", false); (MenuEditing, Post, "option-groups", false);
   (MenuEditing, Patch, "option-groups/:id", false); (MenuEditing, Get, "option-groups", false);
   (MenuEditing, Post, "option-groups/:id/options", false); (MenuEditing, Patch, "options/:id", false);
   (AvailabilityToggle, Patch, "items/:id/availability", false);
   (AvailabilityToggle, Patch, "options/:id/availability", false);
   (ReadMenu, Get, "menu", false); (PlaceOrder, Post, "orders", true);
   (ReadOrders, Get, "orders", false); (ReadOrders, Get, "orders/:id", true); (ReadOrders, Get, "orders/:id/payments", true);
   (DraftCheckout, Post, "orders/:id/checkout", false); (KitchenMoves, Post, "orders/:id/status", false);
   (HandOver, Post, "orders/:id/status", false); (CancelPrePayment, Post, "orders/:id/cancel", true);
   (GatewayIntent, Post, "orders/:id/payments", true); (RefundPayment, Post, "payments/:id/refunds", false);
   (Reporting, Get, "reports/sales", false); (Reporting, Get, "reports/top-items", false);
   (Reporting, Get, "reports/z-report", false); (KdsSnapshot, Get, "kds/orders", false);
   (PublicBoard, Get, "orders/board", false)].

(** ** The routes are the matrix *)

Definition permitted (a : Access) (p : option Principal) : Prop :=
  match a with Public | Signature => True | For roles => ∃ q, p = Some q ∧ principalRole q ∈ roles end.

Definition endpointAt (verb : Verb) (path : string) : option Endpoint :=
  find (fun e => bool_decide (ep_verb e = verb ∧ ep_path e = segments path)) AppModule.

(** The guard of an endpoint lets through exactly those. *)
Definition admitsExactly (verb : Verb) (path : string) (a : Access) : Prop :=
  ∃ e, endpointAt verb path = Some e ∧ ∀ p, rolesGuard (ep_route e) p = Ok true ↔ permitted a p.

(** Cash is refused to a caller whatever the order and the tender. *)
Definition cashRefused (q : Principal) : Prop :=
  ∀ order input keyed paymentId now,
    takeCash q order input keyed paymentId now = Throw CashPaymentNotAllowedError.

Definition sameRoles (l k : list string) : bool :=
  forallb (fun r => bool_decide (r ∈ l ↔ r ∈ k)) principalRoles.

Definition grants (a : Access) (route : Route) : bool :=
  match a with
  | Public | Signature => ro_public route
  | For roles => negb (ro_public route) && match ro_roles route with Some l => sameRoles l roles | None => false end
  end.

Lemma principalRole_known p : principalRole p ∈ principalRoles.
Proof. destruct p as [u role|d]; [destruct role|]; vm_compute; set_solver. Qed.

Lemma grants_permits a route p : grants a route = true → rolesGuard route p = Ok true ↔ permitted a p.
Proof.
  unfold grants, permitted, rolesGuard. destruct a as [| |roles]; [by intros ->..|].
  intros [Hp Hr]%andb_true_iff. apply negb_true_iff in Hp. rewrite Hp.
  destruct (ro_roles route) as [l|]; [|done]. unfold sameRoles in Hr. rewrite forallb_forall in Hr.
  destruct p as [p|]; [|naive_solver].
  assert (principalRole p ∈ l ↔ principalRole p ∈ roles) as Hs.
  { apply (bool_decide_eq_true_1 _), Hr, list_elem_of_In, principalRole_known. }
  case_bool_decide; naive_solver.
Qed.

Lemma admits_computed verb path a :
  match endpointAt verb path with Some e => grants a (ep_route e) | None => false end = true →
  admitsExactly verb path a.
Proof.
  unfold admitsExactly. destruct (endpointAt verb path) as [e|]; [|done]. intros H. exists e. split; [done|].
  intros p. by apply grants_permits.
Qed.

Lemma cashRefused_device q : cashRefused q ↔ ∃ deviceId, q = DevicePrincipal deviceId.
Proof.
  split; [|by intros [d ->]]. destruct q as [u role|d]; [|eauto]. intros H.
  specialize (H {| po_id := ""; po_total := 0; po_currency := "" |}
    {| cp_method := CASH; cp_cashTenderedMinor := None |} None "" 0). discriminate H.
Qed.

(** C33. The routes enforce the design's tables. The application serves each HTTP endpoint of the
    endpoint catalog once and four more, the two probes, the item photo and the availability of
    an option (which the catalog has as part of PATCH /options/:id); the guard of each lets
    through exactly the roles of the catalog's Roles column, and of the four exactly those
    listed here. Row by row of the permission matrix, the guard of every endpoint the capability
    is used at lets through exactly the roles with a tick, a restricted one where the use is
    within the restriction; for cash, which a tablet may not take though it may open a gateway
    payment at the same endpoint, the guard and the refusal inside the handler together do. A
    handler that reads the principal always has one. *)
Theorem matrix_enforced :
  map (fun e => (ep_verb e, ep_path e)) AppModule ≡ₚ map (fun x => (x.1.1, segments x.1.2)) (catalogue ++ uncatalogued) ∧
  Forall (fun x => admitsExactly x.1.1 x.1.2 x.2) (catalogue ++ uncatalogued) ∧
  Forall (fun x => admitsExactly x.1.1.2 x.1.2 (rolesOf x.1.1.1 x.2)) uses ∧
  (∃ e, endpointAt Post "orders/:id/payments" = Some e ∧
    ∀ q, rolesGuard (ep_route e) (Some q) = Ok true ∧ ¬ cashRefused q ↔ permitted (rolesOf CashPayment false) (Some q)) ∧
  Forall (fun e => ep_principal e = true → rolesGuard (ep_route e) None ≠ Ok true) AppModule.
Proof.
  split; [by apply (bool_decide_unpack _)|]. split; [|split; [|split]].
  - repeat constructor; apply admits_computed; vm_compute; reflexivity.
  - repeat constructor; apply admits_computed; vm_compute; reflexivity.
  - destruct (admits_computed Post "orders/:id/payments" (rolesOf GatewayIntent true) eq_refl) as (e & He & Hg).
    exists e. split; [done|]. intros q. rewrite Hg, cashRefused_device. unfold permitted.
    change (rolesOf GatewayIntent true) with (For ["ADMIN"; "MANAGER"; "CASHIER"; "KIOSK"]).
    change (rolesOf CashPayment false) with (For ["ADMIN"; "MANAGER"; "CASHIER"]).
    split.
    + intros [(q' & [= <-] & Hin) Hd]. exists q. split; [done|].
      destruct q as [u role|d]; [destruct role; set_solver|by destruct Hd; exists d].
    + intros (q' & [= <-] & Hin). split; [exists q; split; [done|]; set_solver|].
      intros [d ->]. cbn in Hin. set_solver.
  - by repeat constructor; vm_compute.
Qed.

(** ** No route hides another *)

(** Some path fits both patterns. *)
Fixpoint overlaps (a b : list Segment) : bool :=
  match a, b with
  | [], [] => true
  | Literal s :: a, Literal t :: b => bool_decide (lowerText s = lowerText t) && overlaps a b
  | _ :: a, _ :: b => overlaps a b
  | _, _ => false
  end.

Lemma matches_overlaps a : ∀ b path, matches a path = true → matches b path = true → overlaps a b = true.
Proof.
  induction a as [|x a IH]; intros [|y b] [|t path] Ha Hb; try done; try by destruct y.
  all: try by destruct x.
  destruct x as [s|], y as [u|]; cbn in *; rewrite ?andb_true_iff in *; try naive_solver.
  destruct Ha as [Ha%bool_decide_eq_true Ha'], Hb as [Hb%bool_decide_eq_true Hb'].
  split; [apply bool_decide_eq_true; congruence|eauto].
Qed.

(** Which later endpoint an earlier one hides in part. *)
Fixpoint hidden (routes : list Endpoint) : list (string * string) :=
  match routes with
  | [] => []
  | e :: rest =>
      map (fun e' => (ep_handler e, ep_handler e'))
        (filter (fun e' => ep_verb e' = ep_verb e ∧ overlaps (ep_path e) (ep_path e') = true) rest) ++ hidden rest
  end.

Lemma dispatch_own routes e verb path :
  e ∈ routes → ep_verb e = verb → matches (ep_path e) path = true →
  dispatch routes verb path = Some e ∨ ∃ e', e' ∈ routes ∧ dispatch routes verb path = Some e' ∧
    (ep_handler e', ep_handler e) ∈ hidden routes.
Proof.
  intros He Hv Hm. induction routes as [|e0 routes IH]; [by apply elem_of_nil in He|]. unfold dispatch in *. cbn [find].
  apply elem_of_cons in He as [<-|He].
  { left. by rewrite bool_decide_true, Hm. }
  destruct (bool_decide (ep_verb e0 = verb) && matches (ep_path e0) path) eqn:E0.
  - right. exists e0. split; [by constructor|]. split; [done|].
    apply andb_true_iff in E0 as [E1%bool_decide_eq_true E2]. cbn [hidden]. apply elem_of_app. left.
    apply list_elem_of_fmap. exists e. split; [done|]. apply list_elem_of_filter. split; [|done].
    split; [congruence|]. by eapply matches_overlaps.
  - destruct (IH He) as [->|(e' & H1 & H2 & H3)]; [by left|]. right. exists e'. cbn [hidden].
    split; [by constructor|]. split; [done|]. apply elem_of_app. by right.
Qed.

Lemma hidden_routes : hidden AppModule = [("snapshot", "detail")].
Proof. vm_compute. reflexivity. Qed.

(** Every route is reached by its own paths: a request whose verb and path fit an endpoint is
    handled by it, and the one exception is deliberate, an order's page whose id is the word
    "board", which is the public board's. *)
Theorem routes_reached e verb path :
  e ∈ AppModule → ep_verb e = verb → matches (ep_path e) path = true →
  dispatch AppModule verb path = Some e ∨
  (ep_handler e = "detail" ∧ ∃ e', dispatch AppModule verb path = Some e' ∧ ep_handler e' = "snapshot").
Proof.
  intros He Hv Hm. destruct (dispatch_own _ _ _ _ He Hv Hm) as [->|(e' & _ & Hd & Hh)]; [by left|]. right.
  rewrite hidden_routes in Hh. apply list_elem_of_singleton in Hh. injection Hh as H1 H2. eauto.
Qed.

Example dispatches :
  ep_handler <$> dispatch AppModule Get ["orders"; "board"] = Some "snapshot" ∧
  ep_handler <$> dispatch AppModule Get ["orders"; "0198"] = Some "detail" ∧
  ep_handler <$> dispatch AppModule Post ["devices"; "activate"] = Some "activate" ∧
  dispatch AppModule Put ["orders"] = None.
Proof. split_and!; vm_compute; reflexivity. Qed.

(** The page of one order. *)
Lemma routes_reached_witness :
  ∃ e, ep_handler e = "detail" ∧ dispatch AppModule Get ["orders"; "0198"] = Some e.
Proof.
  exists (nth 33 AppModule (endpoint Get "" "" publicRoute)). split; [reflexivity|].
  destruct (routes_reached (nth 33 AppModule (endpoint Get "" "" publicRoute)) Get ["orders"; "0198"])
    as [H|(_ & e' & H & Hs)].
  - apply list_elem_of_In, nth_In. vm_compute. lia.
  - reflexivity.
  - reflexivity.
  - exact H.
  - exfalso. vm_compute in H. injection H as <-. discriminate Hs.
Defined.

(** ** Replays are marked *)

Lemma run_answered {A B} gw (p : prog A) (k : A → prog B) db db' log a :
  run gw p db = (db', log, Ok a) →
  run gw (p ≫= k) db = (let '(db2, log2, r) := run gw (k a) db' in (db2, log ++ log2, r)).
Proof. intros Hp. unfold mbind, prog_bind. by rewrite run_after, Hp. Qed.

(** A replayed order is answered with the header the documentation names; a replayed payment with
    another one, and not with that. *)
Theorem replays_marked_apart (config : Config) tzOffset sha256 gw db db' log principal raw key body :
  parseIdempotencyKey raw = Ok key →
  (∀ input now ids, run gw (createOrder config tzOffset sha256 principal input key now ids) db = (db', log, Ok (body, true)) →
    run gw (ordersCreate config tzOffset sha256 principal input raw now ids) db
    = (db', log, Ok (body, [("Idempotency-Replayed", "true")]))) ∧
  (∀ orderId input paymentId now,
    run gw (createPayment sha256 principal orderId input key paymentId now) db = (db', log, Ok (body, true)) →
    run gw (paymentsCreate sha256 principal orderId input raw paymentId now) db
    = (db', log, Ok (body, [("Idempotent-Replay", "true")]))).
Proof.
  intros Hk. unfold ordersCreate, paymentsCreate. rewrite Hk. split.
  - intros input now ids H. rewrite (run_answered _ _ _ _ _ _ _ H). cbn. by rewrite app_nil_r.
  - intros orderId input paymentId now H. rewrite (run_answered _ _ _ _ _ _ _ H). cbn. by rewrite app_nil_r.
Qed.
