(* ===== verification/Edge.v ===== *)
(** * Edge: what stands around every request

    [bootstrap.ts], [observability/metrics/http-metrics.ts], [common/logging/pino-options.ts],
    [identity/decorators/current-principal.decorator.ts] and the port of
    [observability/errors/error-reporter.ts]: where a route is mounted, which origins and
    methods a browser may use, what is counted, logged and reported of each request. The
    Express router, the [cors] package and [helmet] are the framework's: [configureApp] is
    what they are given. *)

From S2P Require Import Prelude Text Schema Errors OrdersRead Idempotency RateLimit Sessions Guards Routes Diagnostics Problems Monitoring.
From Stdlib Require Import Ascii.

(** ** Where the routes are *)

Definition JSON_BODY_LIMIT : Z := 64 * 1024.
Definition API_PREFIX : string := "api/v1".

Definition CORS_METHODS : list string := ["GET"; "POST"; "PATCH"; "PUT"; "DELETE"].

Definition UNPREFIXED_ROUTES : list (Verb * list Segment) :=
  [(Get, segments "healthz"); (Get, segments "readyz")].

Definition verbText (v : Verb) : string :=
  match v with Get => "GET" | Post => "POST" | Patch => "PATCH" | Put => "PUT" end.

Definition atPath (path : list Segment) (e : Endpoint) : Endpoint :=
  {| ep_verb := ep_verb e; ep_path := path; ep_handler := ep_handler e; ep_route := ep_route e;
     ep_status := ep_status e; ep_noStore := ep_noStore e; ep_principal := ep_principal e; ep_rule := ep_rule e |}.

(** [setGlobalPrefix(API_PREFIX, { exclude })]. *)
Definition mount (e : Endpoint) : Endpoint :=
  if bool_decide ((ep_verb e, ep_path e) ∈ UNPREFIXED_ROUTES) then e
  else atPath (segments API_PREFIX ++ ep_path e) e.

Definition served : list Endpoint := map mount AppModule.

(** ** Cross-origin requests *)

Record CorsOptions := {
  co_origin : list string; co_methods : list string; co_allowedHeaders : list string;
  co_exposedHeaders : list string; co_credentials : bool; co_maxAge : Z }.

(** What [configureApp] registers, in its order. *)
Inductive Layer :=
| TimeRequests
| GlobalPrefix (prefix : string)
| Helmet
| JsonBody (limit : Z)
| Cors (options : CorsOptions)
| ShutdownHooks.

Definition corsOptions (origins : list string) : CorsOptions :=
  {| co_origin := origins; co_methods := CORS_METHODS;
     co_allowedHeaders := ["Authorization"; "Content-Type"; "Idempotency-Key"];
     co_exposedHeaders := ["X-Request-Id"]; co_credentials := false; co_maxAge := 600 |}.

Definition configureApp (corsOrigins : list string) : list Layer :=
  [TimeRequests; GlobalPrefix API_PREFIX; Helmet; JsonBody JSON_BODY_LIMIT]
  ++ (match corsOrigins with [] => [] | _ => [Cors (corsOptions corsOrigins)] end)
  ++ [ShutdownHooks].

(** What the [cors] package documents of these options: the origins, methods and headers a
    preflight is granted are those listed. *)
Definition grantedBy (layers : list Layer) (origin method : string) (headers : list string) : bool :=
  existsb (fun layer => match layer with
    | Cors o => bool_decide (origin ∈ co_origin o) && bool_decide (method ∈ co_methods o)
                && forallb (fun h => bool_decide (h ∈ co_allowedHeaders o)) headers
    | _ => false
    end) layers.

(** ** The timing of a request *)

Definition UNTIMED_PATHS : list string := ["/healthz"; "/readyz"].

(** A request when it has finished: its path, its method, where the router left it
    ([route.path], [None] if not text) and the status it was answered with. *)
Record Finished := {
  fi_path : string; fi_method : string; fi_baseUrl : string; fi_pattern : option string; fi_status : Z }.

Definition labelsOf (r : Finished) : list string :=
  [fi_method r; routeLabelOf (fi_baseUrl r) (fi_pattern r); statusClassOf (fi_status r)].

(** [timeHttpRequests]: how many requests [http_request_duration_seconds] has observed. *)
Definition timeHttpRequests (r : Finished) (observed : Series) : Series :=
  if bool_decide (fi_path r ∈ UNTIMED_PATHS) then observed else inc (labelsOf r) 1 observed.

(** The pattern of a route as it is registered; every parameter of the controllers is [:id]. *)
Definition patternOf (e : Endpoint) : string :=
  String.concat "" (map (fun s => "/" +:+ match s with Literal t => t | Param => ":id" end) (ep_path e)).

(** The router's part: the first route that matches, at the root. *)
Definition routed (verb : Verb) (path : list string) (rawPath : string) (status : Z) : Finished :=
  {| fi_path := rawPath; fi_method := verbText verb; fi_baseUrl := "";
     fi_pattern := patternOf <$> dispatch served verb path; fi_status := status |}.

(** ** The request's log line *)

Definition SILENT_PATHS : list string := ["/healthz"; "/readyz"].

(** [(req.url ?? '').split('?')[0]]. *)
Definition pathOfUrl (url : option string) : string :=
  default "" (head (split_on "?"%char (default "" url))).

Definition ignored (url : option string) : bool := bool_decide (pathOfUrl url ∈ SILENT_PATHS).

Inductive Level := LevelDebug | LevelInfo | LevelWarn | LevelError.

Definition customLogLevel (statusCode : Z) (err : bool) : Level :=
  if statusCode =? 503 then LevelWarn
  else if err || (500 <=? statusCode) then LevelError
  else if 400 <=? statusCode then LevelWarn
  else LevelInfo.

(** [buildLoggerOptions]: the least level written, and whether lines are made readable. *)
Definition buildLoggerOptions (NODE_ENV : string) : Level * bool :=
  let isDev := bool_decide (NODE_ENV = "development") in
  (if isDev then LevelDebug else LevelInfo, isDev).

(** The serializers: of a request its id, method and address, of a response its status. *)
Record RawRequest := { raw_id : string; raw_method : string; raw_url : string; raw_headers : list (string * string) }.

Definition serializedRequest (r : RawRequest) : list (string * string) :=
  [("id", raw_id r); ("method", raw_method r); ("url", raw_url r)].

(** ** Reports *)

Record ErrorContext := { ec_requestId : string; ec_method : string; ec_route : string }.

(** What a reporter sends of an error: nothing, or the error with three tags. *)
Inductive ErrorReporter := NoopErrorReporter | SentryErrorReporter.

#[export] Instance ErrorReporter_eq_dec : EqDecision ErrorReporter.
Proof. solve_decision. Defined.
#[export] Instance Noted_eq_dec : EqDecision Noted.
Proof. solve_decision. Defined.

Definition report (reporter : ErrorReporter) (error : Thrown) (context : ErrorContext)
    : option (Thrown * list (string * string)) :=
  match reporter with
  | NoopErrorReporter => None
  | SentryErrorReporter =>
      Some (error, [("method", ec_method context); ("route", ec_route context); ("request_id", ec_requestId context)])
  end.

(** [catch] of the exception filter, with what it reports. *)
Definition reported (reporter : ErrorReporter) (error : Thrown) (requestId : string) (r : Finished)
    : option (Thrown * list (string * string)) :=
  match (catchException error requestId).2 with
  | Reported => report reporter error {| ec_requestId := requestId; ec_method := fi_method r;
                                         ec_route := routeLabelOf (fi_baseUrl r) (fi_pattern r) |}
  | _ => None
  end.

(** [principalFromContext]. *)
Definition principalFromContext (principal : option Principal) : result AppError Principal :=
  match principal with
  | Some p => Ok p
  | None => Err (JsError "Handler requested @CurrentPrincipal but no principal was resolved — the route is @Public.")
  end.

(** ** Mounting *)

(** The routes that are not probes, and where they are. *)
Definition versioned : list Endpoint :=
  filter (fun e => (ep_verb e, ep_path e) ∉ UNPREFIXED_ROUTES) AppModule.

Definition underPrefix (e : Endpoint) : Endpoint := atPath (segments API_PREFIX ++ ep_path e) e.

Lemma prefix_segments : segments API_PREFIX = [Literal "api"; Literal "v1"].
Proof. by vm_compute. Qed.

Lemma served_split : served = HealthController ++ map underPrefix versioned.
Proof. by vm_compute. Qed.

Lemma find_app_l {A} (f : A → bool) l1 l2 : Forall (fun x => f x = false) l1 → find f (l1 ++ l2) = find f l2.
Proof. induction 1 as [|x l Hx _ IH]; [done|]. cbn. by rewrite Hx. Qed.

Lemma find_app_r {A} (f : A → bool) l1 l2 : Forall (fun x => f x = false) l2 → find f (l1 ++ l2) = find f l1.
Proof.
  intros H2. induction l1 as [|x l IH]; cbn.
  - induction H2 as [|y l Hy _ IH]; [done|]. cbn. by rewrite Hy.
  - by destruct (f x).
Qed.

Lemma find_fmap {A B} (g : A → B) (f : B → bool) l : find f (map g l) = g <$> find (fun x => f (g x)) l.
Proof. induction l as [|x l IH]; [done|]. cbn. by destruct (f (g x)). Qed.

(** Every route but the two probes answers under [/api/v1] and only there: a request under the
    prefix reaches what the table of routes gives for the rest of its path, and a request
    elsewhere reaches a probe or nothing. *)
Theorem prefix_mounts verb path :
  (∀ rest, path = "api" :: "v1" :: rest →
     dispatch served verb path = underPrefix <$> dispatch versioned verb rest) ∧
  (take 2 (map lowerText path) ≠ ["api"; "v1"] →
     dispatch served verb path = dispatch HealthController verb path).
Proof.
  unfold dispatch. rewrite served_split. split.
  - intros rest ->. rewrite find_app_l by (by repeat constructor; destruct verb; vm_compute).
    rewrite find_fmap. done.
  - intros Hne. apply find_app_r, Forall_fmap, Forall_forall. intros e _.
    cbn [compose underPrefix atPath ep_verb ep_path]. rewrite prefix_segments.
    apply andb_false_iff. right. destruct path as [|a [|b path]]; [done|cbn -[lowerText]; by destruct (bool_decide _)|].
    cbn [matches app]. change (lowerText "api") with "api". change (lowerText "v1") with "v1".
    repeat case_bool_decide; [|done..]. exfalso. apply Hne. cbn [map take]. by rewrite <-H, <-H0.
Qed.

(** ** Cross-origin requests *)

(** A browser on a configured origin may use every route there is, with every header a handler
    reads; one on another origin may use none, and with no origin configured nobody is granted
    anything. *)
Theorem cors_covers_routes corsOrigins origin e headers :
  e ∈ AppModule → headers ⊆ ["Authorization"; "Content-Type"; "Idempotency-Key"] →
  grantedBy (configureApp corsOrigins) origin (verbText (ep_verb e)) headers = true ↔ origin ∈ corsOrigins.
Proof.
  intros _ Hh.
  assert (verbText (ep_verb e) ∈ CORS_METHODS) as Hm by (destruct (ep_verb e); by apply (bool_decide_unpack _); vm_compute).
  assert (forallb (fun h => bool_decide (h ∈ ["Authorization"; "Content-Type"; "Idempotency-Key"])) headers = true) as Hf.
  { apply forallb_forall. intros h Hin%list_elem_of_In. apply bool_decide_eq_true. by apply Hh. }
  destruct corsOrigins as [|o l]; [cbn; set_solver|]. cbn [grantedBy configureApp existsb app].
  unfold grantedBy, configureApp. cbn [existsb app corsOptions co_origin co_methods co_allowedHeaders].
  rewrite Hf, (bool_decide_eq_true_2 _ Hm), !andb_true_r, orb_false_r. cbn. by rewrite bool_decide_eq_true.
Qed.

(** ** Timing *)

Lemma dispatch_elem routes verb path e : dispatch routes verb path = Some e → e ∈ routes.
Proof. unfold dispatch. intros [H _]%find_some. by apply list_elem_of_In. Qed.

Lemma no_wildcards : Forall (fun e => includesStar (patternOf e) = false) served.
Proof. by repeat constructor. Qed.

(** What the duration metric can be labelled with is fixed by the routes: a request is labelled
    with the pattern of the route it matched, in full, or as unmatched, whatever its path
    holds; and each finished request is counted once, under its own labels, a probe not at all. *)
Theorem durations_labelled verb path rawPath status observed :
  let r := routed verb path rawPath status in
  let route := match dispatch served verb path with Some e => patternOf e | None => "unmatched" end in
  route ∈ "unmatched" :: map patternOf served ∧
  labelsOf r = [verbText verb; route; statusClassOf status] ∧
  map_fold (fun _ v acc => v + acc) 0 (timeHttpRequests r observed) =
    (if bool_decide (rawPath ∈ UNTIMED_PATHS) then 0 else 1) + map_fold (fun _ v acc => v + acc) 0 observed ∧
  (rawPath ∉ UNTIMED_PATHS → timeHttpRequests r observed !! [verbText verb; route; statusClassOf status]
    = Some (default 0 (observed !! [verbText verb; route; statusClassOf status]) + 1)).
Proof.
  cbv zeta. assert (labelsOf (routed verb path rawPath status) =
    [verbText verb; match dispatch served verb path with Some e => patternOf e | None => "unmatched" end; statusClassOf status])
    as Hl.
  { unfold labelsOf, routed. cbn [fi_method fi_baseUrl fi_pattern fi_status].
    destruct (dispatch served verb path) as [e|] eqn:E; [|done]. cbn [fmap option_fmap option_map routeLabelOf].
    apply dispatch_elem in E. assert (includesStar (patternOf e) = false) as ->; [|done].
    pose proof no_wildcards as Hw. rewrite Forall_forall in Hw. by apply Hw. }
  split; [|split; [done|]].
  - destruct (dispatch served verb path) as [e|] eqn:E; [|set_solver]. apply dispatch_elem in E.
    apply elem_of_cons. right. by apply list_elem_of_fmap_2.
  - unfold timeHttpRequests. cbn [fi_path routed]. change (fi_path (routed verb path rawPath status)) with rawPath.
    rewrite Hl. case_bool_decide; [done|]. split; [apply inc_total|]. intros _. apply lookup_insert_eq.
Qed.

(** ** Logging *)

(** What the filter notes, by the status it answers with. *)
Lemma catch_levels e message requestId p noted :
  catchException (thrown e message) requestId = (p, noted) →
  (noted = Reported ↔ pd_status p = 500) ∧ (noted = Warned ↔ pd_status p = 503) ∧
  (pd_status p ≠ 500 → pd_status p ≠ 503 → 400 ≤ pd_status p < 500).
Proof.
  intros E. unfold catchException, thrown in E. destruct e.
  all: try (cbn in E; injection E as <- <-; cbn; (split; [split; intros H; first [done|discriminate H]|]);
    (split; [split; intros H; first [done|discriminate H]|]); intros; lia).
  destruct statusCode as [status|]; [|by injection E as <- <-; cbn; naive_solver lia].
  change (appException (GatewayFault (Some status) detail)) with (@None AppException) in E.
  cbn [toProblem multerStatusOf httpStatusOf] in E.
  rewrite bool_decide_eq_false_2 in E by done.
  destruct ((400 <=? status) && (status <? 500)) eqn:Hr; [|by injection E as <- <-; cbn; naive_solver lia].
  apply andb_true_iff in Hr as [H4%Z.leb_le H5%Z.ltb_lt].
  destruct (clientProblem_quiet status message requestId) as (Hs & _ & Hc); [lia|].
  rewrite bool_decide_eq_false_2 in E by done. injection E as <- <-. rewrite Hs.
  destruct (Z.leb_spec 500 status); [lia|]. naive_solver lia.
Qed.

(** The filter and the request's line tell a human the same: for every error a service throws,
    the line is at [error] exactly when the filter reports the fault, an unreachable dependency
    and a client's mistake are at [warn], and the report carries the route's pattern and not
    the path. *)
Theorem levels_agree e message requestId r reporter :
  let '(p, noted) := catchException (thrown e message) requestId in
  (customLogLevel (pd_status p) false = LevelError ↔ noted = Reported) ∧
  (noted = Warned → customLogLevel (pd_status p) false = LevelWarn) ∧
  (noted = Quiet → customLogLevel (pd_status p) false = LevelWarn ∧ 400 ≤ pd_status p < 500) ∧
  (reported reporter (thrown e message) requestId r =
    if bool_decide (noted = Reported ∧ reporter = SentryErrorReporter)
    then Some (thrown e message, [("method", fi_method r); ("route", routeLabelOf (fi_baseUrl r) (fi_pattern r));
                                  ("request_id", requestId)])
    else None).
Proof.
  unfold reported. destruct (catchException (thrown e message) requestId) as [p noted] eqn:E. cbn [snd].
  assert ((noted = Reported ↔ pd_status p = 500) ∧ (noted = Warned ↔ pd_status p = 503) ∧
    (pd_status p ≠ 500 → pd_status p ≠ 503 → 400 ≤ pd_status p < 500)) as (Hr & Hw & Hq).
  { by eapply catch_levels. }
  unfold customLogLevel. cbn [orb]. split_and!.
  - rewrite Hr. destruct (pd_status p =? 503) eqn:E3; [split; [done|lia]|].
    destruct (500 <=? pd_status p) eqn:E5; [split; [intros _|done]|destruct (400 <=? _); split; [done|lia|done|lia]].
    destruct (decide (pd_status p = 500)); [done|]. exfalso. lia.
  - intros ->%Hw. done.
  - intros Hn. assert (pd_status p ≠ 500) as H5 by (intros ?%Hr; congruence).
    assert (pd_status p ≠ 503) as H3 by (intros ?%Hw; congruence). specialize (Hq H5 H3). split; [|done].
    destruct (pd_status p =? 503); [done|]. destruct (500 <=? pd_status p) eqn:E5; [lia|].
    destruct (400 <=? pd_status p) eqn:E4; [done|lia].
  - destruct noted; [by rewrite bool_decide_eq_false_2 by naive_solver..|].
    destruct reporter; cbn; [by rewrite bool_decide_eq_false_2 by naive_solver|by rewrite bool_decide_eq_true_2].
Qed.

(** ** The principal of a handler *)

(** A handler that asks for the principal always gets the one the guards let in: for every route
    that asks, a request that passes its guard has a principal, so the fault the decorator
    guards against is never met. *)
Theorem principal_resolved e principal :
  e ∈ AppModule → ep_principal e = true → rolesGuard (ep_route e) principal = Ok true →
  ∃ p, principal = Some p ∧ principalFromContext principal = Ok p.
Proof.
  intros He Hp Hg. destruct principal as [p|]; [by exists p|]. exfalso. revert e He Hp Hg.
  assert (Forall (fun e => ep_principal e = true → rolesGuard (ep_route e) None ≠ Ok true) AppModule) as H
    by (by repeat constructor; vm_compute).
  rewrite Forall_forall in H. intros e He Hp Hg. by eapply H.
Qed.

(** ** A day at the edge *)

Module Counter.
Definition origin : string := "https://office.example".

Lemma cors_covers_routes_witness :
  grantedBy (configureApp [origin]) origin "PUT" ["Authorization"] = true.
Proof.
  pose (e := endpoint Put "items/:id/option-groups" "setOptionGroups" (Roles ["ADMIN"; "MANAGER"])).
  apply (cors_covers_routes [origin] origin e ["Authorization"]); [|set_solver|set_solver].
  by apply (list_elem_of_lookup_2 _ 21).
Defined.

Lemma principal_resolved_witness :
  ∃ p, Some (DevicePrincipal "kiosk-1") = Some p ∧ principalFromContext (Some (DevicePrincipal "kiosk-1")) = Ok p.
Proof.
  pose (e := CurrentPrincipal (endpoint Get "auth/me" "me" (Roles principalRoles))).
  apply (principal_resolved e (Some (DevicePrincipal "kiosk-1"))); [|done|done].
  by apply (list_elem_of_lookup_2 _ 5).
Defined.

Lemma prefix_mounts_witness :
  ep_handler <$> dispatch served Post ["api"; "v1"; "orders"; "o1"; "cancel"] = Some "cancel" ∧
  dispatch served Post ["orders"; "o1"; "cancel"] = None ∧
  ep_handler <$> dispatch served Get ["readyz"] = Some "readiness".
Proof.
  rewrite (proj1 (prefix_mounts Post ["api"; "v1"; "orders"; "o1"; "cancel"]) ["orders"; "o1"; "cancel"] eq_refl).
  rewrite (proj2 (prefix_mounts Post ["orders"; "o1"; "cancel"]) ltac:(done)).
  split; [by vm_compute|]. split; by vm_compute.
Defined.

(** The response headers a script on a granted origin may read, beyond those the Fetch
    standard always allows: the request's id, and not the mark of a replayed order nor how long
    to wait after a 429. *)
Theorem replay_mark_not_exposed :
  match configureApp [origin] !! 4%nat with
  | Some (Cors o) => "X-Request-Id" ∈ co_exposedHeaders o ∧ "Idempotency-Replayed" ∉ co_exposedHeaders o ∧
      "Retry-After" ∉ co_exposedHeaders o
  | _ => False
  end.
Proof. vm_compute. split_and!; set_solver. Qed.
End Counter.
