(* ===== verification/Telemetry.v ===== *)
(** * Telemetry: what leaves the process to be looked at

    [observability/metrics/metrics-server.ts], the sockets' gauge of [metrics.ts],
    [observability/metrics/sample-of.ts], [observability/tracing/tracing.ts],
    [observability/errors/error-reporting.ts] and [observability/observability.module.ts]. The
    network, the metrics client and the two SDKs are outside: a bind, a serialisation and a
    flush succeed or fail. *)

From S2P Require Import Prelude Text Schema Errors BusinessDay Diagnostics Problems Monitoring Environment Edge.
From Stdlib Require Import QArith.
From Stdlib Require Import Ascii.

#[local] Open Scope Z_scope.

(** ** The metrics server *)

(** [this.server]: none, one that could not bind, or one on a port; and the ports the process
    holds for it. *)
Record MetricsServer := { ms_server : option (option Z); ms_open : list Z }.

Definition newMetricsServer : MetricsServer := {| ms_server := None; ms_open := [] |}.

(** [listen]: [bound] is the port the system gives for the one asked for, or its refusal. *)
Definition listen (bound : result string Z) (s : MetricsServer) : MetricsServer * result string Z :=
  match ms_server s with
  | Some _ => (s, Err "The metrics server is already listening.")
  | None =>
      match bound with
      | Ok port => ({| ms_server := Some (Some port); ms_open := port :: ms_open s |}, Ok port)
      | Err e => ({| ms_server := Some None; ms_open := ms_open s |}, Err e)
      end
  end.

(** [onApplicationShutdown]: closing a server that never bound is no error. *)
Definition metricsShutdown (s : MetricsServer) : MetricsServer :=
  match ms_server s with
  | None => s
  | Some bound => {| ms_server := None;
                     ms_open := match bound with Some port => filter (fun p => p ≠ port) (ms_open s) | None => ms_open s end |}
  end.

Record HttpAnswer := { ha_status : Z; ha_contentType : option string; ha_body : option string }.

(** [handle]: [metrics] is the registry's text, or the failure to produce one. *)
Definition handleScrape (contentType : string) (metrics : result string string) (method : string) (url : option string)
    : HttpAnswer :=
  if negb (bool_decide (method = "GET")) || negb (bool_decide (pathOfUrl url = "/metrics"))
  then {| ha_status := 404; ha_contentType := None; ha_body := None |}
  else match metrics with
       | Ok body => {| ha_status := 200; ha_contentType := Some contentType; ha_body := Some body |}
       | Err _ => {| ha_status := 500; ha_contentType := None; ha_body := None |}
       end.

(** ** Connected sockets *)

(** [Metrics.namespaces]: a Map, in the order of its keys' first insertion. *)
Notation Namespaces S := (list (string * S)).

Fixpoint trackNamespace {S} (name : string) (server : S) (l : Namespaces S) : Namespaces S :=
  match l with
  | [] => [(name, server)]
  | (n, s) :: l => if bool_decide (n = name) then (n, server) :: l else (n, s) :: trackNamespace name server l
  end.

(** [ws_connected]. *)
Definition wsConnected {S} (size : S → Z) (l : Namespaces S) : list Sample :=
  map (fun e => {| sm_labels := [e.1]; sm_value := size e.2 |}) l.

(** ** Reading a series back *)

(** A value as [getMetricsAsJSON] gives it: the series' name where it differs from the
    metric's, its labels and the number. *)
Record MetricValue := { mv_metricName : option string; mv_labels : gmap string string; mv_value : Z }.
Record MetricJson := { mj_name : string; mj_values : list MetricValue }.

Definition sameLabels (actual expected : gmap string string) : bool :=
  (size actual =? size expected)%nat
  && forallb (fun e => bool_decide (expected !! e.1 = Some e.2)) (map_to_list actual).

Definition sampleOf (metrics : list MetricJson) (series : string) (labels : gmap string string) : option Z :=
  head (m ← metrics; v ← mj_values m;
        if bool_decide (default (mj_name m) (mv_metricName v) = series) && sameLabels (mv_labels v) labels
        then [mv_value v] else []).

(** ** Tracing and error reporting *)

Notation ProcessEnv := (gmap string string).

Record TracingOptions := { to_serviceName : string; to_sampleRatio : Q }.

Definition DEFAULT_SAMPLE_RATIO : Q := 1 # 10.
Definition UNTRACED_PATHS : list string := ["/healthz"; "/readyz"; "/metrics"].

(** [ignoreIncomingRequestHook]. *)
Definition untraced (url : option string) : bool := bool_decide (pathOfUrl url ∈ UNTRACED_PATHS).

(** [a ?? b], and a text's truth. *)
Definition coalesce {A} (a b : option A) : option A := match a with Some x => Some x | None => b end.
Definition truthy (s : option string) : option string := s ≫= fun s => if bool_decide (s = "") then None else Some s.

(** [Number], of text that is a finite number. *)
Definition tracingOptionsFrom (Number : string → option Q) (env : ProcessEnv) : result string (option TracingOptions) :=
  match truthy (coalesce (env !! "OTEL_EXPORTER_OTLP_TRACES_ENDPOINT") (env !! "OTEL_EXPORTER_OTLP_ENDPOINT")) with
  | None => Ok None
  | Some _ =>
      let raw := env !! "OTEL_TRACES_SAMPLER_ARG" in
      let sampleRatio := match truthy raw with None => Some DEFAULT_SAMPLE_RATIO | Some raw => Number raw end in
      match sampleRatio with
      | Some ratio =>
          if Qle_bool 0 ratio && Qle_bool ratio 1
          then Ok (Some {| to_serviceName := default "cafe-pos" (truthy (env !! "OTEL_SERVICE_NAME")); to_sampleRatio := ratio |})
          else Err ("OTEL_TRACES_SAMPLER_ARG must be a ratio between 0 and 1, not " +:+ quoted (default "" raw) +:+ ".")
      | None => Err ("OTEL_TRACES_SAMPLER_ARG must be a ratio between 0 and 1, not " +:+ quoted (default "" raw) +:+ ".")
      end
  end.

Record ErrorReportingOptions := { er_dsn : string; er_environment : string }.

Definition errorReportingOptionsFrom (env : ProcessEnv) : option ErrorReportingOptions :=
  dsn ← truthy (env !! "SENTRY_DSN");
  Some {| er_dsn := dsn; er_environment := default "development" (env !! "NODE_ENV") |}.

Definition startErrorReporting (env : ProcessEnv) : bool := bool_decide (is_Some (errorReportingOptionsFrom env)).

(** The factory of [ERROR_REPORTER], from the validated environment. *)
Definition errorReporterOf (env : Env) : ErrorReporter :=
  match truthy (env_SENTRY_DSN env) with Some _ => SentryErrorReporter | None => NoopErrorReporter end.

(** [sdkHandles] after [instrument.ts], and the flush of each SDK at shutdown: the warnings. *)
Definition flushTelemetry (tracing errorReporting : option (result string unit)) : list string :=
  omap (fun r => match r with
    | Err reason => Some ("Could not flush telemetry on shutdown. " +:+ reason)
    | Ok _ => None
    end) (option_list tracing ++ option_list errorReporting).

(** ** The metrics port *)

Inductive ServerEvent := Listened (bound : result string Z) | ShutDown.

Definition serverStep (s : MetricsServer) (e : ServerEvent) : MetricsServer :=
  match e with Listened bound => (listen bound s).1 | ShutDown => metricsShutdown s end.

Lemma filter_one (port : Z) : filter (fun p => p ≠ port) [port] = [].
Proof. rewrite filter_cons. by case_decide. Qed.

(** However often it is asked to listen and shut down, the server holds one port at most, the one
    it answered with; a shutdown frees it and lets it listen again; and a second [listen] before
    that is refused and changes nothing. *)
Theorem metrics_port_held events :
  let s := foldl serverStep newMetricsServer events in
  ms_open s = match ms_server s with Some (Some port) => [port] | _ => [] end ∧
  ms_open (metricsShutdown s) = [] ∧
  (∀ bound, is_Some (ms_server s) → listen bound s = (s, Err "The metrics server is already listening.")) ∧
  (∀ port, (listen (Ok port) (metricsShutdown s)).2 = Ok port).
Proof.
  cbv zeta. set (s := foldl _ _ _).
  assert (ms_open s = match ms_server s with Some (Some port) => [port] | _ => [] end) as Hs.
  { subst s. induction events as [|e events IH] using rev_ind; [done|]. rewrite foldl_snoc.
    set (s := foldl serverStep newMetricsServer events) in *. clearbody s. destruct s as [server opened]. cbn in IH. subst opened.
    destruct e as [bound|]; unfold serverStep, listen, metricsShutdown; cbn -[filter];
      destruct server as [[port|]|]; cbn -[filter]; try done; [by destruct bound|by rewrite filter_one]. }
  split; [done|]. clearbody s. destruct s as [server opened]. cbn in *. subst opened.
  destruct server as [[port|]|]; unfold metricsShutdown, listen; cbn -[filter].
  - split; [by rewrite filter_one|]. by split.
  - split; [done|]. by split.
  - split; [done|]. split; [by intros ? [? ?]|done].
Qed.

(** The port answers one thing: the registry's text, to a GET of [/metrics] with whatever query;
    a registry that cannot be written is a 500 with nothing of the failure in it, and anything
    else a 404. *)
Theorem scrape_answers contentType metrics method url :
  let answer := handleScrape contentType metrics method url in
  (ha_status answer = 200 ↔ method = "GET" ∧ pathOfUrl url = "/metrics" ∧ is_ok metrics = true) ∧
  (∀ body, ha_body answer = Some body → metrics = Ok body ∧ ha_status answer = 200) ∧
  (ha_status answer = 500 ↔ method = "GET" ∧ pathOfUrl url = "/metrics" ∧ is_ok metrics = false).
Proof.
  unfold handleScrape. repeat case_bool_decide; cbn; [destruct metrics; cbn|..];
    (split; [|split]); try naive_solver; (split; [intros Hd; discriminate Hd|naive_solver]).
Qed.

(** ** Sockets counted *)

Lemma trackNamespace_lookup {S} name (server : S) l n :
  list_to_map (M := gmap string S) (trackNamespace name server l) !! n =
  if bool_decide (n = name) then Some server else list_to_map (M := gmap string S) l !! n.
Proof.
  induction l as [|[m s] l IH]; cbn.
  - case_bool_decide as H; [subst; apply lookup_insert_eq|by rewrite lookup_insert_ne].
  - destruct (decide (m = name)) as [->|Hm].
    + rewrite bool_decide_eq_true_2 by done. cbn. case_bool_decide as H; [subst; apply lookup_insert_eq|].
      by rewrite !lookup_insert_ne by congruence.
    + rewrite (bool_decide_eq_false_2 (m = name)) by done. cbn. destruct (decide (n = m)) as [->|].
      * rewrite !lookup_insert_eq. by rewrite bool_decide_eq_false_2.
      * rewrite !lookup_insert_ne by congruence. apply IH.
Qed.

Lemma trackNamespace_keys {S} name (server : S) l :
  (trackNamespace name server l).*1 = if bool_decide (name ∈ l.*1) then l.*1 else l.*1 ++ [name].
Proof.
  induction l as [|[m s] l IH]; cbn; [done|]. destruct (decide (m = name)) as [->|Hm].
  - rewrite bool_decide_eq_true_2 by done. rewrite bool_decide_eq_true_2; [done|]. set_solver.
  - rewrite (bool_decide_eq_false_2 (m = name)) by done. cbn. rewrite IH.
    repeat case_bool_decide; try done; set_solver.
Qed.

(** The gauge exports each namespace once, with the sockets of the server last registered under
    its name, in whatever order and however often the gateways register. *)
Theorem sockets_counted {S} (size : S → Z) (registered : list (string * S)) :
  let l := foldl (fun l e => trackNamespace e.1 e.2 l) [] registered in
  NoDup (l.*1) ∧ (∀ name, name ∈ l.*1 ↔ name ∈ registered.*1) ∧
  ∀ sample, sample ∈ wsConnected size l → ∃ name server,
    sample = {| sm_labels := [name]; sm_value := size server |} ∧
    list_to_map (M := gmap string S) (rev registered) !! name = Some server.
Proof.
  cbv zeta. set (l := foldl _ _ _).
  assert (NoDup (l.*1) ∧ (∀ name, name ∈ l.*1 ↔ name ∈ registered.*1) ∧
    list_to_map (M := gmap string S) l = list_to_map (rev registered)) as (Hnd & Hk & Hl).
  { subst l. induction registered as [|[n s] registered IH] using rev_ind; [split; [constructor|done]|].
    rewrite foldl_snoc, rev_app_distr, fmap_app. set (l := foldl _ _ _) in *. destruct IH as (Hnd & Hk & Hl).
    cbn [fst snd]. rewrite trackNamespace_keys. split; [|split].
    - case_bool_decide; [done|]. apply NoDup_app. split; [done|]. split; [set_solver|apply NoDup_singleton].
    - intros name. case_bool_decide; set_solver.
    - apply map_eq. intros m. rewrite trackNamespace_lookup, Hl. cbn. case_bool_decide as E.
      + subst. by rewrite lookup_insert_eq.
      + by rewrite lookup_insert_ne. }
  split; [done|]. split; [done|]. intros sample ([name server] & -> & Hin)%list_elem_of_fmap. exists name, server.
  split; [done|]. rewrite <-Hl. by apply elem_of_list_to_map_1.
Qed.

(** ** Reading a series back *)

Lemma sameLabels_eq a b : sameLabels a b = true ↔ a = b.
Proof.
  unfold sameLabels. rewrite andb_true_iff, Nat.eqb_eq, forallb_forall. split.
  - intros [Hs Hf]. apply map_subseteq_size_eq; [|lia]. apply map_subseteq_spec. intros k v Hk.
    apply elem_of_map_to_list, list_elem_of_In, Hf in Hk. by apply bool_decide_eq_true in Hk.
  - intros ->. split; [done|]. intros [k v] Hk%list_elem_of_In%elem_of_map_to_list. by apply bool_decide_eq_true.
Qed.

(** Reading a series is looking it up: a number comes back exactly when the scrape has a value
    of that name under exactly those labels, and it is the first such. *)
Theorem sampleOf_finds metrics series labels :
  sampleOf metrics series labels =
  head (m ← metrics; omap (fun v => if bool_decide (default (mj_name m) (mv_metricName v) = series ∧ mv_labels v = labels)
                                   then Some (mv_value v) else None) (mj_values m)).
Proof.
  unfold sampleOf. f_equal. apply list_bind_ext; [|done]. intros m.
  induction (mj_values m) as [|v l IH]; [done|]. cbn. rewrite <-IH.
  destruct (sameLabels (mv_labels v) labels) eqn:E.
  - apply sameLabels_eq in E. rewrite andb_true_r. repeat case_bool_decide; naive_solver.
  - rewrite andb_false_r. rewrite bool_decide_eq_false_2; [done|]. intros [_ H%sameLabels_eq]. congruence.
Qed.

(** ** Tracing and reporting *)

(** Tracing is on exactly when there is an endpoint, and then with a ratio between 0 and 1 and
    a named service; a ratio that is none refuses the boot rather than sampling something else. *)
Theorem tracing_options Number env :
  match tracingOptionsFrom Number env with
  | Ok None => truthy (coalesce (env !! "OTEL_EXPORTER_OTLP_TRACES_ENDPOINT") (env !! "OTEL_EXPORTER_OTLP_ENDPOINT")) = None
  | Ok (Some o) => (0 <= to_sampleRatio o <= 1)%Q ∧ to_serviceName o ≠ ""
  | Err _ => ∃ raw, env !! "OTEL_TRACES_SAMPLER_ARG" = Some raw ∧ raw ≠ "" ∧
      ∀ ratio, Number raw = Some ratio → ¬ (0 <= ratio <= 1)%Q
  end.
Proof.
  unfold tracingOptionsFrom.
  destruct (truthy (coalesce _ _)) as [endpoint|] eqn:Ee; [|done].
  assert (∀ s t, truthy s = Some t → s = Some t ∧ t ≠ "") as Ht.
  { intros [s|] t; cbn; [|done]. case_bool_decide; [done|]. by intros [= <-]. }
  destruct (truthy (env !! "OTEL_TRACES_SAMPLER_ARG")) as [raw|] eqn:Er.
  - apply Ht in Er as [Er Hraw]. destruct (Number raw) as [ratio|] eqn:En.
    2:{ exists raw. split; [done|]. split; [done|]. congruence. }
    destruct (Qle_bool 0 ratio && Qle_bool ratio 1) eqn:Eq.
    + apply andb_true_iff in Eq as [?%Qle_bool_iff ?%Qle_bool_iff]. split; [done|]. cbn.
      destruct (truthy (env !! "OTEL_SERVICE_NAME")) as [n|] eqn:E; [|done]. by apply Ht in E as [_ ?].
    + exists raw. split; [done|]. split; [done|]. intros r Hr [H1%Qle_bool_iff H2%Qle_bool_iff].
      replace r with ratio in * by congruence. by rewrite H1, H2 in Eq.
  - cbn. split; [split; by apply Qle_bool_iff|]. cbn.
    destruct (truthy (env !! "OTEL_SERVICE_NAME")) as [n|] eqn:E; [|done]. by apply Ht in E as [_ ?].
Qed.

Section reporting.
Context (coerceInt : string → option Z) (parseUrl : string → option (string * string)).
Context (isUrl isKnownTimeZone : string → bool).

Lemma schema_sentry raw env : envSchema coerceInt parseUrl isUrl isKnownTimeZone raw = Some env →
  env_SENTRY_DSN env = raw !! "SENTRY_DSN" ∧ default "development" (raw !! "NODE_ENV") = nodeEnvText (env_NODE_ENV env).
Proof.
  unfold envSchema. intros H. variables. cbn. split.
  - match goal with E : maybe raw "SENTRY_DSN" _ = _ |- _ => unfold maybe in E; destruct (raw !! "SENTRY_DSN") as [v|];
      [apply fmap_Some in E as (u & Eu & ->); unfold url in Eu; by apply check_Some in Eu as [[= <-] _]|by injection E as <-] end.
  - match goal with E : orElse raw "NODE_ENV" _ _ = _ |- _ => unfold orElse in E; destruct (raw !! "NODE_ENV") as [v|];
      [apply find_some in E as [_ E]; by apply bool_decide_eq_true in E|by injection E as <-] end.
Qed.

(** The SDK that was started and the reporter in use agree: the filter reports to Sentry exactly
    when Sentry was started, with the address it was given and the environment the rest of the
    process runs in. *)
Theorem reporter_was_started raw env :
  validateEnv coerceInt parseUrl isUrl isKnownTimeZone raw = Ok env →
  (errorReporterOf env = SentryErrorReporter ↔ startErrorReporting raw = true) ∧
  ∀ o, errorReportingOptionsFrom raw = Some o →
    env_SENTRY_DSN env = Some (er_dsn o) ∧ er_environment o = nodeEnvText (env_NODE_ENV env).
Proof.
  unfold validateEnv. destruct (envSchema _ _ _ _ raw) as [env'|] eqn:E; [|done].
  destruct (conflictsIn env'); [|done]. intros [= ->]. apply schema_sentry in E as [Ed En].
  unfold errorReporterOf, startErrorReporting, errorReportingOptionsFrom. rewrite Ed, bool_decide_eq_true.
  destruct (truthy (raw !! "SENTRY_DSN")) as [dsn|] eqn:Et; cbn.
  - split; [by split; [eexists|]|]. intros o [= <-]. cbn. split; [|done].
    destruct (raw !! "SENTRY_DSN") as [s|]; cbn in Et; [|done]. case_bool_decide; [done|]. congruence.
  - split; [split; [done|by intros [? ?]]|done].
Qed.
End reporting.

(** ** A shop with a collector *)

Module Collector.
Definition watched : ProcessEnv := <["SENTRY_DSN" := "https://k@sentry.test/1"]> Deployment.shop.

Definition watchedEnv : option Env := Eval vm_compute in
  match Deployment.validate watched with Ok env => Some env | Err _ => None end.

Lemma reporter_was_started_witness :
  match watchedEnv with Some env => errorReporterOf env = SentryErrorReporter | None => False end.
Proof.
  destruct watchedEnv as [env|] eqn:E; [|by vm_compute in E].
  apply (reporter_was_started js_Number Deployment.knownUrl (fun _ => true) Deployment.bangkok watched env);
    [|by vm_compute].
  injection E as <-. by vm_compute.
Defined.

Definition numbers (s : string) : option Q := if bool_decide (s = "0.25") then Some (1 # 4)%Q else None.

(** An empty address for traces hides the general one; a ratio that is not a number refuses. *)
Example tracing_cases :
  tracingOptionsFrom numbers (<["OTEL_EXPORTER_OTLP_ENDPOINT" := "http://otel:4318"]> (<["OTEL_TRACES_SAMPLER_ARG" := "0.25"]> ∅))
    = Ok (Some {| to_serviceName := "cafe-pos"; to_sampleRatio := (1 # 4)%Q |}) ∧
  tracingOptionsFrom numbers (<["OTEL_EXPORTER_OTLP_ENDPOINT" := "http://otel:4318"]> (<["OTEL_EXPORTER_OTLP_TRACES_ENDPOINT" := ""]> ∅))
    = Ok None ∧
  is_ok (tracingOptionsFrom numbers (<["OTEL_EXPORTER_OTLP_ENDPOINT" := "http://otel:4318"]> (<["OTEL_TRACES_SAMPLER_ARG" := "all"]> ∅)))
    = false ∧
  handleScrape "text/plain" (Ok "up 1") "GET" (Some "/metrics?name=up") =
    {| ha_status := 200; ha_contentType := Some "text/plain"; ha_body := Some "up 1" |}.
Proof. by vm_compute. Qed.
End Collector.
