(* ===== verification/ObjectStorage.v ===== *)
(** * ObjectStorage: [storage/object-storage.service.ts], [storage/storage.module.ts]

    The commands the service sends to the object store, and what an upload leaves there. The
    store itself (S3 or MinIO) is an interface with what its documentation promises of the four
    commands; an answer may be lost, so a failed [PutObject] may have stored its object. *)

From S2P Require Import Prelude Text Schema Errors Program Idempotency Fingerprint JsonText OrdersRead Catalog ItemImage Environment Scenario.

(** ** The client *)

Record S3ClientOptions := { s3_region : string; s3_endpoint : option string; s3_forcePathStyle : bool }.

(** The factory of [S3_CLIENT]. *)
Definition s3ClientOptions (env : Env) : S3ClientOptions :=
  {| s3_region := env_S3_REGION env; s3_endpoint := env_S3_ENDPOINT env;
     s3_forcePathStyle := bool_decide (is_Some (env_S3_ENDPOINT env)) |}.

Inductive S3Command :=
| HeadBucketCommand (bucket : string)
| CreateBucketCommand (bucket : string)
| PutBucketPolicyCommand (bucket policy : string)
| PutObjectCommand (bucket key body contentType cacheControl : string).

Record StoredObject := { so_key : string; so_url : string }.

Definition CACHE_CONTROL : string := "public, max-age=31536000, immutable".
Definition KEY_PREFIX : string := "items".
Definition OUTPUT_CONTENT_TYPE : string := "image/webp".

(** An object as it is served. *)
Record ServedObject := { ob_body : string; ob_contentType : string; ob_cacheControl : string }.

(** ** The store *)

Class ObjectStore (S : Type) := {
  (** A command is answered, or fails with an error's name. *)
  send : S3Command → S → S * result string unit;
  objectAt : string → string → S → option ServedObject }.

Class ObjectStoreLaws (S : Type) `{!ObjectStore S} := {
  (** An object that was put is there when the answer says so, and may be when it does not. *)
  put_stores bucket key body contentType cacheControl s :
    let stored := Some {| ob_body := body; ob_contentType := contentType; ob_cacheControl := cacheControl |} in
    let '(s', answer) := send (PutObjectCommand bucket key body contentType cacheControl) s in
    (answer = Ok tt → objectAt bucket key s' = stored) ∧
    (objectAt bucket key s' = stored ∨ objectAt bucket key s' = objectAt bucket key s) ∧
    ∀ b k, (b, k) ≠ (bucket, key) → objectAt b k s' = objectAt b k s;
  (** No other command touches an object. *)
  others_keep bucket key command s :
    match command with PutObjectCommand _ _ _ _ _ => True
    | _ => objectAt bucket key (send command s).1 = objectAt bucket key s end }.

Section service.
Context {S : Type} `{!ObjectStore S} (bucket publicBaseUrl : string) (autoCreateBucket : bool).

(** [put]. *)
Definition put (key body contentType : string) (s : S) : S * result string StoredObject :=
  match send (PutObjectCommand bucket key body contentType CACHE_CONTROL) s with
  | (s, Ok _) => (s, Ok {| so_key := key; so_url := publicBaseUrl +:+ "/" +:+ key |})
  | (s, Err e) => (s, Err e)
  end.

(** [allowPublicReads]: anyone may fetch an object, and no more. *)
Definition publicReadPolicy : Json :=
  JObj [("Version", JStr "2012-10-17");
        ("Statement", JArr [JObj [("Effect", JStr "Allow"); ("Principal", JObj [("AWS", JArr [JStr "*"])]);
           ("Action", JArr [JStr "s3:GetObject"]); ("Resource", JArr [JStr ("arn:aws:s3:::" +:+ bucket +:+ "/*")])]])].

Definition allowPublicReads (s : S) : S * result string unit :=
  send (PutBucketPolicyCommand bucket (print publicReadPolicy)) s.

(** The boot check's three commands, to this store. *)
Definition bootStore : Store S := fun command =>
  match command with
  | HeadBucket => send (HeadBucketCommand bucket)
  | CreateBucket => send (CreateBucketCommand bucket)
  | PutBucketPolicy => allowPublicReads
  end.

Definition bootStorage (wait : S → S) (s : S) : S * result string unit := onModuleInit bootStore autoCreateBucket wait s.

(** ** Uploads *)

Context (sharp : string → option string) (sha256 : string → string).

Definition putImage (image : string) (s : S) : S * result string StoredObject :=
  put (imageKey sha256 image) image OUTPUT_CONTENT_TYPE s.

Definition answerOf (key image : string) (s : S) : result AppError unit :=
  match (put key image OUTPUT_CONTENT_TYPE s).2 with Ok _ => Ok tt | Err e => Err (JsError e) end.

(** [ItemImageService.replace] with this store: the store, the database and the answer. *)
Definition upload gw (itemId : string) (file : UploadedImage) (s : S) (db : Database) : S * (Database * result AppError MenuItem) :=
  let '(db', _, answer) := run gw (replaceImage sharp sha256 publicBaseUrl (fun key image => answerOf key image s) itemId file) db in
  (match menuItems db !! uuid itemId, reencode sharp file with
   | Some _, Ok image => (putImage image s).1
   | _, _ => s
   end, (db', answer)).
End service.

Lemma text_app_cancel (x y t : string) : x +:+ t = y +:+ t → x = y.
Proof.
  revert y. induction x as [|c x IH]; intros [|d y] H; [done| | |].
  - exfalso. apply (f_equal String.length) in H. rewrite !string_length_app in H. cbn in H. lia.
  - exfalso. apply (f_equal String.length) in H. rewrite !string_length_app in H. cbn in H. lia.
  - rewrite !text_app_cons in H. injection H as -> H. f_equal. by apply IH.
Qed.

(** ** What an object store holds *)

Section contents.
Context {S : Type} `{!ObjectStore S, !ObjectStoreLaws S} (bucket publicBaseUrl : string).
Context (sharp : string → option string) (sha256 : string → string).

(** Everything this service can do to its store: uploads, and the statements of a boot. *)
Inductive StorageOp := PutImage (image : string) | Boot (command : StorageCommand).

Definition storageStep (s : S) (op : StorageOp) : S :=
  match op with
  | PutImage image => (putImage bucket publicBaseUrl sha256 image s).1
  | Boot command => (bootStore bucket command s).1
  end.

Definition rendering (image : string) : ServedObject :=
  {| ob_body := image; ob_contentType := OUTPUT_CONTENT_TYPE; ob_cacheControl := CACHE_CONTROL |}.

Lemma imageKey_inj a b : imageKey sha256 a = imageKey sha256 b → sha256 a = sha256 b.
Proof. unfold imageKey. intros [= H]. by eapply text_app_cancel. Qed.

(** An image's object before and after an operation: the same, or the image that was put under its key. *)
Lemma step_object image op s :
  objectAt bucket (imageKey sha256 image) (storageStep s op) = objectAt bucket (imageKey sha256 image) s ∨
  ∃ other, op = PutImage other ∧ sha256 other = sha256 image ∧
    objectAt bucket (imageKey sha256 image) (storageStep s op) = Some (rendering other).
Proof.
  destruct op as [other|command].
  - cbn. unfold putImage, put.
    pose proof (put_stores bucket (imageKey sha256 other) other OUTPUT_CONTENT_TYPE CACHE_CONTROL s) as H.
    destruct (send _ s) as [s1 answer]. cbn zeta in H. destruct H as (_ & Hsame & Hrest).
    assert ((match answer with Ok _ => (s1, Ok {| so_key := imageKey sha256 other;
      so_url := publicBaseUrl +:+ "/" +:+ imageKey sha256 other |}) | Err e => (s1, Err e) end
      : S * result string StoredObject).1 = s1) as -> by (by destruct answer).
    destruct (decide (imageKey sha256 other = imageKey sha256 image)) as [E|E].
    + rewrite E in Hsame. destruct Hsame as [-> | ->]; [|by left]. right. exists other. split_and!; [done|by apply imageKey_inj|done].
    + left. apply Hrest. congruence.
  - left. destruct command; cbn.
    + apply (others_keep bucket _ (HeadBucketCommand bucket)).
    + apply (others_keep bucket _ (CreateBucketCommand bucket)).
    + apply (others_keep bucket _ (PutBucketPolicyCommand bucket _)).
Qed.

(** An item's photo can be cached forever: once a key holds a rendering, it holds the same bytes,
    type and caching after any further uploads and boots of any number of instances, whatever
    the store's answers, so long as none of those uploads is a different rendering of one hash. *)
Theorem images_immutable s image ops :
  objectAt bucket (imageKey sha256 image) s = Some (rendering image) →
  (∀ other, PutImage other ∈ ops → sha256 other = sha256 image → other = image) →
  objectAt bucket (imageKey sha256 image) (foldl storageStep s ops) = Some (rendering image).
Proof.
  revert s. induction ops as [|op ops IH]; intros s Ho Hh; [done|]. cbn [foldl]. apply IH; [|intros other Hin; by apply Hh, list_elem_of_further].
  destruct (step_object image op s) as [E|(other & -> & Eh & E)]; [by rewrite E|].
  assert (other = image) as -> by (apply Hh; [apply list_elem_of_here|done]). done.
Qed.

(** C40. A photo that was accepted loads: after a successful upload the item's address is the public
    base and a key, and under that key the store serves exactly the decoder's rendering of the
    file, as WebP that may be kept forever; the store is otherwise as it was. *)
Theorem upload_is_served gw itemId file s db s' db' item :
  upload bucket publicBaseUrl sharp sha256 gw itemId file s db = (s', (db', Ok item)) →
  ∃ image, sharp (up_buffer file) = Some image ∧
    m_imageUrl item = Some (publicBaseUrl +:+ "/" +:+ imageKey sha256 image) ∧
    objectAt bucket (imageKey sha256 image) s' = Some (rendering image) ∧
    ∀ b k, (b, k) ≠ (bucket, imageKey sha256 image) → objectAt b k s' = objectAt b k s.
Proof.
  unfold upload, replaceImage, Read. cbn [run fst snd].
  destruct (menuItems db !! uuid itemId) as [row0|]; [|done].
  unfold reencode. destruct (_ && _); [done|]. destruct (sniffImageType _); [|done].
  destruct (sharp (up_buffer file)) as [image|]; [|done]. unfold answerOf, putImage, put.
  pose proof (put_stores bucket (imageKey sha256 image) image OUTPUT_CONTENT_TYPE CACHE_CONTROL s) as Hput.
  destruct (send _ s) as [s1 [[]|e]]; [|done]. cbn [fst snd]. destruct Hput as (Hok & _ & Hrest).
  pose proof (setImage_run gw itemId (urlOf publicBaseUrl (imageKey sha256 image)) db) as Hr.
  destruct (run _ _ _) as [[db1 log] [item1|e]]; [|done]. destruct Hr as (row & _ & -> & _).
  intros [= <- <- <-]. exists image. split; [done|]. split; [reflexivity|]. split; [by apply Hok|done].
Qed.

(** Only a boot that may create its bucket makes it public, and what it then says is that
    anyone may fetch an object: the policy reads back as one statement with that one action. *)
Theorem policy_grants_reads_only :
  jsonParse (print (publicReadPolicy bucket)) = Some (ofJson (publicReadPolicy bucket)).
Proof. by apply parse_print. Qed.
End contents.

(** ** A bucket in memory *)

Module Bucket.
Definition Memory : Type := gmap (string * string) ServedObject.

#[export] Instance memory : ObjectStore Memory := {
  send command s := match command with
    | PutObjectCommand bucket key body contentType cacheControl =>
        (<[(bucket, key) := {| ob_body := body; ob_contentType := contentType; ob_cacheControl := cacheControl |}]> s, Ok tt)
    | _ => (s, Ok tt)
    end;
  objectAt bucket key s := s !! (bucket, key) }.

#[export] Instance memory_laws : ObjectStoreLaws Memory.
Proof.
  split.
  - intros. cbn. split; [|split]; [intros _; apply lookup_insert_eq|left; apply lookup_insert_eq|].
    intros b k Hne. apply lookup_insert_ne. congruence.
  - intros bucket key []; done.
Qed.

Definition photo : string := "RIFF....WEBP...".
Definition first : Memory := (putImage "cafe" "https://cdn" (fun s => s) photo (∅ : Memory)).1.

(** The same photo again, another one, and a reboot. *)
Definition later : list StorageOp := [PutImage photo; PutImage "other"; Boot HeadBucket].

Lemma images_immutable_witness :
  objectAt "cafe" (imageKey (fun s => s) photo) (foldl (storageStep "cafe" "https://cdn" (fun s => s)) first later)
    = Some (rendering photo).
Proof.
  apply (images_immutable "cafe" "https://cdn" (fun s => s) first photo later).
  - by vm_compute.
  - intros other _ E. exact E.
Defined.

(** The latte gets a photo. *)
Definition file : UploadedImage := {| up_buffer := photo; up_mimetype := "image/webp" |}.
Definition uploaded : Memory * (Database * result AppError MenuItem) :=
  upload "cafe" "https://cdn" (fun b => Some b) (fun s => s) Shop.gw "latte" file (∅ : Memory) Shop.morning.
Definition latte : option MenuItem := Eval vm_compute in match uploaded.2.2 with Ok item => Some item | Err _ => None end.

Lemma upload_is_served_witness : ∃ item image, latte = Some item ∧ photo = image ∧
  m_imageUrl item = Some ("https://cdn/" +:+ imageKey (fun s => s) image) ∧
  objectAt "cafe" (imageKey (fun s => s) image) uploaded.1 = Some (rendering image).
Proof.
  destruct latte as [item|] eqn:E; [|discriminate E].
  destruct (upload_is_served "cafe" "https://cdn" (fun b => Some b) (fun s => s) Shop.gw "latte" file (∅ : Memory) Shop.morning
    uploaded.1 uploaded.2.1 item) as (image & Hs & Hu & Ho & _).
  - assert (uploaded.2.2 = Ok item) as <- by (injection E as <-; vm_compute; reflexivity).
    rewrite <-!surjective_pairing. reflexivity.
  - exists item, image. split; [done|]. split; [by injection Hs|]. split; [exact Hu|exact Ho].
Defined.
End Bucket.
