(* ===== verification/Directory.v ===== *)
(** * Directory: the lists of staff and tablets

    [list] of [identity/users/users.service.ts] and [identity/devices/devices.service.ts]. Each is
    one statement: a snapshot of its table, through the columns that may leave the service. *)

From S2P Require Import Prelude Text Schema OrdersRead Atoms IdentityStore Sessions Accounts Devices IdentitySafety Catalog Reception.

Section lists.
Context `{!Collation}.

Definition emailLe (a b : UserRow) : Prop := collate (u_email a) (u_email b).

#[export] Instance emailLe_dec a b : Decision (emailLe a b).
Proof. unfold emailLe. apply _. Defined.
#[export] Instance emailLe_trans : Transitive emailLe.
Proof. unfold emailLe. intros a b c ? ?. by etrans. Qed.
#[export] Instance emailLe_total : Total emailLe.
Proof. unfold emailLe. intros a b. apply total, _. Qed.

(** [select(PUBLIC_COLUMNS).from(users).orderBy(users.email)]. *)
Definition listUsers (s : Identity) : list StaffAccount := map publicColumns (merge_sort emailLe (rows (i_users s))).

Definition createdLe (a b : DeviceRow) : Prop := d_createdAt a ≤ d_createdAt b.

#[export] Instance createdLe_dec a b : Decision (createdLe a b).
Proof. unfold createdLe. apply _. Defined.
#[export] Instance createdLe_trans : Transitive createdLe.
Proof. unfold createdLe. intros a b c. lia. Qed.
#[export] Instance createdLe_total : Total createdLe.
Proof. unfold createdLe. intros a b. lia. Qed.

(** [select(SUMMARY_COLUMNS).from(kioskDevices).orderBy(kioskDevices.createdAt)]. *)
Definition listDevices (s : Identity) : list DeviceSummary :=
  map deviceSummary (merge_sort createdLe (rows (i_kioskDevices s))).

(** ** What the lists show *)

Lemma rows_fmap {A B} (f : A → B) (m : gmap string A) : rows (f <$> m) ≡ₚ f <$> rows m.
Proof. unfold rows. rewrite map_to_list_fmap, <-!list_fmap_compose. done. Qed.

Lemma listUsers_perm s : listUsers s ≡ₚ rows (publicColumns <$> i_users s).
Proof. unfold listUsers. rewrite rows_fmap. apply Permutation_map, merge_sort_Permutation. Qed.

Lemma listDevices_perm s : listDevices s ≡ₚ rows (deviceSummary <$> i_kioskDevices s).
Proof. unfold listDevices. rewrite rows_fmap. apply Permutation_map, merge_sort_Permutation. Qed.

Lemma Sorted_map {A B} (f : A → B) (R : relation A) (Q : relation B) l :
  (∀ a b, R a b → Q (f a) (f b)) → Sorted R l → Sorted Q (map f l).
Proof.
  intros Himp. induction 1 as [|a l _ IH Hd]; cbn; constructor; [done|]. destruct Hd; cbn; constructor. auto.
Qed.

Definition accountLe (a b : StaffAccount) : Prop := collate (sa_email a) (sa_email b).

Lemma listUsers_sorted s : Sorted accountLe (listUsers s).
Proof. by eapply Sorted_map; [|apply Sorted_merge_sort, _]. Qed.

Lemma keyed_NoDup {A} (id : A → string) (m : gmap string A) : keyed id m → NoDup (id <$> rows m).
Proof.
  intros Hk. unfold rows. rewrite <-list_fmap_compose.
  assert ((id ∘ snd) <$> map_to_list m = (map_to_list m).*1) as ->; [|apply NoDup_fst_map_to_list].
  apply list_fmap_ext. intros i [k r] Hi. cbn. apply Hk. by apply list_elem_of_lookup_2, elem_of_map_to_list in Hi.
Qed.

(** The back office sees every account and every tablet there is, deactivated and revoked ones
    included, each once: accounts in the order of their addresses, tablets in the order they
    were registered. *)
Theorem directory_lists s :
  valid s →
  (∀ a, a ∈ listUsers s ↔ ∃ u, i_users s !! sa_id a = Some u ∧ publicColumns u = a) ∧
  NoDup (sa_id <$> listUsers s) ∧ Sorted accountLe (listUsers s) ∧
  (∀ a, a ∈ listDevices s ↔ ∃ d, i_kioskDevices s !! ds_id a = Some d ∧ deviceSummary d = a) ∧
  NoDup (ds_id <$> listDevices s) ∧ Sorted (fun a b => ds_createdAt a ≤ ds_createdAt b) (listDevices s).
Proof.
  intros [[Hku _ _] _ [Hkd _ _]]. split_and!.
  - intros a. rewrite listUsers_perm, elem_of_rows. setoid_rewrite lookup_fmap. setoid_rewrite fmap_Some. split.
    + intros (k & u & Hu & ->). exists u. split; [|done]. cbn. by rewrite (Hku k u Hu).
    + intros (u & Hu & <-). by exists (u_id u), u.
  - unfold listUsers. rewrite <-list_fmap_compose. rewrite (merge_sort_Permutation emailLe). by apply (keyed_NoDup u_id).
  - apply listUsers_sorted.
  - intros a. rewrite listDevices_perm, elem_of_rows. setoid_rewrite lookup_fmap. setoid_rewrite fmap_Some. split.
    + intros (k & u & Hu & ->). exists u. split; [|done]. cbn. by rewrite (Hkd k u Hu).
    + intros (u & Hu & <-). by exists (d_id u), u.
  - unfold listDevices. rewrite <-list_fmap_compose. rewrite (merge_sort_Permutation createdLe). by apply (keyed_NoDup d_id).
  - by eapply Sorted_map; [|apply Sorted_merge_sort, _].
Qed.

(** Nothing secret leaves by a list: what the back office is shown is determined by the public
    columns, so two states that differ only in password hashes, device tokens, pairing codes,
    refresh tokens or anything in Redis are shown alike. *)
Theorem directory_hides_secrets s s' :
  valid s → publicColumns <$> i_users s = publicColumns <$> i_users s' →
  deviceSummary <$> i_kioskDevices s = deviceSummary <$> i_kioskDevices s' →
  listUsers s = listUsers s' ∧ listDevices s ≡ₚ listDevices s'.
Proof.
  intros Hv Hu Hd. split; [|by rewrite !listDevices_perm, Hd].
  assert (listUsers s ≡ₚ listUsers s') as Hperm by (by rewrite !listUsers_perm, Hu).
  assert (Transitive accountLe) as Htr by (intros a b c; unfold accountLe; apply collate_trans).
  apply (Sorted_unique_strong accountLe); [|apply listUsers_sorted..|done].
  intros a b Ha Hb Hab Hba. rewrite <-Hperm in Hb. rewrite listUsers_perm, elem_of_rows in Ha, Hb.
  destruct Ha as (k & Ha), Hb as (k' & Hb). rewrite lookup_fmap, fmap_Some in Ha, Hb.
  destruct Ha as (u & Eu & ->), Hb as (u' & Eu' & ->).
  assert (u_email u = u_email u') as E by (by apply (anti_symm collate)).
  enough (k = k') as -> by congruence. destruct Hv as [[_ Hem _] _ _].
  eapply Hem; [exact Eu|exact Eu'| |]; cbn; by rewrite ?E.
Qed.
End lists.
