(* ===== verification/References.v ===== *)
(** * References: order lines and the menu they were bought from

    The foreign keys of [database/schema/orders.ts] from an order's lines to the catalog:
    [order_items.menu_item_id], [order_item_options.option_id] and
    [order_item_options.order_item_id]. The model of the inserts does not check them; here it
    is shown that it need not: however the requests and jobs of the order system interleave with
    edits of the menu, every line and every option of a line refers to a row that exists. *)

From S2P Require Import Prelude Schema Errors Program Gateway Pricing CreateOrder Idempotency OrderState Transition OrderDoors.
From S2P Require Import CreatePayment Webhooks Refunds Invariants Handlers System Announcements Catalog ItemImage CatalogSafety.
From S2P Require Import Scenario CatalogBehaviour Intake.

(** ** What an order's request may do *)

(** The catalog's tables. *)
Definition stock (db : Database) :=
  (categories db, menuItems db, optionGroups db, options db, menuItemOptionGroups db).

(** The catalog stays as it is, lines are only added, and what is added refers to rows. *)
Record linked (db db' : Database) : Prop := {
  li_stock : stock db' = stock db;
  li_kept : orderItems db ⊆ orderItems db';
  li_items : ∀ e, e ∈ orderItems db' → e ∈ orderItems db ∨ is_Some (menuItems db !! oi_menuItemId e.2);
  li_options : ∀ o, o ∈ orderItemOptions db' → o ∈ orderItemOptions db ∨
    (is_Some (options db !! oio_optionId o) ∧ oio_orderItemId o ∈ (orderItems db').*1) }.

(** Nothing at all is done to the catalog or to lines. *)
Definition untouched (db db' : Database) : Prop :=
  (stock db', orderItems db', orderItemOptions db') = (stock db, orderItems db, orderItemOptions db).

Lemma untouched_linked db db' : untouched db db' → linked db db'.
Proof. intros [= H1 H2 H3 H4 H5 HI HO]. split; unfold stock; rewrite ?HI, ?HO; [congruence|done|auto|auto]. Qed.

#[export] Instance linked_preorder : PreOrder linked.
Proof.
  split; [intros db; by apply untouched_linked|]. intros a b c [S1 K1 I1 O1] [S2 K2 I2 O2].
  assert (menuItems b = menuItems a ∧ options b = options a) as [Em Eo] by (unfold stock in S1; split; congruence).
  split; [congruence|by etrans| |].
  - intros e [He|He]%I2; [by apply I1|]. right. by rewrite <-Em.
  - intros o [Ho|[Ho Hl]]%O2; [|right; by rewrite <-Eo].
    apply O1 in Ho as [Ho|[Ho Hl]]; [by left|]. right. split; [done|].
    apply list_elem_of_fmap in Hl as (e & -> & He). apply list_elem_of_fmap_2. by apply K2.
Qed.

Definition links {A} (work : txM A) : Prop :=
  ∀ s a s', work s = Ok (a, s') → linked (tx_db s) (tx_db s').

Lemma links_bind {A B} (m : txM A) (k : A → txM B) : links m → (∀ a, links (k a)) → links (m ≫= k).
Proof. intros Hm Hk s b s' (a & s1 & H1 & H2)%txM_bind_Ok. etrans; [by eapply Hm|by eapply Hk]. Qed.
Lemma links_ret {A} (a : A) : links (mret a).
Proof. by intros s b s' [_ ->]%mret_Ok. Qed.
Lemma links_throw {A} e : links (throw (A:=A) e).
Proof. by intros s b s' ?. Qed.
Lemma links_reads {A} (f : Database → A) : links (reads f).
Proof. by intros s b s' [_ ->]%reads_Ok. Qed.
Lemma links_emit e : links (emit e).
Proof. by intros s b s' [_ ->]%emit_Ok. Qed.
Lemma links_writes f : (∀ db, untouched db (f db)) → links (writes f).
Proof. intros Hf s b s' [_ ->]%writes_Ok. by apply untouched_linked. Qed.

Create HintDb links.
#[export] Hint Resolve links_ret links_throw links_reads links_emit : links.

Ltac head_of t := lazymatch t with ?f _ => head_of f | _ => t end.

(** A transaction is walked statement by statement, opening definitions on the way; a write of
    other tables is seen to be one by computing. *)
Ltac walk_tx :=
  repeat (cbv beta iota zeta; lazymatch goal with
  | |- links (_ ≫= _) => apply links_bind; [|intros ?]
  | |- links (writes _) => apply links_writes; intros ?; reflexivity
  | |- links (if ?b then _ else _) => destruct b
  | |- links (match ?x with _ => _ end) => destruct x
  | |- links ?work => first [solve [eauto with links] | let h := head_of work in progress unfold h]
  end).

Lemma transitionOrder_links oid from to actor reason : links (transitionOrder oid from to actor reason).
Proof. walk_tx. Qed.
Lemma nextOrderNumber_links day : links (nextOrderNumber day).
Proof. walk_tx. Qed.
#[export] Hint Resolve transitionOrder_links nextOrderNumber_links : links.

Lemma statusWork_links principal oid from to : links (statusWork principal oid from to).
Proof. walk_tx. Qed.
Lemma checkoutWork_links config principal oid day now : links (checkoutWork config principal oid day now).
Proof. walk_tx. Qed.
Lemma cancelWork_links principal oid from reason live : links (cancelWork principal oid from reason live).
Proof. walk_tx. Qed.
Lemma expireWork_links oid live : links (expireWork oid live).
Proof. walk_tx. Qed.
Lemma markProcessed_links eid pid now : links (markProcessed eid pid now).
Proof. walk_tx. Qed.
#[export] Hint Resolve markProcessed_links : links.
Lemma markPaymentWork_links eid pid st now : links (markPaymentWork eid pid st now).
Proof. walk_tx. Qed.
Lemma markPaidWork_links eid pid oid method now : links (markPaidWork eid pid oid method now).
Proof. walk_tx. Qed.
Lemma intentWork_links pid order intent key now : links (intentWork pid order intent key now).
Proof. walk_tx. Qed.
Lemma cashWork_links userId pid order tendered key now : links (cashWork userId pid order tendered key now).
Proof. walk_tx. Qed.
Lemma refundWork_links userId rid pid oid status amount input : links (refundWork userId rid pid oid status amount input).
Proof. walk_tx. Qed.
Lemma reserveIfKeyed_links keyed expiry : links (reserveIfKeyed keyed expiry).
Proof. walk_tx. Qed.
Lemma completeIfKeyed_links keyed body : links (completeIfKeyed keyed body).
Proof. walk_tx. Qed.
#[export] Hint Resolve reserveIfKeyed_links completeIfKeyed_links : links.
Lemma writeWork_links keyed now work : links work → links (writeWork keyed now work).
Proof. intros Hw. walk_tx. Qed.

(** *** Creation *)

(** A line bought from this menu. *)
Definition onMenu (db : Database) (line : PricedLine) : Prop :=
  is_Some (menuItems db !! pl_menuItemId line) ∧
  Forall (fun o => is_Some (options db !! ps_optionId o)) (pl_options line).

Lemma readOptions_Some db groupId o : o ∈ readOptions db groupId → is_Some (options db !! co_id o).
Proof.
  unfold readOptions. rewrite merge_sort_Permutation. intros ([id row] & -> & Hin)%list_elem_of_fmap.
  apply list_elem_of_filter in Hin as [_ Hin%elem_of_map_to_list]. by eexists.
Qed.

(** What was priced from the menu is on it. *)
Lemma priced_onMenu db ids line pl : priced_as (readCatalog db ids) line pl →
  Forall (fun id => ∃ item, readCatalog db ids !! ri_menuItemId line = Some item ∧ is_Some (attachedOptions (Some item) !! id))
    (ri_optionIds line) → onMenu db pl.
Proof.
  intros (item & Hi & Eid & _ & _ & _ & _ & _ & Eopts & _) Hopts. pose proof (readCatalog_Some _ _ _ _ Hi) as Hr. split.
  - rewrite Eid. unfold readItem in Hr. destruct (menuItems db !! ri_menuItemId line) as [row|] eqn:E; [|done].
    cbn in Hr. destruct (categories db !! mi_categoryId row); [|done]. cbn in Hr. injection Hr as <-. cbn. by rewrite E.
  - rewrite <-Eopts, Forall_fmap in Hopts. eapply Forall_impl; [exact Hopts|]. cbn.
    intros o (item' & Hi' & ao & Hao). replace item' with item in Hao by congruence.
    apply attachedOptions_Some in Hao as (Hg & Ho & <-).
    unfold readItem in Hr. destruct (menuItems db !! _) as [row|]; [|done]. cbn in Hr.
    destruct (categories db !! _); [|done]. cbn in Hr. injection Hr as <-. cbn in Hg. unfold readGroups in Hg.
    apply list_elem_of_omap in Hg as (link & _ & Hg). destruct (optionGroups db !! _); [|done]. cbn in Hg.
    injection Hg as Eg. rewrite <-Eg in Ho. cbn in Ho. by eapply readOptions_Some.
Qed.

Lemma priceOrder_onMenu db requested ids vat priced :
  priceOrder requested (readCatalog db ids) vat = Ok priced → Forall (onMenu db) (po_lines priced).
Proof.
  intros Hp. pose proof (priceOrder_line_ok _ _ _ _ Hp) as Hok.
  apply priceOrder_Ok in Hp as [Hl _]. revert Hok. induction Hl as [|line pl requested lines Hpl _ IH]; [by constructor|].
  intros [(item & Hi & _ & (_ & Hall & _) & _) Hok]%Forall_cons. constructor; [|by apply IH].
  eapply priced_onMenu; [exact Hpl|]. eapply Forall_impl; [exact Hall|]. intros id Hid. by exists item.
Qed.

Lemma lineRows_onMenu db ids lines e : Forall (onMenu db) lines → e ∈ lineRows ids lines →
  is_Some (menuItems db !! oi_menuItemId e.2).
Proof.
  intros Hl (i & Hi)%list_elem_of_lookup. unfold lineRows in Hi. rewrite list_lookup_imap in Hi.
  apply fmap_Some in Hi as (line & Hline & ->). rewrite Forall_forall in Hl.
  apply (Hl line). by eapply list_elem_of_lookup_2.
Qed.

Lemma optionRows_onMenu db ids lines o : Forall (onMenu db) lines → o ∈ optionRows ids lines →
  is_Some (options db !! oio_optionId o) ∧ oio_orderItemId o ∈ (lineRows ids lines).*1.
Proof.
  intros Hl Ho. split.
  - unfold optionRows in Ho. apply list_elem_of_join in Ho as (l & Ho & (i & Hi)%list_elem_of_lookup).
    rewrite list_lookup_imap in Hi. apply fmap_Some in Hi as (line & Hline & ->).
    apply list_elem_of_fmap in Ho as (x & -> & Hx). cbn. rewrite Forall_forall in Hl.
    destruct (Hl line) as [_ Hopts]; [by eapply list_elem_of_lookup_2|]. rewrite Forall_forall in Hopts. by apply Hopts.
  - pose proof (optionRows_lines ids lines) as H. rewrite Forall_forall in H. by apply H.
Qed.

(** New lines and their options, beside everything there was. *)
Lemma linked_lines db db' ids lines :
  Forall (onMenu db) lines → stock db' = stock db →
  orderItems db' = orderItems db ++ lineRows ids lines →
  orderItemOptions db' = orderItemOptions db ++ optionRows ids lines → linked db db'.
Proof.
  intros Hl Hs HI HO. split; [done|rewrite HI; set_solver| |].
  - intros e. rewrite HI, elem_of_app. intros [?|He]; [by left|]. right. by eapply lineRows_onMenu.
  - intros o. rewrite HO, elem_of_app. intros [?|Ho]; [by left|]. right.
    destruct (optionRows_onMenu db ids lines o Hl Ho) as [? ?]. split; [done|]. rewrite HI, fmap_app. set_solver.
Qed.

Lemma persist_links config tzOffset principal channel input priced now ids s v s' :
  Forall (onMenu (tx_db s)) (po_lines priced) →
  persist config tzOffset principal channel input priced now ids s = Ok (v, s') → linked (tx_db s) (tx_db s').
Proof.
  intros Hm H. unfold persist in H. apply txM_bind_Ok in H as (number & s1 & H1 & H).
  assert (untouched (tx_db s) (tx_db s1)) as Hs1.
  { destruct (isDraft input); [by apply mret_Ok in H1 as [_ ->]|].
    by apply txM_bind_Ok in H1 as (n & s1' & [-> ->]%nextOrderNumber_Ok & [-> ->]%mret_Ok). }
  apply txM_bind_Ok in H as (order & s2 & (-> & _ & ->)%insertOrder_Ok & H).
  apply txM_bind_Ok in H as (? & s3 & (_ & ->)%insertOrderItems_Ok & H).
  apply txM_bind_Ok in H as (? & s4 & ->%insertOrderItemOptions_Ok & H).
  apply txM_bind_Ok in H as (? & s5 & [_ ->]%writes_Ok & [-> ->]%mret_Ok).
  injection Hs1 as E1 E2 E3 E4 E5 EI EO.
  apply (linked_lines _ _ ids (po_lines priced)); cbn; [done|unfold stock; cbn; congruence|by rewrite EI|by rewrite EO].
Qed.

Lemma createWork_links config tzOffset principal input keyed now ids :
  links (createWork config tzOffset principal input keyed now ids).
Proof.
  unfold createWork. apply links_bind; [apply reserveIfKeyed_links|]. intros _. apply links_bind.
  - intros s v s' H. unfold build in H. apply txM_bind_Ok in H as (channel & s1 & H1 & H).
    assert (s1 = s) as ->. { unfold resolveChannel in H1. destruct principal; tx_inv; done. }
    apply txM_bind_Ok in H as (catalog & ? & [-> ->]%reads_Ok & H).
    destruct (priceOrder _ _ _) as [priced|e] eqn:Ep; [|done]. apply priceOrder_onMenu in Ep.
    tx_inv; by eapply persist_links.
  - intros view. walk_tx.
Qed.

(** ** Handlers *)

(** Every step of a handler links. *)
Fixpoint linkedProg {R} (p : prog R) : Prop :=
  match p with
  | Done _ => True
  | Step t k => (∀ db, linked db (t db).1) ∧ ∀ x, linkedProg (k x)
  | Ask call k => ∀ a, linkedProg (k a)
  | Emit _ k => linkedProg k
  end.

Lemma linked_after {A B} (p : prog A) (k : result AppError A → prog B) :
  linkedProg p → (∀ r, linkedProg (k r)) → linkedProg (Program.after p k).
Proof. intros Hp Hk. induction p as [r|X t f IH|call f IH|e f IH]; cbn in *; naive_solver. Qed.
Lemma linked_bind {A B} (p : prog A) (k : A → prog B) : linkedProg p → (∀ a, linkedProg (k a)) → linkedProg (p ≫= k).
Proof. intros Hp Hk. apply linked_after; [done|]. by intros []. Qed.
Lemma linked_read {R X} (f : Database → X) (k : X → prog R) : (∀ x, linkedProg (k x)) → linkedProg (Read f k).
Proof. done. Qed.
Lemma linked_transaction {R A} (work : txM A) (k : result AppError (A * list DomainEvent) → prog R) :
  links work → (∀ r, linkedProg (k r)) → linkedProg (inTransaction work k).
Proof.
  intros Hw Hk. split; [|done]. intros db. unfold transaction.
  destruct (work (mkTx db [])) as [[a s]|e] eqn:E; [|done]. by apply Hw in E.
Qed.
Lemma linked_afterCommit {A} (work : txM A) : links work → linkedProg (afterCommit_run work).
Proof. intros Hw. apply linked_transaction; [done|]. by intros [[a []]|e]. Qed.

#[export] Hint Resolve statusWork_links checkoutWork_links cancelWork_links expireWork_links markPaymentWork_links
  markPaidWork_links intentWork_links cashWork_links refundWork_links writeWork_links createWork_links : links.

(** A handler is walked like a transaction. *)
Ltac walk :=
  repeat (cbv beta iota zeta; lazymatch goal with
  | |- True => done
  | |- linkedProg (Done _) => done
  | |- linkedProg (Return _) => done
  | |- linkedProg (Throw _) => done
  | |- linkedProg (_ ≫= _) => apply linked_bind; [|intros ?]
  | |- linkedProg (Program.after _ _) => apply linked_after; [|intros ?]
  | |- linkedProg (Read _ _) => apply linked_read; intros ?
  | |- linkedProg (Ask _ _) => intros ?
  | |- linkedProg (Emit _ ?k) => change (linkedProg k)
  | |- linkedProg (inTransaction _ _) => apply linked_transaction; [solve [eauto with links]|intros ?]
  | |- linkedProg (afterCommit_run _) => apply linked_afterCommit; solve [eauto with links]
  | |- linkedProg (if ?b then _ else _) => destruct b
  | |- linkedProg (match ?x with _ => _ end) => destruct x
  | |- linkedProg ?p => let h := head_of p in progress unfold h
  end).

Section requests.
Context `{port : PaymentPort}.
Context (config : Config) (tzOffset : string → Z → Z) (sha256 : string → string).

Lemma processEvent_linked eid now : linkedProg (processEvent eid now).
Proof. walk. Qed.

Lemma drainInbox_linked now : linkedProg (drainInbox now).
Proof.
  apply linked_read. intros ids. generalize 0. induction ids as [|id ids IH]; intros n; [done|].
  apply linked_bind; [apply processEvent_linked|]. intros b. apply IH.
Qed.

Lemma expireOverdue_linked now : linkedProg (expireOverdue now).
Proof.
  apply linked_read. intros ids. generalize 0. induction ids as [|id ids IH]; intros n; [done|].
  apply linked_bind; [walk|]. intros b. apply IH.
Qed.

Lemma receive_linked stripe secrets rawBody signature rowId now :
  linkedProg (receive stripe secrets rawBody signature rowId now).
Proof.
  unfold receive. destruct rawBody as [raw|]; [|done]. destruct signature as [sig|]; [|done].
  destruct (parseWebhook _ _ _ _) as [[event ?]|]; [|done]. split.
  - intros db. apply untouched_linked. unfold recordEvent. by repeat case_bool_decide.
  - by intros [[id|]|e].
Qed.

(** The requests and jobs of [System], without the arbitrary changes of an administrator that it
    allows: the catalog's own writes take their place. *)
Inductive tillRequest : thread → Prop :=
| till_create principal input key now ids :
    tillRequest (thread_of (createOrder config tzOffset sha256 principal input key now ids))
| till_checkout principal oid now : tillRequest (thread_of (checkout config principal oid now))
| till_transition principal oid to : tillRequest (thread_of (transition principal oid to))
| till_cancel principal oid reason : tillRequest (thread_of (cancel principal oid reason))
| till_pay principal oid input key pid now :
    tillRequest (thread_of (createPayment sha256 principal oid input key pid now))
| till_refund userId rid pid input now : tillRequest (thread_of (refund config tzOffset userId rid pid input now))
| till_payments principal oid : tillRequest (thread_of (listFor principal oid))
| till_webhook stripe secrets rawBody signature rowId now :
    tillRequest (thread_of (receive stripe secrets rawBody signature rowId now))
| till_process eid now : tillRequest (thread_of (processEvent eid now))
| till_drain now : tillRequest (thread_of (drainInbox now))
| till_expire now : tillRequest (thread_of (expireOverdue now))
| till_reconcile now : tillRequest (thread_of (reconcileYesterday config tzOffset now)).

Lemma till_request th : tillRequest th → request config tzOffset sha256 th.
Proof. destruct 1; constructor. Qed.

Lemma till_linked th : tillRequest th → linkedProg (projT2 th).
Proof.
  destruct 1; cbn [projT2 thread_of].
  all: try first [apply processEvent_linked|apply drainInbox_linked|apply expireOverdue_linked|apply receive_linked].
  all: walk.
Qed.

(** ** Every interleaving *)

(** The references hold. *)
Record RefsOk (db : Database) : Prop := {
  refs_items : ∀ e, e ∈ orderItems db → is_Some (menuItems db !! oi_menuItemId e.2);
  refs_options : ∀ o, o ∈ orderItemOptions db →
    is_Some (options db !! oio_optionId o) ∧ oio_orderItemId o ∈ (orderItems db).*1 }.

Lemma dom_is_Some {A} (m m' : gmap string A) k : dom m ⊆ dom m' → is_Some (m !! k) → is_Some (m' !! k).
Proof. rewrite <-!elem_of_dom. set_solver. Qed.

Definition shopOk (db : Database) : Prop := CatalogOk db ∧ RefsOk db.

Lemma linked_shopOk db db' : linked db db' → shopOk db → shopOk db' ∧ grown db db'.
Proof.
  intros [Hs Hk Hi Ho] [[Hn Hit Hg Hop Hl Hlk] [Ri Ro]]. injection Hs as E1 E2 E3 E4 E5. split; [split|].
  - split; rewrite ?E1, ?E2, ?E3, ?E4, ?E5; done.
  - split; rewrite ?E2, ?E4.
    + intros e [He|He]%Hi; auto.
    + intros o [He|He]%Ho; [|done]. destruct (Ro o He) as [? Hin]. split; [done|].
      apply list_elem_of_fmap in Hin as (e & -> & He'). by apply list_elem_of_fmap_2, Hk.
  - split; rewrite ?E1, ?E2, ?E3, ?E4; done.
Qed.

Lemma catalog_shopOk db db' : catalogMove db db' → shopOk db → shopOk db' ∧ grown db db'.
Proof.
  intros (HC & [[= _ _ HI HO _] _] & Hg) [Hc [Ri Ro]]. split; [split; [by apply HC|]|done]. destruct Hg as [_ Gi _ Go].
  split; rewrite HI, ?HO.
  - intros e He. eapply dom_is_Some; [exact Gi|auto].
  - intros o Hin. destruct (Ro o Hin). split; [|done]. by eapply dom_is_Some.
Qed.

(** A handler all of whose steps keep the shop in order. *)
Lemma shop_rg {R} (step : Database → Database → Prop) (steps : ∀ R, prog R → Prop) (p : prog R) P :
  (∀ R X (t : Database → Database * X) (k : X → prog R), steps R (Step t k) → (∀ db, step db (t db).1) ∧ ∀ x, steps R (k x)) →
  (∀ R call (k : GatewayReply call → prog R), steps R (Ask call k) → ∀ a, steps R (k a)) →
  (∀ R e (k : prog R), steps R (Emit e k) → steps R k) →
  (∀ db db', step db db' → shopOk db → shopOk db' ∧ grown db db') →
  steps R p → rg shopOk grown P p.
Proof.
  intros H1 H2 H3 Hstep. revert P. induction p as [r|X t k IH|call k IH|e k IH]; intros P Hp; [done| |intros a; by apply IH, H2|by apply IH; eapply H3].
  apply H1 in Hp as [Ht Hk]. intros db Hdb HP. destruct (Hstep _ _ (Ht db) Hdb). split_and!; [done..|].
  exists (fun _ => True). split_and!; [done..|]. by apply IH.
Qed.

Context (sharp : string → option string) (publicBaseUrl : string).

(** The order system, its administration through the catalog's own routes. *)
Definition shopTraffic (th : thread) : Prop :=
  tillRequest th ∨ catalogThread sha256 sharp publicBaseUrl th.

(** C12. In every interleaving of the order system's requests and jobs with edits of the menu, from a
    shop that has sold nothing, the books and the catalog both keep their invariants, every
    line of every order refers to an item that exists and every option of a line to an option
    and a line that do: Postgres never has a foreign key to refuse, and no item or option that
    was ever sold disappears. *)
Theorem lines_refer_to_menu db0 c c' :
  opening db0 → orderItemOptions db0 = [] → CatalogOk db0 →
  pool_steps shopTraffic (idle db0) c → pool_steps shopTraffic c c' →
  Inv (pool_db c) ∧ CatalogOk (pool_db c) ∧ RefsOk (pool_db c) ∧ grown (pool_db c) (pool_db c').
Proof.
  intros Ho Hx Hc H1 H2.
  assert (∀ db th, shopOk db → shopTraffic th → thread_safe shopOk grown db th) as Hsafe.
  { intros db th _ [Hr|(stored & write & ->)]; exists (fun _ => True); split_and!; try done.
    - eapply (shop_rg linked (@linkedProg)); [done|done|done|apply linked_shopOk|by apply till_linked].
    - eapply (shop_rg catalogMove (@catalogProg)); [done|done|done|apply catalog_shopOk|apply perform_moves]. }
  assert (∀ db th, Inv db → shopTraffic th → thread_safe Inv Ev db th) as Hbooks.
  { intros db th HI [Hr|(stored & write & ->)]; [by eapply request_safe, till_request|].
    exists (fun _ => True). split_and!; [done..|]. apply catalog_rg_books, perform_moves. }
  assert (pool_safe shopOk grown (idle db0)) as Hs0.
  { split; [|constructor]. split; [done|]. destruct Ho as (_ & HI & _). split; cbn; rewrite ?HI, ?Hx; set_solver. }
  destruct (pool_steps_safe Inv Ev _ _ _ Hbooks H1) as [[HI _] _]; [split; [by apply opening_inv|constructor]|].
  destruct (pool_steps_safe shopOk grown _ _ _ Hsafe H1 Hs0) as [Hs1 _].
  destruct (pool_steps_safe shopOk grown _ _ _ Hsafe H2 Hs1) as [_ Hg].
  destruct Hs1 as [[? ?] _]. by split_and!.
Qed.
End requests.

(** ** A rename during a sale *)

Module Rush.
Definition selling : thread := thread_of (createOrder Shop.config Shop.tzOffset (fun s => s) Shop.cashier
  (Shop.basket COUNTER 2) (Some "create-o1") Shop.noon (Shop.ids "o1")).
Definition renaming : thread := thread_of (Corner.serve rename).

Definition both : Pool := {| pool_db := Shop.morning; pool_threads := [selling; renaming]; pool_log := [] |}.
(** The order is written, then the latte is renamed. *)
Definition sold : Pool := foldl Corner.poolTurn both [0; 1]%nat.

Lemma morning_ok : CatalogOk Shop.morning.
Proof.
  split.
  - intros i j a b Ha Hb _. unfold Shop.morning in Ha, Hb. cbn [categories] in Ha, Hb.
    apply lookup_singleton_Some in Ha as [<- _], Hb as [<- _]. done.
  - apply map_Forall_singleton. split; [done|]. by eexists.
  - apply map_Forall_singleton. cbn. lia.
  - apply map_Forall_singleton. by eexists.
  - constructor; [|constructor]. split; by eexists.
  - repeat constructor; set_solver.
Qed.

Lemma lines_refer_to_menu_witness :
  map (fun e => (oi_menuItemId e.2, oi_nameSnapshot e.2)) (orderItems (pool_db sold)) = [("latte", "Latte")] ∧
  (mi_name <$> menuItems (pool_db sold) !! "latte") = Some "Flat white" ∧ RefsOk (pool_db sold).
Proof.
  split; [vm_compute; reflexivity|]. split; [vm_compute; reflexivity|].
  apply (lines_refer_to_menu (port := stripePort) Shop.config Shop.tzOffset (fun s => s) (fun b => Some b) "https://cdn"
    Shop.morning sold sold); [repeat split|reflexivity|apply morning_ok| |apply rtc_refl].
  eapply rtc_l; [apply (pool_spawn _ _ _ [] renaming); right; exists (fun _ _ => Ok tt), rename; reflexivity|].
  eapply rtc_l; [apply (pool_spawn _ _ _ [renaming] selling); left; constructor|].
  apply (Corner.poolTurns_steps _ [0; 1]%nat both).
Defined.
End Rush.
