(* ===== verification/Instruments.v ===== *)
(** * Instruments: what the order system counts

    The counters of [observability/metrics/metrics.ts] as the handlers move them: the effects
    [OrdersCreated], [PaymentsMetric] and [ReconciliationRun] a pool has emitted, applied to the
    series the constructor registers at zero. *)

From S2P Require Import Prelude Schema Errors Program Gateway Pricing CreateOrder Idempotency OrderState Transition OrderDoors.
From S2P Require Import CreatePayment Webhooks Refunds Invariants System OrdersQueryDto Monitoring References Scenario.

(** The labels of [payments_total]. *)
Definition providerText (p : Provider) : string := match p with STRIPE => "STRIPE" | CASH_DRAWER => "CASH" end.
Definition statusText (st : PaymentStatus) : string :=
  match st with
  | PayPENDING => "PENDING" | PayPROCESSING => "PROCESSING" | PaySUCCEEDED => "SUCCEEDED"
  | PayFAILED => "FAILED" | PayCANCELLED => "CANCELLED" | PayEXPIRED => "EXPIRED"
  end.

(** The instruments the handlers move, each by the call the code makes. *)
Definition count (m : Metrics) (e : Effect) : Metrics :=
  match e with
  | OrdersCreated channel =>
      {| mt_ordersCreated := inc [channelText channel] 1 (mt_ordersCreated m); mt_payments := mt_payments m;
         mt_reconciliationRuns := mt_reconciliationRuns m; mt_rateLimitRejections := mt_rateLimitRejections m;
         mt_rateLimitBackendUnavailable := mt_rateLimitBackendUnavailable m; mt_retentionRows := mt_retentionRows m;
         mt_collectorFailures := mt_collectorFailures m; mt_reconciliationDelta := mt_reconciliationDelta m |}
  | PaymentsMetric provider status =>
      {| mt_ordersCreated := mt_ordersCreated m; mt_payments := inc [providerText provider; statusText status] 1 (mt_payments m);
         mt_reconciliationRuns := mt_reconciliationRuns m; mt_rateLimitRejections := mt_rateLimitRejections m;
         mt_rateLimitBackendUnavailable := mt_rateLimitBackendUnavailable m; mt_retentionRows := mt_retentionRows m;
         mt_collectorFailures := mt_collectorFailures m; mt_reconciliationDelta := mt_reconciliationDelta m |}
  | ReconciliationRun outcome => recordNight outcome m
  | _ => m
  end.

(** ** The labels are known beforehand *)

(** An effect whose labels the constructor registered. *)
Definition registered (e : Effect) : Prop :=
  match e with
  | PaymentsMetric provider status => [providerText provider; statusText status] ∈ TERMINAL_PAYMENTS
  | _ => True
  end.

#[local] Instance registered_dec e : Decision (registered e).
Proof. destruct e; cbn; apply _. Defined.

Fixpoint meters {R} (p : prog R) : Prop :=
  match p with
  | Done _ => True
  | Step t k => ∀ x, meters (k x)
  | Ask call k => ∀ a, meters (k a)
  | Emit e k => registered e ∧ meters k
  end.

Lemma meters_after {A B} (p : prog A) (k : result AppError A → prog B) :
  meters p → (∀ r, meters (k r)) → meters (Program.after p k).
Proof. intros Hp Hk. induction p as [r|X t f IH|call f IH|e f IH]; cbn in *; naive_solver. Qed.
Lemma meters_bind {A B} (p : prog A) (k : A → prog B) : meters p → (∀ a, meters (k a)) → meters (p ≫= k).
Proof. intros Hp Hk. apply meters_after; [done|]. by intros []. Qed.
Lemma meters_transaction {R A} (work : txM A) (k : result AppError (A * list DomainEvent) → prog R) :
  (∀ r, meters (k r)) → meters (inTransaction work k).
Proof. done. Qed.
Lemma meters_afterCommit {A} (work : txM A) : meters (afterCommit_run work).
Proof. intros [[a []]|e]; done. Qed.

Ltac meter :=
  repeat (cbv beta iota zeta; lazymatch goal with
  | |- True => done
  | |- meters (Done _) => done
  | |- meters (Return _) => done
  | |- meters (Throw _) => done
  | |- meters (_ ≫= _) => apply meters_bind; [|intros ?]
  | |- meters (Program.after _ _) => apply meters_after; [|intros ?]
  | |- meters (Read _ _) => intros ?
  | |- meters (Step _ _) => intros ?
  | |- meters (Ask _ _) => intros ?
  | |- meters (Emit _ _) => split; [first [exact I|by apply (bool_decide_unpack _)]|]
  | |- meters (inTransaction _ _) => apply meters_transaction; intros ?
  | |- meters (afterCommit_run _) => apply meters_afterCommit
  | |- meters (if ?b then _ else _) => destruct b
  | |- meters (match ?x with _ => _ end) => destruct x
  | |- meters ?p => let h := head_of p in progress unfold h
  end).

(** A gateway event ends a payment as failed or cancelled. *)
Lemma decided_status outcome payment order pid st :
  decidePaymentOutcome outcome payment order = MARK_PAYMENT pid st → st = PayFAILED ∨ st = PayCANCELLED.
Proof.
  unfold decidePaymentOutcome, decideSuccess. intros H.
  repeat (case_match; try discriminate H); injection H as <- <-; auto.
Qed.

Section counted.
Context `{port : PaymentPort}.
Context (config : Config) (tzOffset : string → Z → Z) (sha256 : string → string).

Lemma apply_meters eid now : meters (Webhooks.apply eid now).
Proof.
  intros [payload|]; [|done]. destruct (interpret payload) as [outcome|]; [|done].
  assert (∀ payment order, meters (match decidePaymentOutcome outcome payment order with
    | REFUSE _ => Return false
    | SKIP _ => _ ← db_transaction (markProcessed eid (pr_id <$> payment) now); Return false
    | MARK_PAYMENT paymentId status =>
        landed ← afterCommit_run (markPaymentWork eid paymentId status now);
        if (landed : bool) then Emit (PaymentsMetric STRIPE status) (Return true) else Return true
    | MARK_PAID paymentId orderId => markPaid eid paymentId orderId now
    end)) as Hact.
  { intros payment order. destruct (decidePaymentOutcome outcome payment order) as [pid oid|pid st|why|why] eqn:E; [..|done].
    - meter.
    - apply decided_status in E as [-> | ->]; meter.
    - meter. }
  unfold load. destruct (outcomeIntent outcome) as [j|]; [|apply Hact].
  intros [r|]; [|apply Hact]. intros order. apply Hact.
Qed.

Lemma processEvent_meters eid now : meters (processEvent eid now).
Proof. apply meters_after; [apply apply_meters|]. intros [b|e]; meter. Qed.

Lemma drainInbox_meters now : meters (drainInbox now).
Proof.
  intros ids. generalize 0. induction ids as [|id ids IH]; intros n; [done|].
  apply meters_bind; [apply processEvent_meters|]. intros b. apply IH.
Qed.

Lemma expireOverdue_meters now : meters (expireOverdue now).
Proof.
  intros ids. generalize 0. induction ids as [|id ids IH]; intros n; [done|].
  apply meters_bind; [meter|]. intros b. apply IH.
Qed.

Lemma request_meters th : request config tzOffset sha256 th → meters (projT2 th).
Proof.
  destruct 1; cbn [projT2 thread_of].
  all: try first [apply processEvent_meters|apply drainInbox_meters|apply expireOverdue_meters].
  all: meter.
Qed.

Definition metered (c : Pool) : Prop :=
  Forall registered (pool_log c) ∧ Forall (fun th => meters (projT2 th)) (pool_threads c).

Lemma metered_steps c c' : pool_steps (request config tzOffset sha256) c c' → metered c → metered c'.
Proof.
  induction 1 as [|c1 c2 c3 Hs _ IH]; [done|]. intros [Hl Ht]. apply IH. clear IH.
  destruct Hs as [db log l1 l2 R X t k|db log l1 l2 R call k a|db log l1 l2 R e k|db log l th Ha|db log l1 l2 th];
    unfold metered in *; cbn in *.
  - apply Forall_app in Ht as [H1 [Hk H2]%Forall_cons]. split; [done|]. apply Forall_app. split; [done|].
    constructor; [apply Hk|done].
  - apply Forall_app in Ht as [H1 [Hk H2]%Forall_cons]. split; [done|]. apply Forall_app. split; [done|].
    constructor; [apply Hk|done].
  - apply Forall_app in Ht as [H1 [[He Hk] H2]%Forall_cons]. split; [apply Forall_app; by repeat constructor|].
    apply Forall_app. split; [done|]. by constructor.
  - split; [done|]. constructor; [by apply request_meters|done].
  - apply Forall_app in Ht as [H1 [_ H2]%Forall_cons]. split; [done|]. by apply Forall_app.
Qed.

(** Counting up a series. *)
Lemma inc_dom labels n series : is_Some (series !! labels) → dom (inc labels n series) = dom series.
Proof. intros H%elem_of_dom. unfold inc. rewrite dom_insert_L. set_solver. Qed.

Definition tally (f : Effect → bool) (log : list Effect) : Z := Z.of_nat (length (filter (fun e => f e = true) log)).

Definition isPayment (e : Effect) : bool := match e with PaymentsMetric _ _ => true | _ => false end.
Definition isCreation (e : Effect) : bool := match e with OrdersCreated _ => true | _ => false end.

Lemma tally_snoc f log e : tally f (log ++ [e]) = tally f log + (if f e then 1 else 0).
Proof.
  unfold tally. rewrite filter_app, length_app, filter_cons, filter_nil.
  destruct (f e); [rewrite decide_True by done|rewrite decide_False by done]; cbn; lia.
Qed.

(** No series appears after the boot: the payments that were ever counted ended with one of the
    four (provider, status) pairs the constructor registers at zero and the orders with one
    of the channels, whatever ran, in whatever order, and died when; and the series add up to
    the payments and the orders counted. *)
Theorem series_known_at_boot c rules retained :
  reachable config tzOffset sha256 c →
  let boot := newMetrics (map channelText orderChannels) rules retained in
  let m := foldl count boot (pool_log c) in
  dom (mt_payments m) = dom (mt_payments boot) ∧
  dom (mt_ordersCreated m) = dom (mt_ordersCreated boot) ∧
  map_fold (fun _ v acc => v + acc) 0 (mt_payments m) = tally isPayment (pool_log c) ∧
  map_fold (fun _ v acc => v + acc) 0 (mt_ordersCreated m) = tally isCreation (pool_log c).
Proof.
  intros (db0 & _ & Hs). cbv zeta.
  assert (metered c) as [Hreg _] by (eapply metered_steps; [exact Hs|by repeat constructor]). clear Hs.
  induction (pool_log c) as [|e log IH] using rev_ind; [do 2 (split; [done|]); split; by vm_compute|].
  apply Forall_app in Hreg as [Hlog [He _]%Forall_cons]. destruct (IH Hlog) as (Dp & Do & Tp & To).
  rewrite foldl_snoc, !tally_snoc. set (m := foldl count _ log) in *. clearbody m.
  assert (recordNightSame : ∀ night, mt_payments (recordNight night m) = mt_payments m ∧
    mt_ordersCreated (recordNight night m) = mt_ordersCreated m) by (by intros []).
  destruct e as [events|channel|provider status| |outcome|row]; cbn [count isPayment isCreation registered] in *.
  - split_and!; [done..|lia|lia].
  - cbn [mt_payments mt_ordersCreated]. rewrite inc_total, inc_dom; [split_and!; [done..|lia|lia]|].
    apply elem_of_dom. rewrite Do. destruct channel; apply (bool_decide_unpack _); by vm_compute.
  - cbn [mt_payments mt_ordersCreated]. rewrite inc_total, inc_dom; [split_and!; [done..|lia|lia]|].
    apply elem_of_dom. rewrite Dp. revert He. generalize [providerText provider; statusText status] as labels. clear.
    apply Forall_forall. repeat constructor; apply (bool_decide_unpack _); by vm_compute.
  - split_and!; [done..|lia|lia].
  - destruct (recordNightSame outcome) as [-> ->]. split_and!; [done..|lia|lia].
  - split_and!; [done..|lia|lia].
Qed.
End counted.

(** ** The scenario's day *)

Lemma series_known_at_boot_witness :
  map_fold (fun _ v acc => v + acc) 0
    (mt_payments (foldl count (newMetrics (map channelText orderChannels) [] []) (pool_log Shop.closing))) = 2.
Proof.
  destruct (series_known_at_boot (port := stripePort) Shop.config Shop.tzOffset Shop.sha256 Shop.closing [] []
    Shop.closing_reachable) as (_ & _ & -> & _).
  by vm_compute.
Defined.
