(* ===== verification/Sale.v ===== *)
(** * Sale: an order that is allowed goes through

    The invariants say what never happens; here is what does. From any reachable books, a basket
    that prices is accepted, the order can be paid in cash, and the kitchen takes it to
    collection: every step answers, none is refused by a guard, a constraint or a queue number.
    This is the counter's script of [ops/load/cafepos.k6.js], [counterOrder]. *)

From S2P Require Import Prelude Schema Errors Program Gateway Pricing CreateOrder Idempotency OrderState Transition OrderDoors.
From S2P Require Import CreatePayment Webhooks Refunds Invariants Handlers System Replay Doors Scenario BusinessDay.

(** ** Creating *)

(** Amounts the columns hold, and quantities the check lets in. *)
Record fits (priced : PricedOrder) : Prop := {
  fit_some : po_lines priced ≠ [];
  fit_total : int4 (po_subtotalMinor priced) && int4 (po_vatMinor priced) && int4 (po_totalMinor priced) = true;
  fit_lines : Forall (fun l => int4 (pl_unitPriceMinorSnapshot l) && int4 (pl_lineTotalMinor l) = true ∧
    1 ≤ pl_quantity l ≤ 50) (po_lines priced) }.

(** Whoever may place this order: staff at the counter, or a tablet that is known and not paused. *)
Definition mayPlace (principal : Principal) (input : CreateOrderInput) (db : Database) : Prop :=
  match principal with
  | StaffPrincipal _ _ => in_channel input = COUNTER
  | DevicePrincipal d => in_channel input = KIOSK ∧ ∃ st, kioskDevices db !! d = Some st ∧ st ≠ DevPAUSED
  end.

Lemma existsb_false {A} (f : A → bool) l : Forall (fun x => f x = false) l → existsb f l = false.
Proof. induction 1 as [|x l Hx _ IH]; [done|]. cbn. by rewrite Hx. Qed.

(** A statement that succeeds, and the rest of the transaction. *)
Lemma bind_run {A B} (m : txM A) (k : A → txM B) s a s' : m s = Ok (a, s') → (m ≫= k) s = k a s'.
Proof. intros H. unfold mbind, txM_bind. by rewrite H. Qed.

(** The key taken, before the work. *)
Definition reserved (key hash : string) (now : Z) (db : Database) : Database :=
  with_idempotencyKeys (<[key := {| ik_requestHash := hash; ik_responseStatus := None; ik_responseBody := None;
    ik_expiresAt := keyExpiry now |}]> (idempotencyKeys db)) db.

Lemma reserve_run key hash now db : idempotencyKeys db !! key = None →
  reserveIfKeyed (Some (key, hash)) (keyExpiry now) (mkTx db []) = Ok (tt, mkTx (reserved key hash now db) []).
Proof. intros Hk. cbn. unfold reserveKey, mbind, txM_bind, reads. cbn. by rewrite Hk. Qed.

Section creating.
Context `{port : PaymentPort}.
Context (config : Config) (tzOffset : string → Z → Z) (sha256 : string → string).

Lemma resolveChannel_run principal input s : mayPlace principal input (tx_db s) → isDraft input = false →
  resolveChannel principal input s = Ok (in_channel input, s).
Proof.
  unfold resolveChannel. destruct principal as [u r|d]; cbn.
  - intros -> _. done.
  - intros (-> & st & Hst & Hne) ->. rewrite bool_decide_true by done. cbn. unfold mbind, txM_bind, reads. cbn.
    rewrite Hst, bool_decide_false by congruence. done.
Qed.

Lemma insertOrder_run id row s :
  int4 (o_subtotalMinor row) && int4 (o_vatMinor row) && int4 (o_totalMinor row) = true →
  orders (tx_db s) !! id = None → numberTaken (tx_db s) row = false →
  (∀ d, o_kioskDeviceId row = Some d → is_Some (kioskDevices (tx_db s) !! d)) →
  insertOrder id row s = Ok (row, mkTx (with_orders (<[id := row]> (orders (tx_db s))) (tx_db s)) (tx_pending s)).
Proof.
  intros Ha Hn Ht Hd. unfold insertOrder, mbind, txM_bind, reads. unfold Datatypes.id. rewrite Ha, Hn, Ht. cbn.
  destruct (o_kioskDeviceId row) as [d|]; [|done]. destruct (Hd d eq_refl) as [st ->]. done.
Qed.

Lemma insertOrderItems_run rows s :
  rows ≠ [] → Forall (fun r => int4 (oi_unitPriceMinorSnapshot r.2) && int4 (oi_lineTotalMinor r.2) = true) rows →
  Forall (fun r => 1 ≤ oi_quantity r.2 ≤ 50) rows → NoDup ((orderItems (tx_db s)).*1 ++ rows.*1) →
  insertOrderItems rows s = Ok (tt, mkTx (with_orderItems (orderItems (tx_db s) ++ rows) (tx_db s)) (tx_pending s)).
Proof.
  intros Hne Ha Hq Hn. unfold insertOrderItems, mbind, txM_bind, reads. unfold id. rewrite bool_decide_false by done.
  rewrite (existsb_false (fun r => negb _)), (existsb_false (fun r => _ || _)), bool_decide_true; [done|done|..].
  - eapply Forall_impl; [exact Hq|]. cbn. lia.
  - eapply Forall_impl; [exact Ha|]. cbn. by intros r ->.
Qed.

Lemma insertOrderItemOptions_run rows s : insertOrderItemOptions rows s =
  Ok (tt, mkTx (with_orderItemOptions (orderItemOptions (tx_db s) ++ rows) (tx_db s)) (tx_pending s)).
Proof.
  destruct rows as [|r rows]; [|done]. cbn. unfold mret, txM_ret. destruct s as [[]]. cbn. by rewrite app_nil_r.
Qed.

Definition businessDay (now : Z) : string :=
  businessDayOf tzOffset now (BUSINESS_TIMEZONE config) (BUSINESS_DAY_START_HOUR config).

(** The row a request writes: the next number of its day. *)
Definition newRow (principal : Principal) (input : CreateOrderInput) (priced : PricedOrder) (now : Z) (ids : NewIds)
    (db : Database) : OrderRow :=
  newOrderRow config tzOffset principal (in_channel input) input priced now (ni_createdAt ids)
    (Some (formatOrderNumber (counterOf db (businessDay now) + 1))).

Lemma persist_run principal input priced now ids s :
  queue_ok (orders (tx_db s)) (orderNumberCounters (tx_db s)) →
  mayPlace principal input (tx_db s) → isDraft input = false → fits priced →
  orders (tx_db s) !! ni_order ids = None →
  NoDup ((orderItems (tx_db s)).*1 ++ (lineRows ids (po_lines priced)).*1) →
  let row := newRow principal input priced now ids (tx_db s) in
  ∃ s', persist config tzOffset principal (in_channel input) input priced now ids s =
      Ok (toView (ni_order ids) row priced, s') ∧
    orders (tx_db s') = <[ni_order ids := row]> (orders (tx_db s)) ∧
    payments (tx_db s') = payments (tx_db s) ∧ idempotencyKeys (tx_db s') = idempotencyKeys (tx_db s) ∧
    tx_pending s' = tx_pending s.
Proof.
  intros HI Hp Hd [Hs Ha Hl] Hn Hlines row. unfold persist. rewrite Hd.
  erewrite bind_run; [|by erewrite bind_run by apply nextOrderNumber_eq].
  erewrite bind_run; [|apply insertOrder_run]; cbn [tx_db tx_pending].
  - erewrite bind_run; [|apply insertOrderItems_run]; cbn [tx_db tx_pending].
    + erewrite bind_run by apply insertOrderItemOptions_run. cbn [tx_db tx_pending].
      erewrite bind_run by reflexivity. eexists. split; [reflexivity|]. done.
    + destruct (po_lines priced); done.
    + apply (lineRows_Forall ids (po_lines priced) (fun r => int4 (oi_unitPriceMinorSnapshot r) && int4 (oi_lineTotalMinor r) = true)).
      eapply Forall_impl; [exact Hl|]. by intros l [? _].
    + apply (lineRows_Forall ids (po_lines priced) (fun r => 1 ≤ oi_quantity r ≤ 50)).
      eapply Forall_impl; [exact Hl|]. by intros l [_ ?].
    + done.
  - done.
  - done.
  - apply bool_decide_eq_false. intros (oid' & o' & Ho' & Hday & Hnum).
    eapply (number_free (tx_db s) row); [done|reflexivity|exact Ho'|exact Hday|exact Hnum].
  - intros d. cbn. destruct principal as [u r|d']; [done|]. intros [= ->].
    destruct Hp as (_ & st & Hst & _). by eexists.
Qed.

(** A request that may be made, of a basket that prices, under a fresh key and fresh ids: the
    order is there, awaiting payment, under the next number of its day. *)
Lemma create_run gw principal input key now ids db priced :
  Inv db → mayPlace principal input db → isDraft input = false →
  priceOrder (in_items input) (readCatalog db (ri_menuItemId <$> in_items input)) (VAT_BASIS_POINTS config) = Ok priced →
  fits priced → (∀ expected, in_expectedTotalMinor input = Some expected → expected = po_totalMinor priced) →
  orders db !! ni_order ids = None → NoDup ((orderItems db).*1 ++ (lineRows ids (po_lines priced)).*1) →
  idempotencyKeys db !! key = None →
  let row := newRow principal input priced now ids db in
  ∃ db', run gw (createOrder config tzOffset sha256 principal input (Some key) now ids) db =
      (db', [OrdersCreated (in_channel input)], Ok (OrderBody (toView (ni_order ids) row priced), false)) ∧
    orders db' = <[ni_order ids := row]> (orders db) ∧ payments db' = payments db ∧
    (∀ k, k ≠ key → idempotencyKeys db' !! k = idempotencyKeys db !! k).
Proof.
  intros HI Hp Hd Hpr Hf He Hn Hl Hk row.
  unfold createOrder, inTransaction. cbn [fmap option_fmap option_map run]. unfold transaction.
  set (hash := hashRequest _ _ _).
  pose proof (reserve_run key hash now db Hk) as Hres. set (db1 := reserved key hash now db) in Hres.
  destruct (persist_run principal input priced now ids (mkTx db1 [])) as (s' & Hrun & Ho & Hpay & Hkeys & Hpend);
    [apply HI|done..|]. cbn [tx_db tx_pending] in *.
  assert (build config tzOffset principal input now ids (mkTx db1 []) = Ok (toView (ni_order ids) row priced, s')) as Hbuild.
  { unfold build, mbind, txM_bind. rewrite (resolveChannel_run principal input (mkTx db1 [])) by done. unfold reads. cbn [tx_db].
    change (readCatalog db1) with (readCatalog db). rewrite Hpr.
    destruct (in_expectedTotalMinor input) as [expected|]; [|done]. rewrite bool_decide_true by by apply He. done. }
  unfold createWork, mbind, txM_bind. rewrite Hres, Hbuild. cbn [completeIfKeyed]. unfold completeKey, writes, mret, txM_ret.
  cbn [tx_db tx_pending fst snd run]. eexists. split; [reflexivity|]. cbn. split; [done|]. split; [done|].
  intros k Hne. rewrite lookup_alter_ne by done. rewrite Hkeys. cbn. by rewrite lookup_insert_ne.
Qed.
End creating.

(** ** Paying *)

(** No payment was made for the order, or under this id or key. *)
Record unpaid (oid pid key : string) (db : Database) : Prop := {
  un_order : map_Forall (fun _ p => p_orderId p ≠ oid) (payments db);
  un_id : payments db !! pid = None;
  un_key : map_Forall (fun _ p => p_idempotencyKey p ≠ Some key) (payments db);
  un_stored : idempotencyKeys db !! key = None }.

Lemma livePayment_none oid db : map_Forall (fun _ p => p_orderId p ≠ oid) (payments db) → livePayment db oid = None.
Proof.
  intros Hm. unfold livePayment, livePayments.
  destruct (filter _ (map_to_list (payments db))) as [|[k p] l] eqn:E; [done|]. exfalso.
  assert ((k, p) ∈ (k, p) :: l) as Hin by set_solver. rewrite <-E in Hin.
  apply list_elem_of_filter in Hin as [[Ho _] Hin%elem_of_map_to_list]. by apply (Hm k p Hin).
Qed.

(** The payment that is in flight. *)
Lemma livePayment_new oid pid row db :
  payments db !! pid = Some row → p_orderId row = oid → isLive row = true →
  map_Forall (fun k p => k = pid ∨ p_orderId p ≠ oid) (payments db) →
  livePayment db oid = Some (pid, p_providerIntentId row).
Proof.
  intros Hp Ho Hl Hm. unfold livePayment, livePayments.
  destruct (filter _ (map_to_list (payments db))) as [|[k p] l] eqn:E.
  - assert ((pid, row) ∈ []) as Hin; [|set_solver]. rewrite <-E. by apply list_elem_of_filter; rewrite elem_of_map_to_list.
  - assert ((k, p) ∈ (k, p) :: l) as Hin by set_solver. rewrite <-E in Hin.
    apply list_elem_of_filter in Hin as [[Ho' _] Hin%elem_of_map_to_list].
    destruct (Hm k p Hin) as [->|?]; [|done]. cbn. by assert (p = row) as -> by congruence.
Qed.

Lemma insertPayment_run pid row s :
  int4 (p_amountMinor row) && int4 (default 0 (p_cashTenderedMinor row)) = true → 0 < p_amountMinor row →
  is_Some (orders (tx_db s) !! p_orderId row) → payments (tx_db s) !! pid = None →
  map_Forall (fun _ p => p_orderId p ≠ p_orderId row) (payments (tx_db s)) →
  map_Forall (fun _ p => ∀ k, p_idempotencyKey row = Some k → p_idempotencyKey p ≠ Some k) (payments (tx_db s)) →
  map_Forall (fun _ p => ∀ i, p_providerIntentId row = Some i → p_providerIntentId p ≠ Some i) (payments (tx_db s)) →
  insertPayment pid row s = Ok (pid, mkTx (with_payments (<[pid := row]> (payments (tx_db s))) (tx_db s)) (tx_pending s)).
Proof.
  intros Ha Hpos [o Ho] Hp Hord Hkey Hint.
  assert (intentTaken (tx_db s) row = false) as Hi.
  { unfold intentTaken. destruct (p_providerIntentId row) as [i|]; [|done]. apply bool_decide_eq_false.
    intros (k & p & Hk & Hi). by apply (Hint k p Hk i). }
  assert (keyTaken (tx_db s) row = false) as Hk.
  { unfold keyTaken. destruct (p_idempotencyKey row) as [i|]; [|done]. apply bool_decide_eq_false.
    intros (k & p & Hk & Hi'). by apply (Hkey k p Hk i). }
  assert (liveTaken (tx_db s) row = false) as Hl.
  { unfold liveTaken. apply andb_false_iff. right. apply bool_decide_eq_false. intros (k & p & Hk' & Hi' & _).
    by apply (Hord k p Hk'). }
  unfold insertPayment, mbind, txM_bind, reads. unfold Datatypes.id in *.
  rewrite Ha, (proj2 (Z.leb_gt _ _) Hpos), Hi, Hk, Hl, Hp, Ho. done.
Qed.

(** The transaction of a cash payment: the row, the order moved, the announcement. *)
Lemma cashWork_run userId pid oid tendered key now s o :
  let order := {| po_id := oid; po_total := o_totalMinor o; po_currency := o_currency o |} in
  orders (tx_db s) !! oid = Some o → o_status o = PENDING_PAYMENT → 0 < o_totalMinor o →
  int4 (o_totalMinor o) && int4 tendered = true →
  map_Forall (fun _ p => p_orderId p ≠ oid) (payments (tx_db s)) → payments (tx_db s) !! pid = None →
  map_Forall (fun _ p => p_idempotencyKey p ≠ Some key) (payments (tx_db s)) →
  ∃ view s', cashWork userId pid order tendered (Some key) now s = Ok (view, s') ∧
    pv_status view = PaySUCCEEDED ∧ tx_pending s' = tx_pending s ++ [order_paid oid (o_kioskDeviceId o)] ∧
    orders (tx_db s') = <[oid := moved PENDING_PAYMENT PAID o]> (orders (tx_db s)) ∧
    payments (tx_db s') = <[pid := cashRow order tendered (Some key) now]> (payments (tx_db s)).
Proof.
  intros order Ho Hst Hpos Hint Huo Hui Huk. unfold cashWork.
  erewrite bind_run.
  2:{ apply insertPayment_run; cbn; [done|done|by eexists|done|done| |done].
      eapply map_Forall_impl; [exact Huk|]. intros ? ? Hne k [= <-]. exact Hne. }
  erewrite bind_run.
  2:{ rewrite transitionOrder_eq. cbn [tx_db orders with_payments po_id order]. rewrite Ho, bool_decide_true by done.
      reflexivity. }
  erewrite bind_run by reflexivity. do 2 eexists. done.
Qed.

(** Work that succeeds is written under a fresh key, its answer stored and its events published. *)
Lemma write_run gw key hash oid now work db view s' :
  idempotencyKeys db !! key = None → work (mkTx (reserved key hash now db) []) = Ok (view, s') →
  run gw (write (Some (key, hash)) oid now work) db =
    (with_idempotencyKeys (alter (fun row => {| ik_requestHash := ik_requestHash row; ik_responseStatus := Some 201;
       ik_responseBody := Some (PaymentBody (redacted view)); ik_expiresAt := ik_expiresAt row |}) key
       (idempotencyKeys (tx_db s'))) (tx_db s'),
     match tx_pending s' with [] => [] | events => [Published events] end, Ok (PaymentBody view, false)).
Proof.
  intros Hk Hw. unfold write. rewrite run_after, run_afterCommit. unfold writeWork.
  rewrite (bind_run _ _ _ _ _ (reserve_run _ _ _ _ Hk)), (bind_run _ _ _ _ _ Hw).
  erewrite bind_run by reflexivity. unfold mret, txM_ret. cbn [tx_db tx_pending]. by destruct (tx_pending s').
Qed.

Section paying.
Context (sha256 : string → string).

(** A payment request for an order that awaits one gets as far as taking the money. *)
Lemma pay_reaches gw principal oid input key pid now db o :
  orders db !! oid = Some o → o_status o = PENDING_PAYMENT → ownOrder principal o = true → unpaid oid pid key db →
  let order := {| po_id := oid; po_total := o_totalMinor o; po_currency := o_currency o |} in
  let keyed := Some (key, hashRequest sha256 (paymentScope principal oid) (paymentObject input)) in
  run gw (createPayment sha256 principal oid input (Some key) pid now) db =
  run gw (if bool_decide (cp_method input = CASH) then takeCash principal order input keyed pid now
          else openGatewayPayment order keyed pid now) db.
Proof.
  intros Ho Hst Hown [Huo _ _ Hus]. unfold createPayment. cbn [fmap option_fmap option_map].
  unfold Read. cbn [run fst snd].
  assert (completedResponseFor db key = None) as -> by (unfold completedResponseFor; by rewrite Hus).
  unfold payFor, loadPayableOrder, Read. cbn [run fst snd]. unfold findOrder. rewrite Ho, Hown. cbn [negb].
  rewrite Hst, bool_decide_false by done. rewrite bool_decide_true by done. cbn [negb run fst snd].
  by rewrite livePayment_none.
Qed.

(** An order that awaits payment is paid with enough cash. *)
Lemma payCash_run gw userId role oid tendered key pid now db o :
  orders db !! oid = Some o → o_status o = PENDING_PAYMENT → 0 < o_totalMinor o ≤ tendered →
  int4 (o_totalMinor o) && int4 tendered = true → unpaid oid pid key db →
  ∃ db' view, run gw (createPayment sha256 (StaffPrincipal userId role) oid
      {| cp_method := CASH; cp_cashTenderedMinor := Some tendered |} (Some key) pid now) db =
      (db', [Published [order_paid oid (o_kioskDeviceId o)]; PaymentsMetric CASH_DRAWER PaySUCCEEDED],
       Ok (PaymentBody view, false)) ∧
    pv_status view = PaySUCCEEDED ∧
    orders db' = <[oid := moved PENDING_PAYMENT PAID o]> (orders db) ∧
    payments db' = <[pid := cashRow {| po_id := oid; po_total := o_totalMinor o; po_currency := o_currency o |}
      tendered (Some key) now]> (payments db).
Proof.
  intros Ho Hst [Hpos Hle] Hint Hun. pose proof Hun as [Huo Hui Huk _]. rewrite (pay_reaches gw _ _ _ _ _ _ _ o) by done.
  rewrite bool_decide_true by done. unfold takeCash. cbn [cp_cashTenderedMinor po_total po_id fmap option_fmap option_map fst].
  rewrite (proj2 (Z.ltb_ge _ _) Hle), run_after. set (hash := hashRequest _ _ _).
  destruct (cashWork_run userId pid oid tendered key now (mkTx (reserved key hash now db) []) o)
    as (view & s' & Hw & Hv & Hpend & Hord & Hpay); [done..|].
  rewrite (write_run gw key hash oid now _ db view s' (un_stored _ _ _ _ Hun) Hw), Hpend. eexists _, view. split; [reflexivity|]. done.
Qed.

(** ** Paying by card *)

(** A tablet's order that awaits payment gets its intent, and the payment is in flight. *)
Lemma payCard_run (gw : Gateway) deviceId oid key pid now db o intent :
  orders db !! oid = Some o → o_status o = PENDING_PAYMENT → o_kioskDeviceId o = Some deviceId →
  0 < o_totalMinor o → int4 (o_totalMinor o) = true → unpaid oid pid key db →
  gw (createIntent (o_totalMinor o) (o_currency o) (Some key) oid) = Ok intent →
  map_Forall (fun _ p => p_providerIntentId p ≠ Some (ci_intentId intent)) (payments db) →
  let row := intentRow {| po_id := oid; po_total := o_totalMinor o; po_currency := o_currency o |}
    (ci_intentId intent) (Some key) now in
  ∃ db' view, run gw (createPayment sha256 (DevicePrincipal deviceId) oid
      {| cp_method := CARD; cp_cashTenderedMinor := None |} (Some key) pid now) db = (db', [], Ok (PaymentBody view, false)) ∧
    orders db' = orders db ∧ payments db' = <[pid := row]> (payments db).
Proof.
  intros Ho Hst Hdev Hpos Hint Hun Hgw Hnew row. pose proof Hun as [Huo Hui Huk _].
  assert (ownOrder (DevicePrincipal deviceId) o = true) as Hown by (cbn; by rewrite bool_decide_true).
  rewrite (pay_reaches gw _ _ _ _ _ _ _ o) by done.
  rewrite bool_decide_false by done. unfold openGatewayPayment. cbn [po_total po_currency po_id fmap option_fmap option_map fst run].
  rewrite Hgw. set (hash := hashRequest _ _ _).
  assert (∃ view, intentWork pid {| po_id := oid; po_total := o_totalMinor o; po_currency := o_currency o |} intent (Some key) now
    (mkTx (reserved key hash now db) []) =
    Ok (view, mkTx (with_payments (<[pid := row]> (payments db)) (reserved key hash now db)) [])) as [view Hw].
  { unfold intentWork. erewrite bind_run; [by eexists|]. apply insertPayment_run; cbn; [by rewrite Hint|done|by eexists|done|done| |].
    - eapply map_Forall_impl; [exact Huk|]. intros ? ? Hne k [= <-]. exact Hne.
    - eapply map_Forall_impl; [exact Hnew|]. intros ? ? Hne k [= <-]. exact Hne. }
  rewrite (write_run gw key hash oid now _ db view _ (un_stored _ _ _ _ Hun) Hw). eexists _, view. split; [reflexivity|]. done.
Qed.
End paying.
