(* ===== verification/LoadTest.v ===== *)
(** * LoadTest: [ops/load/cafepos.k6.js]

    The load test's two order scripts against the model of the server: a kiosk customer who orders,
    opens a card payment and walks away, and a counter sale that the bar takes to collection. The
    gate is that every check of the scripts passes and no answer is a 5xx; here that is proved
    from any books that satisfy the invariants, with the menu burst and the tokens' refresh that
    surround them. *)

From S2P Require Import MenuFresh Problems.
From S2P Require Import Prelude Text Schema Errors Program Gateway Pricing CreateOrder Idempotency OrderState Transition OrderDoors.
From S2P Require Import CreatePayment Webhooks Refunds Books Invariants Handlers System Replay Doors Ordering OrdersRead RateLimit Sessions Guards.
From S2P Require Import Fingerprint JsonText Bodies Catalog CatalogSafety Intake MenuService Routes OrdersQueryDto Scenario References Sale.
From Stdlib Require Import Ascii.

(** ** The gate *)

(** What the run has recorded: its checks in order, and the [server_errors] counter. *)
Record Gate := { g_db : Database; g_checks : list (string * bool); g_serverErrors : nat }.

(** The name of a check: what was asked for, and the answer it wants. *)
Definition checkName (what : string) (status : Z) : string := what +:+ " is " +:+ pretty status.

(** [expectStatus]: one check, and a 5xx counted. *)
Definition expectStatus (status expected : Z) (what : string) (g : Gate) : Gate * bool :=
  let ok := status =? expected in
  ({| g_db := g_db g; g_checks := g_checks g ++ [(checkName what expected, ok)];
      g_serverErrors := if 500 <=? status then S (g_serverErrors g) else g_serverErrors g |}, ok).

(** The thresholds on checks and server errors. *)
Definition passed (g : Gate) : bool := forallb snd (g_checks g) && bool_decide (g_serverErrors g = 0%nat).

Section server.
Context (gw : Gateway).

(** A request of a caller whose token was accepted: its route, the roles of the route, its handler. *)
Definition send {A} (verb : Verb) (principal : Principal) (path : list string) (handler : prog A) (db : Database)
    : Database * Z * option A :=
  match dispatch AppModule verb path with
  | None => (db, 404, None)
  | Some e =>
      match rolesGuard (ep_route e) (Some principal) with
      | Err x => (db, httpStatus x, None)
      | Ok _ =>
          match run gw handler db with
          | (db', _, Ok a) => (db', ep_status e, Some a)
          | (db', _, Err x) => (db', httpStatus x, None)
          end
      end
  end.

(** One request of a script, and its check. *)
Definition call {A} (verb : Verb) (principal : Principal) (path : list string) (handler : prog A)
    (expected : Z) (what : string) (g : Gate) : Gate * option A :=
  let '(db, status, answer) := send verb principal path handler (g_db g) in
  let '(g, ok) := expectStatus status expected what
    {| g_db := db; g_checks := g_checks g; g_serverErrors := g_serverErrors g |} in
  (g, if ok then answer else None).
End server.

(** ** Setting up *)

Section setup.
Context `{!Collation}.

Definition needsChoice (item : MenuEntry) : bool := existsb (fun group => 0 <? mg_minSelect group) (me_optionGroups item).

Fixpoint pickFrom (items : list MenuEntry) : option string :=
  match items with
  | [] => None
  | item :: items => if me_isAvailable item && negb (needsChoice item) then Some (me_id item) else pickFrom items
  end.

(** [pickItem]: the first available item of the menu with no required options. *)
Fixpoint pickItem (categories : list MenuCategory) : option string :=
  match categories with
  | [] => None
  | category :: categories =>
      match pickFrom (mc_items category) with Some id => Some id | None => pickItem categories end
  end.

(** [basket]: one of the item, plain. *)
Definition basket (itemId : string) (channel : OrderChannel) : CreateOrderInput := {|
  in_channel := channel;
  in_items := [{| ri_menuItemId := itemId; ri_quantity := 1; ri_optionIds := []; ri_notes := None |}];
  in_customerName := None; in_expectedTotalMinor := None; in_draft := None |}.
End setup.

(** The header of [withKey]. *)
Definition loadKey (vu iter now : Z) : string := "load-" +:+ pretty vu +:+ "-" +:+ pretty iter +:+ "-" +:+ pretty now.

(** ** The scripts *)

(** What an iteration draws: the keys it sends, and the ids and the time the server takes. *)
Record Iteration := {
  it_orderKey : string; it_paymentKey : string; it_ids : NewIds; it_paymentId : string; it_now : Z }.

Section scripts.
Context (gw : Gateway) (config : Config) (tzOffset : string → Z → Z) (sha256 : string → string).

Definition placeOrder (principal : Principal) (channel : OrderChannel) (itemId what : string) (it : Iteration) (g : Gate)
    : Gate * option (ResponseBody * list (string * string)) :=
  call gw Post principal ["orders"] (ordersCreate config tzOffset sha256 principal (basket itemId channel)
    (Some (it_orderKey it)) (it_now it) (it_ids it)) 201 what g.

Definition openPayment (principal : Principal) (orderId : string) (input : CreatePaymentInput) (what : string)
    (it : Iteration) (g : Gate) : Gate * option (ResponseBody * list (string * string)) :=
  call gw Post principal ["orders"; orderId; "payments"] (paymentsCreate sha256 principal orderId input
    (Some (it_paymentKey it)) (it_paymentId it) (it_now it)) 201 what g.

(** The loop over the bar's moves; a refused one ends the iteration. *)
Fixpoint barMoves (barista : Principal) (orderId : string) (moves : list OrderStatus) (g : Gate) : Gate :=
  match moves with
  | [] => g
  | to :: moves =>
      match call gw Post barista ["orders"; orderId; "status"] (transition barista orderId to) 200
              ("move to " +:+ orderStatusText to) g with
      | (g, Some _) => barMoves barista orderId moves g
      | (g, None) => g
      end
  end.

(** [counterOrder]. *)
Definition counterOrder (cashier barista : Principal) (itemId : string) (it : Iteration) (g : Gate) : Gate :=
  match placeOrder cashier COUNTER itemId "counter order" it g with
  | (g, Some (OrderBody order, _)) =>
      match openPayment cashier (v_id order) {| cp_method := CASH; cp_cashTenderedMinor := Some (v_totalMinor order) |}
              "cash payment" it g with
      | (g, Some _) => barMoves barista (v_id order) [IN_PREPARATION; READY; COMPLETED] g
      | (g, None) => g
      end
  | (g, _) => g
  end.

(** [kioskOrder]: the menu, the order, a card payment, and the customer walks away. *)
Definition kioskOrder `{!Collation} (kiosk : Principal) (itemId : string) (it : Iteration) (g : Gate) : Gate :=
  let '(g, _) := call gw Get kiosk ["menu"] (Read buildMenu Return) 200 "kiosk menu" g in
  match placeOrder kiosk KIOSK itemId "kiosk order" it g with
  | (g, Some (OrderBody order, _)) =>
      let '(g, _) := openPayment kiosk (v_id order) {| cp_method := CARD; cp_cashTenderedMinor := None |} "kiosk payment" it g in
      (call gw Post kiosk ["orders"; v_id order; "cancel"]
         (cancel kiosk (v_id order) (Some "Load test: customer walked away")) 200 "kiosk cancel" g).1
  | (g, _) => g
  end.
End scripts.

(** ** What was picked can be sold *)

Section picked.
Context `{!Collation}.

Lemma pickFrom_Some items id : pickFrom items = Some id →
  ∃ item, item ∈ items ∧ me_id item = id ∧ me_isAvailable item = true ∧ needsChoice item = false.
Proof.
  induction items as [|item items IH]; cbn; [done|]. destruct (me_isAvailable item && negb (needsChoice item)) eqn:E.
  - intros [= <-]. apply andb_true_iff in E as [? ?%negb_true_iff]. exists item. split_and!; [set_solver|done..].
  - intros (i & ? & ?)%IH. exists i. split; [set_solver|done].
Qed.

Lemma pickItem_Some menu id : pickItem (menu_categories menu) = Some id →
  ∃ item, item ∈ entries menu ∧ me_id item = id ∧ me_isAvailable item = true ∧ needsChoice item = false.
Proof.
  unfold entries. induction (menu_categories menu) as [|c cs IH]; cbn; [done|].
  destruct (pickFrom (mc_items c)) as [i|] eqn:E.
  - intros [= <-]. apply pickFrom_Some in E as (item & ? & ?). exists item. by rewrite elem_of_app; auto.
  - intros (item & ? & ?)%IH. exists item. rewrite elem_of_app. auto.
Qed.

(** A plain line of an item with no required options passes its selection checks. *)
Lemma plain_selection item line : ri_optionIds line = [] →
  Forall (fun g => cg_minSelect g ≤ 0 ≤ cg_maxSelect g) (ci_optionGroups item) → PricingSpec.selection_ok item line.
Proof.
  intros E Hg. unfold PricingSpec.selection_ok, PricingSpec.selectedCount, PricingSpec.selection. rewrite E.
  split_and!; [constructor|constructor|exact Hg].
Qed.

Lemma picked_groups db id row cat : CatalogOk db → menuItems db !! id = Some row → categories db !! mi_categoryId row = Some cat →
  needsChoice (menuEntry db (id, row)) = false → Forall (fun g => cg_minSelect g ≤ 0 ≤ cg_maxSelect g) (readGroups db id).
Proof.
  intros HC Hi Hc Hn. unfold needsChoice in Hn. cbn in Hn.
  assert (Forall (fun g => (0 <? mg_minSelect g) = false) (menuGroups db id)) as Hm.
  { apply Forall_forall. intros g Hg. destruct (0 <? mg_minSelect g) eqn:E; [|done].
    assert (existsb (fun g => 0 <? mg_minSelect g) (menuGroups db id) = true); [|congruence].
    apply existsb_exists. exists g. by rewrite <-list_elem_of_In. }
  pose proof (sameOffer_groups db id) as Hs.
  assert (Forall (fun g => 0 ≤ cg_minSelect g ≤ cg_maxSelect g) (readGroups db id)) as Hb.
  { apply Forall_forall. intros g (link & _ & Hg)%list_elem_of_omap.
    destruct (optionGroups db !! lk_optionGroupId link) as [og|] eqn:Eg; [|done]. injection Hg as <-. cbn. by apply (ok_groups _ HC _ _ Eg). }
  clear Hn. induction Hs as [|g m gs ms (_ & _ & Hmin & _) _ IH]; [constructor|].
  apply Forall_cons in Hm as [Hm1 Hm], Hb as [Hb1 Hb]. apply Z.ltb_ge in Hm1. constructor; [|auto]. lia.
Qed.

(** What one of an item costs. *)
Definition plainOrder (id name : string) (price vat : Z) : PricedOrder :=
  {| po_lines := [{| pl_menuItemId := id; pl_nameSnapshot := name; pl_unitPriceMinorSnapshot := price; pl_quantity := 1;
       pl_lineTotalMinor := price; pl_notes := None; pl_options := [] |}];
     po_subtotalMinor := price; po_vatMinor := extractVat price vat; po_totalMinor := price |}.

Lemma plain_prices item vat channel :
  ci_isAvailable item = true → 0 ≤ ci_basePriceMinor item →
  Forall (fun g => cg_minSelect g ≤ 0 ≤ cg_maxSelect g) (ci_optionGroups item) →
  priceOrder (in_items (basket (ci_id item) channel)) {[ci_id item := item]} vat =
    Ok (plainOrder (ci_id item) (ci_name item) (ci_basePriceMinor item) vat).
Proof.
  intros Ha Hp Hg. rewrite priceOrder_unfold. cbn [in_items basket].
  rewrite (proj2 (basketViolations_nil _ _)).
  - cbn. unfold resolveLine. cbn. rewrite lookup_singleton_eq. cbn. unfold unavailableItem. cbn. rewrite Ha. cbn. unfold plainOrder.
    rewrite Z.add_0_r, Z.max_r, Z.mul_1_r by done. by rewrite Z.add_0_r.
  - intros line it ->%list_elem_of_singleton Hi. cbn in Hi. rewrite lookup_singleton_eq in Hi. injection Hi as <-.
    by apply plain_selection.
Qed.

(** The item [pickItem] chose sells: a basket of one prices, at the item's own price. *)
Lemma picked_prices db id vat channel : CatalogOk db → pickItem (menu_categories (buildMenu db)) = Some id →
  ∃ row, menuItems db !! id = Some row ∧
    priceOrder (in_items (basket id channel)) (readCatalog db [id]) vat = Ok (plainOrder id (mi_name row) (mi_basePriceMinor row) vat).
Proof.
  intros HC (item & (i & row & cat & Hi & Hc & Ha & ->)%elem_of_entries & <- & Hav & Hn)%pickItem_Some. cbn in *.
  destruct (ok_items _ HC _ _ Hi) as [Hpos _]. exists row. split; [done|].
  pose proof (picked_groups db i row cat HC Hi Hc Hn) as Hg. unfold readCatalog, readItem. cbn. rewrite Hi. cbn. rewrite Hc. cbn.
  set (it := {| ci_id := i |}). apply (plain_prices it vat channel); [|done..]. cbn. by rewrite Hav, Ha.
Qed.

(** Nothing an amount of that order has to fit in overflows. *)
Lemma plain_fits id name price vat : 0 ≤ price ≤ 1000000 → 0 ≤ vat → fits (plainOrder id name price vat).
Proof.
  intros Hp Hv. pose proof (extractVat_bounds price vat ltac:(lia) Hv). split; cbn.
  - done.
  - unfold int4. lia.
  - repeat constructor; cbn; unfold int4; lia.
Qed.
End picked.

(** ** The scripts pass *)

Section passing.
Context `{port : PaymentPort} `{!Collation}.
Context (gw : Gateway) (config : Config) (tzOffset : string → Z → Z) (sha256 : string → string).

(** The ids an iteration draws are new, and its keys are well formed, distinct and unused. *)
Record unused (it : Iteration) (db : Database) : Prop := {
  fr_order : orders db !! ni_order (it_ids it) = None;
  fr_line : ni_line (it_ids it) 0 ∉ (orderItems db).*1;
  fr_payment : payments db !! it_paymentId it = None;
  fr_keys : it_orderKey it ≠ it_paymentKey it;
  fr_wellFormed : Forall (fun key => parseIdempotencyKey (Some key) = Ok (Some key)) [it_orderKey it; it_paymentKey it];
  fr_orderKey : idempotencyKeys db !! it_orderKey it = None;
  fr_paymentKey : idempotencyKeys db !! it_paymentKey it = None;
  fr_paymentUnused : map_Forall (fun _ p => p_idempotencyKey p ≠ Some (it_paymentKey it)) (payments db) }.

(** A shop the scripts can run against: sound books and catalog, and an item to buy that costs something. *)
Record openShop (itemId : string) (db : Database) : Prop := {
  os_books : Inv db;
  os_lines : NoDup (orderItems db).*1;
  os_catalog : CatalogOk db;
  os_amounts : menuWithin db;
  os_rate : 0 ≤ VAT_BASIS_POINTS config;
  os_item : pickItem (menu_categories (buildMenu db)) = Some itemId;
  os_price : ∀ row, menuItems db !! itemId = Some row → 0 < mi_basePriceMinor row }.

(** A request that its route lets in and its handler answers passes its check. *)
Lemma call_run {A} verb principal path (handler : prog A) expected what g e db' log a :
  dispatch AppModule verb path = Some e → rolesGuard (ep_route e) (Some principal) = Ok true → ep_status e = expected →
  expected < 500 → run gw handler (g_db g) = (db', log, Ok a) →
  call gw verb principal path handler expected what g =
    ({| g_db := db'; g_checks := g_checks g ++ [(checkName what expected, true)]; g_serverErrors := g_serverErrors g |}, Some a).
Proof.
  intros He Hr <- Hlt Hrun. unfold call, send. rewrite He, Hr, Hrun. unfold expectStatus. cbn.
  rewrite Z.eqb_refl. by destruct (Z.leb_spec 500 (ep_status e)); [lia|].
Qed.

(** The order is created, and every payment is as it was. *)
Lemma placeOrder_run principal channel itemId what it g :
  openShop itemId (g_db g) → unused it (g_db g) → mayPlace principal (basket itemId channel) (g_db g) →
  principalRole principal ∈ ["ADMIN"; "MANAGER"; "CASHIER"; "KIOSK"] →
  ∃ db' order row, placeOrder gw config tzOffset sha256 principal channel itemId what it g =
      ({| g_db := db'; g_checks := g_checks g ++ [(checkName what 201, true)]; g_serverErrors := g_serverErrors g |}, Some (OrderBody order, [])) ∧
    v_id order = ni_order (it_ids it) ∧ v_totalMinor order = o_totalMinor row ∧
    orders db' = <[ni_order (it_ids it) := row]> (orders (g_db g)) ∧ payments db' = payments (g_db g) ∧
    o_status row = PENDING_PAYMENT ∧ 0 < o_totalMinor row ≤ 1000000 ∧
    o_kioskDeviceId row = match principal with DevicePrincipal d => Some d | _ => None end ∧ o_currency row = CURRENCY config ∧
    unpaid (ni_order (it_ids it)) (it_paymentId it) (it_paymentKey it) db'.
Proof.
  intros [HI HL HC HW HV Hpick Hprice] [Fo Fl Fp Fk [Kw _]%Forall_cons Fok Fpk Fpu] Hmay Hrole.
  destruct (picked_prices (g_db g) itemId (VAT_BASIS_POINTS config) channel HC Hpick) as (item & Hitem & Hpriced).
  pose proof (Hprice _ Hitem). destruct (mw_items _ HW _ _ Hitem) as [_ Hle].
  destruct (create_run config tzOffset sha256 gw principal (basket itemId channel) (it_orderKey it) (it_now it) (it_ids it) (g_db g) _
    HI Hmay eq_refl Hpriced) as (db' & Hrun & Ho & Hp & Hkeys).
  - apply plain_fits; [lia|done].
  - done.
  - done.
  - cbn. apply NoDup_app. split_and!; [done|set_solver|apply NoDup_singleton].
  - done.
  - set (row := newRow _ _ _ _ _ _ _ _) in *. set (order := toView _ row _) in *. exists db', order, row.
    split; [|split_and!; try done; cbn in *; try lia].
    + unfold placeOrder. erewrite call_run; [reflexivity|reflexivity| |reflexivity|done|].
      * unfold rolesGuard. cbn. by rewrite bool_decide_true.
      * unfold ordersCreate. rewrite Kw. unfold mbind, prog_bind. rewrite run_after, Hrun. reflexivity.
    + split; rewrite ?Hp; [|done|done|by rewrite Hkeys].
      intros pid p Hpid Heq. destruct (pay_order _ _ _ (inv_money _ (inv_core _ HI)) _ _ Hpid) as (o & Hoo & _). rewrite Heq in Hoo. congruence.
Qed.

(** Money taken in cash moves the order to PAID. *)
Lemma openPayment_cash userId role orderId tendered what it g o :
  orders (g_db g) !! orderId = Some o → o_status o = PENDING_PAYMENT → 0 < o_totalMinor o ≤ tendered →
  int4 (o_totalMinor o) && int4 tendered = true → unpaid orderId (it_paymentId it) (it_paymentKey it) (g_db g) →
  parseIdempotencyKey (Some (it_paymentKey it)) = Ok (Some (it_paymentKey it)) →
  roleText role ∈ ["ADMIN"; "MANAGER"; "CASHIER"; "KIOSK"] →
  ∃ db' body, openPayment gw sha256 (StaffPrincipal userId role) orderId
      {| cp_method := CASH; cp_cashTenderedMinor := Some tendered |} what it g =
      ({| g_db := db'; g_checks := g_checks g ++ [(checkName what 201, true)]; g_serverErrors := g_serverErrors g |}, Some (body, [])) ∧
    orders db' = <[orderId := moved PENDING_PAYMENT PAID o]> (orders (g_db g)) ∧
    payments db' = <[it_paymentId it := cashRow {| po_id := orderId; po_total := o_totalMinor o; po_currency := o_currency o |}
      tendered (Some (it_paymentKey it)) (it_now it)]> (payments (g_db g)).
Proof.
  intros Ho Hst Ht Hint Hun Kw Hrole.
  destruct (payCash_run sha256 gw userId role orderId tendered (it_paymentKey it) (it_paymentId it) (it_now it) (g_db g) o)
    as (db' & view & Hrun & _ & Hord & Hpay); [done..|]. exists db', (PaymentBody view). split; [|done].
  unfold openPayment. erewrite call_run; [reflexivity|reflexivity| |reflexivity|done|].
  - unfold rolesGuard. cbn. by rewrite bool_decide_true.
  - unfold paymentsCreate. rewrite Kw. unfold mbind, prog_bind. rewrite run_after, Hrun. reflexivity.
Qed.

(** Moves that the staff may make one after another are all made. *)
Lemma barMoves_run userId role orderId moves g o :
  orders (g_db g) !! orderId = Some o → roleText role ∈ ["ADMIN"; "MANAGER"; "CASHIER"; "BARISTA"] →
  (∀ i from to, (o_status o :: moves) !! i = Some from → moves !! i = Some to → isStaffTransition from to = true) →
  let g' := barMoves gw (StaffPrincipal userId role) orderId moves g in
  g_checks g' = g_checks g ++ ((fun to => (checkName ("move to " +:+ orderStatusText to) 200, true)) <$> moves) ∧
  g_serverErrors g' = g_serverErrors g ∧ payments (g_db g') = payments (g_db g) ∧
  ∃ o', orders (g_db g') !! orderId = Some o' ∧ o_status o' = default (o_status o) (last moves) ∧ o_totalMinor o' = o_totalMinor o.
Proof.
  revert g o. induction moves as [|to moves IH]; intros g o Ho Hrole Hm.
  { cbn. rewrite app_nil_r. split_and!; [done..|]. by exists o. }
  cbn [barMoves]. pose proof (Hm 0%nat _ _ eq_refl eq_refl) as Hto.
  erewrite call_run; [|reflexivity| |reflexivity|done|rewrite transition_outcome, Ho, Hto; reflexivity].
  2:{ unfold rolesGuard. cbn. by rewrite bool_decide_true. }
  set (g1 := {| g_db := moveOrder _ _ _ _ _ _ _ |}).
  destruct (IH g1 (moved (o_status o) to o)) as (Hc & Hs & Hp & o' & Ho' & Hst & Htot).
  - cbn. apply lookup_insert_eq.
  - done.
  - intros i from to' Hf Ht. by apply (Hm (S i)).
  - cbn zeta. rewrite Hc, Hs, Hp. cbn. split_and!; [by rewrite <-app_assoc|done|done|]. exists o'.
    split_and!; [done| |done]. rewrite Hst, last_cons. by destruct (last moves).
Qed.

(** C11. An iteration of the counter's script that runs alone passes the gate in an open shop: the
    books satisfy the order pipeline's invariant, with distinct line ids, and the catalog its own, the menu's amounts are
    within the bounds of the request schemas, the VAT rate is not negative, and the item the
    script picks, one on the menu with no option required, costs more than nothing; and the
    iteration's ids and its two idempotency keys are well formed and unused. Then the order is
    taken, paid for in cash and made, five checks out of five with no server error, and it ends
    COMPLETED with its total captured. (A free item would fail at the payment:
    [Findings.free_order_unpayable].) *)
Theorem counter_script_passes cashier barista itemId it g :
  openShop itemId (g_db g) → unused it (g_db g) →
  let g' := counterOrder gw config tzOffset sha256 (StaffPrincipal cashier CASHIER) (StaffPrincipal barista BARISTA) itemId it g in
  g_checks g' = g_checks g ++ [("counter order is 201", true); ("cash payment is 201", true);
    ("move to IN_PREPARATION is 200", true); ("move to READY is 200", true); ("move to COMPLETED is 200", true)] ∧
  g_serverErrors g' = g_serverErrors g ∧
  ∃ o p, orders (g_db g') !! ni_order (it_ids it) = Some o ∧ o_status o = COMPLETED ∧
    payments (g_db g') !! it_paymentId it = Some p ∧ p_orderId p = ni_order (it_ids it) ∧
    p_status p = PaySUCCEEDED ∧ p_amountMinor p = o_totalMinor o.
Proof.
  intros Hshop Hit. unfold counterOrder.
  destruct (placeOrder_run (StaffPrincipal cashier CASHIER) COUNTER itemId "counter order" it g)
    as (db1 & order & row & -> & -> & -> & Ho & Hp & Hst & Ht & _ & _ & Hun); [done..|set_solver|].
  pose proof (fr_wellFormed _ _ Hit) as [_ [Kw _]%Forall_cons]%Forall_cons.
  set (g1 := {| g_db := db1 |}).
  destruct (openPayment_cash cashier CASHIER (ni_order (it_ids it)) (o_totalMinor row) "cash payment" it g1 row)
    as (db2 & body & -> & Ho2 & Hp2); [cbn; rewrite Ho; apply lookup_insert_eq|done|lia|unfold int4; lia|done|done|set_solver|].
  set (g2 := {| g_db := db2 |}). cbn [g_db g1] in Ho2, Hp2.
  destruct (barMoves_run barista BARISTA (ni_order (it_ids it)) [IN_PREPARATION; READY; COMPLETED] g2 (moved PENDING_PAYMENT PAID row))
    as (Hc & Hs & Hpay & o & Ho' & Hst' & Htot).
  - cbn. rewrite Ho2. apply lookup_insert_eq.
  - set_solver.
  - intros [|[|[|i]]] from to; cbn; intros; by simplify_eq.
  - cbn zeta. rewrite Hc, Hs. split; [cbn; by rewrite <-!app_assoc|]. split; [done|]. exists o. eexists.
    split; [exact Ho'|]. split; [done|]. split; [rewrite Hpay; cbn; rewrite Hp2; apply lookup_insert_eq|]. by rewrite Htot.
Qed.

(** The gateway as the test has it, [stripe-mock] or test mode: it opens the intent, and lets go of it. *)
Record testGateway (it : Iteration) (intent : CreatedIntent) (db : Database) : Prop := {
  tg_opens : ∀ amount, gw (createIntent amount (CURRENCY config) (Some (it_paymentKey it)) (ni_order (it_ids it))) = Ok intent;
  tg_new : map_Forall (fun _ p => p_providerIntentId p ≠ Some (ci_intentId intent)) (payments db);
  tg_cancels : gw (cancelIntent (ci_intentId intent)) = Ok IntentCANCELLED }.

(** The card payment is opened and in flight. *)
Lemma openPayment_card deviceId orderId what it g o intent :
  orders (g_db g) !! orderId = Some o → o_status o = PENDING_PAYMENT → o_kioskDeviceId o = Some deviceId →
  0 < o_totalMinor o ≤ 1000000 → unpaid orderId (it_paymentId it) (it_paymentKey it) (g_db g) →
  parseIdempotencyKey (Some (it_paymentKey it)) = Ok (Some (it_paymentKey it)) →
  gw (createIntent (o_totalMinor o) (o_currency o) (Some (it_paymentKey it)) orderId) = Ok intent →
  map_Forall (fun _ p => p_providerIntentId p ≠ Some (ci_intentId intent)) (payments (g_db g)) →
  ∃ db' body row, openPayment gw sha256 (DevicePrincipal deviceId) orderId
      {| cp_method := CARD; cp_cashTenderedMinor := None |} what it g =
      ({| g_db := db'; g_checks := g_checks g ++ [(checkName what 201, true)]; g_serverErrors := g_serverErrors g |}, Some (body, [])) ∧
    orders db' = orders (g_db g) ∧ payments db' = <[it_paymentId it := row]> (payments (g_db g)) ∧
    livePayment db' orderId = Some (it_paymentId it, Some (ci_intentId intent)).
Proof.
  intros Ho Hst Hdev Ht Hun Kw Hgw Hnew.
  destruct (payCard_run sha256 gw deviceId orderId (it_paymentKey it) (it_paymentId it) (it_now it) (g_db g) o intent)
    as (db' & view & Hrun & Hord & Hpay); [done|done|done|lia|unfold int4; lia|done..|].
  set (row := intentRow _ _ _ _) in Hpay. exists db', (PaymentBody view), row. split; [|split; [done|split; [exact Hpay|]]].
  - unfold openPayment. erewrite call_run; [reflexivity|reflexivity| |reflexivity|done|].
    + unfold rolesGuard. cbn. by rewrite bool_decide_true by set_solver.
    + unfold paymentsCreate. rewrite Kw. unfold mbind, prog_bind. rewrite run_after, Hrun. reflexivity.
  - assert (payments db' !! it_paymentId it = Some row) as Hnewrow by (rewrite Hpay; apply lookup_insert_eq).
    rewrite (livePayment_new _ _ _ _ Hnewrow); [done|done|done|]. rewrite Hpay.
    apply map_Forall_insert_2; [by left|]. eapply map_Forall_impl; [apply Hun|]. intros k p Hne. by right.
Qed.

(** A cancellation the gateway agrees to. *)
Lemma cancel_agreed principal orderId reason db o pid i :
  orders db !! orderId = Some o → ownOrder principal o = true → o_status o ∈ CANCELLABLE →
  livePayment db orderId = Some (pid, Some i) → gw (cancelIntent i) = Ok IntentCANCELLED →
  ∃ log, run gw (cancel principal orderId reason) db =
    (with_payments (alter (with_status PayCANCELLED) pid (payments db))
       (moveOrder orderId (o_status o) CANCELLED o (actorOf principal) reason db), log,
     Ok (orderId, moved (o_status o) CANCELLED o)).
Proof.
  intros Ho Hown Hst Hlive Hgw. unfold cancel, Read. cbn [run fst snd]. unfold ownStatus.
  rewrite Ho. cbn [mbind option_bind]. rewrite Hown, bool_decide_true by done. cbn [negb run fst snd].
  rewrite Hlive. cbn [run]. rewrite Hgw. eexists. by apply cancelMove_run.
Qed.

(** Every iteration of the kiosk's script passes the gate: four checks out of four with no server
    error, and the abandoned order ends CANCELLED with its payment CANCELLED beside it, so no
    intent of the run is left open. *)
Theorem kiosk_script_passes deviceId st itemId it intent g :
  openShop itemId (g_db g) → unused it (g_db g) → testGateway it intent (g_db g) →
  kioskDevices (g_db g) !! deviceId = Some st → st ≠ DevPAUSED →
  let g' := kioskOrder gw config tzOffset sha256 (DevicePrincipal deviceId) itemId it g in
  g_checks g' = g_checks g ++ [("kiosk menu is 200", true); ("kiosk order is 201", true);
    ("kiosk payment is 201", true); ("kiosk cancel is 200", true)] ∧
  g_serverErrors g' = g_serverErrors g ∧
  ∃ o p, orders (g_db g') !! ni_order (it_ids it) = Some o ∧ o_status o = CANCELLED ∧
    payments (g_db g') !! it_paymentId it = Some p ∧ p_status p = PayCANCELLED.
Proof.
  intros Hshop Hit [Gopen Gnew Gcancel] Hdev Hpaused. unfold kioskOrder.
  erewrite call_run; [|reflexivity| |reflexivity|done|reflexivity].
  2:{ unfold rolesGuard. cbn. by rewrite bool_decide_true by set_solver. }
  cbn [fst]. set (g0 := {| g_db := g_db g; g_checks := g_checks g ++ [(checkName "kiosk menu" 200, true)]; g_serverErrors := g_serverErrors g |}).
  destruct (placeOrder_run (DevicePrincipal deviceId) KIOSK itemId "kiosk order" it g0)
    as (db1 & order & row & -> & -> & _ & Ho & Hp & Hst & Ht & Hown & Hcur & Hun); [done|done|by split; eauto|set_solver|].
  pose proof (fr_wellFormed _ _ Hit) as [_ [Kw _]%Forall_cons]%Forall_cons.
  set (g1 := {| g_db := db1 |}).
  assert (orders db1 !! ni_order (it_ids it) = Some row) as Hrow by (rewrite Ho; apply lookup_insert_eq).
  destruct (openPayment_card deviceId (ni_order (it_ids it)) "kiosk payment" it g1 row intent)
    as (db2 & body & prow & -> & Ho2 & Hp2 & Hlive); [done|done|done|done|done|done|by rewrite Hcur|by cbn; rewrite Hp|].
  set (g2 := {| g_db := db2 |}). cbn [g_db g1] in Ho2, Hp2.
  destruct (cancel_agreed (DevicePrincipal deviceId) (ni_order (it_ids it)) (Some "Load test: customer walked away") db2 row
    (it_paymentId it) (ci_intentId intent)) as [log Hrun].
  { by rewrite Ho2. } { cbn. by rewrite bool_decide_true. } { rewrite Hst. set_solver. } { done. } { done. }
  erewrite call_run; [|reflexivity| |reflexivity|done|exact Hrun].
  2:{ unfold rolesGuard. cbn. by rewrite bool_decide_true by set_solver. }
  cbn. split; [by rewrite <-!app_assoc|]. split; [done|]. eexists _, _. rewrite lookup_insert_eq. split_and!; [done|done| |].
  - rewrite Hp2, lookup_alter_eq, lookup_insert_eq. reflexivity.
  - done.
Qed.
End passing.

(** ** The run *)

Definition KIOSKS : nat := 4.

(** [{ s: 1, m: 60, h: 3600 }]. *)
Definition unitSeconds (unit : ascii) : option Z :=
  if Ascii.eqb unit "s" then Some 1 else if Ascii.eqb unit "m" then Some 60
  else if Ascii.eqb unit "h" then Some 3600 else None.

(** Digits, then one unit, then the end. *)
Fixpoint scanDuration (s : string) (digits : option N) : option Z :=
  match s with
  | EmptyString => None
  | String c rest =>
      match digit_value c with
      | Some d => scanDuration rest (Some (10 * default 0 digits + d)%N)
      | None =>
          match digits, rest with
          | Some n, EmptyString => (fun k => Z.of_N n * k) <$> unitSeconds c
          | _, _ => None
          end
      end
  end.

(** [seconds]; [None] is [fail]. *)
Definition seconds (duration : string) : option Z := scanDuration duration None.

Inductive Executor :=
| arrivalRate (rate timeUnitSeconds preAllocatedVUs maxVUs : Z)
| constantVus (vus : Z).

Record LoadScenario := {
  sc_name : string; sc_executor : Executor; sc_exec : string; sc_durationSeconds : Z; sc_startSeconds : Z }.

(** [options.scenarios] of a run of so many seconds. *)
Definition scenarios (runSeconds : Z) : list LoadScenario := [
  {| sc_name := "kiosk_orders"; sc_executor := arrivalRate 12 60 (Z.of_nat KIOSKS) (Z.of_nat KIOSKS);
     sc_exec := "kioskOrder"; sc_durationSeconds := runSeconds; sc_startSeconds := 0 |};
  {| sc_name := "counter_orders"; sc_executor := arrivalRate 6 60 2 2;
     sc_exec := "counterOrder"; sc_durationSeconds := runSeconds; sc_startSeconds := 0 |};
  {| sc_name := "menu_burst"; sc_executor := arrivalRate 50 1 10 30; sc_exec := "readMenu";
     sc_durationSeconds := Z.min 30 (Z.max 10 (runSeconds / 3)); sc_startSeconds := runSeconds / 2 |};
  {| sc_name := "kds_screens"; sc_executor := constantVus 20; sc_exec := "kdsScreen";
     sc_durationSeconds := runSeconds; sc_startSeconds := 0 |}].

(** How many iterations an arrival rate starts in so many seconds. *)
Definition iterations (s : LoadScenario) (withinSeconds : Z) : Z :=
  match sc_executor s with
  | arrivalRate rate unit_ _ _ => rate * Z.min (sc_durationSeconds s) withinSeconds / unit_
  | constantVus vus => vus
  end.

(** The token [readMenu] takes: [__ITER % kioskTokens.length]. *)
Definition burstKiosk (kiosks iter : nat) : nat := iter mod kiosks.

(** The menu reads of the burst that fall to one kiosk. *)
Definition burstShare (runSeconds : Z) (kiosks kiosk : nat) : nat :=
  match scenarios runSeconds !! 2%nat with
  | Some burst => length (filter (fun iter => burstKiosk kiosks iter = kiosk) (seq 0 (Z.to_nat (iterations burst 60))))
  | None => 0
  end.

(** The requests of the kiosk script in a minute, all of them on one kiosk at worst. *)
Definition orderShare (runSeconds : Z) : nat :=
  match scenarios runSeconds !! 0%nat with
  | Some orders => (4 * Z.to_nat (iterations orders 60))%nat
  | None => 0
  end.

#[local] Arguments digit_value : simpl never.
#[local] Arguments unitSeconds : simpl never.

Lemma scanDuration_digits s u k : unitSeconds u = Some k → ∀ acc m, digits_acc s acc = Some m →
  scanDuration (s +:+ String u "") (Some acc) = Some (Z.of_N m * k).
Proof.
  intros Hu. assert (digit_value u = None) as Hn.
  { unfold unitSeconds in Hu. destruct (Ascii.eqb_spec u "s") as [->|]; [done|]. destruct (Ascii.eqb_spec u "m") as [->|]; [done|].
    destruct (Ascii.eqb_spec u "h") as [->|]; done. }
  induction s as [|c s IH]; intros acc m; cbn.
  - intros [= ->]. change ("" +:+ String u "") with (String u ""). cbn. by rewrite Hn, Hu.
  - change (String c s +:+ String u "") with (String c (s +:+ String u "")). cbn.
    destruct (digit_value c) as [d|]; [|done]. apply IH.
Qed.

(** A duration written with a unit reads back as its seconds. *)
Lemma seconds_pretty (n : N) u k : unitSeconds u = Some k → seconds (pretty n +:+ String u "") = Some (Z.of_N n * k).
Proof.
  intros Hu. pose proof (digits_acc_pretty n) as Hd. pose proof (scanDuration_digits (pretty n) u k Hu 0 n Hd) as Hs.
  unfold seconds. destruct (pretty n) as [|c s] eqn:E.
  - injection Hd as <-. done.
  - change (String c s +:+ String u "") with (String c (s +:+ String u "")) in *. cbn in *. by destruct (digit_value c).
Qed.

(** One kiosk in [k] gets no more than its share of [n] requests, and one. *)
Lemma share_bound n k j : (0 < k)%nat → (length (filter (fun i => (i mod k)%nat = j) (seq 0 n)) ≤ n / k + 1)%nat.
Proof.
  intros Hk. set (l := filter _ _). rewrite <-(length_fmap (fun i => i / k)%nat l), <-(length_seq (n / k + 1) 0).
  apply submseteq_length, NoDup_submseteq.
  - apply NoDup_fmap_2_strong; [|apply NoDup_filter, NoDup_seq].
    intros x y [Hx _]%list_elem_of_filter [Hy _]%list_elem_of_filter E.
    rewrite (Nat.div_mod_eq x k), (Nat.div_mod_eq y k). congruence.
  - intros q (i & -> & [_ [_ Hi]%elem_of_seq]%list_elem_of_filter)%list_elem_of_fmap. apply elem_of_seq.
    split; [lia|]. pose proof (Nat.Div0.div_le_mono i n k). lia.
Qed.

(** The burst's share: at most 50 a second for 30 seconds, over the kiosks there are. *)
Lemma burstShare_bound runSeconds kiosks kiosk : (KIOSKS ≤ kiosks)%nat → (burstShare runSeconds kiosks kiosk ≤ 376)%nat.
Proof.
  intros Hk. unfold burstShare, KIOSKS in *. cbn [scenarios lookup list_lookup].
  etransitivity; [apply share_bound; lia|]. set (n := Z.to_nat _).
  assert (n ≤ 1500)%nat as Hn.
  { unfold n, iterations. cbn [sc_executor sc_durationSeconds]. rewrite Z.div_1_r. lia. }
  assert (n / kiosks ≤ 375)%nat; [|lia]. pose proof (Nat.Div0.mul_div_le n kiosks). nia.
Qed.

Lemma orderShare_bound runSeconds : (orderShare runSeconds ≤ 48)%nat.
Proof.
  unfold orderShare. cbn [scenarios lookup list_lookup]. unfold iterations. cbn [sc_executor sc_durationSeconds].
  assert (12 * Z.min runSeconds 60 / 60 ≤ 12); [|lia]. apply Z.div_le_upper_bound; lia.
Qed.

(** Neither the burst nor the order traffic is refused: with the four kiosks of a run, whatever its
    length, what one of them sends within a minute of the burst stays under the 600 a minute its
    token is allowed, so every hit of the window is let through. *)
Theorem burst_not_refused runSeconds kiosks kiosk key t0 times redis :
  (KIOSKS ≤ kiosks)%nat →
  (S (length times) ≤ burstShare runSeconds kiosks kiosk + orderShare runSeconds)%nat →
  liveEntry t0 redis key = None → Forall (fun t => t0 ≤ t ≤ t0 + rl_ttl staffGeneral) times →
  Forall (fun blocked => blocked = false)
    (hitAll key (rl_ttl staffGeneral) (rl_limit staffGeneral) (rl_blockDuration staffGeneral) (t0 :: times) redis).2.
Proof.
  intros Hk Hn Hnew Ht. rewrite throttle_admits_limit; [|done|done|done|done].
  pose proof (burstShare_bound runSeconds kiosks kiosk Hk). pose proof (orderShare_bound runSeconds).
  apply Forall_fmap, Forall_forall. intros i Hi%elem_of_seq. cbn [compose rl_limit staffGeneral]. unfold compose. cbn. lia.
Qed.

(** ** Sessions *)

Definition REFRESH_AFTER_MS : Z := 10 * 60 * 1000.

Record HeldSession := { hs_access : string; hs_refresh : string; hs_at : Z }.

Section tokens.
(** The sign-in and refresh routes: a pair of tokens, or an answer that is not a 200. *)
Context (login refresh : string → option (string * string)).

(** [staffToken]; without a token the iteration has failed. *)
Definition staffToken (email : string) (now : Z) (sessions : gmap string HeldSession)
    : gmap string HeldSession * option string :=
  let hold (pair : option (string * string)) :=
    match pair with
    | Some (access, refresh) =>
        (<[email := {| hs_access := access; hs_refresh := refresh; hs_at := now |}]> sessions, Some access)
    | None => (sessions, None)
    end in
  match sessions !! email with
  | None => hold (login email)
  | Some session =>
      if REFRESH_AFTER_MS <? now - hs_at session then hold (refresh (hs_refresh session))
      else (sessions, Some (hs_access session))
  end.

(** The token handed to a request is the one held, taken at most ten minutes ago: inside the
    fifteen an access token lives by default. *)
Theorem staffToken_fresh email now sessions sessions' token :
  staffToken email now sessions = (sessions', Some token) →
  ∃ h, sessions' !! email = Some h ∧ hs_access h = token ∧ now - hs_at h ≤ REFRESH_AFTER_MS ∧
    REFRESH_AFTER_MS < 15 * 60 * 1000.
Proof.
  unfold staffToken. intros H.
  assert (∀ pair, (match pair with
    | Some (access, refresh) =>
        (<[email := {| hs_access := access; hs_refresh := refresh; hs_at := now |}]> sessions, Some access)
    | None => (sessions, None)
    end) = (sessions', Some token) →
    ∃ h, sessions' !! email = Some h ∧ hs_access h = token ∧ now - hs_at h ≤ REFRESH_AFTER_MS ∧ REFRESH_AFTER_MS < 15 * 60 * 1000)
    as Hhold.
  { intros [[a r]|]; [|done]. intros [= <- <-]. eexists. rewrite lookup_insert_eq. split_and!; [done|done| |]; unfold REFRESH_AFTER_MS; cbn; lia. }
  destruct (sessions !! email) as [h|] eqn:E; [|eauto]. destruct (Z.ltb_spec REFRESH_AFTER_MS (now - hs_at h)); [eauto|].
  injection H as <- <-. exists h. unfold REFRESH_AFTER_MS in *. split_and!; [done|done|lia|lia].
Qed.
End tokens.

(** ** The kitchen screens *)

(** What a screen does on a packet. *)
Inductive ScreenAct :=
| SendText (text : string)
| CheckConnected (ok : bool)
| CloseSocket
| CountEvent.

(** The handler of [message]: Engine.IO's open packet is answered with the namespace connect, its ping
    with a pong. *)
Definition onPacket (token message : string) : list ScreenAct :=
  if startsWith "0" message then [SendText ("40/kds," +:+ print (JObj [("token", JStr token)]))]
  else if bool_decide (message = "2") then [SendText "3"]
  else if startsWith "40/kds" message then [CheckConnected true]
  else if startsWith "44/kds" message then [CheckConnected false; CloseSocket]
  else if startsWith "42/kds" message then [CountEvent]
  else [].

Lemma startsWith_app p s : startsWith p s = true → ∃ r, s = p +:+ r.
Proof.
  unfold startsWith. revert s. induction p as [|a p IH]; intros [|b s]; cbn; [by exists ""|by exists (String b s)|done|].
  destruct (ascii_dec a b) as [->|]; [|done]. intros [r ->]%IH. by exists r.
Qed.

(** A pong goes out for a ping and for nothing else, and only a refused handshake closes the socket. *)
Theorem screen_keeps_alive token message :
  (SendText "3" ∈ onPacket token message ↔ message = "2") ∧
  (CloseSocket ∈ onPacket token message ↔ startsWith "44/kds" message = true).
Proof.
  split.
  - split; [|intros ->; apply list_elem_of_here]. unfold onPacket. repeat case_match; rewrite ?elem_of_cons, ?elem_of_nil.
    all: intros; destruct_or!; try done. by eapply bool_decide_eq_true_1.
  - split; [|intros [r ->]%startsWith_app].
    2:{ assert (onPacket token ("44/kds" +:+ r) = [CheckConnected false; CloseSocket]) as ->; [by destruct r|set_solver]. }
    unfold onPacket. repeat case_match; rewrite ?elem_of_cons, ?elem_of_nil; intros; destruct_or?; done.
Qed.

(** ** An iteration of each, run *)

Module Peak.
#[local] Existing Instance Window.byBytes.

Definition it : Iteration := {| it_orderKey := loadKey 1 0 Shop.noon; it_paymentKey := loadKey 1 0 (Shop.noon + 1);
  it_ids := Shop.ids "o1"; it_paymentId := "p1"; it_now := Shop.noon |}.
Definition start : Gate := {| g_db := Shop.morning; g_checks := []; g_serverErrors := 0 |}.
Definition intent : CreatedIntent := {| ci_intentId := "pi_2"; ci_clientSecret := "secret" |}.

Lemma morning_open : openShop (port := stripePort) Shop.config "latte" Shop.morning.
Proof.
  split; [by apply opening_inv|constructor|apply Rush.morning_ok| |done|by vm_compute|].
  - split; apply map_Forall_singleton; cbn; lia.
  - intros row Hrow. cbn in Hrow. by injection Hrow as <-.
Qed.

Lemma it_unused : unused it Shop.morning.
Proof. split; try done; [set_solver|repeat constructor; by vm_compute]. Qed.

Lemma counter_script_passes_witness :
  let g := counterOrder Shop.gw Shop.config Shop.tzOffset Shop.sha256 (StaffPrincipal "u1" CASHIER) (StaffPrincipal "u2" BARISTA)
    "latte" it start in
  length (g_checks g) = 5%nat ∧ passed g = true ∧
  (∃ o p, orders (g_db g) !! "o1" = Some o ∧ o_status o = COMPLETED ∧ payments (g_db g) !! "p1" = Some p ∧
    p_orderId p = "o1" ∧ p_status p = PaySUCCEEDED ∧ p_amountMinor p = o_totalMinor o).
Proof.
  destruct (counter_script_passes (port := stripePort) Shop.gw Shop.config Shop.tzOffset Shop.sha256 "u1" "u2" "latte" it start
    morning_open it_unused) as (Hc & Hs & Ho).
  cbv zeta. unfold passed. rewrite Hc, Hs. split; [reflexivity|]. split; [reflexivity|exact Ho].
Defined.

Lemma kiosk_script_passes_witness :
  let g := kioskOrder Shop.gw Shop.config Shop.tzOffset Shop.sha256 (DevicePrincipal "k1") "latte" it start in
  length (g_checks g) = 4%nat ∧ passed g = true.
Proof.
  destruct (kiosk_script_passes (port := stripePort) Shop.gw Shop.config Shop.tzOffset Shop.sha256 "k1" DevACTIVE "latte" it intent start
    morning_open it_unused) as (Hc & Hs & _); [split; done|reflexivity|discriminate|].
  cbv zeta. unfold passed. rewrite Hc, Hs. split; reflexivity.
Defined.

(** Half an hour, four kiosks, and the burst on one of them. *)
Lemma burst_not_refused_witness :
  seconds "30m" = Some 1800 ∧ burstShare 1800 KIOSKS 0 = 375%nat ∧
  Forall (fun blocked => blocked = false)
    (hitAll "device:k1" 60000 600 60000 (0 :: replicate 422 30000) ∅).2.
Proof.
  split; [reflexivity|]. split; [vm_compute; reflexivity|].
  apply (burst_not_refused 1800 KIOSKS 0 "device:k1" 0 (replicate 422 30000) ∅).
  - done.
  - vm_compute. lia.
  - reflexivity.
  - apply Forall_replicate. unfold staffGeneral, minutes. cbn. lia.
Defined.

(** With a single kiosk's token the burst runs into the limit: what the script's comment warns of. *)
Example one_kiosk_refused : (600 < burstShare 1800 1 0)%nat.
Proof. vm_compute. lia. Qed.
End Peak.
